(** * MahjongKit: the partition engine and the win / score engine

    A shallow embedding of [Partition] and [WinWaitCal] of MahjongKit.py,
    and the properties of them that the specification states.

    Python integers are modelled as [Z] ([//] is [Z.div], [%] is [Z.modulo],
    both floor-based like Python's), Python lists of tiles as [list Z],
    lists of groups as [list (list Z)].  The insertion-ordered dictionaries
    that collect fu and han entries are association lists with Python's
    [d[k] = v] semantics (overwrite in place, append when new).

    The functions are first given on list values.  [Store] gives the
    same functions over a store of list objects, where [deepcopy], slices
    and [+] make new objects and [remove] and [sort] overwrite one; it is
    what the property on the lists of the caller is stated on, and it is
    shown to return what the functions on values return. *)

From Stdlib Require Import ZArith List Bool Lia Permutation.
From Stdlib Require DecimalString String.
From stdpp Require Import gmap.
Import ListNotations.
Import String.StringSyntax.
Delimit Scope string_scope with string.
Open Scope Z_scope.

(** ** Python list primitives *)

Module Py.

(** [x in l] *)
Definition mem (x : Z) (l : list Z) : bool := existsb (Z.eqb x) l.

(** [l.count(x)] *)
Definition count (x : Z) (l : list Z) : Z :=
  Z.of_nat (List.length (List.filter (Z.eqb x) l)).

(** [len(l)] *)
Definition len {A} (l : list A) : Z := Z.of_nat (List.length l).

(** [l[i]] for an index that exists.  Python raises IndexError out of
    range, where [nth] gives 0.  A function below takes the value of
    [idx l i] only behind a test on [len l] that makes the index exist;
    where the source reads an index without such a test - the called
    melds, the quads and the list of runs of [fu_calculation], the list of
    runs of [check_all_pons], the called melds and the groups read by the
    no-terminals and pure-colour shanten - the function tests the lengths
    first and raises IndexError, or returns no value. *)
Definition idx (l : list Z) (i : nat) : Z := nth i l 0.

(** [l.remove(x)]: drop the first occurrence.  Python raises ValueError
    when [x] is absent; every call site tests [x in l] first. *)
Fixpoint remove (x : Z) (l : list Z) : list Z :=
  match l with
  | [] => []
  | y :: r => if x =? y then r else y :: remove x r
  end.

(** Insertion of [x] into an ascending list, and the ascending list of
    the distinct values of [l].  Python leaves the iteration order of a
    [set] unspecified, and CPython iterates by hash: the tiles 27, 32, 33
    come as 32, 33, 27.  The ascending order computed here is one of the
    possible orders.  The order shows in the honor groups of a
    decomposition and in the pairs of a seven-pairs decomposition, so the
    properties of [partition] and [win_parse] are stated on permutations,
    counts and membership, and those of the scoring loop for the
    decompositions in any order. *)
Fixpoint insert_asc (x : Z) (l : list Z) : list Z :=
  match l with
  | [] => [x]
  | y :: r => if x <? y then x :: l
              else if x =? y then l
              else y :: insert_asc x r
  end.

(** [set(l)], iterated *)
Definition set (l : list Z) : list Z := fold_right insert_asc [] l.

(** [sorted(l)] / [l.sort()] on integers *)
Fixpoint insert_sorted (x : Z) (l : list Z) : list Z :=
  match l with
  | [] => [x]
  | y :: r => if x <=? y then x :: l else y :: insert_sorted x r
  end.

Definition sort (l : list Z) : list Z := fold_right insert_sorted [] l.

(** [[x] * n] *)
Definition rep (x : Z) (n : Z) : list Z := repeat x (Z.to_nat n).

(** [list(range(a, b))] *)
Definition range (a b : Z) : list Z :=
  map (fun i => a + Z.of_nat i) (seq 0 (Z.to_nat (b - a))).

(** [==] on lists, from [==] on their elements *)
Fixpoint eq_list {A} (eqb : A -> A -> bool) (a b : list A) : bool :=
  match a, b with
  | [], [] => true
  | x :: a', y :: b' => eqb x y && eq_list eqb a' b'
  | _, _ => false
  end.

Definition eq_tiles : list Z -> list Z -> bool := eq_list Z.eqb.
Definition eq_groups : list (list Z) -> list (list Z) -> bool := eq_list eq_tiles.

(** [g in gs] for a group among groups, [p in ps] for decompositions *)
Definition mem_group (g : list Z) (gs : list (list Z)) : bool :=
  existsb (eq_tiles g) gs.

Definition mem_groups (p : list (list Z)) (ps : list (list (list Z))) : bool :=
  existsb (eq_groups p) ps.

(** [l[a:b]] *)
Definition slice {A} (a b : nat) (l : list A) : list A := firstn (b - a) (skipn a l).

(** [sum(l)] *)
Definition sum (l : list Z) : Z := fold_right Z.add 0 l.

(** [max(l)] and [min(l)]; Python raises ValueError on the empty list *)
Definition max (l : list Z) : option Z :=
  match l with
  | [] => None
  | x :: r => Some (fold_left Z.max r x)
  end.

Definition min (l : list Z) : option Z :=
  match l with
  | [] => None
  | x :: r => Some (fold_left Z.min r x)
  end.

(** a Python [bool] used as an integer *)
Definition b2z (b : bool) : Z := if b then 1 else 0.

End Py.

(** ** Tile: the static classification tables *)

Module Tile.
Definition WINDS : list Z := [27; 28; 29; 30].
Definition THREES : list Z := [31; 32; 33].
Definition HONORS : list Z := [27; 28; 29; 30; 31; 32; 33].
Definition TERMINALS : list Z := [0; 8; 9; 17; 18; 26].
Definition ONENINE : list Z := [0; 8; 9; 17; 18; 26; 27; 28; 29; 30; 31; 32; 33].
Definition GREENS : list Z := [19; 20; 21; 23; 25; 32].
End Tile.

(** ** WinWaitCal.score_calculation_base *)

(** The description strings returned next to the score, kept as data:
    the limit-hand names with the payments they print, or the
    "fu / han / points" line of a hand below the limit. *)
Inductive limit_name := Mangan | Haneman | Baiman | Sanbaiman | Yakuman.

Inductive lose_desc :=
| NoDesc
| LimitAll (n : limit_name) (each : Z)
| LimitSplit (n : limit_name) (others dealer : Z)
| LimitRon (n : limit_name) (total : Z)
| FuHanAll (fu han each : Z)
| FuHanSplit (fu han xscore dscore : Z)
| FuHanRon (fu han score : Z).

Definition limit_hand (n : limit_name) (dealer_pts other_pts : Z)
           (is_dealer is_zimo : bool) : Z * lose_desc :=
if is_dealer
then (dealer_pts,
      if is_zimo then LimitAll n (dealer_pts / 3) else LimitRon n dealer_pts)
else (other_pts,
      if is_zimo then LimitSplit n (other_pts / 4) (other_pts / 2)
        else LimitRon n other_pts).

(** [2 ** (han + 2)] is an integer for [han >= -2]; the function is only
    reached with [han >= 1] by its callers. *)
Definition score_calculation_base (han fu : Z) (is_dealer is_zimo : bool)
: Z * lose_desc :=
if han =? 0 then (0, NoDesc)
else if han <? 5 then
  if ((fu >=? 40) && (han >=? 4)) || ((fu >=? 70) && (han >=? 3))
    then limit_hand Mangan 12000 8000 is_dealer is_zimo
    else
      let base_score := fu * 2 ^ (han + 2) in
    if is_zimo then
      if is_dealer then
          let each := ((base_score * 2 - 1) / 100 + 1) * 100 in
          (each * 3, FuHanAll fu han each)
        else
          let dscore := ((base_score * 2 - 1) / 100 + 1) * 100 in
          let xscore := ((base_score - 1) / 100 + 1) * 100 in
          (dscore + 2 * xscore, FuHanSplit fu han xscore dscore)
      else
        let score := if is_dealer
                     then ((base_score * 6 - 1) / 100 + 1) * 100
                     else ((base_score * 4 - 1) / 100 + 1) * 100 in
        (score, FuHanRon fu han score)
else if han =? 5 then limit_hand Mangan 12000 8000 is_dealer is_zimo
else if (6 <=? han) && (han <=? 7) then limit_hand Haneman 18000 12000 is_dealer is_zimo
else if (8 <=? han) && (han <=? 10) then limit_hand Baiman 24000 16000 is_dealer is_zimo
else if (11 <=? han) && (han <=? 12) then limit_hand Sanbaiman 36000 24000 is_dealer is_zimo
else limit_hand Yakuman 48000 32000 is_dealer is_zimo.


(** ** Partition: decomposition into groups, and the shanten family *)

Module Partition.

(** The last loop of [_partition_single_type]: keep, in order and once
    each, the decompositions that are not longer than [min_len]. *)
Definition tune (min_len : Z) (res : list (list (list Z))) : list (list (list Z)) :=
  fold_left
    (fun tuned_res p =>
       if (Py.len p <=? min_len) && negb (Py.mem_groups p tuned_res)
       then tuned_res ++ [p] else tuned_res)
    res [].

(** One recursive branch: when [cond] holds, recurse on [rest] and put
    [group] in front of every decomposition found. *)
Definition branch (rec : list Z -> option (list (list (list Z))))
           (cond : bool) (group rest : list Z) : option (list (list (list Z))) :=
  if cond then
    tmp_res ← rec rest;
    Some (map (cons group) tmp_res)
  else Some [].

(** The list [res] of [_partition_single_type]: the decompositions found
    by the six branches, in the order the source tries them; [rec] is the
    recursive call. *)
Definition candidates (rec : list Z -> option (list (list (list Z))))
           (tiles34 : list Z) : option (list (list (list Z))) :=
  let t0 := Py.idx tiles34 0 in
  let t1 := Py.idx tiles34 1 in
  let t2 := Py.idx tiles34 2 in
  (* parse a pon meld *)
  r_pon ← branch rec ((t0 =? t1) && (t1 =? t2))
            (Py.slice 0 3 tiles34) (skipn 3 tiles34);
  (* parse a chow meld *)
  r_chow ← branch rec (Py.mem (t0 + 1) tiles34 && Py.mem (t0 + 2) tiles34)
             [t0; t0 + 1; t0 + 2]
             (Py.remove (t0 + 2) (Py.remove (t0 + 1) (Py.remove t0 tiles34)));
  (* parse a two-headed half-finished meld *)
  r_two ← branch rec (Py.mem (t0 + 1) tiles34)
            [t0; t0 + 1]
            (Py.remove (t0 + 1) (Py.remove t0 tiles34));
  (* parse a dead half-finished meld *)
  r_dead ← branch rec (Py.mem (t0 + 2) tiles34)
             [t0; t0 + 2]
             (Py.remove (t0 + 2) (Py.remove t0 tiles34));
  (* parse a pair *)
  r_pair ← branch rec (t0 =? t1) (Py.slice 0 2 tiles34) (skipn 2 tiles34);
  (* the head tile alone *)
  r_single ← branch rec true (Py.slice 0 1 tiles34) (skipn 1 tiles34);
  Some (r_pon ++ r_chow ++ r_two ++ r_dead ++ r_pair ++ r_single).

(** the three base cases: [Some] result when one applies *)
Definition base_case (tiles34 : list Z) : option (list (list (list Z))) :=
  let len_t := Py.len tiles34 in
  if len_t =? 0 then Some [[]]
  else if (len_t =? 1)
          || ((len_t =? 2) && (Z.abs (Py.idx tiles34 0 - Py.idx tiles34 1) <? 3))
  then Some [[tiles34]]
  else if len_t =? 2 then Some [[Py.slice 0 1 tiles34; Py.slice 1 2 tiles34]]
  else None.

(** [_partition_single_type].  The recursion is on a strictly shorter list;
    [fuel] bounds its depth, and [None] stands for "no value": fuel
    exhausted, or the ValueError of [min] on an empty list. *)
Fixpoint _partition_single_type_rec (fuel : nat) (tiles34 : list Z)
  : option (list (list (list Z))) :=
  match base_case tiles34 with
  | Some r => Some r
  | None =>
    match fuel with
    | O => None
    | S fuel' =>
      res ← candidates (_partition_single_type_rec fuel') tiles34;
      min_len ← Py.min (map Py.len res);
      Some (tune min_len res)
    end
  end.

Definition _partition_single_type (tiles34 : list Z) : option (list (list (list Z))) :=
  _partition_single_type_rec (List.length tiles34) tiles34.

(** [[t for t in tiles34 if lo <= t < hi]] *)
Definition in_range (lo hi : Z) (tiles34 : list Z) : list Z :=
  List.filter (fun t => (lo <=? t) && (t <? hi)) tiles34.

(** [partition] *)
Definition partition (tiles34 : list Z) : option (list (list (list Z))) :=
  p_man ← _partition_single_type (in_range 0 9 tiles34);
  p_pin ← _partition_single_type (in_range 9 18 tiles34);
  p_suo ← _partition_single_type (in_range 18 27 tiles34);
  let h_chr := in_range 27 34 tiles34 in
  let p_chr := [map (fun chr_tile => Py.rep chr_tile (Py.count chr_tile h_chr))
                    (Py.set h_chr)] in
  Some (flat_map (fun pm =>
        flat_map (fun pp =>
        flat_map (fun ps =>
        map (fun pc => pm ++ pp ++ ps ++ pc) p_chr) p_suo) p_pin) p_man).

(** The six counters of a geometry vector and [geo_vec[set_type] += 1]. *)
Definition geo0 : list Z := [0; 0; 0; 0; 0; 0].

Definition incre (set_type : nat) (geo_vec : list Z) : list Z :=
  firstn set_type geo_vec ++ [nth set_type geo_vec 0 + 1] ++ skipn (S set_type) geo_vec.

(** [cond and incre(k)] as a statement *)
Definition and_incre (cond : bool) (k : nat) (geo_vec : list Z) : list Z :=
  if cond then incre k geo_vec else geo_vec.

Definition g (geo_vec : list Z) (i : nat) : Z := nth i geo_vec 0.

(** [abs(m[0] - m[1])] *)
Definition gap (m : list Z) : Z := Z.abs (Py.idx m 0 - Py.idx m 1).

(** [geo_vec_normal] of [_shantin_normal], one group at a time *)
Definition geo_step_normal (geo_vec : list Z) (m : list Z) : list Z :=
  let m0 := Py.idx m 0 in
  let m1 := Py.idx m 1 in
  let v1 := and_incre (Py.len m =? 1) 0 geo_vec in
  let v2 := and_incre ((Py.len m =? 2) && (gap m =? 0)) 3 v1 in
  let v3 := and_incre ((Py.len m =? 2) && (gap m =? 1))
                      (if (m0 mod 9 >? 0) && (m1 mod 9 <? 8) then 2%nat else 1%nat) v2 in
  let v4 := and_incre ((Py.len m =? 2) && (gap m =? 2)) 1 v3 in
  and_incre (Py.len m =? 3) (if m0 =? m1 then 5%nat else 4%nat) v4.

Definition geo_vec_normal (p : list (list Z)) : list Z :=
  fold_left geo_step_normal p geo0.

(** [shantin_n] of [_shantin_normal] *)
Definition shantin_n (called_meld_num : Z) (p : list (list Z)) : Z :=
  let geo_vec := geo_vec_normal p in
  let needed_set := (4 - called_meld_num) - g geo_vec 4 - g geo_vec 5 in
  if g geo_vec 3 >? 0 then
    if g geo_vec 1 + g geo_vec 2 + g geo_vec 3 - 1 >=? needed_set
    then needed_set - 1
    else 2 * needed_set - (g geo_vec 1 + g geo_vec 2 + g geo_vec 3 - 1) - 1
  else
    if g geo_vec 1 + g geo_vec 2 >=? needed_set
    then needed_set
    else 2 * needed_set - (g geo_vec 1 + g geo_vec 2).

Definition _shantin_normal (partitions : list (list (list Z))) (called_meld_num : Z)
  : option Z :=
  Py.min (map (shantin_n called_meld_num) partitions).

Definition shantin_normal (tiles34 : list Z) (called_melds : list (list Z)) : option Z :=
  partitions ← partition tiles34;
  _shantin_normal partitions (Py.len called_melds).

(** [_shantin_pinhu] *)
Definition geo_step_pinhu (bonus_chrs : list Z) (geo_vec : list Z) (m : list Z) : list Z :=
  let m0 := Py.idx m 0 in
  let m1 := Py.idx m 1 in
  let v1 := and_incre (Py.len m =? 1) 0 geo_vec in
  let v2 := and_incre ((Py.len m =? 2) && (gap m =? 0) && negb (Py.mem m0 bonus_chrs)) 3 v1 in
  let v3 := and_incre ((Py.len m =? 2) && (gap m =? 1))
                      (if (m0 mod 9 >? 0) && (m1 mod 9 <? 8) then 2%nat else 1%nat) v2 in
  let v4 := and_incre ((Py.len m =? 2) && (gap m =? 2)) 1 v3 in
  and_incre (Py.len m =? 3) (if m0 =? m1 then 5%nat else 4%nat) v4.

Definition geo_vec_pinhu (bonus_chrs : list Z) (p : list (list Z)) : list Z :=
  fold_left (geo_step_pinhu bonus_chrs) p geo0.

Definition shantin_ph (bonus_chrs : list Z) (p : list (list Z)) : Z :=
  let geo := geo_vec_pinhu bonus_chrs p in
  let need_chow := 4 - g geo 4 in
  if g geo 1 + g geo 2 >=? need_chow
  then Py.b2z (g geo 3 =? 0) + need_chow - 1 + Py.b2z (g geo 2 =? 0)
  else Py.b2z (g geo 3 =? 0) + need_chow - 1 + need_chow - g geo 1 - g geo 2.

Definition _shantin_pinhu (partitions : list (list (list Z))) (called_meld_num : Z)
           (bonus_chrs : list Z) : option Z :=
  if negb (called_meld_num =? 0) then Some 10
  else Py.min (map (shantin_ph bonus_chrs) partitions).

Definition shantin_no_triplets (tiles34 : list Z) (called_melds : list (list Z))
           (bonus_chrs : list Z) : option Z :=
  partitions ← partition tiles34;
  _shantin_pinhu partitions (Py.len called_melds) bonus_chrs.

(** [_shantin_no19] *)
Definition geo_step_no19 (geo_vec : list Z) (m : list Z) : list Z :=
  let m0 := Py.idx m 0 in
  let m1 := Py.idx m 1 in
  let m2 := Py.idx m 2 in
  let mid x := (0 <? x mod 9) && (x mod 9 <? 8) in
  if m0 >? 26 then geo_vec
  else
    let v1 := and_incre ((Py.len m =? 1) && mid m0) 0 geo_vec in
    let v2 := and_incre ((Py.len m =? 2) && (gap m =? 0) && mid m0) 3 v1 in
    let v3 := and_incre ((Py.len m =? 2) && (gap m =? 1)
                         && (m0 mod 9 >? 1) && (m1 mod 9 <? 7)) 2 v2 in
    let v4 := and_incre ((Py.len m =? 2) && (gap m =? 1)
                         && ((m0 mod 9 =? 1) || (m1 mod 9 =? 7))) 1 v3 in
    let v5 := and_incre ((Py.len m =? 2) && (gap m =? 2)
                         && (m0 mod 9 >? 0) && (m1 mod 9 <? 8)) 1 v4 in
    let v6 := and_incre ((Py.len m =? 3) && (m0 =? m1) && mid m0) 5 v5 in
    and_incre ((Py.len m =? 3) && negb (m0 =? m1))
              (if (m0 mod 9 >? 0) && (m2 mod 9 <? 8) then 4%nat else 1%nat) v6.

Definition geo_vec_no19 (p : list (list Z)) : list Z :=
  fold_left geo_step_no19 p geo0.

Definition shantin_no19 (called_melds : list (list Z)) (p : list (list Z)) : Z :=
  let geo_vec := geo_vec_no19 p in
  let needed_set := (4 - Py.len called_melds) - g geo_vec 4 - g geo_vec 5 in
  if g geo_vec 3 >? 0 then
    if g geo_vec 1 + g geo_vec 2 + g geo_vec 3 - 1 >=? needed_set
    then needed_set - 1
    else
      let need_single := needed_set - (g geo_vec 1 + g geo_vec 2 + g geo_vec 3 - 1) in
      if g geo_vec 0 >=? need_single
      then 2 * needed_set - (g geo_vec 1 + g geo_vec 2 + g geo_vec 3 - 1) - 1
      else 2 * needed_set - (g geo_vec 1 + g geo_vec 2 + g geo_vec 3 - 1) - 1
           + need_single - g geo_vec 0
  else
    if g geo_vec 1 + g geo_vec 2 >=? needed_set
    then needed_set + Py.b2z (g geo_vec 0 =? 0)
    else
      let need_single := needed_set - (g geo_vec 1 + g geo_vec 2) + 1 in
      if g geo_vec 0 >=? need_single
      then 2 * needed_set - (g geo_vec 1 + g geo_vec 2)
      else 2 * needed_set - (g geo_vec 1 + g geo_vec 2) + need_single - g geo_vec 0.

(** [geo_vec_no19] reads [m[0]] of every group of every decomposition:
    IndexError, hence no value, when a group is empty. *)
Definition _shantin_no19 (partitions : list (list (list Z)))
           (called_melds : list (list Z)) : option Z :=
  if existsb (fun m => existsb (fun tile => Py.mem tile Tile.ONENINE) m) called_melds
  then Some 10
  else if existsb (existsb (fun m => Py.len m =? 0)) partitions then None
  else Py.min (map (shantin_no19 called_melds) partitions).

Definition shantin_no_19 (tiles34 : list Z) (called_melds : list (list Z)) : option Z :=
  partitions ← partition tiles34;
  _shantin_no19 partitions called_melds.

(** [shantin_no_sequences] *)
Definition shantin_no_sequences (tiles34 : list Z) (called_melds : list (list Z)) : Z :=
  if existsb (fun m => (Py.len m >? 1) && negb (Py.idx m 0 =? Py.idx m 1)) called_melds
  then 10
  else
    let num_kezi := Py.len (List.filter (fun tile => Py.count tile tiles34 =? 3) (Py.set tiles34)) in
    let num_pair := Py.len (List.filter (fun tile => Py.count tile tiles34 =? 2) (Py.set tiles34)) in
    let need_kezi := 4 - Py.len called_melds - num_kezi in
    if num_pair >=? need_kezi + 1 then need_kezi - 1 else 2 * need_kezi - num_pair.

(** [shantin_seven_pairs] *)
Definition shantin_seven_pairs (tiles34 : list Z) (called_melds : list (list Z)) : Z :=
  if Py.len called_melds >? 0 then 10
  else
    let num_pair := Py.len (List.filter (fun tile => Py.count tile tiles34 >=? 2) (Py.set tiles34)) in
    6 - num_pair.

(** [_shantin_pure_color].  The two [while needed_set > 0] loops lower
    [needed_set] by one per round, so they run [needed_set] times. *)
Fixpoint need_loop_pair (rounds : nat) (o p s st : Z) : Z * Z * Z * Z :=
  match rounds with
  | O => (o, p, s, st)
  | S rounds' =>
    if o >? 0 then need_loop_pair rounds' (o - 1) p s (st + 1)
    else if p >? 0 then need_loop_pair rounds' o (p - 1) s (st + 1)
    else if s >? 0 then need_loop_pair rounds' o p (s - 1) (st + 2)
    else need_loop_pair rounds' o p s (st + 3)
  end.

Fixpoint need_loop_nopair (rounds : nat) (o s st : Z) : Z * Z * Z :=
  match rounds with
  | O => (o, s, st)
  | S rounds' =>
    if o >? 0 then need_loop_nopair rounds' (o - 1) s (st + 1)
    else if s >? 0 then need_loop_nopair rounds' o (s - 1) (st + 2)
    else need_loop_nopair rounds' o s (st + 3)
  end.

Definition geo_step_qh (tp : Z) (geo_vec : list Z) (m : list Z) : list Z :=
  if Py.mem (Py.idx m 0 / 9) [tp; 3] then geo_step_normal geo_vec m else geo_vec.

Definition geo_vec_qh (p : list (list Z)) (tp : Z) : list Z :=
  fold_left (geo_step_qh tp) p geo0.

Definition shantin_n_qh (called_melds : list (list Z)) (p : list (list Z)) (tp : Z) : Z :=
  let geo_vec := geo_vec_qh p tp in
  let s := g geo_vec 0 in
  let p := g geo_vec 3 in
  let o := g geo_vec 1 + g geo_vec 2 in
  let f := g geo_vec 4 + g geo_vec 5 in
  if p >? 0 then
    let needed_set := 3 - Py.len called_melds - f in
    let '(o, p, s, st) := need_loop_pair (Z.to_nat needed_set) o (p - 1) s 0 in
    if o + p >? 0 then st else if s >? 0 then st + 1 else st + 2
  else
    let needed_set := 4 - Py.len called_melds - f in
    let '(o, s, st) := need_loop_nopair (Z.to_nat needed_set) o s 0 in
    if s >? 0 then st else st + 1.

(** the suits of the called melds, honors skipped, each once *)
Definition meld_types_of (called_melds : list (list Z)) : list Z :=
  fold_left
    (fun meld_types m =>
       let ty := Py.idx m 0 / 9 in
       if ty =? 3 then meld_types
       else if negb (Py.mem ty meld_types) then meld_types ++ [ty] else meld_types)
    called_melds [].

(** The loop over the called melds reads [m[0]] of every one of them, and
    [geo_vec_qh] reads [m[0]] of every group of every decomposition:
    IndexError, hence no value, when a called meld or a group is empty. *)
Definition _shantin_pure_color (tiles34 : list Z) (called_melds : list (list Z))
           (partitions : list (list (list Z))) : option Z :=
  if existsb (fun m => Py.len m =? 0) called_melds then None else
  let meld_types := meld_types_of called_melds in
  if (Py.len called_melds >? 0) && (Py.len meld_types >? 1) then Some 10
  else
    let qh_type := if Py.len called_melds >? 0 then meld_types else [] in
    qh_type ←
      (if ((Py.len qh_type =? 0) && (Py.len called_melds >? 0))
          || (Py.len called_melds =? 0)
       then
         let type_geo := [Py.len (in_range 0 9 tiles34);
                          Py.len (in_range 9 18 tiles34);
                          Py.len (in_range 18 27 tiles34)] in
         max_num ← Py.max type_geo;
         Some (List.filter (fun i => nth (Z.to_nat i) type_geo 0 =? max_num) (Py.range 0 3))
       else Some qh_type);
    if Py.len qh_type =? 0 then Some 10
    else if existsb (existsb (fun m => Py.len m =? 0)) partitions then None
    else
      per_partition ←
        mapM (fun p => Py.min (map (shantin_n_qh called_melds p) qh_type)) partitions;
      Py.min per_partition.

Definition shantin_pure_color (tiles34 : list Z) (called_melds : list (list Z)) : option Z :=
  partitions ← partition tiles34;
  _shantin_pure_color tiles34 called_melds partitions.

End Partition.

(** ** Exceptions and dictionaries *)

(** What a call yields: a value, or a raised exception. *)
Inductive exn := IndexError | TypeError | ValueError.

Inductive outcome (A : Type) : Type :=
| Ok (a : A)
| Raise (e : exn).
Arguments Ok {A} a.
Arguments Raise {A} e.

#[global] Instance outcome_ret : MRet outcome := fun _ a => Ok a.
#[global] Instance outcome_bind : MBind outcome :=
  fun _ _ f m => match m with Ok a => f a | Raise e => Raise e end.

(** [d[k] = v] on an insertion-ordered dictionary: an existing key keeps
    its place and takes the new value, a new key is appended. *)
Fixpoint dict_set {K V} (eqb : K -> K -> bool) (k : K) (v : V) (d : list (K * V))
  : list (K * V) :=
  match d with
  | [] => [(k, v)]
  | (k', v') :: r => if eqb k k' then (k, v) :: r else (k', v') :: dict_set eqb k v r
  end.

(** [sum([v for k, v in d.items()])] and the keys in order *)
Definition dict_sum {K} (d : list (K * Z)) : Z := Py.sum (map snd d).
Definition dict_keys {K V} (d : list (K * V)) : list K := map fst d.

(** [[m for m in hand_partition if len(m) == 2][0]] *)
Definition first_pair (hand_partition : list (list Z)) : outcome (list Z) :=
  match List.filter (fun m => Py.len m =? 2) hand_partition with
  | [] => Raise IndexError
  | pr :: _ => Ok pr
  end.

(** ** WinWaitCal.fu_calculation *)

Module FuCalculation.

(** The keys of the fu dictionary, one per description string of the
    source, in the order of their first appearance there:
    seven pairs (25), closed self-drawn pinfu (20), open pinfu-shape ron
    (30); terminal-or-honor concealed triplet (8), terminal-or-honor open
    triplet (4), simple concealed triplet (4), simple open triplet (2);
    terminal-or-honor open quad (16), simple open quad (8),
    terminal-or-honor closed quad (32), simple closed quad (16); dragon
    pair, seat-wind pair, round-wind pair (2 each); single wait (2), edge
    or closed wait (2); self-draw (2), concealed ron (10). *)
Inductive fu_key :=
| SevenPairs25 | PinfuTsumo20 | OpenPinfuRon30
| YaojiuAnke8 | YaojiuMingke4 | ZhongzhangAnke4 | ZhongzhangMingke2
| YaojiuMinggang16 | ZhongzhangMinggang8 | YaojiuAngang32 | ZhongzhangAngang16
| YakuPair2 | SeatWindPair2 | RoundWindPair2
| SingleWait2 | EdgeClosedWait2
| Zimo2 | MenqingRon10.

Scheme Equality for fu_key.

Definition fu_dict := list (fu_key * Z).

Record fu_result := {
  fu : fu_dict;
  fu_sum : Z;
  fu_round : Z
}.

(** [fu_desc] is [" ".join] of the keys of [fu] *)
Definition fu_desc (r : fu_result) : list fu_key := dict_keys (fu r).

Definition flat (k : fu_key) (v : Z) : fu_result :=
  {| fu := [(k, v)]; fu_sum := v; fu_round := v |}.

Definition add_base (b : Z) (b_desc : fu_key) (fu : fu_dict) : fu_dict :=
  dict_set fu_key_beq b_desc b fu.

(** the two-sided completion test of [check_flat_win], on a group of three
    tiles *)
Definition two_sided (final_tile : Z) (chw : list Z) : bool :=
  ((Py.idx chw 0 =? final_tile) && negb (Py.idx chw 0 mod 9 =? 6))
  || ((Py.idx chw 2 =? final_tile) && negb (Py.idx chw 2 mod 9 =? 2)).

Section fu_calculation.

Variables (hand_partition : list (list Z)) (final_tile : Z)
          (melds minkan ankan : list (list Z)) (is_zimo : bool)
          (player_wind round_wind : Z).

Definition kezi_hand_step (fu : fu_dict) (meld : list Z) : fu_dict :=
  let m0 := Py.idx meld 0 in
  if (Py.len meld =? 3) && ((m0 =? Py.idx meld 1) && (Py.idx meld 1 =? Py.idx meld 2)) then
    if Py.mem m0 Tile.ONENINE then
      if is_zimo || negb (final_tile =? m0)
      then add_base 8 YaojiuAnke8 fu
      else add_base 4 YaojiuMingke4 fu
    else
      if is_zimo || negb (final_tile =? m0)
      then add_base 4 ZhongzhangAnke4 fu
      else add_base 2 ZhongzhangMingke2 fu
  else fu.

Definition kezi_meld_step (fu : fu_dict) (meld : list Z) : fu_dict :=
  let m0 := Py.idx meld 0 in
  if m0 =? Py.idx meld 1 then
    if Py.mem m0 Tile.ONENINE
    then add_base 4 YaojiuMingke4 fu
    else add_base 2 ZhongzhangMingke2 fu
  else fu.

(** The loop over [melds] reads [meld[0]] and [meld[1]] of every called
    meld: IndexError when one of them holds fewer than two tiles.  (The
    loop over the hand reads a group only after [len(meld) == 3].) *)
Definition check_kezi (fu : fu_dict) : outcome fu_dict :=
  let fu := fold_left kezi_hand_step hand_partition fu in
  if forallb (fun meld => 2 <=? Py.len meld) melds
  then Ok (fold_left kezi_meld_step melds fu)
  else Raise IndexError.

Definition minkan_step (fu : fu_dict) (mk : list Z) : fu_dict :=
  if Py.mem (Py.idx mk 0) Tile.ONENINE
  then add_base 16 YaojiuMinggang16 fu
  else add_base 8 ZhongzhangMinggang8 fu.

Definition ankan_step (fu : fu_dict) (ak : list Z) : fu_dict :=
  if Py.mem (Py.idx ak 0) Tile.ONENINE
  then add_base 32 YaojiuAngang32 fu
  else add_base 16 ZhongzhangAngang16 fu.

(** The two loops read [mk[0]] and [ak[0]]: IndexError on an empty quad. *)
Definition check_kans (fu : fu_dict) : outcome fu_dict :=
  fu ← (if forallb (fun mk => 1 <=? Py.len mk) minkan
        then Ok (fold_left minkan_step minkan fu)
        else Raise IndexError);
  if forallb (fun ak => 1 <=? Py.len ak) ankan
  then Ok (fold_left ankan_step ankan fu)
  else Raise IndexError.

Definition check_pair (p : list Z) (fu : fu_dict) : fu_dict :=
  let p0 := Py.idx p 0 in
  let fu1 := if Py.mem p0 Tile.THREES then add_base 2 YakuPair2 fu else fu in
  let fu2 := if p0 =? player_wind then add_base 2 SeatWindPair2 fu1 else fu1 in
  if p0 =? round_wind then add_base 2 RoundWindPair2 fu2 else fu2.

(** the groups whose first two tiles differ *)
Definition chows_of : list (list Z) :=
  List.filter (fun m => negb (Py.idx m 0 =? Py.idx m 1)) (hand_partition ++ melds).

(** [[m for m in hand_partition + melds if m[0] != m[1]]]: the test reads
    [m[0]] and [m[1]] of every group, IndexError when one of them holds
    fewer than two tiles *)
Definition chows : outcome (list (list Z)) :=
  if forallb (fun m => 2 <=? Py.len m) (hand_partition ++ melds)
  then Ok chows_of
  else Raise IndexError.

Definition with_final (chows : list (list Z)) : list (list Z) :=
  List.filter (fun chow => Py.mem final_tile chow) chows.

(** [any((chw[0] == final_tile and chw[0] % 9 != 6) or (chw[2] ==
    final_tile and chw[2] % 9 != 2) for chw in ...)] over groups of two
    tiles or more: [chw[2]] is read when the first test fails, IndexError
    on a group of two tiles; the first group that passes ends the
    search. *)
Fixpoint any_two_sided (chws : list (list Z)) : outcome bool :=
  match chws with
  | [] => Ok false
  | chw :: chws' =>
    if (Py.idx chw 0 =? final_tile) && negb (Py.idx chw 0 mod 9 =? 6) then Ok true
    else if Py.len chw <? 3 then Raise IndexError
    else if (Py.idx chw 2 =? final_tile) && negb (Py.idx chw 2 mod 9 =? 2) then Ok true
    else any_two_sided chws'
  end.

(** the test of a closed or an edge wait, on a group of three tiles *)
Definition closed_or_edge (chw : list Z) : bool :=
  (Py.idx chw 1 =? final_tile)
  || ((Py.idx chw 0 =? final_tile) && (Py.idx chw 2 mod 9 =? 8))
  || ((Py.idx chw 2 =? final_tile) && (Py.idx chw 0 mod 9 =? 0)).

(** [all(chw[1] == final_tile or (chw[0] == final_tile and chw[2] % 9 ==
    8) or (chw[2] == final_tile and chw[0] % 9 == 0) for chw in ...)] over
    groups of two tiles or more: [chw[2]] is read whenever [chw[1]] is not
    the winning tile, IndexError on a group of two tiles; the first group
    that fails ends the search. *)
Fixpoint all_closed_or_edge (chws : list (list Z)) : outcome bool :=
  match chws with
  | [] => Ok true
  | chw :: chws' =>
    if Py.idx chw 1 =? final_tile then all_closed_or_edge chws'
    else if Py.len chw <? 3 then Raise IndexError
    else if ((Py.idx chw 0 =? final_tile) && (Py.idx chw 2 mod 9 =? 8))
            || ((Py.idx chw 2 =? final_tile) && (Py.idx chw 0 mod 9 =? 0))
         then all_closed_or_edge chws'
         else Ok false
  end.

Definition check_waiting_type (p : list Z) (fu : fu_dict) : outcome fu_dict :=
  chws ← chows;
  let chws_with_final := with_final chws in
  if (Py.idx p 0 =? final_tile) && (Py.len chws_with_final =? 0)
  then Ok (add_base 2 SingleWait2 fu)
  else if Py.len chws_with_final >? 0 then
    ok ← all_closed_or_edge chws_with_final;
    Ok (if ok : bool then add_base 2 EdgeClosedWait2 fu else fu)
  else Ok fu.

Definition check_win_type (fu : fu_dict) : fu_dict :=
  let fu1 := if is_zimo then add_base 2 Zimo2 fu else fu in
  if negb is_zimo && (Py.len (melds ++ minkan) =? 0)
  then add_base 10 MenqingRon10 fu1
  else fu1.

(** the early returns of the pinfu shapes: [Some] when one is taken *)
Definition flat_pinfu : outcome (option fu_result) :=
  if Py.len hand_partition + Py.len melds =? 5 then
    chows ← chows;
    pr ← first_pair hand_partition;
    if (Py.len chows =? 4)
       && negb (Py.mem (Py.idx pr 0) (Tile.THREES ++ [player_wind; round_wind]))
    then
      two_sided ← any_two_sided (with_final chows);
      Ok (if two_sided : bool then
            if is_zimo && (Py.len melds =? 0) then Some (flat PinfuTsumo20 20)
            else if negb is_zimo && (Py.len melds >? 0) then Some (flat OpenPinfuRon30 30)
            else None
          else None)
    else Ok None
  else Ok None.

(** the itemized dictionary, after the five checks *)
Definition itemized (pr : list Z) : outcome fu_dict :=
  fu ← check_kezi [];
  fu ← check_kans fu;
  let fu := check_pair pr fu in
  fu ← check_waiting_type pr fu;
  Ok (check_win_type fu).

Definition fu_calculation : outcome fu_result :=
  if Py.len hand_partition =? 7 then Ok (flat SevenPairs25 25)
  else
    early ← flat_pinfu;
    match early with
    | Some r => Ok r
    | None =>
      pr ← first_pair hand_partition;
      fu ← itemized pr;
      let fu_sum := dict_sum fu in
      Ok {| fu := fu; fu_sum := fu_sum; fu_round := ((fu_sum - 1) / 10 + 1) * 10 |}
    end.

End fu_calculation.

End FuCalculation.

(** ** WinWaitCal.han_calculation *)

Module HanCalculation.

(** The names of the yaku and yakuman, one per description string of the
    source (a yaku whose value depends on the hand being closed has one
    string, hence one name, per value). *)
Inductive yaku :=
| Kokushi | Chiitoi2 | Riichi1 | MenzenTsumo1 | Yakuhai1 | Jikaze1 | Bakaze1
| Tanyao1 | Sanshoku2 | Sanshoku1 | Pinfu1 | Ittsu2 | Ittsu1 | Toitoi2
| Daisangen | Shousangen2 | Chinroutou | Honroutou2 | Junchan3 | Junchan2
| Chanta2 | Chanta1 | SanshokuDoukou2 | Sankantsu2 | Ryanpeikou3 | Iipeikou1
| Chinitsu6 | Chinitsu5 | Honitsu3 | Honitsu2 | Ryuuiisou | Suuankou
| Sanankou2 | Daisuushii | Shousuushii | Tsuuiisou | Chuuren.

Scheme Equality for yaku.

(** A key of a han dictionary: a yaku name, or the dora entry that
    [score_calculation] adds, whose string carries the dora count. *)
Inductive han_key :=
| Yaku (y : yaku)
| Dora (n : Z).

Definition han_key_eqb (a b : han_key) : bool :=
  match a, b with
  | Yaku x, Yaku y => yaku_beq x y
  | Dora n, Dora m => n =? m
  | _, _ => false
  end.

Definition han_dict := list (han_key * Z).

(** the two dictionaries the checks fill *)
Record dicts := { d_han : han_dict; d_ykman : han_dict }.

Record han_result := {
  han : han_dict;
  ykman : han_dict;
  han_sum : Z;
  yk_sum : Z
}.

(** [han_desc]: the keys of [han], or of [ykman] when a yakuman is there *)
Definition han_desc (r : han_result) : list han_key :=
  if yk_sum r =? 0 then dict_keys (han r) else dict_keys (ykman r).

Definition add_han (h : Z) (h_desc : yaku) (d : dicts) : dicts :=
  {| d_han := dict_set han_key_eqb (Yaku h_desc) h (d_han d); d_ykman := d_ykman d |}.

Definition add_yakuman (m : Z) (m_desc : yaku) (d : dicts) : dicts :=
  {| d_han := d_han d; d_ykman := dict_set han_key_eqb (Yaku m_desc) m (d_ykman d) |}.

(** [t if t < 4 else 3] over the counts of the given tiles *)
Definition capped_counts (tiles all_tiles : list Z) : list Z :=
  map (fun t => let c := Py.count t all_tiles in if c <? 4 then c else 3) tiles.

(** [l.count(chw)] for a group *)
Definition count_group (chw : list Z) (l : list (list Z)) : Z :=
  Py.len (List.filter (Py.eq_tiles chw) l).

Section han_calculation.

Variables (hand_partition : list (list Z)) (final_tile : Z)
          (melds minkan ankan : list (list Z)) (is_zimo : bool)
          (player_wind round_wind : Z) (reach : bool).

Definition all_melds : list (list Z) := hand_partition ++ melds ++ minkan ++ ankan.
Definition all_melds_no_kan : list (list Z) := hand_partition ++ melds.
Definition all_tiles : list Z := concat all_melds.
Definition is_menqing : bool := Py.len (melds ++ minkan) =? 0.
Definition len_open : Z := Py.len (melds ++ minkan ++ ankan).
Definition len_total : Z := len_open + Py.len hand_partition.

Definition check_all_single_one_nine (d : dicts) : dicts :=
  if Py.len hand_partition =? 13 then add_yakuman 1 Kokushi d else d.

Definition check_seven_pairs (d : dicts) : dicts :=
  if Py.len hand_partition =? 7 then add_han 2 Chiitoi2 d else d.

Definition check_win_type (d : dicts) : dicts :=
  let d1 := if reach then add_han 1 Riichi1 d else d in
  if is_zimo && is_menqing then add_han 1 MenzenTsumo1 d1 else d1.

Definition dori_step (d : dicts) (meld : list Z) : dicts :=
  let m0 := Py.idx meld 0 in
  if (Py.len meld >? 2) && (m0 =? Py.idx meld 1) then
    let d1 := if Py.mem m0 Tile.THREES then add_han 1 Yakuhai1 d else d in
    let d2 := if m0 =? player_wind then add_han 1 Jikaze1 d1 else d1 in
    if m0 =? round_wind then add_han 1 Bakaze1 d2 else d2
  else d.

Definition check_dori (d : dicts) : dicts := fold_left dori_step all_melds d.

Definition check_no19 (d : dicts) : dicts :=
  if forallb (fun t => negb (Py.mem t all_tiles)) Tile.ONENINE
  then add_han 1 Tanyao1 d else d.

(** The loop stops at the first [i] that fits; the entry it adds does not
    depend on [i]. *)
Definition check_3chows_same_color (d : dicts) : dicts :=
  if len_total =? 5 then
    let chows := List.filter (fun meld => (Py.len meld =? 3)
                                          && negb (Py.idx meld 0 =? Py.idx meld 1))
                             all_melds_no_kan in
    if Py.len chows >? 2 then
      if existsb (fun i => forallb (fun t => Py.mem_group [i + t + 0; i + t + 1; i + t + 2] chows)
                                   [0; 9; 18])
                 (Py.range 0 7)
      then if is_menqing then add_han 2 Sanshoku2 d else add_han 1 Sanshoku1 d
      else d
    else d
  else d.

Definition check_flat_win (d : dicts) : outcome dicts :=
  if is_menqing && (Py.len hand_partition =? 5) then
    let chows := List.filter (fun meld => (Py.len meld =? 3)
                                          && negb (Py.idx meld 0 =? Py.idx meld 1))
                             hand_partition in
    pr ← first_pair hand_partition;
    if (Py.len chows =? 4)
       && negb (Py.mem (Py.idx pr 0) (Tile.THREES ++ [player_wind; round_wind]))
    then
      let chows_with_final := List.filter (fun chow => Py.mem final_tile chow) chows in
      if existsb (FuCalculation.two_sided final_tile) chows_with_final
      then Ok (add_han 1 Pinfu1 d)
      else Ok d
    else Ok d
  else Ok d.

Definition check_1to9 (d : dicts) : dicts :=
  if len_total =? 5 then
    if existsb (fun i => forallb (fun s => Py.mem_group [s + i; s + i + 1; s + i + 2]
                                                        all_melds_no_kan)
                                 [0; 3; 6])
               [0; 9; 18]
    then if is_menqing then add_han 2 Ittsu2 d else add_han 1 Ittsu1 d
    else d
  else d.

(** The comprehension reads [meld[0]] and [meld[1]] of every group of the
    hand and of every called meld: IndexError when one of them holds fewer
    than two tiles. *)
Definition check_all_pons (d : dicts) : outcome dicts :=
  if len_total =? 5 then
    if forallb (fun meld => 2 <=? Py.len meld) all_melds_no_kan then
      let chows := List.filter (fun meld => negb (Py.idx meld 0 =? Py.idx meld 1))
                               all_melds_no_kan in
      Ok (if Py.len chows =? 0 then add_han 2 Toitoi2 d else d)
    else Raise IndexError
  else Ok d.

Definition check_threes (d : dicts) : dicts :=
  if len_total =? 5 then
    let metrics := capped_counts Tile.THREES all_tiles in
    let d1 := if Py.count 3 metrics =? 3 then add_yakuman 1 Daisangen d else d in
    if (Py.count 3 metrics =? 2) && (Py.count 2 metrics =? 1)
    then add_han 2 Shousangen2 d1 else d1
  else d.

Definition check_all19 (d : dicts) : dicts :=
  let all_19pons :=
      len_total =? Py.len (List.filter
                             (fun m => (Py.len m >? 1) && (Py.idx m 0 =? Py.idx m 1)
                                       && Py.mem (Py.idx m 0) Tile.ONENINE)
                             all_melds) in
  let pure_all_19 :=
      (len_total =? 5)
      && (5 =? Py.len (List.filter
                         (fun m => existsb (fun t => Py.mem t Tile.TERMINALS) m)
                         all_melds)) in
  if all_19pons && pure_all_19 then add_yakuman 1 Chinroutou d
  else if all_19pons then add_han 2 Honroutou2 d
  else if pure_all_19 then
    if is_menqing then add_han 3 Junchan3 d else add_han 2 Junchan2 d
  else
    if (len_total =? 5) || (len_total =? 7) then
      if Py.len (List.filter (fun m => existsb (fun t => Py.mem t Tile.ONENINE) m)
                             all_melds) =? len_total
      then if is_menqing then add_han 2 Chanta2 d else add_han 1 Chanta1 d
      else d
    else d.

Definition check_3pons_same_color (d : dicts) : dicts :=
  if len_total =? 5 then
    if existsb (fun i => forallb (fun n => Py.mem_group (Py.rep (n + i) 3) all_melds
                                           || Py.mem_group (Py.rep (n + i) 4) all_melds)
                                 [0; 9; 18])
               (Py.range 0 9)
    then add_han 2 SanshokuDoukou2 d
    else d
  else d.

Definition check_3kans (d : dicts) : dicts :=
  if len_total =? 5 then
    if Py.len (ankan ++ minkan) =? 3 then add_han 2 Sankantsu2 d else d
  else d.

Definition check_multiple_same_chow (d : dicts) : dicts :=
  let was_erbeikou :=
      is_menqing && (Py.len hand_partition =? 5)
      && forallb (fun t => Py.count t all_tiles =? 2) (Py.set all_tiles) in
  let d1 := if was_erbeikou then add_han 3 Ryanpeikou3 d else d in
  if negb was_erbeikou && is_menqing && negb (Py.len (hand_partition ++ ankan) =? 0) then
    let chows := List.filter (fun m => (Py.len m >? 1)
                                       && negb (Py.idx m 0 =? Py.idx m 1))
                             hand_partition in
    if existsb (fun chw => count_group chw chows >=? 2) chows
    then add_han 1 Iipeikou1 d1
    else d1
  else d1.

Definition check_pure_color (d : dicts) : dicts :=
  if existsb (fun typ => forallb (fun t => (typ <=? t) && (t <? typ + 9)) all_tiles)
             [0; 9; 18]
  then if is_menqing then add_han 6 Chinitsu6 d else add_han 5 Chinitsu5 d
  else if existsb (fun typ => forallb (fun t => ((typ <=? t) && (t <? typ + 9))
                                                || ((27 <=? t) && (t <? 34)))
                                      all_tiles)
                  [0; 9; 18]
  then if is_menqing then add_han 3 Honitsu3 d else add_han 2 Honitsu2 d
  else d.

Definition check_pure_green (d : dicts) : dicts :=
  if forallb (fun t => Py.mem t Tile.GREENS) all_tiles
  then add_yakuman 1 Ryuuiisou d else d.

Definition check_4ankans (d : dicts) : outcome dicts :=
  if len_total =? 5 then
    let kezi := Py.len ankan
                + Py.len (List.filter (fun m => (Py.len m =? 3)
                                                && (Py.idx m 0 =? Py.idx m 1))
                                      hand_partition) in
    pr ← first_pair hand_partition;
    if kezi =? 4 then
      if is_zimo || (final_tile =? Py.idx pr 0)
      then Ok (add_yakuman 1 Suuankou d)
      else Ok (add_han 2 Sanankou2 d)
    else
      let kezi := Py.len ankan
                  + Py.len (List.filter
                              (fun m => (Py.len m =? 3) && (Py.idx m 0 =? Py.idx m 1)
                                        && (is_zimo || negb (final_tile =? Py.idx m 0)))
                              hand_partition) in
      if kezi =? 3 then Ok (add_han 2 Sanankou2 d) else Ok d
  else Ok d.

Definition check_four_honors (d : dicts) : dicts :=
  let metrics := capped_counts Tile.WINDS all_tiles in
  if Py.count 3 metrics =? 4 then add_yakuman 1 Daisuushii d
  else if (Py.count 3 metrics =? 3) && (Py.count 2 metrics =? 1)
       then add_yakuman 1 Shousuushii d
       else d.

Definition check_all_characters (d : dicts) : dicts :=
  if forallb (fun t => Py.mem t Tile.HONORS) all_tiles
  then add_yakuman 1 Tsuuiisou d else d.

Definition check_9lotus (d : dicts) : dicts :=
  if is_menqing then
    if existsb (fun i => forallb (fun t => (i <=? t) && (t <? i + 9)) all_tiles
                         && forallb (fun t => Py.mem t all_tiles) (Py.range i (i + 9))
                         && (Py.count i all_tiles >? 2)
                         && (Py.count (i + 8) all_tiles >? 2))
               [0; 9; 18]
    then add_yakuman 1 Chuuren d
    else d
  else d.

Definition han_calculation : outcome han_result :=
  let d := {| d_han := []; d_ykman := [] |} in
  let d := check_all_single_one_nine d in
  let d := check_seven_pairs d in
  let d := check_win_type d in
  let d := check_dori d in
  let d := check_no19 d in
  d ← check_flat_win d;
  let d := check_1to9 d in
  d ← check_all_pons d;
  let d := check_threes d in
  let d := check_all19 d in
  let d := check_3pons_same_color d in
  let d := check_3chows_same_color d in
  let d := check_3kans d in
  let d := check_multiple_same_chow d in
  let d := check_pure_color d in
  let d := check_pure_green d in
  d ← check_4ankans d;
  let d := check_four_honors d in
  let d := check_all_characters d in
  let d := check_9lotus d in
  Ok {| han := d_han d; ykman := d_ykman d;
        han_sum := dict_sum (d_han d); yk_sum := dict_sum (d_ykman d) |}.

End han_calculation.

End HanCalculation.

(** ** WinWaitCal.win_parse *)

Module WinParse.

(** truth value of a [parse_nums] / [parse_chrs] result: neither [None]
    nor an empty list *)
Definition truthy {A} (r : option (list A)) : bool :=
  match r with
  | Some (_ :: _) => true
  | _ => false
  end.

Definition items {A} (r : option (list A)) : list A :=
  match r with
  | Some l => l
  | None => []
  end.

(** one branch of [parse_nums]: the decompositions of [rest], each with
    [group] in front; nothing when the condition fails or [rest] does not
    parse *)
Definition branch (rec : list Z -> option (list (list (list Z))))
           (cond : bool) (group rest : list Z) : list (list (list Z)) :=
  if cond then
    let rec_res := rec rest in
    if truthy rec_res then map (cons group) (items rec_res) else []
  else [].

(** [parse_nums]; the result [None] is Python's.  Every recursive call is
    on a shorter list, so a [fuel] of the length of [tiles] is never used
    up. *)
Fixpoint parse_nums_rec (fuel : nat) (tiles : list Z) : option (list (list (list Z))) :=
  let n := Py.len tiles in
  let t0 := Py.idx tiles 0 in
  let t1 := Py.idx tiles 1 in
  let t2 := Py.idx tiles 2 in
  if n =? 0 then Some [[[]]]
  else if n =? 1 then None
  else if n =? 2 then (if t0 =? t1 then Some [[tiles]] else None)
  else if n =? 3 then
    let ismeld := ((t0 =? t1) && (t1 =? t2)) || ((t0 + 2 =? t1 + 1) && (t1 + 1 =? t2)) in
    if ismeld then Some [[tiles]] else None
  else if n mod 3 =? 1 then None
  else
    match fuel with
    | O => None
    | S fuel' =>
      let rec := parse_nums_rec fuel' in
      let r_pair := branch rec ((n mod 3 =? 2) && (t0 =? t1))
                           (Py.slice 0 2 tiles) (skipn 2 tiles) in
      let r_pon := branch rec ((t0 =? t1) && (t1 =? t2))
                          (Py.slice 0 3 tiles) (skipn 3 tiles) in
      let r_chow := branch rec (Py.mem (t0 + 1) tiles && Py.mem (t0 + 2) tiles)
                           [t0; t0 + 1; t0 + 2]
                           (Py.remove (t0 + 2) (Py.remove (t0 + 1) (Py.remove t0 tiles))) in
      let res := r_pair ++ r_pon ++ r_chow in
      if Py.len res >? 0 then Some res else None
    end.

Definition parse_nums (tiles : list Z) : option (list (list (list Z))) :=
  parse_nums_rec (List.length tiles) tiles.

Definition parse_chrs (tiles : list Z) : option (list (list (list Z))) :=
  if Py.len tiles =? 0 then Some [[]]
  else if (Py.len tiles mod 3 =? 1) || existsb (fun t => Py.count t tiles =? 1) tiles
  then None
  else
    let tiles_set := Py.set tiles in
    let partition := map (fun t => Py.rep t (Py.count t tiles)) tiles_set in
    if Py.len partition =? (Py.len tiles - 1) / 3 + 1 then Some [partition] else None.

Definition nonempty {A} (l : list A) : bool :=
  match l with
  | [] => false
  | _ :: _ => true
  end.

(** the seven-pairs decomposition, when the tiles are seven pairs *)
Definition seven_pairs_res (hand_total : list Z) : list (list (list Z)) :=
  let hand_total_set := Py.set hand_total in
  if forallb (fun t => Py.count t hand_total =? 2) hand_total_set
     && (Py.len hand_total =? 14)
  then [map (fun t => Py.rep t 2) hand_total_set]
  else [].

(** the thirteen-orphans test and its decomposition *)
Definition is_orphans (hand_total : list Z) : bool :=
  forallb (fun t => Py.mem t hand_total) Tile.ONENINE
  && forallb (fun t => Py.mem t Tile.ONENINE) hand_total.

Definition orphans_res (hand_total : list Z) : list (list (list Z)) :=
  [map (fun t => Py.rep t (Py.count t hand_total)) Tile.ONENINE].

Definition hand_man (hand_total : list Z) : list Z :=
  List.filter (fun t => t <? 9) hand_total.
Definition hand_pin (hand_total : list Z) : list Z :=
  List.filter (fun t => (9 <=? t) && (t <? 18)) hand_total.
Definition hand_suo (hand_total : list Z) : list Z :=
  List.filter (fun t => (18 <=? t) && (t <? 27)) hand_total.
Definition hand_chr (hand_total : list Z) : list Z :=
  List.filter (fun t => 27 <=? t) hand_total.

(** the end of [win_parse]: the four guards and the three nested loops;
    [hand_total] is sorted by then *)
Definition assemble (res : list (list (list Z))) (hand_total : list Z)
           (man_parse pin_parse suo_parse chr_parse : option (list (list (list Z))))
  : list (list (list Z)) :=
  if nonempty (hand_man hand_total) && negb (truthy man_parse) then res
  else if nonempty (hand_pin hand_total) && negb (truthy pin_parse) then res
  else if nonempty (hand_suo hand_total) && negb (truthy suo_parse) then res
  else if nonempty (hand_chr hand_total) && negb (truthy chr_parse) then res
  else
    res ++
    flat_map (fun a =>
    flat_map (fun b =>
    map (fun c =>
           List.filter (fun m => Py.len m >? 0)
                       (a ++ b ++ c ++ hd [] (items chr_parse)))
        (items suo_parse)) (items pin_parse)) (items man_parse).

Definition win_parse (hand34 : list Z) (final_tile : Z) : list (list (list Z)) :=
  let hand_total := hand34 ++ [final_tile] in
  let res := seven_pairs_res hand_total in
  if is_orphans hand_total then orphans_res hand_total
  else
    let hand_total := Py.sort hand_total in
    assemble res hand_total
             (parse_nums (hand_man hand_total)) (parse_nums (hand_pin hand_total))
             (parse_nums (hand_suo hand_total)) (parse_chrs (hand_chr hand_total)).

End WinParse.

(** ** WinWaitCal.score_calculation and WinWaitCal.waiting_calculation *)

Module WinWaitCal.

Import FuCalculation HanCalculation.

(** the two forms of [score_desc] *)
Inductive score_desc_t :=
| MaxiDesc (maxi_points final_score : Z)
| FuHanDesc (fu han : Z) (lose : lose_desc) (final_score : Z).

(** the dictionary [score_calculation] returns *)
Record score_result := {
  score : Z;
  score_desc : score_desc_t;
  r_han : han_dict;
  r_han_desc : list han_key;
  r_fu : option fu_dict;
  r_fu_desc : option (list fu_key);
  r_partition : list (list Z)
}.

Section score_calculation.

Variables (hand34 : list Z) (final_tile : Z) (melds minkan ankan : list (list Z))
          (is_zimo : bool) (player_wind round_wind : Z) (reach : bool)
          (bonus_num : Z) (bonus_tiles : list Z) (benchan reach_stick : Z)
          (is_dealer : bool).

(** [bonus_num += final_tile in bonus_tiles] *)
Definition bonus_num' : Z := bonus_num + Py.b2z (Py.mem final_tile bonus_tiles).

(** What one decomposition [p] would score: [None] when it is skipped
    ([continue]), else the final score and the result it would leave in
    the [b_*] variables. *)
Definition candidate (p : list (list Z)) : outcome (option score_result) :=
  han_dict ← han_calculation p final_tile melds minkan ankan is_zimo
                             player_wind round_wind reach;
  if (han_sum han_dict =? yk_sum han_dict) && (yk_sum han_dict =? 0) then Ok None
  else if yk_sum han_dict >? 0 then
    let base_maxi_score := if is_dealer then 48000 else 32000 in
    let final_score := base_maxi_score * yk_sum han_dict + 1000 * reach_stick + benchan * 300 in
    Ok (Some {| score := final_score;
                score_desc := MaxiDesc (base_maxi_score * yk_sum han_dict) final_score;
                r_han := ykman han_dict;
                r_han_desc := han_desc han_dict;
                r_fu := None;
                r_fu_desc := None;
                r_partition := p |})
  else
    fu_dict ← fu_calculation p final_tile melds minkan ankan is_zimo
                             player_wind round_wind;
    let fu := fu_round fu_dict in
    let '(base_point, lose_desc) :=
        score_calculation_base (han_sum han_dict + bonus_num') fu is_dealer is_zimo in
    let final_score := base_point + 1000 * reach_stick
                       + benchan * (if base_point >? 0 then 300 else 0) in
    Ok (Some {| score := final_score;
                score_desc := FuHanDesc fu (han_sum han_dict + bonus_num') lose_desc final_score;
                r_han := if bonus_num' >? 0
                         then dict_set han_key_eqb (Dora bonus_num') bonus_num' (han han_dict)
                         else han han_dict;
                r_han_desc := han_desc han_dict
                              ++ (if bonus_num' >? 0 then [Dora bonus_num'] else []);
                r_fu := Some (FuCalculation.fu fu_dict);
                r_fu_desc := Some (FuCalculation.fu_desc fu_dict);
                r_partition := p |}).

(** one round of the loop over [win_partitions]: the best so far is
    replaced only by a strictly higher score; [b_score] starts at 0 with
    no result *)
Definition step (best : Z * option score_result) (p : list (list Z))
  : outcome (Z * option score_result) :=
  c ← candidate p;
  match c with
  | None => Ok best
  | Some r => if score r >? fst best then Ok (score r, Some r) else Ok best
  end.

Fixpoint loop (ps : list (list (list Z))) (best : Z * option score_result)
  : outcome (Z * option score_result) :=
  match ps with
  | [] => Ok best
  | p :: ps' => best' ← step best p; loop ps' best'
  end.

(** [score_calculation] from the decompositions [win_parse] returned *)
Definition score_partitions (win_partitions : list (list (list Z)))
  : outcome (option score_result) :=
  if Py.len win_partitions =? 0 then Ok None
  else
    best ← loop win_partitions (0, None);
    if fst best =? 0 then Ok None else Ok (snd best).

Definition score_calculation : outcome (option score_result) :=
  score_partitions (WinParse.win_parse hand34 final_tile).

End score_calculation.

(** A value passed as [final_tile]: a tile, or (from the second branch of
    the candidate search in [waiting_calculation]) a list of tiles. *)
Inductive pyval :=
| PInt (n : Z)
| PList (l : list Z).

(** [score_calculation] on such a value.  With a list, [win_parse] builds
    [hand34 + [final_tile]] and then [set(hand_total)], which raises
    TypeError: a list is unhashable. *)
Definition score_calculation_val (hand34 : list Z) (final_tile : pyval)
           (melds minkan ankan : list (list Z)) (is_zimo : bool)
           (player_wind round_wind : Z) (reach : bool) (bonus_num : Z)
           (bonus_tiles : list Z) (benchan reach_stick : Z) (is_dealer : bool)
  : outcome (option score_result) :=
  match final_tile with
  | PInt t => score_calculation hand34 t melds minkan ankan is_zimo player_wind
                                round_wind reach bonus_num bonus_tiles benchan
                                reach_stick is_dealer
  | PList _ => Raise TypeError
  end.

Definition waitings_t := list (Z * option score_result).

(** [l.index(x)] for an [x] that is in [l] *)
Fixpoint index (x : Z) (l : list Z) : Z :=
  match l with
  | [] => 0
  | y :: r => if x =? y then 0 else 1 + index x r
  end.

Section waiting_calculation.

Variables (hand34 : list Z) (melds minkan ankan : list (list Z))
          (is_zimo : bool) (player_wind round_wind : Z) (reach : bool)
          (bonus_num : Z) (bonus_tiles : list Z) (benchan reach_stick : Z)
          (is_dealer : bool).

Definition score_of (t : Z) : outcome (option score_result) :=
  score_calculation hand34 t melds minkan ankan is_zimo player_wind round_wind
                    reach bonus_num bonus_tiles benchan reach_stick is_dealer.

Definition score_of_val (pt : pyval) : outcome (option score_result) :=
  score_calculation_val hand34 pt melds minkan ankan is_zimo player_wind round_wind
                        reach bonus_num bonus_tiles benchan reach_stick is_dealer.

(** [waitings[t] = score_calculation(...)], whatever the call returns *)
Definition assign (t : Z) (waitings : waitings_t) : outcome waitings_t :=
  r ← score_of t;
  Ok (dict_set Z.eqb t r waitings).

Fixpoint assign_all (ts : list Z) (waitings : waitings_t) : outcome waitings_t :=
  match ts with
  | [] => Ok waitings
  | t :: ts' => w ← assign t waitings; assign_all ts' w
  end.

(** the candidate tiles of the general branch *)
Definition possible_tiles : list pyval :=
  let lenman := Py.len (List.filter (fun t => t <? 9) hand34) in
  let lenpin := Py.len (List.filter (fun t => (9 <=? t) && (t <? 18)) hand34) in
  let lensuo := Py.len (List.filter (fun t => (18 <=? t) && (t <? 27)) hand34) in
  let lenchr := Py.len (List.filter (fun t => 27 <=? t) hand34) in
  let metrics := map (fun l => l mod 3) [lenman; lenpin; lensuo; lenchr] in
  if Py.mem 1 metrics && negb (Py.mem 2 metrics) && (Py.count 1 metrics =? 1) then
    let tile_type := index 1 metrics in
    if tile_type <? 3
    then map PInt (Py.range (tile_type * 9) ((tile_type + 1) * 9))
    else map PInt (Py.range 27 34)
  else if Py.mem 2 metrics && negb (Py.mem 1 metrics) && (Py.count 2 metrics =? 2) then
    flat_map (fun i => if nth (Z.to_nat i) metrics 0 =? 2
                       then [PList (Py.range (i * 9) ((i + 1) * 9))] else [])
             (Py.range 0 3)
    ++ (if nth 3 metrics 0 =? 2 then [PList (Py.range 27 34)] else [])
  else [].

(** the loop over [possible_tiles]: an entry only for a result that is
    not [None] *)
Fixpoint try_all (pts : list pyval) (waitings : waitings_t) : outcome waitings_t :=
  match pts with
  | [] => Ok waitings
  | pt :: pts' =>
    score_dict ← score_of_val pt;
    match score_dict, pt with
    | Some r, PInt t => try_all pts' (dict_set Z.eqb t (Some r) waitings)
    | Some r, PList _ => Raise TypeError
    | None, _ => try_all pts' waitings
    end
  end.

Definition waiting_calculation : outcome waitings_t :=
  let waitings : waitings_t := [] in
  let distinct := Py.len (Py.set hand34) in
  if (Py.len hand34 =? 13) && (distinct =? 7) then
    let pairs := List.filter (fun t => Py.count t hand34 =? 2) (Py.set hand34) in
    let single := List.filter (fun t => Py.count t hand34 =? 1) (Py.set hand34) in
    if (Py.len pairs =? 6) && (Py.len single =? 1)
    then assign (Py.idx single 0) waitings
    else Ok waitings
  else if (Py.len hand34 =? 13) && (distinct >=? 12) then
    let metrics_19 := map (fun t => Py.count t hand34) Tile.ONENINE in
    if Py.count 1 metrics_19 =? 13 then assign_all Tile.ONENINE waitings
    else if (Py.count 1 metrics_19 =? 11) && (Py.count 2 metrics_19 =? 1) then
      match List.filter (fun t => negb (Py.mem t hand34)) Tile.ONENINE with
      | wait :: _ => assign wait waitings
      | [] => Raise IndexError
      end
    else Ok waitings
  else try_all possible_tiles waitings.

End waiting_calculation.

End WinWaitCal.

(** ** The store of list objects

    The functions above compute with list values.  To state that a call
    leaves the lists of its caller alone, the same functions are modelled
    once more over a store: a Python list is an object at a location, a
    variable holds a location, [deepcopy], slices, comprehensions and [+]
    allocate new objects, [remove] and [sort] overwrite the object they
    are called on.  Decompositions that are returned are kept as values:
    no function of the core writes to a group once it is part of a
    result. *)

Module Store.

Definition loc := positive.

(** a list of tiles, or a list of lists (melds, quads) *)
Inductive obj :=
| Tiles (ts : list Z)
| Groups (gs : list loc).

Abbreviation heap := (gmap loc obj).

(** a computation: from a store to a value or an exception, and a store *)
Definition M (A : Type) : Type := heap -> outcome A * heap.

Definition ret {A} (a : A) : M A := fun h => (Ok a, h).

Definition raise {A} (e : exn) : M A := fun h => (Raise e, h).

Definition bind {A B} (m : M A) (f : A -> M B) : M B :=
  fun h => match m h with
           | (Ok a, h') => f a h'
           | (Raise e, h') => (Raise e, h')
           end.

Declare Scope store_scope.
Delimit Scope store_scope with store.
Notation "'let!' x ':=' m 'in' k" := (bind m (fun x => k))
  (at level 10, x name, m at level 100, k at level 200) : store_scope.
Open Scope store_scope.

(** a value of the pure model, as a computation *)
Definition lift {A} (v : outcome A) : M A := fun h => (v, h).

Definition lift_opt {A} (v : option A) : M A :=
  match v with
  | Some a => ret a
  | None => raise ValueError
  end.

(** a new object, at a location that is not in use *)
Definition alloc (o : obj) : M loc :=
  fun h => let l := fresh (dom h) in (Ok l, <[l := o]> h).

Definition load (l : loc) : M obj :=
  fun h => match h !! l with
           | Some o => (Ok o, h)
           | None => (Raise TypeError, h)
           end.

(** reading a list of tiles; anything else at [l] is a type error *)
Definition load_tiles (l : loc) : M (list Z) :=
  let! o := load l in
  match o with
  | Tiles ts => ret ts
  | Groups _ => raise TypeError
  end.

Fixpoint load_each (gs : list loc) : M (list (list Z)) :=
  match gs with
  | [] => ret []
  | g :: gs' =>
    let! ts := load_tiles g in
    let! rest := load_each gs' in
    ret (ts :: rest)
  end.

(** reading a list of lists of tiles *)
Definition load_groups (l : loc) : M (list (list Z)) :=
  let! o := load l in
  match o with
  | Groups gs => load_each gs
  | Tiles _ => raise TypeError
  end.

(** overwriting the list of tiles at [l] *)
Definition store_tiles (l : loc) (ts : list Z) : M unit :=
  let! _ := load_tiles l in
  fun h => (Ok tt, <[l := Tiles ts]> h).

(** [[...]], [l[a:b]], [l1 + l2]: a new list *)
Definition new_tiles (ts : list Z) : M loc := alloc (Tiles ts).

(** [deepcopy(l)] of a list of tiles *)
Definition deepcopy (l : loc) : M loc :=
  let! ts := load_tiles l in
  alloc (Tiles ts).

(** [l.remove(x)] *)
Definition list_remove (l : loc) (x : Z) : M unit :=
  let! ts := load_tiles l in
  if Py.mem x ts then store_tiles l (Py.remove x ts) else raise ValueError.

(** [l.sort()] *)
Definition list_sort (l : loc) : M unit :=
  let! ts := load_tiles l in
  store_tiles l (Py.sort ts).

(** *** Partition over the store *)

Definition branch (rec : loc -> M (list (list (list Z))))
           (cond : bool) (group : list Z) (rest : M loc) : M (list (list (list Z))) :=
  if cond then
    let! r := rest in
    let! tmp_res := rec r in
    ret (map (cons group) tmp_res)
  else ret [].

(** [rec_tiles = deepcopy(tiles34)] followed by the [remove]s *)
Fixpoint removes (rec_tiles : loc) (xs : list Z) : M unit :=
  match xs with
  | [] => ret tt
  | x :: xs' => let! _ := list_remove rec_tiles x in removes rec_tiles xs'
  end.

Definition copy_without (tiles34 : loc) (xs : list Z) : M loc :=
  let! rec_tiles := deepcopy tiles34 in
  let! _ := removes rec_tiles xs in
  ret rec_tiles.

Definition candidates (rec : loc -> M (list (list (list Z))))
           (tiles34 : loc) : M (list (list (list Z))) :=
  let! ts := load_tiles tiles34 in
  let t0 := Py.idx ts 0 in
  let t1 := Py.idx ts 1 in
  let t2 := Py.idx ts 2 in
  let! r_pon := branch rec ((t0 =? t1) && (t1 =? t2))
                       (Py.slice 0 3 ts) (new_tiles (skipn 3 ts)) in
  let! r_chow := branch rec (Py.mem (t0 + 1) ts && Py.mem (t0 + 2) ts)
                        [t0; t0 + 1; t0 + 2]
                        (copy_without tiles34 [t0; t0 + 1; t0 + 2]) in
  let! r_two := branch rec (Py.mem (t0 + 1) ts)
                       [t0; t0 + 1] (copy_without tiles34 [t0; t0 + 1]) in
  let! r_dead := branch rec (Py.mem (t0 + 2) ts)
                        [t0; t0 + 2] (copy_without tiles34 [t0; t0 + 2]) in
  let! r_pair := branch rec (t0 =? t1) (Py.slice 0 2 ts) (new_tiles (skipn 2 ts)) in
  let! r_single := branch rec true (Py.slice 0 1 ts) (new_tiles (skipn 1 ts)) in
  ret (r_pon ++ r_chow ++ r_two ++ r_dead ++ r_pair ++ r_single).

Fixpoint _partition_single_type_rec (fuel : nat) (tiles34 : loc)
  : M (list (list (list Z))) :=
  let! ts := load_tiles tiles34 in
  match Partition.base_case ts with
  | Some r => ret r
  | None =>
    match fuel with
    | O => raise ValueError
    | S fuel' =>
      let! res := candidates (_partition_single_type_rec fuel') tiles34 in
      let! min_len := lift_opt (Py.min (map Py.len res)) in
      ret (Partition.tune min_len res)
    end
  end.

Definition _partition_single_type (tiles34 : loc) : M (list (list (list Z))) :=
  let! ts := load_tiles tiles34 in
  _partition_single_type_rec (List.length ts) tiles34.

Definition partition (tiles34 : loc) : M (list (list (list Z))) :=
  let! ts := load_tiles tiles34 in
  let! man := new_tiles (Partition.in_range 0 9 ts) in
  let! p_man := _partition_single_type man in
  let! pin := new_tiles (Partition.in_range 9 18 ts) in
  let! p_pin := _partition_single_type pin in
  let! suo := new_tiles (Partition.in_range 18 27 ts) in
  let! p_suo := _partition_single_type suo in
  let! h_chr := new_tiles (Partition.in_range 27 34 ts) in
  let! chr := load_tiles h_chr in
  let p_chr := [map (fun chr_tile => Py.rep chr_tile (Py.count chr_tile chr))
                    (Py.set chr)] in
  ret (flat_map (fun pm =>
       flat_map (fun pp =>
       flat_map (fun ps =>
       map (fun pc => pm ++ pp ++ ps ++ pc) p_chr) p_suo) p_pin) p_man).

(** the shanten family: [partition], then reading the arguments *)
Definition shantin_normal (tiles34 called_melds : loc) : M Z :=
  let! partitions := partition tiles34 in
  let! melds := load_groups called_melds in
  lift_opt (Partition._shantin_normal partitions (Py.len melds)).

Definition shantin_no_triplets (tiles34 called_melds bonus_chrs : loc) : M Z :=
  let! partitions := partition tiles34 in
  let! melds := load_groups called_melds in
  let! chrs := load_tiles bonus_chrs in
  lift_opt (Partition._shantin_pinhu partitions (Py.len melds) chrs).

Definition shantin_no_19 (tiles34 called_melds : loc) : M Z :=
  let! partitions := partition tiles34 in
  let! melds := load_groups called_melds in
  lift_opt (Partition._shantin_no19 partitions melds).

Definition shantin_no_sequences (tiles34 called_melds : loc) : M Z :=
  let! melds := load_groups called_melds in
  let! ts := load_tiles tiles34 in
  ret (Partition.shantin_no_sequences ts melds).

Definition shantin_seven_pairs (tiles34 called_melds : loc) : M Z :=
  let! melds := load_groups called_melds in
  let! ts := load_tiles tiles34 in
  ret (Partition.shantin_seven_pairs ts melds).

Definition shantin_pure_color (tiles34 called_melds : loc) : M Z :=
  let! partitions := partition tiles34 in
  let! ts := load_tiles tiles34 in
  let! melds := load_groups called_melds in
  lift_opt (Partition._shantin_pure_color ts melds partitions).

(** the keys of the dictionary of [shantin_multiple_forms] *)
Inductive form := Normal | NoTriplets | No19 | NoSequences | SevenPairs | PureColor.

Definition shantin_multiple_forms (tiles34 called_melds bonus_chrs : loc)
  : M (list (form * Z)) :=
  let! partitions := partition tiles34 in
  let! melds := load_groups called_melds in
  let! r_normal := lift_opt (Partition._shantin_normal partitions (Py.len melds)) in
  let! chrs := load_tiles bonus_chrs in
  let! r_pinhu := lift_opt (Partition._shantin_pinhu partitions (Py.len melds) chrs) in
  let! r_no19 := lift_opt (Partition._shantin_no19 partitions melds) in
  let! r_no_seq := shantin_no_sequences tiles34 called_melds in
  let! r_pairs := shantin_seven_pairs tiles34 called_melds in
  let! ts := load_tiles tiles34 in
  let! r_color := lift_opt (Partition._shantin_pure_color ts melds partitions) in
  ret [(Normal, r_normal); (NoTriplets, r_pinhu); (No19, r_no19);
       (NoSequences, r_no_seq); (SevenPairs, r_pairs); (PureColor, r_color)].

(** *** WinWaitCal over the store *)

(** one branch of [parse_nums] *)
Definition parse_branch (rec : loc -> M (option (list (list (list Z)))))
           (cond : bool) (group : list Z) (rest : M loc) : M (list (list (list Z))) :=
  if cond then
    let! r := rest in
    let! rec_res := rec r in
    ret (if WinParse.truthy rec_res then map (cons group) (WinParse.items rec_res) else [])
  else ret [].

Fixpoint parse_nums_rec (fuel : nat) (tiles : loc) : M (option (list (list (list Z)))) :=
  let! ts := load_tiles tiles in
  let n := Py.len ts in
  let t0 := Py.idx ts 0 in
  let t1 := Py.idx ts 1 in
  let t2 := Py.idx ts 2 in
  if n =? 0 then ret (Some [[[]]])
  else if n =? 1 then ret None
  else if n =? 2 then ret (if t0 =? t1 then Some [[ts]] else None)
  else if n =? 3 then
    let ismeld := ((t0 =? t1) && (t1 =? t2)) || ((t0 + 2 =? t1 + 1) && (t1 + 1 =? t2)) in
    ret (if ismeld then Some [[ts]] else None)
  else if n mod 3 =? 1 then ret None
  else
    match fuel with
    | O => ret None
    | S fuel' =>
      let rec := parse_nums_rec fuel' in
      let! r_pair := parse_branch rec ((n mod 3 =? 2) && (t0 =? t1))
                                  (Py.slice 0 2 ts) (new_tiles (skipn 2 ts)) in
      let! r_pon := parse_branch rec ((t0 =? t1) && (t1 =? t2))
                                 (Py.slice 0 3 ts) (new_tiles (skipn 3 ts)) in
      let! r_chow := parse_branch rec (Py.mem (t0 + 1) ts && Py.mem (t0 + 2) ts)
                                  [t0; t0 + 1; t0 + 2]
                                  (copy_without tiles [t0; t0 + 1; t0 + 2]) in
      let res := r_pair ++ r_pon ++ r_chow in
      ret (if Py.len res >? 0 then Some res else None)
    end.

Definition parse_nums (tiles : loc) : M (option (list (list (list Z)))) :=
  let! ts := load_tiles tiles in
  parse_nums_rec (List.length ts) tiles.

Definition parse_chrs (tiles : loc) : M (option (list (list (list Z)))) :=
  let! ts := load_tiles tiles in
  ret (WinParse.parse_chrs ts).

Definition win_parse (hand34 : loc) (final_tile : Z) : M (list (list (list Z))) :=
  let! hand := load_tiles hand34 in
  let! hand_total := new_tiles (hand ++ [final_tile]) in
  let! total := load_tiles hand_total in
  let res := WinParse.seven_pairs_res total in
  if WinParse.is_orphans total then ret (WinParse.orphans_res total)
  else
    let! _ := list_sort hand_total in
    let! total := load_tiles hand_total in
    let! hand_man := new_tiles (WinParse.hand_man total) in
    let! hand_pin := new_tiles (WinParse.hand_pin total) in
    let! hand_suo := new_tiles (WinParse.hand_suo total) in
    let! hand_chr := new_tiles (WinParse.hand_chr total) in
    let! man_parse := parse_nums hand_man in
    let! pin_parse := parse_nums hand_pin in
    let! suo_parse := parse_nums hand_suo in
    let! chr_parse := parse_chrs hand_chr in
    ret (WinParse.assemble res total man_parse pin_parse suo_parse chr_parse).

(** the arguments of [score_calculation] and [waiting_calculation] that
    are lists, as locations, and the others as values *)
Record context := {
  c_melds : loc;
  c_minkan : loc;
  c_ankan : loc;
  c_is_zimo : bool;
  c_player_wind : Z;
  c_round_wind : Z;
  c_reach : bool;
  c_bonus_num : Z;
  c_bonus_tiles : loc;
  c_benchan : Z;
  c_reach_stick : Z;
  c_is_dealer : bool
}.

Definition score_calculation (hand34 : loc) (final_tile : Z) (c : context)
  : M (option WinWaitCal.score_result) :=
  let! win_partitions := win_parse hand34 final_tile in
  let! melds := load_groups (c_melds c) in
  let! minkan := load_groups (c_minkan c) in
  let! ankan := load_groups (c_ankan c) in
  let! bonus_tiles := load_tiles (c_bonus_tiles c) in
  lift (WinWaitCal.score_partitions final_tile melds minkan ankan (c_is_zimo c)
                                    (c_player_wind c) (c_round_wind c) (c_reach c)
                                    (c_bonus_num c) bonus_tiles (c_benchan c)
                                    (c_reach_stick c) (c_is_dealer c) win_partitions).

Definition score_calculation_val (hand34 : loc) (final_tile : WinWaitCal.pyval)
           (c : context) : M (option WinWaitCal.score_result) :=
  match final_tile with
  | WinWaitCal.PInt t => score_calculation hand34 t c
  | WinWaitCal.PList _ => raise TypeError
  end.

Definition assign (hand34 : loc) (c : context) (t : Z) (waitings : WinWaitCal.waitings_t)
  : M WinWaitCal.waitings_t :=
  let! r := score_calculation hand34 t c in
  ret (dict_set Z.eqb t r waitings).

Fixpoint assign_all (hand34 : loc) (c : context) (ts : list Z)
         (waitings : WinWaitCal.waitings_t) : M WinWaitCal.waitings_t :=
  match ts with
  | [] => ret waitings
  | t :: ts' =>
    let! w := assign hand34 c t waitings in
    assign_all hand34 c ts' w
  end.

Fixpoint try_all (hand34 : loc) (c : context) (pts : list WinWaitCal.pyval)
         (waitings : WinWaitCal.waitings_t) : M WinWaitCal.waitings_t :=
  match pts with
  | [] => ret waitings
  | pt :: pts' =>
    let! score_dict := score_calculation_val hand34 pt c in
    match score_dict, pt with
    | Some r, WinWaitCal.PInt t => try_all hand34 c pts' (dict_set Z.eqb t (Some r) waitings)
    | Some r, WinWaitCal.PList _ => raise TypeError
    | None, _ => try_all hand34 c pts' waitings
    end
  end.

Definition waiting_calculation (hand34 : loc) (c : context) : M WinWaitCal.waitings_t :=
  let! hand := load_tiles hand34 in
  let waitings : WinWaitCal.waitings_t := [] in
  let distinct := Py.len (Py.set hand) in
  if (Py.len hand =? 13) && (distinct =? 7) then
    let pairs := List.filter (fun t => Py.count t hand =? 2) (Py.set hand) in
    let single := List.filter (fun t => Py.count t hand =? 1) (Py.set hand) in
    if (Py.len pairs =? 6) && (Py.len single =? 1)
    then assign hand34 c (Py.idx single 0) waitings
    else ret waitings
  else if (Py.len hand =? 13) && (distinct >=? 12) then
    let metrics_19 := map (fun t => Py.count t hand) Tile.ONENINE in
    if Py.count 1 metrics_19 =? 13 then assign_all hand34 c Tile.ONENINE waitings
    else if (Py.count 1 metrics_19 =? 11) && (Py.count 2 metrics_19 =? 1) then
      match List.filter (fun t => negb (Py.mem t hand)) Tile.ONENINE with
      | wait :: _ => assign hand34 c wait waitings
      | [] => raise IndexError
      end
    else ret waitings
  else try_all hand34 c (WinWaitCal.possible_tiles hand) waitings.

Close Scope store_scope.

End Store.

(** ** Notions used by the statements and their proofs *)

(** "Rounded up to the next 100", as the specification words it: the least
    multiple of 100 that is not below [x]. *)
Definition rounds_up_100 (x r : Z) : Prop :=
  (exists k, r = 100 * k) /\ x <= r < x + 100.

(** strictly ascending lists, the shape [Py.set] builds *)
Inductive ascending : list Z -> Prop :=
| asc_nil : ascending []
| asc_one x : ascending [x]
| asc_cons x y l : x < y -> ascending (y :: l) -> ascending (x :: y :: l).

(** The six branches of [Partition.candidates] as data: the condition,
    the group taken off and the tiles left to the recursive call. *)
Definition branches (tiles34 : list Z) : list (bool * (list Z * list Z)) :=
  let t0 := Py.idx tiles34 0 in
  let t1 := Py.idx tiles34 1 in
  let t2 := Py.idx tiles34 2 in
  [ ((t0 =? t1) && (t1 =? t2), (Py.slice 0 3 tiles34, skipn 3 tiles34));
    (Py.mem (t0 + 1) tiles34 && Py.mem (t0 + 2) tiles34,
     ([t0; t0 + 1; t0 + 2],
      Py.remove (t0 + 2) (Py.remove (t0 + 1) (Py.remove t0 tiles34))));
    (Py.mem (t0 + 1) tiles34,
     ([t0; t0 + 1], Py.remove (t0 + 1) (Py.remove t0 tiles34)));
    (Py.mem (t0 + 2) tiles34,
     ([t0; t0 + 2], Py.remove (t0 + 2) (Py.remove t0 tiles34)));
    (t0 =? t1, (Py.slice 0 2 tiles34, skipn 2 tiles34));
    (true, (Py.slice 0 1 tiles34, skipn 1 tiles34)) ].

Definition run_branch (rec : list Z -> option (list (list (list Z))))
           (b : bool * (list Z * list Z)) : option (list (list (list Z))) :=
  Partition.branch rec (fst b) (fst (snd b)) (snd (snd b)).

(** The shapes the shanten formula of the specification counts in a
    decomposition: a run is three consecutive tiles, a triplet three equal
    tiles, a pair two equal tiles, a partial two unequal tiles at most two
    apart. *)
Definition is_run (m : list Z) : bool :=
  match m with
  | [a; b; c] => (b =? a + 1) && (c =? a + 2)
  | _ => false
  end.

Definition is_triplet (m : list Z) : bool :=
  match m with
  | [a; b; c] => (a =? b) && (b =? c)
  | _ => false
  end.

Definition is_pair (m : list Z) : bool :=
  match m with
  | [a; b] => a =? b
  | _ => false
  end.

Definition is_partial (m : list Z) : bool :=
  match m with
  | [a; b] => (Z.abs (a - b) =? 1) || (Z.abs (a - b) =? 2)
  | _ => false
  end.

Definition count_groups (f : list Z -> bool) (p : list (list Z)) : Z :=
  Z.of_nat (List.length (List.filter f p)).

(** The shanten of one decomposition, in the words of the specification. *)
Definition spec_shanten (called_meld_count : Z) (p : list (list Z)) : Z :=
  let runs := count_groups is_run p in
  let triplets := count_groups is_triplet p in
  let pairs := count_groups is_pair p in
  let partials := count_groups is_partial p in
  let needed_sets := (4 - called_meld_count) - runs - triplets in
  if 0 <? pairs then
    let reserve_partials := partials + pairs - 1 in
    if needed_sets <=? reserve_partials
    then needed_sets - 1
    else 2 * needed_sets - reserve_partials - 1
  else
    if needed_sets <=? partials
    then needed_sets
    else 2 * needed_sets - partials.

(** The groups a decomposition is made of: two tiles are at most two
    apart, three tiles are a triplet or a run. *)
Definition group_ok (m : list Z) : bool :=
  match m with
  | [a; b] => Z.abs (a - b) <? 3
  | [_; _; _] => is_triplet m || is_run m
  | _ => true
  end.

(** Hands on which the statements are instantiated.  Thirteen orphans
    completed on the red dragon; a closed all-simples hand completed by
    ron on its pair tile, which is also a dora; a hand with one called run
    whose four souths are kept concealed, completed by ron on the 5 of
    characters. *)
Definition orphans_hand : list Z := [0; 8; 9; 17; 18; 26; 27; 28; 29; 30; 31; 32; 32].

Definition orphans_partition : list (list Z) :=
  [[0]; [8]; [9]; [17]; [18]; [26]; [27]; [28]; [29]; [30]; [31]; [32; 32]; [33]].

Definition orphans_han : HanCalculation.han_result :=
  {| HanCalculation.han := [];
     HanCalculation.ykman := [(HanCalculation.Yaku HanCalculation.Kokushi, 1)];
     HanCalculation.han_sum := 0;
     HanCalculation.yk_sum := 1 |}.

Definition simples_hand : list Z := [1; 2; 3; 4; 5; 6; 10; 11; 12; 20; 21; 22; 24].

Definition simples_partition : list (list Z) :=
  [[1; 2; 3]; [4; 5; 6]; [10; 11; 12]; [20; 21; 22]; [24; 24]].

Definition simples_han : HanCalculation.han_result :=
  {| HanCalculation.han := [(HanCalculation.Yaku HanCalculation.Riichi1, 1);
                            (HanCalculation.Yaku HanCalculation.Tanyao1, 1)];
     HanCalculation.ykman := [];
     HanCalculation.han_sum := 2;
     HanCalculation.yk_sum := 0 |}.

Definition simples_fu : FuCalculation.fu_result :=
  {| FuCalculation.fu := [(FuCalculation.SingleWait2, 2); (FuCalculation.MenqingRon10, 10)];
     FuCalculation.fu_sum := 12;
     FuCalculation.fu_round := 20 |}.

Definition souths_hand : list Z := [1; 1; 2; 3; 27; 27; 28; 28; 28; 28].

Definition souths_partition : list (list Z) :=
  [[1; 1]; [2; 3; 4]; [27; 27]; [28; 28; 28; 28]].

(** The fu awards, as the specification itemizes them.  Each triplet of
    the concealed hand, each called triplet, each open quad and each closed
    quad gives one award, named by its category; [group_awards] lists them
    in the order hand, called melds, open quads, closed quads. *)
Section FuAwards.

Variables (hand_partition : list (list Z)) (final_tile : Z)
          (melds minkan ankan : list (list Z)) (is_zimo : bool)
          (player_wind round_wind : Z).

Definition hand_triplet_award (m : list Z) : list (FuCalculation.fu_key * Z) :=
  if is_triplet m then
    let concealed := is_zimo || negb (final_tile =? Py.idx m 0) in
    if Py.mem (Py.idx m 0) Tile.ONENINE then
      if concealed then [(FuCalculation.YaojiuAnke8, 8)]
      else [(FuCalculation.YaojiuMingke4, 4)]
    else
      if concealed then [(FuCalculation.ZhongzhangAnke4, 4)]
      else [(FuCalculation.ZhongzhangMingke2, 2)]
  else [].

Definition meld_triplet_award (m : list Z) : list (FuCalculation.fu_key * Z) :=
  if Py.idx m 0 =? Py.idx m 1 then
    if Py.mem (Py.idx m 0) Tile.ONENINE
    then [(FuCalculation.YaojiuMingke4, 4)]
    else [(FuCalculation.ZhongzhangMingke2, 2)]
  else [].

Definition minkan_award (mk : list Z) : list (FuCalculation.fu_key * Z) :=
  if Py.mem (Py.idx mk 0) Tile.ONENINE
  then [(FuCalculation.YaojiuMinggang16, 16)]
  else [(FuCalculation.ZhongzhangMinggang8, 8)].

Definition ankan_award (ak : list Z) : list (FuCalculation.fu_key * Z) :=
  if Py.mem (Py.idx ak 0) Tile.ONENINE
  then [(FuCalculation.YaojiuAngang32, 32)]
  else [(FuCalculation.ZhongzhangAngang16, 16)].

Definition group_awards : list (FuCalculation.fu_key * Z) :=
  flat_map hand_triplet_award hand_partition
  ++ flat_map meld_triplet_award melds
  ++ flat_map minkan_award minkan
  ++ flat_map ankan_award ankan.

(** +2 for a pair of dragons, +2 for a pair of the seat wind, +2 for a
    pair of the round wind *)
Definition pair_award (pr : list Z) : Z :=
  (if Py.mem (Py.idx pr 0) Tile.THREES then 2 else 0)
  + (if Py.idx pr 0 =? player_wind then 2 else 0)
  + (if Py.idx pr 0 =? round_wind then 2 else 0).

(** +2 for a single wait (the winning tile is the pair tile and no run
    holds it), or when every run that holds the winning tile holds it in
    the middle or at the inner end of a terminal run *)
Definition wait_award (pr : list Z) : Z :=
  let runs_with_final :=
      FuCalculation.with_final final_tile (FuCalculation.chows_of hand_partition melds) in
  match runs_with_final with
  | [] => if Py.idx pr 0 =? final_tile then 2 else 0
  | _ :: _ => if forallb (FuCalculation.closed_or_edge final_tile) runs_with_final
              then 2 else 0
  end.

(** +2 for self-draw, +10 for ron with no called meld and no open quad *)
Definition win_award : Z :=
  if is_zimo then 2
  else match melds ++ minkan with
       | [] => 10
       | _ :: _ => 0
       end.


End FuAwards.



(** [add_base] for each entry of a list, in order *)
Definition add_all (calls : list (FuCalculation.fu_key * Z)) (fu : FuCalculation.fu_dict)
  : FuCalculation.fu_dict :=
  fold_left (fun fu kv => FuCalculation.add_base (snd kv) (fst kv) fu) calls fu.

(** The entries that [check_pair], [check_waiting_type] and
    [check_win_type] add, as lists, and the categories of the triplet and
    quad awards. *)
Definition pair_calls (player_wind round_wind : Z) (pr : list Z)
  : list (FuCalculation.fu_key * Z) :=
  (if Py.mem (Py.idx pr 0) Tile.THREES then [(FuCalculation.YakuPair2, 2)] else [])
  ++ (if Py.idx pr 0 =? player_wind then [(FuCalculation.SeatWindPair2, 2)] else [])
  ++ (if Py.idx pr 0 =? round_wind then [(FuCalculation.RoundWindPair2, 2)] else []).

Definition wait_calls (hand_partition : list (list Z)) (final_tile : Z)
           (melds : list (list Z)) (pr : list Z) : list (FuCalculation.fu_key * Z) :=
  let chws := FuCalculation.with_final final_tile
                                       (FuCalculation.chows_of hand_partition melds) in
  if (Py.idx pr 0 =? final_tile) && (Py.len chws =? 0)
  then [(FuCalculation.SingleWait2, 2)]
  else if (Py.len chws >? 0) && forallb (FuCalculation.closed_or_edge final_tile) chws
       then [(FuCalculation.EdgeClosedWait2, 2)]
       else [].

Definition win_calls (melds minkan : list (list Z)) (is_zimo : bool)
  : list (FuCalculation.fu_key * Z) :=
  (if is_zimo then [(FuCalculation.Zimo2, 2)] else [])
  ++ (if negb is_zimo && (Py.len (melds ++ minkan) =? 0)
      then [(FuCalculation.MenqingRon10, 10)] else []).

Definition group_key (k : FuCalculation.fu_key) : bool :=
  match k with
  | FuCalculation.YaojiuAnke8 | FuCalculation.YaojiuMingke4
  | FuCalculation.ZhongzhangAnke4 | FuCalculation.ZhongzhangMingke2
  | FuCalculation.YaojiuMinggang16 | FuCalculation.ZhongzhangMinggang8
  | FuCalculation.YaojiuAngang32 | FuCalculation.ZhongzhangAngang16 => true
  | _ => false
  end.

(** the frame of a computation over the store: started in any store that
    extends [h0], it ends in a store that still extends [h0], every object
    of [h0] at its location and with its contents, and a result it returns
    satisfies [Q] *)
Definition frames {A} (h0 : Store.heap) (m : Store.M A) (Q : A -> Prop) : Prop :=
  forall h : Store.heap,
    h0 ⊆ h -> h0 ⊆ snd (m h) /\ forall a, fst (m h) = Ok a -> Q a.

(** every object of [h] is an object of [h'], at the same location and
    with the same contents *)
Definition unchanged (h h' : Store.heap) : Prop :=
  forall (l : Store.loc) (o : Store.obj), h !! l = Some o -> h' !! l = Some o.

(** the location is not one of [h0] *)
Definition private (h0 : Store.heap) (l : Store.loc) : Prop := h0 !! l = None.

(** a computation over the store returns what the function on values
    returns, and keeps the store it was started in *)
Definition refines {A} (h : Store.heap) (m : Store.M A) (v : outcome A) : Prop :=
  exists h' : Store.heap, m h = (v, h') /\ h ⊆ h'.

(** a computation returns a new list of tiles [ts] *)
Definition yields (h : Store.heap) (m : Store.M Store.loc) (ts : list Z) : Prop :=
  exists (l : Store.loc) (h' : Store.heap),
    m h = (Ok l, h') /\ h ⊆ h' /\ h' !! l = Some (Store.Tiles ts).

(** "no value" of the functions on values, as the exception it stands for *)
Definition of_option {A} (v : option A) : outcome A :=
  match v with
  | Some a => Ok a
  | None => Raise ValueError
  end.



(** the decomposition of the docstring of [score_calculation]: two
    concealed triplets of the same category *)
Definition two_triplets_partition : list (list Z) :=
  [[0; 0; 0]; [11; 12; 13]; [24; 25; 26]; [27; 27]; [28; 28; 28]].

(** [xs] can be removed from [ts] one after the other: no [remove]
    raises *)
Fixpoint removable (xs ts : list Z) : bool :=
  match xs with
  | [] => true
  | x :: xs' => Py.mem x ts && removable xs' (Py.remove x ts)
  end.

(** [ts] after the removals *)
Definition without (xs ts : list Z) : list Z :=
  fold_left (fun ts x => Py.remove x ts) xs ts.

(** the list of lists [gs] is at [l], each inner list at its own location *)
Definition holds_groups (h : Store.heap) (l : Store.loc) (gs : list (list Z)) : Prop :=
  exists locs : list Store.loc,
    h !! l = Some (Store.Groups locs)
    /\ Forall2 (fun loc g => h !! loc = Some (Store.Tiles g)) locs gs.

(** ** Tile: conversions between the forms of a tile

    The static methods of [Tile]: tiles of game logs (11-19, 21-29, 31-39,
    41-47, and 51-53 for the red fives) to the 34-form, bonus indicators to
    bonus tiles, the winds as seen from a seat, and the string of a hand.
    A method that takes "a single tile or a list of tiles" takes a
    [WinWaitCal.pyval]; a dictionary lookup [d[k]] that raises KeyError has
    no value here ([None]). *)

Module TileOps.

Import WinWaitCal.

Definition his_to_34_dic : list (Z * Z) :=
  [(11, 0); (12, 1); (13, 2); (14, 3); (15, 4); (16, 5); (17, 6); (18, 7); (19, 8);
   (21, 9); (22, 10); (23, 11); (24, 12); (25, 13); (26, 14); (27, 15); (28, 16); (29, 17);
   (31, 18); (32, 19); (33, 20); (34, 21); (35, 22); (36, 23); (37, 24); (38, 25); (39, 26);
   (41, 27); (42, 28); (43, 29); (44, 30); (45, 31); (46, 32); (47, 33);
   (51, 4); (52, 13); (53, 22)].

Definition bns_ind_bd_dic : list (Z * Z) :=
  [(8, 0); (17, 9); (26, 18); (30, 27); (33, 31); (34, 5); (35, 14); (36, 23)].

Definition tile_desc_list : list String.string :=
  ["1m"; "2m"; "3m"; "4m"; "5m"; "6m"; "7m"; "8m"; "9m";
   "1p"; "2p"; "3p"; "4p"; "5p"; "6p"; "7p"; "8p"; "9p";
   "1s"; "2s"; "3s"; "4s"; "5s"; "6s"; "7s"; "8s"; "9s";
   "E"; "S"; "W"; "N"; "B"; "F"; "C"]%string.

(** [d[k]] on a dictionary with integer keys: [None] is the KeyError *)
Fixpoint lookup_key (k : Z) (d : list (Z * Z)) : option Z :=
  match d with
  | [] => None
  | (k', v) :: r => if k =? k' then Some v else lookup_key k r
  end.

(** [Tile.bns_ind_bd_dic.get(b, b + 1)] *)
Definition bonus_of (b : Z) : Z :=
  match lookup_key b bns_ind_bd_dic with
  | Some t => t
  | None => b + 1
  end.

(** [cal_bonus_tiles]: a list in both cases *)
Definition cal_bonus_tiles (bonus_indicators_34 : pyval) : list Z :=
  match bonus_indicators_34 with
  | PInt b => [bonus_of b]
  | PList bs => map bonus_of bs
  end.

(** [his_to_34]: a tile for a tile, a list for a list *)
Definition his_to_34 (tiles : pyval) : option pyval :=
  match tiles with
  | PInt t => PInt <$> lookup_key t his_to_34_dic
  | PList ts => PList <$> mapM (fun t => lookup_key t his_to_34_dic) ts
  end.

(** [t60_to_bns] *)
Definition t60_to_bns (tiles60 : pyval) : option pyval :=
  match tiles60 with
  | PInt _ =>
    t ← his_to_34 tiles60;
    match t with
    | PInt t34 => Some (PInt (bonus_of t34))
    | PList _ => None
    end
  | PList _ =>
    ts ← his_to_34 tiles60;
    match ts with
    | PList l34 => Some (PList (map bonus_of l34))
    | PInt _ => None
    end
  end.

(** the bound [i] of a slice of a list of length [n], as Python
    normalizes it: a negative bound counts from the end, and both ends
    are clipped *)
Definition bound (n i : Z) : nat :=
  Z.to_nat (if i <? 0 then Z.max 0 (n + i) else Z.min i n).

(** [l[i:]] and [l[0:j]] *)
Definition slice_from {A} (i : Z) (l : list A) : list A := skipn (bound (Py.len l) i) l.
Definition slice_to {A} (j : Z) (l : list A) : list A := firstn (bound (Py.len l) j) l.

(** [self_wind] *)
Definition self_wind (dealer : Z) : list Z :=
  slice_from (4 - dealer) Tile.WINDS ++ slice_to (4 - dealer) Tile.WINDS.

(** [same_type] *)
Definition same_type (tile34_1 tile34_2 : Z) : bool := tile34_1 / 9 =? tile34_2 / 9.

(** [str(n)] of an integer *)
Definition str (n : Z) : String.string :=
  DecimalString.NilZero.string_of_int (Z.to_int n).

(** [''.join(l)] *)
Definition join (l : list String.string) : String.string :=
  String.concat String.EmptyString l.

(** [Tile.tile_desc_list[ch]] for [ch >= 27] *)
Definition desc (ch : Z) : outcome String.string :=
  match nth_error tile_desc_list (Z.to_nat ch) with
  | Some d => Ok d
  | None => Raise IndexError
  end.

(** the string [t34_to_str] builds from the sorted tiles *)
Definition str_of_sorted (tiles : list Z) : outcome String.string :=
  let man := List.filter (fun t => t <? 9) tiles in
  let pin := map (fun t => t - 9) (List.filter (fun t => (9 <=? t) && (t <? 18)) tiles) in
  let suo := map (fun t => t - 18) (List.filter (fun t => (18 <=? t) && (t <? 27)) tiles) in
  let chr := List.filter (fun t => t >=? 27) tiles in
  let m := if WinParse.nonempty man
           then String.append (join (map (fun m => str (m + 1)) man)) "m"
           else String.EmptyString in
  let p := if WinParse.nonempty pin
           then String.append (join (map (fun p => str (p + 1)) pin)) "p"
           else String.EmptyString in
  let s := if WinParse.nonempty suo
           then String.append (join (map (fun b => str (b + 1)) suo)) "s"
           else String.EmptyString in
  z ← (if WinParse.nonempty chr
       then descs ← mapM desc chr; Ok (join descs)
       else Ok String.EmptyString);
  Ok (String.append m (String.append p (String.append s z))).

(** [t34_to_str], as a function of the tiles; [tiles.sort()] is on the
    list of the caller, see [t34_to_str_h] *)
Definition t34_to_str (tiles : list Z) : outcome String.string :=
  str_of_sorted (Py.sort tiles).

(** [t136_to_str] *)
Definition t136_to_str (tiles : list Z) : outcome String.string :=
  t34_to_str (map (fun t => t / 4) tiles).

(** [t34_to_str] and [t136_to_str] over the store *)
Definition t34_to_str_h (tiles : Store.loc) : Store.M String.string :=
  Store.bind (Store.list_sort tiles) (fun _ =>
  Store.bind (Store.load_tiles tiles) (fun ts =>
  Store.lift (str_of_sorted ts))).

Definition t136_to_str_h (tiles : Store.loc) : Store.M String.string :=
  Store.bind (Store.load_tiles tiles) (fun ts =>
  Store.bind (Store.new_tiles (map (fun t => t / 4) ts)) (fun tiles34 =>
  t34_to_str_h tiles34)).

End TileOps.

(** ** Notions used by the statements on [Tile] *)

(** the tile of a game-log code, read off its digits: the tens digit is
    the suit and the units digit the rank of a number tile, 41-47 are
    the honors in order, 51-53 the fives of the three suits *)
Definition his_value (c : Z) : option Z :=
  if (1 <=? c / 10) && (c / 10 <=? 3) && (1 <=? c mod 10)
  then Some (9 * (c / 10 - 1) + (c mod 10 - 1))
  else if (41 <=? c) && (c <=? 47) then Some (c - 14)
  else if (51 <=? c) && (c <=? 53) then Some (9 * (c - 51) + 4)
  else None.

(** the tile after [b] in its cycle: the nine ranks of a suit, the four
    winds, the three dragons *)
Definition next_tile (b : Z) : Z :=
  if b <? 27 then 9 * (b / 9) + (b mod 9 + 1) mod 9
  else if b <? 31 then 27 + (b - 27 + 1) mod 4
  else 31 + (b - 31 + 1) mod 3.

(** equality test on optional integers *)
Definition opt_eqb (a b : option Z) : bool :=
  match a, b with
  | Some x, Some y => x =? y
  | None, None => true
  | _, _ => false
  end.

(** ** Notions used by the statements on the score table *)

(** a fu value as [fu_calculation] rounds it: 25, or a multiple of 10 *)
Definition fu_rounded (fu : Z) : Prop :=
  0 <= fu <= 120 /\ (fu mod 10 = 0 \/ fu = 25).

Definition fu_values : list Z := [0; 10; 20; 25; 30; 40; 50; 60; 70; 80; 90; 100; 110; 120].

(** the payment of the limit hand of [han]: mangan up to 5 han, haneman
    up to 7, baiman up to 10, sanbaiman up to 12, yakuman from 13; a
    dealer receives six times the basic points, another player four *)
Definition limit_pay (han : Z) (is_dealer : bool) : Z :=
  (if is_dealer then 6 else 4)
  * (if han <=? 5 then 2000 else if han <=? 7 then 3000
     else if han <=? 10 then 4000 else if han <=? 12 then 6000 else 8000).

(** the checks of the score table over the han counts 1..13, the fu
    values and the four kinds of win *)
Definition table_cases : list (Z * bool * bool) :=
  flat_map (fun fu => [(fu, false, false); (fu, false, true);
                       (fu, true, false); (fu, true, true)]) fu_values.

Definition pay (han : Z) (c : Z * bool * bool) : Z :=
  let '(fu, is_dealer, is_zimo) := c in
  fst (score_calculation_base han fu is_dealer is_zimo).

Definition table_bounded : bool :=
  forallb (fun han =>
    forallb (fun c => (0 <=? pay han c) && (pay han c <=? limit_pay han (snd (fst c)))
                      && (pay han c mod 100 =? 0)
                      && ((han <? 5) || (pay han c =? limit_pay han (snd (fst c)))))
            table_cases)
    (Py.range 1 14).

Definition table_monotone : bool :=
  forallb (fun han =>
    forallb (fun c => pay han c <=? pay (han + 1) c) table_cases)
    (Py.range 1 13).

(** ** Notions used by the statements on fu and han *)

(** the fu of an award, by its key *)
Definition award_value (k : FuCalculation.fu_key) : Z :=
  match k with
  | FuCalculation.SevenPairs25 => 25
  | FuCalculation.PinfuTsumo20 => 20
  | FuCalculation.OpenPinfuRon30 => 30
  | FuCalculation.YaojiuAnke8 => 8
  | FuCalculation.YaojiuMingke4 => 4
  | FuCalculation.ZhongzhangAnke4 => 4
  | FuCalculation.ZhongzhangMingke2 => 2
  | FuCalculation.YaojiuMinggang16 => 16
  | FuCalculation.ZhongzhangMinggang8 => 8
  | FuCalculation.YaojiuAngang32 => 32
  | FuCalculation.ZhongzhangAngang16 => 16
  | FuCalculation.MenqingRon10 => 10
  | _ => 2
  end.

(** the keys of the triplet and quad awards *)
Definition group_keys : list FuCalculation.fu_key :=
  [FuCalculation.YaojiuAnke8; FuCalculation.YaojiuMingke4;
   FuCalculation.ZhongzhangAnke4; FuCalculation.ZhongzhangMingke2;
   FuCalculation.YaojiuMinggang16; FuCalculation.ZhongzhangMinggang8;
   FuCalculation.YaojiuAngang32; FuCalculation.ZhongzhangAngang16].

(** a fu dictionary with one entry per key, each with the fu of its key *)
Definition well_keyed (d : FuCalculation.fu_dict) : Prop :=
  List.NoDup (dict_keys d) /\ forall k v, In (k, v) d -> v = award_value k.

(** the entries of the two han dictionaries are in their ranges: a yaku
    counts 1 to 6 han, a yakuman counts 1 *)
Definition han_bounds (d : HanCalculation.dicts) : Prop :=
  (forall k v, In (k, v) (HanCalculation.d_han d) -> 1 <= v <= 6)
  /\ (forall k v, In (k, v) (HanCalculation.d_ykman d) -> v = 1).

(** [k in d] for a han dictionary *)
Definition has_key (x : HanCalculation.han_key) (d : HanCalculation.han_dict) : bool :=
  existsb (HanCalculation.han_key_eqb x) (dict_keys d).

Definition no_entries : HanCalculation.dicts :=
  {| HanCalculation.d_han := []; HanCalculation.d_ykman := [] |}.

(** whether a check, run on empty dictionaries, enters the yaku [x] *)
Definition enters (f : HanCalculation.dicts -> HanCalculation.dicts)
           (x : HanCalculation.han_key) : bool :=
  has_key x (HanCalculation.d_han (f no_entries)).

Definition enters_o (f : HanCalculation.dicts -> outcome HanCalculation.dicts)
           (x : HanCalculation.han_key) : bool :=
  match f no_entries with
  | Ok d => has_key x (HanCalculation.d_han d)
  | Raise _ => false
  end.

(** whether one of the checks of [han_calculation], in their order,
    enters the yaku [x] *)
Definition entered (hand_partition : list (list Z)) (final_tile : Z)
           (melds minkan ankan : list (list Z)) (is_zimo : bool)
           (player_wind round_wind : Z) (reach : bool)
           (x : HanCalculation.han_key) : bool :=
  fold_left orb
    [enters (HanCalculation.check_all_single_one_nine hand_partition) x;
     enters (HanCalculation.check_seven_pairs hand_partition) x;
     enters (HanCalculation.check_win_type melds minkan is_zimo reach) x;
     enters (HanCalculation.check_dori hand_partition melds minkan ankan
                                       player_wind round_wind) x;
     enters (HanCalculation.check_no19 hand_partition melds minkan ankan) x;
     enters_o (HanCalculation.check_flat_win hand_partition final_tile melds minkan
                                             player_wind round_wind) x;
     enters (HanCalculation.check_1to9 hand_partition melds minkan ankan) x;
     enters_o (HanCalculation.check_all_pons hand_partition melds minkan ankan) x;
     enters (HanCalculation.check_threes hand_partition melds minkan ankan) x;
     enters (HanCalculation.check_all19 hand_partition melds minkan ankan) x;
     enters (HanCalculation.check_3pons_same_color hand_partition melds minkan ankan) x;
     enters (HanCalculation.check_3chows_same_color hand_partition melds minkan ankan) x;
     enters (HanCalculation.check_3kans hand_partition melds minkan ankan) x;
     enters (HanCalculation.check_multiple_same_chow hand_partition melds minkan ankan) x;
     enters (HanCalculation.check_pure_color hand_partition melds minkan ankan) x;
     enters (HanCalculation.check_pure_green hand_partition melds minkan ankan) x;
     enters_o (HanCalculation.check_4ankans hand_partition final_tile melds minkan ankan
                                            is_zimo) x;
     enters (HanCalculation.check_four_honors hand_partition melds minkan ankan) x;
     enters (HanCalculation.check_all_characters hand_partition melds minkan ankan) x;
     enters (HanCalculation.check_9lotus hand_partition melds minkan ankan) x]
    false.

(** all the tiles are number tiles of one suit; all are of one suit or
    honors *)
Definition single_suit (tiles : list Z) : Prop :=
  exists typ, In typ [0; 9; 18] /\ forall t, In t tiles -> typ <= t < typ + 9.

Definition suit_and_honors (tiles : list Z) : Prop :=
  exists typ, In typ [0; 9; 18]
              /\ forall t, In t tiles -> typ <= t < typ + 9 \/ 27 <= t < 34.

(** ** Notions used by the statements on [win_parse] *)

(** two or more copies of one tile: a pair, a triplet, four of a kind *)
Definition is_copies (m : list Z) : bool :=
  match m with
  | a :: (_ :: _) as r => forallb (Z.eqb a) r
  | _ => false
  end.

(** a group of a winning decomposition: copies of a tile, or a run *)
Definition win_group (m : list Z) : Prop := is_copies m = true \/ is_run m = true.

(** what [parse_nums] returns for [tiles]: groups that hold exactly the
    tiles, each a winning group or the empty group of the empty suit *)
Definition parses (tiles : list Z) (p : list (list Z)) : Prop :=
  Permutation (concat p) tiles /\ List.Forall (fun m => m = [] \/ win_group m) p.

(** ** PreProcessing.PlayerState.is_winning *)

Module PreProcessing.

(** The fields of a [PlayerState] that hold tiles, winds and the riichi
    flag; [is_winning] reads the hand, the called melds and quads, the
    two winds and the flag. *)
Record PlayerState := {
  s_hand34 : list Z;
  s_meld34 : list (list Z);
  s_discard34 : list Z;
  s_minkan : list (list Z);
  s_ankan : list (list Z);
  s_red_fives : list Z;
  s_player_wind : Z;
  s_round_wind : Z;
  s_reach : bool;
  s_bonus_tiles_34 : list Z
}.

Section is_winning.

Variables (self : PlayerState) (final_tile : Z) (is_zimo : bool).

(** the loop over the decompositions: the first one with a positive han
    or yakuman sum ends it with [True] *)
Fixpoint is_winning_loop (partitions : list (list (list Z))) : outcome bool :=
  match partitions with
  | [] => Ok false
  | p :: partitions' =>
    han ← HanCalculation.han_calculation p final_tile (s_meld34 self) (s_minkan self)
                                         (s_ankan self) is_zimo (s_player_wind self)
                                         (s_round_wind self) (s_reach self);
    if (HanCalculation.han_sum han >? 0) || (HanCalculation.yk_sum han >? 0)
    then Ok true
    else is_winning_loop partitions'
  end.

Definition is_winning : outcome bool :=
  is_winning_loop (WinParse.win_parse (s_hand34 self) final_tile).

End is_winning.

End PreProcessing.

(** ** Notions used by the statement on the hands [win_parse] accepts *)

(** ascending lists with repetitions, the shape [Py.sort] builds *)
Inductive nondecreasing : list Z -> Prop :=
| nd_nil : nondecreasing []
| nd_cons x l : (forall y, In y l -> x <= y) -> nondecreasing l -> nondecreasing (x :: l).

(** a run inside one of the three number suits *)
Definition suit_run (m : list Z) : bool :=
  is_run m && (Py.idx m 0 <? 27) && (Py.idx m 0 mod 9 <? 7).

(** a pair, a triplet or a run *)
Definition hand_group (m : list Z) : Prop :=
  is_pair m = true \/ is_triplet m = true \/ is_run m = true.

(** the groups whose first tile passes [f] *)
Definition groups_of (f : Z -> bool) (gs : list (list Z)) : list (list Z) :=
  List.filter (fun g => f (Py.idx g 0)) gs.

(** ** Notions used by the comparison of the shanten forms *)

(** the counters [v'] of a restricted form against the counters [v] of
    the standard form, over the same groups: no more pairs, no more sets,
    and no more sets and partials together *)
Definition geo_below (v' v : list Z) : Prop :=
  match v', v with
  | [b0; b1; b2; b3; b4; b5], [a0; a1; a2; a3; a4; a5] =>
    0 <= b0 /\ 0 <= b1 /\ 0 <= b2 /\ 0 <= b3 <= a3 /\ 0 <= b4 /\ 0 <= b5
    /\ 0 <= a1 /\ 0 <= a2
    /\ b4 <= a4 /\ b4 + b5 <= a4 + a5
    /\ b1 + b2 + b4 + b5 <= a1 + a2 + a4 + a5
  | _, _ => False
  end.

(** ** Notions used by the statements on the best decomposition *)

(** no call of [f] on an element of [l] raises *)
Definition all_return {A B} (f : A -> outcome B) (l : list A) : Prop :=
  forall a, In a l -> exists b, f a = Ok b.

(** [p] is the first decomposition of [ps] with the highest score, and [r]
    is what it scores: the decompositions before it score less, those
    after it do not score more *)
Definition first_best (candidate : list (list Z) -> outcome (option WinWaitCal.score_result))
           (ps : list (list (list Z))) (p : list (list Z)) (r : WinWaitCal.score_result)
  : Prop :=
  exists ps1 ps2,
    ps = ps1 ++ p :: ps2
    /\ candidate p = Ok (Some r)
    /\ (forall q r', In q ps1 -> candidate q = Ok (Some r') ->
                     WinWaitCal.score r' < WinWaitCal.score r)
    /\ (forall q r', In q ps2 -> candidate q = Ok (Some r') ->
                     WinWaitCal.score r' <= WinWaitCal.score r).

(** Boolean tests of the embedding, turned into propositions for [lia]. *)
Ltac zbool :=
  repeat match goal with
         | H : (_ >? _) = _ |- _ => rewrite Z.gtb_ltb in H
         | H : (_ >=? _) = _ |- _ => rewrite Z.geb_leb in H
         | H : (_ <? _) = true |- _ => apply Z.ltb_lt in H
         | H : (_ <? _) = false |- _ => apply Z.ltb_ge in H
         | H : (_ <=? _) = true |- _ => apply Z.leb_le in H
         | H : (_ <=? _) = false |- _ => apply Z.leb_gt in H
         | H : (_ =? _) = true |- _ => apply Z.eqb_eq in H
         | H : (_ =? _) = false |- _ => apply Z.eqb_neq in H
         | H : (_ && _) = true |- _ => apply andb_true_iff in H; destruct H
         | H : (_ || _) = false |- _ => apply orb_false_iff in H; destruct H
         | H : negb _ = true |- _ => apply negb_true_iff in H
         | H : negb _ = false |- _ => apply negb_false_iff in H
         end.

(** * Properties *)

(** ** The score table *)

Lemma rounds_up_100_code (x : Z) : rounds_up_100 x (((x - 1) / 100 + 1) * 100).
Proof.
  unfold rounds_up_100. split.
  - exists ((x - 1) / 100 + 1). lia.
  - pose proof (Z.div_mod (x - 1) 100 ltac:(lia)) as Hd.
    pose proof (Z.mod_pos_bound (x - 1) 100 ltac:(lia)) as Hm.
    lia.
Qed.

Lemma rounds_up_100_unique (x r r' : Z) :
  rounds_up_100 x r -> rounds_up_100 x r' -> r = r'.
Proof.
  intros [[k Hk] Hr] [[k' Hk'] Hr']. subst. lia.
Qed.

(** C7: below the mangan ceiling the four payment formulas of
    [score_calculation_base] hold, each amount being the least multiple of
    100 not below its base; 3 han 30 fu, non-dealer ron, is 3900. *)
Theorem score_calculation_base_below_cap (han fu : Z) (is_dealer is_zimo : bool) :
  1 <= han <= 4 ->
  ~ (fu >= 40 /\ han >= 4) ->
  ~ (fu >= 70 /\ han >= 3) ->
  (exists r1 r2 r4 r6,
      rounds_up_100 (fu * 2 ^ (han + 2)) r1
      /\ rounds_up_100 (fu * 2 ^ (han + 2) * 2) r2
      /\ rounds_up_100 (fu * 2 ^ (han + 2) * 4) r4
      /\ rounds_up_100 (fu * 2 ^ (han + 2) * 6) r6
      /\ fst (score_calculation_base han fu is_dealer is_zimo) =
         match is_dealer, is_zimo with
         | false, false => r4
         | true, false => r6
         | true, true => 3 * r2
         | false, true => r2 + 2 * r1
         end)
  /\ fst (score_calculation_base 3 30 false false) = 3900.
Proof.
  intros Hhan H4 H3. split; [| reflexivity].
  set (base := fu * 2 ^ (han + 2)).
  exists (((base - 1) / 100 + 1) * 100), (((base * 2 - 1) / 100 + 1) * 100),
         (((base * 4 - 1) / 100 + 1) * 100), (((base * 6 - 1) / 100 + 1) * 100).
  repeat split; try apply rounds_up_100_code.
  unfold score_calculation_base.
  destruct (han =? 0) eqn:E0; [zbool; lia |].
  destruct (han <? 5) eqn:E5; [| zbool; lia].
  destruct (((fu >=? 40) && (han >=? 4)) || ((fu >=? 70) && (han >=? 3))) eqn:Ecap.
  - exfalso. apply orb_true_iff in Ecap as [E | E]; zbool; lia.
  - fold base. destruct is_dealer, is_zimo; simpl; lia.
Qed.

Lemma score_calculation_base_below_cap_witness :
  (exists r1 r2 r4 r6,
      rounds_up_100 (30 * 2 ^ (3 + 2)) r1
      /\ rounds_up_100 (30 * 2 ^ (3 + 2) * 2) r2
      /\ rounds_up_100 (30 * 2 ^ (3 + 2) * 4) r4
      /\ rounds_up_100 (30 * 2 ^ (3 + 2) * 6) r6
      /\ fst (score_calculation_base 3 30 false false) = r4)
  /\ fst (score_calculation_base 3 30 false false) = 3900.
Proof.
  apply (score_calculation_base_below_cap 3 30 false false); lia.
Defined.

(** ** Facts about the list primitives *)

Lemma Py_mem_In (x : Z) (l : list Z) : Py.mem x l = true <-> In x l.
Proof.
  unfold Py.mem. rewrite existsb_exists. split.
  - intros [y [Hy Heq]]. apply Z.eqb_eq in Heq. now subst.
  - intros H. exists x. split; [assumption | apply Z.eqb_refl].
Qed.

Lemma Py_count_occ (x : Z) (l : list Z) :
  Py.count x l = Z.of_nat (count_occ Z.eq_dec l x).
Proof.
  unfold Py.count. f_equal. induction l as [| y l IH]; simpl; [reflexivity |].
  destruct (Z.eq_dec y x) as [-> | Hne].
  - rewrite Z.eqb_refl. simpl. now rewrite IH.
  - destruct (x =? y) eqn:E; [apply Z.eqb_eq in E; congruence | exact IH].
Qed.

Lemma insert_asc_In (x y : Z) (l : list Z) :
  In y (Py.insert_asc x l) <-> y = x \/ In y l.
Proof.
  induction l as [| z l IH]; simpl.
  - intuition.
  - destruct (x <? z) eqn:E1; simpl; [intuition |].
    destruct (x =? z) eqn:E2; simpl.
    + apply Z.eqb_eq in E2. subst. intuition.
    + rewrite IH. intuition.
Qed.

Lemma Py_set_In (y : Z) (l : list Z) : In y (Py.set l) <-> In y l.
Proof.
  induction l as [| x l IH]; simpl; [reflexivity |].
  rewrite insert_asc_In, IH. intuition.
Qed.

Lemma insert_asc_ascending (x : Z) (l : list Z) :
  ascending l -> ascending (Py.insert_asc x l).
Proof.
  induction 1 as [| y | y z l Hyz Hasc IH]; simpl.
  - constructor.
  - destruct (x <? y) eqn:E1; [constructor; [lia | constructor] |].
    destruct (x =? y) eqn:E2; constructor; try lia; constructor.
  - destruct (x <? y) eqn:E1.
    + constructor; [lia |]. now constructor.
    + destruct (x =? y) eqn:E2; [now constructor |].
      simpl in IH. destruct (x <? z) eqn:E3.
      * constructor; [lia | exact IH].
      * destruct (x =? z) eqn:E4; constructor; try lia; exact IH.
Qed.

Lemma Py_set_ascending (l : list Z) : ascending (Py.set l).
Proof.
  induction l as [| x l IH]; simpl; [constructor | now apply insert_asc_ascending].
Qed.

Lemma ascending_lower (x : Z) (l : list Z) :
  ascending (x :: l) -> forall y, In y l -> x < y.
Proof.
  revert x. induction l as [| z l IH]; intros x Hasc y Hin; [contradiction |].
  inversion Hasc; subst. destruct Hin as [-> | Hin]; [assumption |].
  specialize (IH z H3 y Hin). lia.
Qed.

Lemma ascending_NoDup (l : list Z) : ascending l -> List.NoDup l.
Proof.
  induction l as [| x l IH]; intros Hasc; [constructor |].
  constructor.
  - intros Hin. pose proof (ascending_lower x l Hasc x Hin). lia.
  - apply IH. inversion Hasc; subst; [constructor | assumption].
Qed.

Lemma Py_set_NoDup (l : list Z) : List.NoDup (Py.set l).
Proof. apply ascending_NoDup, Py_set_ascending. Qed.

Lemma filter_NoDup {A} (f : A -> bool) (l : list A) : List.NoDup l -> List.NoDup (List.filter f l).
Proof. apply List.NoDup_filter. Qed.

(** ** Seven pairs *)

(** C8: [shantin_seven_pairs] is the sentinel 10 as soon as a meld has
    been called; without calls it is 6 minus the number of distinct tile
    values that occur at least twice in the hand. *)
Theorem shantin_seven_pairs_spec (tiles34 : list Z) (called_melds : list (list Z)) :
  match called_melds with
  | _ :: _ => Partition.shantin_seven_pairs tiles34 called_melds = 10
  | [] =>
    exists twice : list Z,
      List.NoDup twice /\
      (forall t, In t twice <-> (2 <= count_occ Z.eq_dec tiles34 t)%nat) /\
      Partition.shantin_seven_pairs tiles34 called_melds = 6 - Z.of_nat (List.length twice)
  end.
Proof.
  destruct called_melds as [| m ms].
  - exists (List.filter (fun tile => Py.count tile tiles34 >=? 2) (Py.set tiles34)).
    split; [apply filter_NoDup, Py_set_NoDup |]. split; [| reflexivity].
    intros t. rewrite filter_In, Py_set_In, Py_count_occ. split.
    + intros [_ H]. lia.
    + intros H. split; [| lia].
      apply (count_occ_In Z.eq_dec). lia.
  - unfold Partition.shantin_seven_pairs, Py.len. simpl List.length.
    destruct (Z.of_nat (S (List.length ms)) >? 0) eqn:E; [reflexivity | zbool; lia].
Qed.

(** ** Decompositions of one suit *)

Lemma eq_list_true {A} (eqb : A -> A -> bool) :
  (forall x y, eqb x y = true <-> x = y) ->
  forall a b, Py.eq_list eqb a b = true <-> a = b.
Proof.
  intros Heq a. induction a as [| x a IH]; intros [| y b]; simpl;
    try (split; [discriminate | congruence]); [tauto |].
  rewrite andb_true_iff, Heq, IH. split; [intros [-> ->] | intros [= -> ->]]; auto.
Qed.

Lemma eq_tiles_true (a b : list Z) : Py.eq_tiles a b = true <-> a = b.
Proof. apply eq_list_true. intros x y. apply Z.eqb_eq. Qed.

Lemma eq_groups_true (a b : list (list Z)) : Py.eq_groups a b = true <-> a = b.
Proof. apply eq_list_true, eq_tiles_true. Qed.

Lemma mem_groups_In (p : list (list Z)) (ps : list (list (list Z))) :
  Py.mem_groups p ps = true <-> In p ps.
Proof.
  unfold Py.mem_groups. rewrite existsb_exists. split.
  - intros [q [Hq Heq]]. apply eq_groups_true in Heq. now subst.
  - intros H. exists p. split; [assumption | now apply eq_groups_true].
Qed.

Lemma mem_group_In (m : list Z) (ms : list (list Z)) :
  Py.mem_group m ms = true <-> In m ms.
Proof.
  unfold Py.mem_group. rewrite existsb_exists. split.
  - intros [q [Hq Heq]]. apply eq_tiles_true in Heq. now subst.
  - intros H. exists m. split; [assumption | now apply eq_tiles_true].
Qed.

(** the filter-and-deduplicate loop, from any accumulator *)
Lemma tune_loop (n : Z) (res acc : list (list (list Z))) :
  let r := fold_left
             (fun tuned_res p =>
                if (Py.len p <=? n) && negb (Py.mem_groups p tuned_res)
                then tuned_res ++ [p] else tuned_res) res acc in
  (forall p, In p r <-> In p acc \/ (In p res /\ Py.len p <= n))
  /\ (List.NoDup acc -> List.NoDup r).
Proof.
  revert acc. induction res as [| q res IH]; intros acc; simpl.
  - split; [intros p; tauto | auto].
  - destruct (IH (if (Py.len q <=? n) && negb (Py.mem_groups q acc)
                  then acc ++ [q] else acc)) as [Hin Hnd].
    split.
    + intros p. rewrite Hin. clear Hin Hnd.
      destruct (Py.len q <=? n) eqn:Elen; simpl.
      * destruct (Py.mem_groups q acc) eqn:Emem; simpl.
        -- apply mem_groups_In in Emem. zbool.
           split; [tauto |]. intros [H | [[<- | H] Hl]]; auto.
        -- rewrite in_app_iff. simpl. zbool.
           split.
           ++ intros [[H | [<- | []]] | [H Hl]]; auto.
           ++ intros [H | [[<- | H] Hl]]; auto.
      * zbool. split; [tauto |].
        intros [H | [[<- | H] Hl]]; auto. lia.
    + intros Hacc. apply Hnd. clear Hin Hnd.
      destruct ((Py.len q <=? n) && negb (Py.mem_groups q acc)) eqn:E; [| assumption].
      zbool. apply List.NoDup_app; [assumption | repeat constructor; intros [] |].
      intros x Hx [<- | []].
      apply mem_groups_In in Hx. congruence.
Qed.

Lemma tune_In (n : Z) (res : list (list (list Z))) (p : list (list Z)) :
  In p (Partition.tune n res) <-> In p res /\ Py.len p <= n.
Proof.
  unfold Partition.tune. destruct (tune_loop n res []) as [H _].
  rewrite H. simpl. tauto.
Qed.


Lemma fold_min_spec (r : list Z) (x : Z) :
  (fold_left Z.min r x = x \/ In (fold_left Z.min r x) r)
  /\ fold_left Z.min r x <= x
  /\ forall y, In y r -> fold_left Z.min r x <= y.
Proof.
  revert x. induction r as [| z r IH]; intros x; simpl.
  - split; [auto | split; [lia | intros y []]].
  - destruct (IH (Z.min x z)) as [Hin [Hle Hall]]. split; [| split].
    + destruct Hin as [Hm | Hm]; [| auto].
      destruct (Z.min_spec x z) as [[_ E] | [_ E]]; rewrite E in *; auto.
    + lia.
    + intros y [<- | Hy]; [lia | auto].
Qed.

Lemma Py_min_spec (l : list Z) (m : Z) :
  Py.min l = Some m -> In m l /\ forall y, In y l -> m <= y.
Proof.
  destruct l as [| x r]; simpl; [discriminate |]. intros [= <-].
  destruct (fold_min_spec r x) as [Hin [Hle Hall]]. split.
  - destruct Hin as [-> | H]; auto.
  - intros y [<- | Hy]; auto.
Qed.

Lemma Py_min_nonempty (l : list Z) : l <> [] -> exists m, Py.min l = Some m.
Proof. destruct l; [congruence | eauto]. Qed.

Lemma remove_length (x : Z) (l : list Z) :
  In x l -> S (List.length (Py.remove x l)) = List.length l.
Proof.
  induction l as [| y l IH]; simpl; [intros [] |].
  destruct (x =? y) eqn:E; [reflexivity |].
  zbool. intros [H | H]; [congruence |]. simpl. now rewrite IH.
Qed.

Lemma remove_Permutation (x : Z) (l : list Z) :
  In x l -> Permutation (x :: Py.remove x l) l.
Proof.
  induction l as [| y l IH]; simpl; [intros [] |].
  destruct (x =? y) eqn:E; zbool.
  - subst. reflexivity.
  - intros [H | H]; [congruence |].
    rewrite perm_swap. constructor. now apply IH.
Qed.

Lemma remove_In_ne (x y : Z) (l : list Z) :
  x <> y -> In y l -> In y (Py.remove x l).
Proof.
  intros Hne. induction l as [| z l IH]; simpl; [auto |].
  destruct (x =? z) eqn:E; zbool.
  - subst. intros [H | H]; [congruence | assumption].
  - intros [H | H]; [left; assumption | right; auto].
Qed.

Lemma base_case_None (tiles : list Z) :
  Partition.base_case tiles = None -> exists a b c r, tiles = a :: b :: c :: r.
Proof.
  unfold Partition.base_case, Py.len.
  destruct tiles as [| a [| b [| c r]]]; simpl; try discriminate.
  - destruct (Z.abs (Py.idx [a; b] 0 - Py.idx [a; b] 1) <? 3); discriminate.
  - intros _. now exists a, b, c, r.
Qed.

Lemma base_case_long (a b c : Z) (r : list Z) :
  Partition.base_case (a :: b :: c :: r) = None.
Proof.
  unfold Partition.base_case, Py.len. simpl List.length.
  destruct (Z.of_nat (S (S (S (List.length r)))) =? 0) eqn:E0; [zbool; lia |].
  destruct (Z.of_nat (S (S (S (List.length r)))) =? 1) eqn:E1; [zbool; lia |].
  destruct (Z.of_nat (S (S (S (List.length r)))) =? 2) eqn:E2; [zbool; lia |].
  reflexivity.
Qed.

(** what a base case returns: one decomposition, of non-empty groups that
    hold exactly the given tiles *)
Lemma base_case_Some (tiles : list Z) (r : list (list (list Z))) :
  Partition.base_case tiles = Some r ->
  exists p, r = [p] /\ Permutation (concat p) tiles /\ Forall (fun m => m <> []) p.
Proof.
  unfold Partition.base_case, Py.len.
  destruct tiles as [| a [| b [| c t]]]; simpl.
  - intros [= <-]. exists []. repeat split; constructor.
  - intros [= <-]. exists [[a]]. repeat split; [reflexivity |].
    repeat constructor. discriminate.
  - destruct (Z.abs (Py.idx [a; b] 0 - Py.idx [a; b] 1) <? 3); intros [= <-].
    + exists [[a; b]]. repeat split; [reflexivity |]. repeat constructor. discriminate.
    + exists [[a]; [b]]. repeat split; [reflexivity |]. repeat constructor; discriminate.
  - pose proof (base_case_long a b c t) as H. unfold Partition.base_case, Py.len in H.
    simpl in H. rewrite H. discriminate.
Qed.

Lemma remove_head (a : Z) (tl : list Z) : Py.remove a (a :: tl) = tl.
Proof. simpl. now rewrite Z.eqb_refl. Qed.

Lemma mem_tail (a y : Z) (tl : list Z) :
  y <> a -> Py.mem y (a :: tl) = true -> In y tl.
Proof.
  intros Hy H. apply Py_mem_In in H. destruct H; [congruence | assumption].
Qed.

Lemma take_one_piece (a x : Z) (tl : list Z) :
  x <> a -> Py.mem x (a :: tl) = true ->
  Permutation ([a; x] ++ Py.remove x tl) (a :: tl)
  /\ (List.length (Py.remove x tl) < List.length (a :: tl))%nat.
Proof.
  intros Hx Hm. pose proof (mem_tail a x tl Hx Hm) as H1. split.
  - cbn [app]. constructor. now apply remove_Permutation.
  - pose proof (remove_length _ _ H1). cbn [List.length]. lia.
Qed.

Lemma take_two_piece (a : Z) (tl : list Z) :
  Py.mem (a + 1) (a :: tl) = true -> Py.mem (a + 2) (a :: tl) = true ->
  Permutation ([a; a + 1; a + 2] ++ Py.remove (a + 2) (Py.remove (a + 1) tl)) (a :: tl)
  /\ (List.length (Py.remove (a + 2) (Py.remove (a + 1) tl)) < List.length (a :: tl))%nat.
Proof.
  intros Hm1 Hm2.
  assert (H1 : In (a + 1) tl) by (apply (mem_tail a); [lia | assumption]).
  assert (H2 : In (a + 2) tl) by (apply (mem_tail a); [lia | assumption]).
  assert (H3 : In (a + 2) (Py.remove (a + 1) tl)) by (apply remove_In_ne; [lia | assumption]).
  split.
  - cbn [app]. constructor.
    etransitivity; [| apply (remove_Permutation (a + 1) tl H1)].
    constructor. now apply remove_Permutation.
  - pose proof (remove_length _ _ H1). pose proof (remove_length _ _ H3).
    cbn [List.length]. lia.
Qed.

(** every branch that is taken splits the tiles into a non-empty group
    and strictly fewer remaining tiles *)
Lemma branches_piece (tiles : list Z) (c : bool) (grp rest : list Z) :
  Partition.base_case tiles = None ->
  In (c, (grp, rest)) (branches tiles) ->
  c = true ->
  Permutation (grp ++ rest) tiles
  /\ (List.length rest < List.length tiles)%nat
  /\ grp <> [].
Proof.
  intros Hb. apply base_case_None in Hb as (a & b & c0 & r & ->).
  unfold branches, Py.slice, Py.idx. cbn [nth skipn firstn Nat.sub].
  rewrite ?firstn_O, ?skipn_O, !remove_head.
  intros [H | [H | [H | [H | [H | [H | []]]]]]]; injection H as <- <- <-; intros Hc.
  - repeat split; [reflexivity | simpl; lia | discriminate].
  - zbool. destruct (take_two_piece a (b :: c0 :: r)) as [Hp Hl]; try assumption.
    repeat split; [assumption | assumption | discriminate].
  - destruct (take_one_piece a (a + 1) (b :: c0 :: r)) as [Hp Hl]; [lia | assumption |].
    repeat split; [assumption | assumption | discriminate].
  - destruct (take_one_piece a (a + 2) (b :: c0 :: r)) as [Hp Hl]; [lia | assumption |].
    repeat split; [assumption | assumption | discriminate].
  - repeat split; [reflexivity | simpl; lia | discriminate].
  - repeat split; [reflexivity | simpl; lia | discriminate].
Qed.

Lemma candidates_branches (rec : list Z -> option (list (list (list Z))))
      (tiles : list Z) :
  Partition.candidates rec tiles
  = (rs ← mapM (run_branch rec) (branches tiles); Some (concat rs)).
Proof.
  unfold Partition.candidates, branches, run_branch. cbn.
  repeat match goal with
         | |- context [Partition.branch ?r ?c ?grp ?t] =>
           destruct (Partition.branch r c grp t); cbn; [| reflexivity]
         end.
  destruct (rec (skipn 1 tiles)); cbn; [| reflexivity].
  rewrite ?app_nil_r. reflexivity.
Qed.

Lemma branch_inv (rec : list Z -> option (list (list (list Z))))
      (c : bool) (grp rest : list Z) (r : list (list (list Z))) (p : list (list Z)) :
  Partition.branch rec c grp rest = Some r -> In p r ->
  c = true /\ exists tmp q, rec rest = Some tmp /\ In q tmp /\ p = grp :: q.
Proof.
  unfold Partition.branch. destruct c; [| intros [= <-] []].
  destruct (rec rest) as [tmp |]; cbn; [| discriminate].
  intros [= <-] Hin. apply in_map_iff in Hin as [q [<- Hq]].
  split; [reflexivity |]. now exists tmp, q.
Qed.

Lemma run_branches_In (rec : list Z -> option (list (list (list Z))))
      (bs : list (bool * (list Z * list Z))) (rs : list (list (list (list Z))))
      (p : list (list Z)) :
  Forall2 (fun b r => run_branch rec b = Some r) bs rs ->
  In p (concat rs) ->
  exists grp rest tmp q,
    In (true, (grp, rest)) bs /\ rec rest = Some tmp /\ In q tmp /\ p = grp :: q.
Proof.
  induction 1 as [| [c [grp rest]] r0 bs rs Hrun E IH]; simpl; [intros [] |].
  intros Hin. apply in_app_or in Hin as [Hin | Hin].
  - destruct (branch_inv _ _ _ _ _ _ Hrun Hin) as [Hc (tmp & q & H1 & H2 & H3)].
    simpl in Hc. subst c. exists grp, rest, tmp, q. auto.
  - destruct (IH Hin) as (g' & rest' & tmp & q & H0 & H1 & H2 & H3).
    exists g', rest', tmp, q. auto.
Qed.

Lemma In_run_branches (rec : list Z -> option (list (list (list Z))))
      (bs : list (bool * (list Z * list Z))) (rs : list (list (list (list Z))))
      (grp rest : list Z) (tmp : list (list (list Z))) (q : list (list Z)) :
  Forall2 (fun b r => run_branch rec b = Some r) bs rs ->
  In (true, (grp, rest)) bs ->
  rec rest = Some tmp -> In q tmp ->
  In (grp :: q) (concat rs).
Proof.
  intros E Hb Hrec Hq.
  induction E as [| b r0 bs rs Hrun E IH]; [destruct Hb |].
  simpl. apply in_or_app. destruct Hb as [-> | Hb]; [left | right; auto].
  unfold run_branch, Partition.branch in Hrun. simpl in Hrun.
  rewrite Hrec in Hrun. cbn in Hrun. injection Hrun as <-.
  now apply in_map.
Qed.

Lemma candidates_In (rec : list Z -> option (list (list (list Z))))
      (tiles : list Z) (res : list (list (list Z))) (p : list (list Z)) :
  Partition.candidates rec tiles = Some res -> In p res ->
  exists grp rest tmp q,
    In (true, (grp, rest)) (branches tiles)
    /\ rec rest = Some tmp /\ In q tmp /\ p = grp :: q.
Proof.
  rewrite candidates_branches. intros H Hin.
  destruct (mapM (run_branch rec) (branches tiles)) as [rs |] eqn:E;
    cbn in H; [| discriminate].
  injection H as <-. apply mapM_Some_1 in E.
  eapply run_branches_In; eassumption.
Qed.

Lemma In_candidates (rec : list Z -> option (list (list (list Z))))
      (tiles : list Z) (res : list (list (list Z)))
      (grp rest : list Z) (tmp : list (list (list Z))) (q : list (list Z)) :
  Partition.candidates rec tiles = Some res ->
  In (true, (grp, rest)) (branches tiles) ->
  rec rest = Some tmp -> In q tmp ->
  In (grp :: q) res.
Proof.
  rewrite candidates_branches. intros H Hb Hrec Hq.
  destruct (mapM (run_branch rec) (branches tiles)) as [rs |] eqn:E;
    cbn in H; [| discriminate].
  injection H as <-. apply mapM_Some_1 in E.
  eapply In_run_branches; eassumption.
Qed.

Lemma candidates_ext (rec1 rec2 : list Z -> option (list (list (list Z))))
      (tiles : list Z) :
  (forall grp rest, In (true, (grp, rest)) (branches tiles) -> rec1 rest = rec2 rest) ->
  Partition.candidates rec1 tiles = Partition.candidates rec2 tiles.
Proof.
  intros H. rewrite !candidates_branches. f_equal.
  apply Forall_mapM_ext. apply List.Forall_forall. intros [c [grp rest]] Hin.
  unfold run_branch, Partition.branch. simpl. destruct c; [| reflexivity].
  now rewrite (H grp rest Hin).
Qed.

Lemma candidates_total (rec : list Z -> option (list (list (list Z))))
      (tiles : list Z) :
  (forall grp rest, In (true, (grp, rest)) (branches tiles) ->
                    exists tmp, rec rest = Some tmp /\ tmp <> []) ->
  exists res, Partition.candidates rec tiles = Some res /\ res <> [].
Proof.
  intros H. rewrite candidates_branches.
  assert (Hall : forall bs, (forall b, In b bs -> In b (branches tiles)) ->
                            exists rs, mapM (run_branch rec) bs = Some rs).
  { induction bs as [| [c [grp rest]] bs IH]; intros Hsub; [now exists [] |].
    destruct IH as [rs Hrs]; [intros b Hb; apply Hsub; now right |].
    cbn. rewrite Hrs. unfold run_branch at 1, Partition.branch. simpl.
    destruct c; [| cbn; eauto].
    destruct (H grp rest) as [tmp [-> _]]; [apply Hsub; now left |].
    cbn. eauto. }
  destruct (Hall (branches tiles)) as [rs Hrs]; [auto |].
  rewrite Hrs. cbn. eexists. split; [reflexivity |].
  (* the last branch is always taken *)
  destruct (H (Py.slice 0 1 tiles) (skipn 1 tiles)) as [tmp [Htmp Hne]].
  { unfold branches. simpl. auto 10. }
  destruct tmp as [| q tmp]; [congruence |].
  intros Hnil.
  assert (Hin : In (Py.slice 0 1 tiles :: q) (concat rs)).
  { apply (In_candidates rec tiles (concat rs) _ (skipn 1 tiles) (q :: tmp)).
    - rewrite candidates_branches, Hrs. reflexivity.
    - unfold branches. simpl. auto 10.
    - assumption.
    - now left. }
  rewrite Hnil in Hin. destruct Hin.
Qed.

(** the recursion never runs out of fuel, and finds at least one
    decomposition *)
Lemma partition_single_type_rec_total (fuel : nat) :
  forall tiles, (List.length tiles <= fuel)%nat ->
  exists r, Partition._partition_single_type_rec fuel tiles = Some r /\ r <> [].
Proof.
  induction fuel as [| fuel IH]; intros tiles Hlen.
  - destruct tiles; [| simpl in Hlen; lia]. exists [[]]. split; [reflexivity | discriminate].
  - simpl. destruct (Partition.base_case tiles) as [r |] eqn:Hb.
    + exists r. split; [reflexivity |].
      apply base_case_Some in Hb as (p & -> & _). discriminate.
    + destruct (candidates_total (Partition._partition_single_type_rec fuel) tiles)
        as [res [Hres Hne]].
      { intros grp rest Hin.
        destruct (branches_piece tiles true grp rest Hb Hin eq_refl) as (_ & Hl & _).
        apply IH. lia. }
      rewrite Hres. cbn.
      destruct (Py_min_nonempty (map Py.len res)) as [m Hm].
      { destruct res; [congruence | discriminate]. }
      rewrite Hm. cbn. eexists. split; [reflexivity |].
      apply Py_min_spec in Hm as [Hin _].
      apply in_map_iff in Hin as [p [Hp Hin]].
      intros Hnil.
      assert (In p (Partition.tune m res)) by (apply tune_In; split; [assumption | lia]).
      rewrite Hnil in H. destruct H.
Qed.

(** more fuel than the length of the list changes nothing *)
Lemma partition_single_type_rec_fuel (f1 : nat) :
  forall f2 tiles,
    (List.length tiles <= f1)%nat -> (List.length tiles <= f2)%nat ->
    Partition._partition_single_type_rec f1 tiles
    = Partition._partition_single_type_rec f2 tiles.
Proof.
  induction f1 as [| f1 IH]; intros f2 tiles H1 H2.
  - destruct tiles; [| simpl in H1; lia]. destruct f2; reflexivity.
  - destruct f2 as [| f2].
    + destruct tiles; [| simpl in H2; lia]. reflexivity.
    + simpl. destruct (Partition.base_case tiles) eqn:Hb; [reflexivity |].
      rewrite (candidates_ext (Partition._partition_single_type_rec f1)
                              (Partition._partition_single_type_rec f2)); [reflexivity |].
      intros grp rest Hin.
      destruct (branches_piece tiles true grp rest Hb Hin eq_refl) as (_ & Hl & _).
      apply IH; lia.
Qed.

(** the recursive equation of [_partition_single_type], as the source
    reads *)
Lemma partition_single_type_unfold (tiles : list Z) :
  Partition._partition_single_type tiles
  = match Partition.base_case tiles with
    | Some r => Some r
    | None =>
      res ← Partition.candidates Partition._partition_single_type tiles;
      min_len ← Py.min (map Py.len res);
      Some (Partition.tune min_len res)
    end.
Proof.
  unfold Partition._partition_single_type at 1.
  destruct (List.length tiles) as [| n] eqn:Hn.
  - destruct tiles; [reflexivity | discriminate].
  - simpl. destruct (Partition.base_case tiles) eqn:Hb; [reflexivity |].
    rewrite (candidates_ext (Partition._partition_single_type_rec n)
                            Partition._partition_single_type); [reflexivity |].
    intros grp rest Hin.
    destruct (branches_piece tiles true grp rest Hb Hin eq_refl) as (_ & Hl & _).
    unfold Partition._partition_single_type.
    apply partition_single_type_rec_fuel; lia.
Qed.

Lemma partition_single_type_total (tiles : list Z) :
  exists r, Partition._partition_single_type tiles = Some r /\ r <> [].
Proof. apply partition_single_type_rec_total. lia. Qed.

(** every decomposition found holds exactly the given tiles, in
    non-empty groups *)
Lemma partition_single_type_sound (n : nat) :
  forall tiles r p,
    (List.length tiles <= n)%nat ->
    Partition._partition_single_type tiles = Some r -> In p r ->
    Permutation (concat p) tiles /\ Forall (fun m => m <> []) p.
Proof.
  induction n as [| n IH]; intros tiles r p Hlen; rewrite partition_single_type_unfold.
  - destruct tiles; [| simpl in Hlen; lia]. simpl. intros [= <-] [<- | []].
    split; constructor.
  - destruct (Partition.base_case tiles) eqn:Hb.
    + intros [= <-] Hin. apply base_case_Some in Hb as (p0 & -> & Hp & Hne).
      destruct Hin as [<- | []]. now split.
    + destruct (Partition.candidates Partition._partition_single_type tiles)
        as [res |] eqn:Hres; cbn; [| discriminate].
      destruct (Py.min (map Py.len res)) as [m |]; cbn; [| discriminate].
      intros [= <-] Hin. apply tune_In in Hin as [Hin _].
      destruct (candidates_In _ _ _ _ Hres Hin) as (grp & rest & tmp & q & Hbr & Hrec & Hq & ->).
      destruct (branches_piece tiles true grp rest Hb Hbr eq_refl) as (Hperm & Hl & Hg).
      destruct (IH rest tmp q ltac:(lia) Hrec Hq) as [Hpq Hneq].
      split; [| now constructor].
      simpl. rewrite Hpq. exact Hperm.
Qed.




(** ** Decompositions of a whole hand *)


Lemma perm_insert (x : Z) (l1 l2 l : list Z) :
  Permutation (l1 ++ l2) l -> Permutation (l1 ++ x :: l2) (x :: l).
Proof. intros H. symmetry. apply Permutation_cons_app. now symmetry. Qed.

Lemma in_range_split (tiles : list Z) :
  (forall t, In t tiles -> 0 <= t <= 33) ->
  Permutation
    (Partition.in_range 0 9 tiles ++ Partition.in_range 9 18 tiles
     ++ Partition.in_range 18 27 tiles ++ Partition.in_range 27 34 tiles)
    tiles.
Proof.
  unfold Partition.in_range.
  induction tiles as [| x tiles IH]; intros Hr; [reflexivity |].
  assert (Hx : 0 <= x <= 33) by (apply Hr; now left).
  specialize (IH (fun t Ht => Hr t (or_intror Ht))).
  cbn [List.filter].
  destruct (Z_lt_dec x 9); [| destruct (Z_lt_dec x 18); [| destruct (Z_lt_dec x 27)]].
  - replace ((0 <=? x) && (x <? 9)) with true by lia.
    replace ((9 <=? x) && (x <? 18)) with false by lia.
    replace ((18 <=? x) && (x <? 27)) with false by lia.
    replace ((27 <=? x) && (x <? 34)) with false by lia.
    cbn [app]. now constructor.
  - replace ((0 <=? x) && (x <? 9)) with false by lia.
    replace ((9 <=? x) && (x <? 18)) with true by lia.
    replace ((18 <=? x) && (x <? 27)) with false by lia.
    replace ((27 <=? x) && (x <? 34)) with false by lia.
    cbn [app]. apply perm_insert. exact IH.
  - replace ((0 <=? x) && (x <? 9)) with false by lia.
    replace ((9 <=? x) && (x <? 18)) with false by lia.
    replace ((18 <=? x) && (x <? 27)) with true by lia.
    replace ((27 <=? x) && (x <? 34)) with false by lia.
    cbn [app]. rewrite app_assoc. apply perm_insert. rewrite <- app_assoc. exact IH.
  - replace ((0 <=? x) && (x <? 9)) with false by lia.
    replace ((9 <=? x) && (x <? 18)) with false by lia.
    replace ((18 <=? x) && (x <? 27)) with false by lia.
    replace ((27 <=? x) && (x <? 34)) with true by lia.
    cbn [app]. rewrite !app_assoc. apply perm_insert. rewrite <- !app_assoc. exact IH.
Qed.

(** the honor groups: one group per distinct honor tile, of as many
    tiles as the hand holds *)
Lemma count_occ_groups (f : Z -> nat) (l : list Z) (x : Z) :
  List.NoDup l ->
  count_occ Z.eq_dec (concat (map (fun t => repeat t (f t)) l)) x
  = if in_dec Z.eq_dec x l then f x else 0%nat.
Proof.
  induction l as [| y l IH]; intros Hnd; [reflexivity |].
  inversion Hnd as [| ? ? Hy Hnd']; subst. specialize (IH Hnd').
  cbn [map concat]. rewrite count_occ_app, IH.
  destruct (Z.eq_dec y x) as [-> | Hne].
  - rewrite count_occ_repeat_eq by reflexivity.
    destruct (in_dec Z.eq_dec x l); [contradiction |].
    destruct (in_dec Z.eq_dec x (x :: l)) as [_ | Hn]; [lia | exfalso; apply Hn; now left].
  - rewrite count_occ_repeat_neq by congruence.
    destruct (in_dec Z.eq_dec x l) as [Hi | Hi];
      destruct (in_dec Z.eq_dec x (y :: l)) as [Hj | Hj]; try reflexivity.
    + exfalso. apply Hj. now right.
    + destruct Hj; [congruence | contradiction].
Qed.

Lemma honor_groups_Permutation (h_chr : list Z) :
  Permutation
    (concat (map (fun chr_tile => Py.rep chr_tile (Py.count chr_tile h_chr)) (Py.set h_chr)))
    h_chr.
Proof.
  apply (Permutation_count_occ Z.eq_dec). intros x.
  unfold Py.rep.
  rewrite (count_occ_groups (fun t => Z.to_nat (Py.count t h_chr))) by apply Py_set_NoDup.
  rewrite Py_count_occ, Nat2Z.id.
  destruct (in_dec Z.eq_dec x (Py.set h_chr)) as [Hi | Hi]; [reflexivity |].
  symmetry. apply count_occ_not_In. now rewrite <- Py_set_In.
Qed.

(** what [partition] returns, in terms of the decompositions of the suits *)
Lemma partition_In (tiles : list Z) (r : list (list (list Z))) :
  Partition.partition tiles = Some r ->
  exists p_man p_pin p_suo,
    Partition._partition_single_type (Partition.in_range 0 9 tiles) = Some p_man
    /\ Partition._partition_single_type (Partition.in_range 9 18 tiles) = Some p_pin
    /\ Partition._partition_single_type (Partition.in_range 18 27 tiles) = Some p_suo
    /\ r = flat_map (fun pm =>
           flat_map (fun pp =>
           flat_map (fun ps =>
             [pm ++ pp ++ ps
              ++ map (fun chr_tile =>
                        Py.rep chr_tile (Py.count chr_tile (Partition.in_range 27 34 tiles)))
                     (Py.set (Partition.in_range 27 34 tiles))]) p_suo) p_pin) p_man.
Proof.
  unfold Partition.partition.
  destruct (Partition._partition_single_type (Partition.in_range 0 9 tiles))
    as [p_man |]; cbn; [| discriminate].
  destruct (Partition._partition_single_type (Partition.in_range 9 18 tiles))
    as [p_pin |]; cbn; [| discriminate].
  destruct (Partition._partition_single_type (Partition.in_range 18 27 tiles))
    as [p_suo |]; cbn; [| discriminate].
  intros [= <-]. exists p_man, p_pin, p_suo. repeat split; reflexivity.
Qed.

Lemma partition_total (tiles : list Z) :
  exists r, Partition.partition tiles = Some r /\ r <> [].
Proof.
  unfold Partition.partition.
  destruct (partition_single_type_total (Partition.in_range 0 9 tiles)) as [pm [-> Hm]].
  destruct (partition_single_type_total (Partition.in_range 9 18 tiles)) as [pp [-> Hp]].
  destruct (partition_single_type_total (Partition.in_range 18 27 tiles)) as [ps [-> Hs]].
  cbn. eexists. split; [reflexivity |].
  destruct pm as [| a pm]; [congruence |].
  destruct pp as [| b pp]; [congruence |].
  destruct ps as [| c ps]; [congruence |].
  discriminate.
Qed.

Lemma cross_In (p_man p_pin p_suo : list (list (list Z))) (pc p : list (list Z)) :
  In p (flat_map (fun pm =>
        flat_map (fun pp =>
        flat_map (fun ps => [pm ++ pp ++ ps ++ pc]) p_suo) p_pin) p_man)
  <-> exists pm pp ps, In pm p_man /\ In pp p_pin /\ In ps p_suo
                       /\ p = pm ++ pp ++ ps ++ pc.
Proof.
  rewrite in_flat_map. split.
  - intros (pm & Hm & H). apply in_flat_map in H as (pp & Hp & H).
    apply in_flat_map in H as (ps & Hs & [<- | []]). now exists pm, pp, ps.
  - intros (pm & pp & ps & Hm & Hp & Hs & ->). exists pm. split; [assumption |].
    apply in_flat_map. exists pp. split; [assumption |].
    apply in_flat_map. exists ps. split; [assumption | now left].
Qed.






Lemma no_empty_meld (melds : list (list Z)) :
  (forall m, In m melds -> m <> []) ->
  existsb (fun m => Py.len m =? 0) melds = false.
Proof.
  intros Hne. apply not_true_is_false. intros H.
  apply existsb_exists in H as (m & Hin & Hm).
  apply (Hne m Hin). apply Z.eqb_eq in Hm. unfold Py.len in Hm.
  destruct m; [reflexivity | cbn [List.length] in Hm; lia].
Qed.

Lemma no_empty_group (ps : list (list (list Z))) :
  (forall p m, In p ps -> In m p -> m <> []) ->
  existsb (existsb (fun m => Py.len m =? 0)) ps = false.
Proof.
  intros Hne. apply not_true_is_false. intros H.
  apply existsb_exists in H as (p & Hin & Hp).
  rewrite (no_empty_meld p (fun m => Hne p m Hin)) in Hp. discriminate.
Qed.

(** no group of a decomposition of [partition] is empty *)
Lemma partition_groups_nonempty (tiles : list Z) (r : list (list (list Z))) :
  Partition.partition tiles = Some r ->
  forall p m, In p r -> In m p -> m <> [].
Proof.
  intros Hr p m Hp Hm.
  destruct (partition_In tiles r Hr) as (pm & pp & ps & Hpm & Hpp & Hps & ->).
  apply cross_In in Hp as (a & b & c & Ha & Hb & Hc & ->).
  assert (Hsuit : forall ts rs q, Partition._partition_single_type ts = Some rs ->
                                  In q rs -> In m q -> m <> []).
  { intros ts rs q Hrs Hq Hmq.
    destruct (partition_single_type_sound _ _ rs q (le_n _) Hrs Hq) as [_ Hne].
    rewrite List.Forall_forall in Hne. now apply Hne. }
  apply in_app_or in Hm as [Hm | Hm]; [now apply (Hsuit _ _ a Hpm) |].
  apply in_app_or in Hm as [Hm | Hm]; [now apply (Hsuit _ _ b Hpp) |].
  apply in_app_or in Hm as [Hm | Hm]; [now apply (Hsuit _ _ c Hps) |].
  apply in_map_iff in Hm as (t & <- & Ht). rewrite Py_set_In in Ht.
  unfold Py.rep. rewrite Py_count_occ, Nat2Z.id.
  pose proof (proj1 (count_occ_In Z.eq_dec _ t) Ht) as Hcount.
  destruct (count_occ Z.eq_dec _ t); [lia | discriminate].
Qed.





(** ** The standard shanten *)

Lemma branches_group_ok (tiles : list Z) (c : bool) (grp rest : list Z) :
  Partition.base_case tiles = None ->
  In (c, (grp, rest)) (branches tiles) ->
  c = true ->
  group_ok grp = true.
Proof.
  intros Hb. apply base_case_None in Hb as (a & b & c0 & r & ->).
  unfold branches, Py.slice, Py.idx. cbn [nth skipn firstn Nat.sub].
  rewrite ?firstn_O.
  intros [H | [H | [H | [H | [H | [H | []]]]]]]; injection H as <- <- <-; intros Hc;
    unfold group_ok, is_triplet, is_run.
  - rewrite Hc. reflexivity.
  - apply orb_true_iff. right. apply andb_true_iff. split; apply Z.eqb_eq; lia.
  - apply Z.ltb_lt. lia.
  - apply Z.ltb_lt. lia.
  - zbool. subst. apply Z.ltb_lt. lia.
  - reflexivity.
Qed.

Lemma base_case_group_ok (tiles : list Z) (r : list (list (list Z))) (p : list (list Z)) :
  Partition.base_case tiles = Some r -> In p r -> Forall (fun m => group_ok m = true) p.
Proof.
  unfold Partition.base_case, Py.len.
  destruct tiles as [| a [| b [| c t]]]; simpl.
  - intros [= <-] [<- | []]. constructor.
  - intros [= <-] [<- | []]. repeat constructor.
  - unfold Py.idx. simpl.
    destruct (Z.abs (a - b) <? 3) eqn:E; intros [= <-] [<- | []]; repeat constructor.
    simpl. exact E.
  - pose proof (base_case_long a b c t) as H. unfold Partition.base_case, Py.len in H.
    simpl in H. rewrite H. discriminate.
Qed.

Lemma partition_single_type_groups (n : nat) :
  forall tiles r p,
    (List.length tiles <= n)%nat ->
    Partition._partition_single_type tiles = Some r -> In p r ->
    Forall (fun m => group_ok m = true) p.
Proof.
  induction n as [| n IH]; intros tiles r p Hlen; rewrite partition_single_type_unfold.
  - destruct tiles; [| simpl in Hlen; lia]. simpl. intros [= <-] [<- | []]. constructor.
  - destruct (Partition.base_case tiles) eqn:Hb.
    + intros [= <-] Hin. now apply (base_case_group_ok tiles l).
    + destruct (Partition.candidates Partition._partition_single_type tiles)
        as [res |] eqn:Hres; cbn; [| discriminate].
      destruct (Py.min (map Py.len res)) as [m |]; cbn; [| discriminate].
      intros [= <-] Hin. apply tune_In in Hin as [Hin _].
      destruct (candidates_In _ _ _ _ Hres Hin) as (grp & rest & tmp & q & Hbr & Hrec & Hq & ->).
      destruct (branches_piece tiles true grp rest Hb Hbr eq_refl) as (_ & Hl & _).
      constructor.
      * now apply (branches_group_ok tiles true grp rest).
      * apply (IH rest tmp q); [lia | assumption | assumption].
Qed.

Lemma honor_groups_ok (h_chr : list Z) :
  Forall (fun m => group_ok m = true)
         (map (fun chr_tile => Py.rep chr_tile (Py.count chr_tile h_chr)) (Py.set h_chr)).
Proof.
  rewrite List.Forall_forall. intros m Hm.
  apply in_map_iff in Hm as (t & <- & _). unfold Py.rep.
  destruct (Z.to_nat (Py.count t h_chr)) as [| [| [| [| k]]]]; simpl; try reflexivity.
  - replace (t - t) with 0 by lia. reflexivity.
  - now rewrite Z.eqb_refl.
Qed.

Lemma partition_groups (tiles : list Z) (r : list (list (list Z))) (p : list (list Z)) :
  Partition.partition tiles = Some r -> In p r -> Forall (fun m => group_ok m = true) p.
Proof.
  intros Hr Hin.
  destruct (partition_In tiles r Hr) as (pm & pp & ps & Hm & Hp & Hs & ->).
  apply cross_In in Hin as (a & b & c & Ha & Hb & Hc & ->).
  rewrite !Forall_app. repeat split.
  - now apply (partition_single_type_groups _ _ pm a (le_n _) Hm).
  - now apply (partition_single_type_groups _ _ pp b (le_n _) Hp).
  - now apply (partition_single_type_groups _ _ ps c (le_n _) Hs).
  - apply honor_groups_ok.
Qed.

Lemma count_groups_cons (f : list Z -> bool) (m : list Z) (p : list (list Z)) :
  count_groups f (m :: p) = Py.b2z (f m) + count_groups f p.
Proof.
  unfold count_groups. simpl. destruct (f m); simpl Py.b2z; simpl List.length; lia.
Qed.

Lemma incre_at (a0 a1 a2 a3 a4 a5 : Z) :
  Partition.incre 0 [a0; a1; a2; a3; a4; a5] = [a0 + 1; a1; a2; a3; a4; a5]
  /\ Partition.incre 1 [a0; a1; a2; a3; a4; a5] = [a0; a1 + 1; a2; a3; a4; a5]
  /\ Partition.incre 2 [a0; a1; a2; a3; a4; a5] = [a0; a1; a2 + 1; a3; a4; a5]
  /\ Partition.incre 3 [a0; a1; a2; a3; a4; a5] = [a0; a1; a2; a3 + 1; a4; a5]
  /\ Partition.incre 4 [a0; a1; a2; a3; a4; a5] = [a0; a1; a2; a3; a4 + 1; a5]
  /\ Partition.incre 5 [a0; a1; a2; a3; a4; a5] = [a0; a1; a2; a3; a4; a5 + 1].
Proof. repeat split; reflexivity. Qed.

(** [geo_step_normal] by the number of tiles of the group *)
Lemma geo_step_normal_shape (v : list Z) (m : list Z) :
  Partition.geo_step_normal v m
  = match m with
    | [_] => Partition.incre 0 v
    | [a; b] =>
      if Z.abs (a - b) =? 0 then Partition.incre 3 v
      else if Z.abs (a - b) =? 1
           then Partition.incre (if (a mod 9 >? 0) && (b mod 9 <? 8) then 2%nat else 1%nat) v
           else if Z.abs (a - b) =? 2 then Partition.incre 1 v else v
    | [a; b; _] => Partition.incre (if a =? b then 5%nat else 4%nat) v
    | _ => v
    end.
Proof.
  unfold Partition.geo_step_normal, Partition.gap, Py.idx, Py.len.
  destruct m as [| a [| b [| c [| d m]]]]; cbn [List.length nth].
  - reflexivity.
  - reflexivity.
  - change (Z.of_nat 2 =? 1) with false. change (Z.of_nat 2 =? 2) with true.
    change (Z.of_nat 2 =? 3) with false. cbn [andb Partition.and_incre].
    destruct (Z.abs (a - b) =? 0) eqn:E0; cbn [Partition.and_incre].
    + replace (Z.abs (a - b) =? 1) with false by (zbool; lia).
      replace (Z.abs (a - b) =? 2) with false by (zbool; lia). reflexivity.
    + destruct (Z.abs (a - b) =? 1) eqn:E1; cbn [Partition.and_incre].
      * replace (Z.abs (a - b) =? 2) with false by (zbool; lia). reflexivity.
      * destruct (Z.abs (a - b) =? 2); reflexivity.
  - change (Z.of_nat 3 =? 1) with false. change (Z.of_nat 3 =? 2) with false.
    change (Z.of_nat 3 =? 3) with true. reflexivity.
  - replace (Z.of_nat (S (S (S (S (List.length m))))) =? 1) with false
      by (symmetry; apply Z.eqb_neq; lia).
    replace (Z.of_nat (S (S (S (S (List.length m))))) =? 2) with false
      by (symmetry; apply Z.eqb_neq; lia).
    replace (Z.of_nat (S (S (S (S (List.length m))))) =? 3) with false
      by (symmetry; apply Z.eqb_neq; lia).
    reflexivity.
Qed.

(** one step of the geometry vector, on a group of a decomposition *)
Lemma geo_step_normal_ok (a0 a1 a2 a3 a4 a5 : Z) (m : list Z) :
  group_ok m = true ->
  exists b0 b1 b2,
    Partition.geo_step_normal [a0; a1; a2; a3; a4; a5] m
    = [b0; b1; b2; a3 + Py.b2z (is_pair m); a4 + Py.b2z (is_run m);
       a5 + Py.b2z (is_triplet m)]
    /\ b1 + b2 = a1 + a2 + Py.b2z (is_partial m).
Proof.
  intros Hok. rewrite geo_step_normal_shape.
  destruct (incre_at a0 a1 a2 a3 a4 a5) as (I0 & I1 & I2 & I3 & I4 & I5).
  destruct m as [| a [| b [| c [| d m]]]];
    unfold is_pair, is_run, is_triplet, is_partial, Py.b2z; cbv beta iota.
  - exists a0, a1, a2. split; [| clear; lia]. rewrite !Z.add_0_r. reflexivity.
  - exists (a0 + 1), a1, a2. split; [| clear; lia]. rewrite I0, !Z.add_0_r. reflexivity.
  - simpl in Hok. destruct (Z.abs (a - b) =? 0) eqn:E0.
    + replace (a =? b) with true by (zbool; lia).
      replace (Z.abs (a - b) =? 1) with false by (zbool; lia).
      replace (Z.abs (a - b) =? 2) with false by (zbool; lia). simpl.
      exists a0, a1, a2. split; [| clear; lia]. rewrite I3, !Z.add_0_r. reflexivity.
    + replace (a =? b) with false by (zbool; lia).
      destruct (Z.abs (a - b) =? 1) eqn:E1; simpl.
      * destruct ((a mod 9 >? 0) && (b mod 9 <? 8)).
        -- exists a0, a1, (a2 + 1). split; [| clear; lia]. rewrite I2, !Z.add_0_r. reflexivity.
        -- exists a0, (a1 + 1), a2. split; [| clear; lia]. rewrite I1, !Z.add_0_r. reflexivity.
      * replace (Z.abs (a - b) =? 2) with true by (zbool; lia).
        exists a0, (a1 + 1), a2. split; [| clear; lia]. rewrite I1, !Z.add_0_r. reflexivity.
  - exists a0, a1, a2. split; [| clear; lia].
    unfold group_ok, is_triplet, is_run in Hok.
    destruct (a =? b) eqn:Eab.
    + replace (b =? a + 1) with false in * by (zbool; lia).
      simpl in Hok. rewrite orb_false_r in Hok. rewrite Hok. simpl.
      rewrite I5, !Z.add_0_r. reflexivity.
    + simpl in Hok. rewrite Hok. simpl. rewrite I4, !Z.add_0_r. reflexivity.
  - exists a0, a1, a2. split; [| clear; lia]. rewrite !Z.add_0_r. reflexivity.
Qed.

Lemma geo_vec_normal_counts (p : list (list Z)) :
  forall a0 a1 a2 a3 a4 a5,
    Forall (fun m => group_ok m = true) p ->
    exists b0 b1 b2,
      fold_left Partition.geo_step_normal p [a0; a1; a2; a3; a4; a5]
      = [b0; b1; b2; a3 + count_groups is_pair p; a4 + count_groups is_run p;
         a5 + count_groups is_triplet p]
      /\ b1 + b2 = a1 + a2 + count_groups is_partial p.
Proof.
  induction p as [| m p IH]; intros a0 a1 a2 a3 a4 a5 Hok.
  - exists a0, a1, a2. unfold count_groups. simpl. rewrite !Z.add_0_r. split; [reflexivity | lia].
  - inversion Hok as [| ? ? Hm Hp]; subst.
    destruct (geo_step_normal_ok a0 a1 a2 a3 a4 a5 m Hm) as (b0 & b1 & b2 & Hstep & Hsum).
    simpl. rewrite Hstep.
    destruct (IH b0 b1 b2 (a3 + Py.b2z (is_pair m)) (a4 + Py.b2z (is_run m))
                 (a5 + Py.b2z (is_triplet m)) Hp) as (c0 & c1 & c2 & Hfold & Hsum').
    exists c0, c1, c2. rewrite Hfold, !count_groups_cons. split; [| lia].
    rewrite !Z.add_assoc. reflexivity.
Qed.

Lemma shantin_n_spec (called_meld_num : Z) (p : list (list Z)) :
  Forall (fun m => group_ok m = true) p ->
  Partition.shantin_n called_meld_num p = spec_shanten called_meld_num p.
Proof.
  intros Hok. unfold Partition.shantin_n, Partition.geo_vec_normal, Partition.geo0.
  destruct (geo_vec_normal_counts p 0 0 0 0 0 0 Hok) as (b0 & b1 & b2 & -> & Hsum).
  unfold Partition.g, spec_shanten. cbn [nth].
  rewrite !Z.add_0_l in *.
  set (pairs := count_groups is_pair p) in *.
  set (runs := count_groups is_run p) in *.
  set (triplets := count_groups is_triplet p) in *.
  set (partials := count_groups is_partial p) in *.
  rewrite Z.gtb_ltb, !Z.geb_leb.
  replace (b1 + b2 + pairs - 1) with (partials + pairs - 1) by lia.
  replace (b1 + b2) with partials by lia.
  reflexivity.
Qed.

(** C4: [shantin_normal] returns the least value, over the decompositions
    that [partition] produces, of the shanten formula of the
    specification. *)
Theorem shantin_normal_spec (tiles34 : list Z) (called_melds : list (list Z)) :
  exists partitions v,
    Partition.partition tiles34 = Some partitions
    /\ Partition.shantin_normal tiles34 called_melds = Some v
    /\ (exists p, In p partitions /\ v = spec_shanten (Py.len called_melds) p)
    /\ (forall p, In p partitions -> v <= spec_shanten (Py.len called_melds) p).
Proof.
  destruct (partition_total tiles34) as [parts [Hparts Hne]].
  unfold Partition.shantin_normal, Partition._shantin_normal. rewrite Hparts. cbn.
  destruct (Py_min_nonempty (map (Partition.shantin_n (Py.len called_melds)) parts))
    as [v Hv].
  { destruct parts; [congruence | discriminate]. }
  exists parts, v. split; [reflexivity |]. split; [assumption |].
  apply Py_min_spec in Hv as [Hin Hall]. split.
  - apply in_map_iff in Hin as (p & <- & Hp). exists p. split; [assumption |].
    apply shantin_n_spec. now apply (partition_groups tiles34 parts).
  - intros p Hp. rewrite <- shantin_n_spec by now apply (partition_groups tiles34 parts).
    apply Hall. now apply in_map.
Qed.

(** ** The scoring loop *)

Section ScoreCalculation.

Variables (hand34 : list Z) (final_tile : Z) (melds minkan ankan : list (list Z))
          (is_zimo : bool) (player_wind round_wind : Z) (reach : bool)
          (bonus_num : Z) (bonus_tiles : list Z) (benchan reach_stick : Z)
          (is_dealer : bool).

Local Abbreviation candidate :=
  (WinWaitCal.candidate final_tile melds minkan ankan is_zimo player_wind round_wind reach
                        bonus_num bonus_tiles benchan reach_stick is_dealer).
Local Abbreviation loop :=
  (WinWaitCal.loop final_tile melds minkan ankan is_zimo player_wind round_wind reach
                   bonus_num bonus_tiles benchan reach_stick is_dealer).
Local Abbreviation han_calculation p :=
  (HanCalculation.han_calculation p final_tile melds minkan ankan is_zimo player_wind
                                  round_wind reach).
Local Abbreviation fu_calculation p :=
  (FuCalculation.fu_calculation p final_tile melds minkan ankan is_zimo player_wind
                                round_wind).
Local Abbreviation score_calculation :=
  (WinWaitCal.score_calculation hand34 final_tile melds minkan ankan is_zimo player_wind
                                round_wind reach bonus_num bonus_tiles benchan reach_stick
                                is_dealer).
Local Abbreviation score_partitions :=
  (WinWaitCal.score_partitions final_tile melds minkan ankan is_zimo player_wind round_wind
                               reach bonus_num bonus_tiles benchan reach_stick is_dealer).

(** a decomposition is skipped exactly when its han sum and its yakuman
    sum are both zero, whatever the dora *)
Lemma candidate_skipped (p : list (list Z)) (hd : HanCalculation.han_result) :
  han_calculation p = Ok hd ->
  (candidate p = Ok None
   <-> HanCalculation.han_sum hd = 0 /\ HanCalculation.yk_sum hd = 0).
Proof.
  intros Hh. unfold WinWaitCal.candidate.
  rewrite Hh. cbn.
  destruct ((HanCalculation.han_sum hd =? HanCalculation.yk_sum hd)
            && (HanCalculation.yk_sum hd =? 0)) eqn:E.
  - zbool. split; [intros _; lia | reflexivity].
  - split; [| intros [H1 H2]; rewrite H1, H2 in E; discriminate].
    destruct (HanCalculation.yk_sum hd >? 0); [discriminate |].
    destruct (fu_calculation p) as [fd | e] eqn:Hf; cbn; [| discriminate].
    destruct (score_calculation_base _ _ _ _). discriminate.
Qed.

Lemma candidate_partition (p : list (list Z)) (r : WinWaitCal.score_result) :
  candidate p = Ok (Some r) -> WinWaitCal.r_partition r = p.
Proof.
  unfold WinWaitCal.candidate.
  destruct (HanCalculation.han_calculation _ _ _ _ _ _ _ _ _) as [hd | e]; cbn;
    [| discriminate].
  destruct (_ && _); [discriminate |].
  destruct (HanCalculation.yk_sum hd >? 0); [intros [= <-]; reflexivity |].
  destruct (FuCalculation.fu_calculation _ _ _ _ _ _ _ _) as [fd | e]; cbn;
    [| discriminate].
  destruct (score_calculation_base _ _ _ _). intros [= <-]. reflexivity.
Qed.

(** the loop ends exactly when no decomposition raises *)
Lemma loop_returns (ps : list (list (list Z))) :
  forall best, (exists b, loop ps best = Ok b) <-> all_return candidate ps.
Proof.
  induction ps as [| p ps IH]; intros best; split.
  - intros _ a [].
  - intros _. now exists best.
  - intros [b Hb]. cbn [WinWaitCal.loop] in Hb. unfold WinWaitCal.step in Hb.
    destruct (candidate p) as [c | e] eqn:Hc; cbn in Hb; [| discriminate].
    intros q [<- | Hq]; [eauto |].
    destruct c as [r |]; [destruct (WinWaitCal.score r >? fst best) |]; cbn in Hb;
      (eapply IH; [eexists; exact Hb | exact Hq]).
  - intros Hall. destruct (Hall p (or_introl eq_refl)) as [c Hc].
    cbn [WinWaitCal.loop]. unfold WinWaitCal.step. rewrite Hc. cbn.
    destruct c as [r |]; [destruct (WinWaitCal.score r >? fst best) |]; cbn;
      apply IH; intros q Hq; apply Hall; now right.
Qed.

(** the loop keeps the first of the highest scores above the one it
    starts with *)
Lemma loop_first (ps : list (list (list Z))) :
  forall best b,
    loop ps best = Ok b ->
    (b = best
     /\ forall p r, In p ps -> candidate p = Ok (Some r) -> WinWaitCal.score r <= fst best)
    \/ (exists p r, first_best candidate ps p r
                    /\ b = (WinWaitCal.score r, Some r)
                    /\ fst best < WinWaitCal.score r).
Proof.
  induction ps as [| p ps IH]; intros best b Hb.
  - injection Hb as <-. left. split; [reflexivity | intros p r []].
  - cbn [WinWaitCal.loop] in Hb. unfold WinWaitCal.step in Hb.
    destruct (candidate p) as [c | e] eqn:Hc; cbn in Hb; [| discriminate].
    destruct c as [r |]; [destruct (WinWaitCal.score r >? fst best) eqn:E |];
      cbn in Hb; zbool;
      destruct (IH _ _ Hb) as [[-> Hmax] | (p' & r' & Hfb & -> & Hlt)]; cbn [fst] in *.
    + right. exists p, r. split; [| split; [reflexivity | lia]].
      exists [], ps. cbn [app]. split; [reflexivity |]. split; [exact Hc |].
      split; [intros q r' [] | exact Hmax].
    + right. exists p', r'. split; [| split; [reflexivity | lia]].
      destruct Hfb as (ps1 & ps2 & -> & Hc' & Hbefore & Hafter).
      exists (p :: ps1), ps2. split; [reflexivity |]. split; [exact Hc' |].
      split; [| exact Hafter].
      intros q rq [<- | Hq] Hcq; [| eauto].
      rewrite Hc in Hcq. injection Hcq as <-. exact Hlt.
    + left. split; [reflexivity |].
      intros q rq [<- | Hq] Hcq; [| eauto].
      rewrite Hc in Hcq. injection Hcq as <-. lia.
    + right. exists p', r'. split; [| split; [reflexivity | exact Hlt]].
      destruct Hfb as (ps1 & ps2 & -> & Hc' & Hbefore & Hafter).
      exists (p :: ps1), ps2. split; [reflexivity |]. split; [exact Hc' |].
      split; [| exact Hafter].
      intros q rq [<- | Hq] Hcq; [| eauto].
      rewrite Hc in Hcq. injection Hcq as <-. lia.
    + left. split; [reflexivity |].
      intros q rq [<- | Hq] Hcq; [| eauto].
      rewrite Hc in Hcq. discriminate.
    + right. exists p', r'. split; [| split; [reflexivity | exact Hlt]].
      destruct Hfb as (ps1 & ps2 & -> & Hc' & Hbefore & Hafter).
      exists (p :: ps1), ps2. split; [reflexivity |]. split; [exact Hc' |].
      split; [| exact Hafter].
      intros q rq [<- | Hq] Hcq; [| eauto].
      rewrite Hc in Hcq. discriminate.
Qed.

(** decompositions that do not score more leave the state alone *)
Lemma loop_below (ps : list (list (list Z))) (best : Z * option WinWaitCal.score_result) :
  all_return candidate ps ->
  (forall q r', In q ps -> candidate q = Ok (Some r') -> WinWaitCal.score r' <= fst best) ->
  loop ps best = Ok best.
Proof.
  induction ps as [| p ps IH]; intros Hall Hle; [reflexivity |].
  destruct (Hall p (or_introl eq_refl)) as [c Hc].
  cbn [WinWaitCal.loop]. unfold WinWaitCal.step. rewrite Hc. cbn.
  assert (Htail : loop ps best = Ok best).
  { apply IH; [intros q Hq; apply Hall; now right | intros q r' Hq; apply Hle; now right]. }
  destruct c as [r |]; [| exact Htail].
  replace (WinWaitCal.score r >? fst best) with false; [exact Htail |].
  symmetry. pose proof (Hle p r (or_introl eq_refl) Hc). lia.
Qed.

(** the first of the highest scores is what the loop ends with *)
Lemma loop_determined (ps : list (list (list Z))) (p : list (list Z))
      (r : WinWaitCal.score_result) :
  all_return candidate ps -> first_best candidate ps p r ->
  forall best, fst best < WinWaitCal.score r ->
               loop ps best = Ok (WinWaitCal.score r, Some r).
Proof.
  intros Hall (ps1 & ps2 & -> & Hc & Hbefore & Hafter).
  induction ps1 as [| q ps1 IH]; intros best Hlt.
  - cbn [app WinWaitCal.loop]. unfold WinWaitCal.step. rewrite Hc. cbn.
    replace (WinWaitCal.score r >? fst best) with true by lia. cbn.
    apply loop_below; [intros q Hq; apply Hall; cbn; now right | exact Hafter].
  - destruct (Hall q (or_introl eq_refl)) as [c Hq].
    assert (Hall' : all_return candidate (ps1 ++ p :: ps2))
      by (intros q' Hq'; apply Hall; now right).
    assert (Hbefore' : forall q' r', In q' ps1 -> candidate q' = Ok (Some r') ->
                                     WinWaitCal.score r' < WinWaitCal.score r)
      by (intros q' r' Hq'; apply Hbefore; now right).
    cbn [app WinWaitCal.loop]. unfold WinWaitCal.step. rewrite Hq. cbn.
    destruct c as [rq |]; [destruct (WinWaitCal.score rq >? fst best) |]; cbn;
      apply IH; auto.
    cbn [fst]. exact (Hbefore q rq (or_introl eq_refl) Hq).
Qed.

(** no decomposition scores more than the first best one *)
Lemma first_best_max (ps : list (list (list Z))) (p : list (list Z))
      (r : WinWaitCal.score_result) :
  first_best candidate ps p r ->
  forall q r', In q ps -> candidate q = Ok (Some r') ->
               WinWaitCal.score r' <= WinWaitCal.score r.
Proof.
  intros (ps1 & ps2 & -> & Hc & Hbefore & Hafter) q r' Hq Hcq.
  apply in_app_or in Hq as [Hq | [<- | Hq]].
  - pose proof (Hbefore q r' Hq Hcq). lia.
  - rewrite Hc in Hcq. injection Hcq as <-. lia.
  - exact (Hafter q r' Hq Hcq).
Qed.

(** when all decompositions are skipped the loop leaves its state alone *)
Lemma loop_all_skipped (ps : list (list (list Z))) (best : Z * option WinWaitCal.score_result) :
  (forall p, In p ps -> candidate p = Ok None) -> loop ps best = Ok best.
Proof.
  induction ps as [| p ps IH]; intros Hall; [reflexivity |].
  cbn [WinWaitCal.loop]. unfold WinWaitCal.step.
  rewrite (Hall p (or_introl eq_refl)). cbn.
  apply IH. intros q Hq. apply Hall. now right.
Qed.

Lemma score_partitions_unfold (ps : list (list (list Z))) :
  score_partitions ps
  = (best ← loop ps (0, None); if fst best =? 0 then Ok None else Ok (snd best)).
Proof.
  unfold WinWaitCal.score_partitions, Py.len.
  destruct ps as [| p ps]; [reflexivity |].
  cbn [List.length].
  replace (Z.of_nat (S (List.length ps)) =? 0) with false
    by (symmetry; apply Z.eqb_neq; lia).
  reflexivity.
Qed.

(** no result: no decomposition raises and none scores above 0 *)
Lemma score_partitions_None (ps : list (list (list Z))) :
  score_partitions ps = Ok None
  <-> all_return candidate ps
      /\ forall p r, In p ps -> candidate p = Ok (Some r) -> WinWaitCal.score r <= 0.
Proof.
  rewrite score_partitions_unfold. split.
  - destruct (loop ps (0, None)) as [b | e] eqn:Hb; cbn; [| discriminate].
    intros Hres. split; [apply (loop_returns ps (0, None)); eauto |].
    destruct (loop_first ps _ _ Hb) as [[-> Hmax] | (p & r & _ & -> & Hlt)];
      [exact Hmax |].
    cbn [fst snd] in *.
    replace (WinWaitCal.score r =? 0) with false in Hres by lia. discriminate.
  - intros [Hall Hle]. rewrite (loop_below ps (0, None) Hall Hle). reflexivity.
Qed.

(** a result: that of the first decomposition with the highest score,
    which is above 0 *)
Lemma score_partitions_Some (ps : list (list (list Z))) (r : WinWaitCal.score_result) :
  score_partitions ps = Ok (Some r)
  <-> all_return candidate ps /\ 0 < WinWaitCal.score r
      /\ first_best candidate ps (WinWaitCal.r_partition r) r.
Proof.
  rewrite score_partitions_unfold. split.
  - destruct (loop ps (0, None)) as [b | e] eqn:Hb; cbn; [| discriminate].
    intros Hres. split; [apply (loop_returns ps (0, None)); eauto |].
    destruct (loop_first ps _ _ Hb) as [[-> Hmax] | (p & r' & Hfb & -> & Hlt)];
      [discriminate |].
    cbn [fst snd] in *.
    replace (WinWaitCal.score r' =? 0) with false in Hres by lia.
    injection Hres as <-. split; [exact Hlt |].
    destruct Hfb as (ps1 & ps2 & -> & Hc & Hrest).
    rewrite (candidate_partition p r' Hc). exists ps1, ps2. auto.
  - intros (Hall & Hpos & Hfb).
    rewrite (loop_determined ps _ r Hall Hfb (0, None)) by exact Hpos. cbn.
    replace (WinWaitCal.score r =? 0) with false by lia. reflexivity.
Qed.

(** what a scored decomposition means for the result *)
Lemma scored_candidate (ps : list (list (list Z))) (p : list (list Z))
      (r : WinWaitCal.score_result) :
  In p ps -> candidate p = Ok (Some r) ->
  (forall r', score_partitions ps = Ok (Some r') -> WinWaitCal.r_partition r' = p -> r' = r)
  /\ (all_return candidate ps -> 0 < WinWaitCal.score r ->
      exists r', score_partitions ps = Ok (Some r')
                 /\ WinWaitCal.score r <= WinWaitCal.score r')
  /\ (all_return candidate ps -> 0 < WinWaitCal.score r -> first_best candidate ps p r ->
      score_partitions ps = Ok (Some r)).
Proof.
  intros Hin Hc. split; [| split].
  - intros r' Hres Hp. apply score_partitions_Some in Hres as (_ & _ & Hfb).
    destruct Hfb as (_ & _ & _ & Hc' & _). rewrite Hp, Hc in Hc'. congruence.
  - intros Hall Hpos.
    destruct (proj2 (loop_returns ps (0, None)) Hall) as [b Hb].
    destruct (loop_first ps _ _ Hb) as [[-> Hmax] | (p' & r' & Hfb & -> & Hlt)].
    + specialize (Hmax p r Hin Hc). cbn [fst] in Hmax. lia.
    + exists r'. split; [| exact (first_best_max ps p' r' Hfb p r Hin Hc)].
      rewrite score_partitions_unfold, Hb. cbn.
      cbn [fst] in Hlt. replace (WinWaitCal.score r' =? 0) with false by lia. reflexivity.
  - intros Hall Hpos Hfb. apply score_partitions_Some.
    rewrite (candidate_partition p r Hc). auto.
Qed.

(** C3, amended.  [score_calculation] scores the decompositions of
    [win_parse], and raises when the scoring of one of them raises.
    Otherwise it returns no result exactly when no decomposition reaches a
    positive final score.  A decomposition whose han sum and yakuman sum
    are both zero is skipped, whatever the dora; no decomposition, or
    only skipped ones, gives no result, and so do decompositions that are
    scored at 0 points; otherwise the result is that of the first
    decomposition with the highest score, with its han, fu and
    decomposition.  All this holds for the decompositions in any order,
    [ps]. *)
Theorem score_calculation_result (ps : list (list (list Z))) :
  (* skipping does not look at the dora *)
  (forall p hd, han_calculation p = Ok hd ->
                (candidate p = Ok None
                 <-> HanCalculation.han_sum hd = 0 /\ HanCalculation.yk_sum hd = 0))
  (* nothing to score, or everything skipped *)
  /\ score_partitions [] = Ok None
  /\ ((forall p, In p ps -> candidate p = Ok None) -> score_partitions ps = Ok None)
  (* an exception of the scoring of a decomposition is passed on *)
  /\ ((exists res, score_partitions ps = Ok res) <-> all_return candidate ps)
  (* no result: exactly when no score is positive *)
  /\ (score_partitions ps = Ok None
      <-> all_return candidate ps
          /\ forall p r, In p ps -> candidate p = Ok (Some r) -> WinWaitCal.score r <= 0)
  (* a result: that of the first decomposition with the highest score *)
  /\ (forall r, score_partitions ps = Ok (Some r)
                <-> all_return candidate ps /\ 0 < WinWaitCal.score r
                    /\ first_best candidate ps (WinWaitCal.r_partition r) r)
  (* the decompositions scored are those of [win_parse] *)
  /\ score_calculation = score_partitions (WinParse.win_parse hand34 final_tile).
Proof.
  split; [exact candidate_skipped |].
  split; [reflexivity |].
  split; [| split; [| split; [| split; [| reflexivity]]]].
  - intros Hskip. apply score_partitions_None. split.
    + intros p Hp. rewrite (Hskip p Hp). eauto.
    + intros p r Hp Hc. rewrite (Hskip p Hp) in Hc. discriminate.
  - rewrite score_partitions_unfold, <- (loop_returns ps (0, None)). split.
    + intros [res Hres]. destruct (loop ps (0, None)) as [b | e]; [eauto | discriminate].
    + intros [b ->]. cbn. destruct (fst b =? 0); eauto.
  - apply score_partitions_None.
  - apply score_partitions_Some.
Qed.

(** C5: a decomposition with a positive yakuman sum is scored from the
    yakuman alone, whatever its fu: 48000 (dealer) or 32000 times the
    yakuman sum, plus 1000 per riichi stick and 300 per benchan counter;
    the han mapping of the result is the yakuman mapping and there is no
    fu breakdown.  [score_calculation] returns a result that scores at
    least as much when the scoring of no decomposition raises; a result it
    returns with that decomposition is this one, and this one is returned
    when the decomposition is the first with the highest score.  All this
    holds for the decompositions in any order, [ps]. *)
Theorem yakuman_candidate (ps : list (list (list Z))) (p : list (list Z))
        (hd : HanCalculation.han_result) :
  In p ps ->
  han_calculation p = Ok hd ->
  0 < HanCalculation.yk_sum hd ->
  exists r,
    candidate p = Ok (Some r)
    /\ WinWaitCal.score r
       = (if is_dealer then 48000 else 32000) * HanCalculation.yk_sum hd
         + 1000 * reach_stick + 300 * benchan
    /\ WinWaitCal.r_han r = HanCalculation.ykman hd
    /\ WinWaitCal.r_fu r = None
    /\ WinWaitCal.r_fu_desc r = None
    /\ WinWaitCal.r_partition r = p
    /\ (forall r', score_partitions ps = Ok (Some r') ->
                   WinWaitCal.r_partition r' = p -> r' = r)
    /\ (0 <= reach_stick -> 0 <= benchan -> all_return candidate ps ->
        exists r', score_partitions ps = Ok (Some r')
                   /\ WinWaitCal.score r <= WinWaitCal.score r')
    /\ (0 <= reach_stick -> 0 <= benchan -> all_return candidate ps ->
        first_best candidate ps p r ->
        score_partitions ps = Ok (Some r))
    /\ score_calculation = score_partitions (WinParse.win_parse hand34 final_tile).
Proof.
  intros Hin Hh Hyk.
  assert (Hc : exists r,
             candidate p = Ok (Some r)
             /\ WinWaitCal.score r
                = (if is_dealer then 48000 else 32000) * HanCalculation.yk_sum hd
                  + 1000 * reach_stick + 300 * benchan
             /\ WinWaitCal.r_han r = HanCalculation.ykman hd
             /\ WinWaitCal.r_fu r = None
             /\ WinWaitCal.r_fu_desc r = None
             /\ WinWaitCal.r_partition r = p).
  { unfold WinWaitCal.candidate. rewrite Hh. cbn.
    replace ((HanCalculation.han_sum hd =? HanCalculation.yk_sum hd)
             && (HanCalculation.yk_sum hd =? 0)) with false
      by (symmetry; apply andb_false_iff; right; apply Z.eqb_neq; lia).
    replace (HanCalculation.yk_sum hd >? 0) with true by lia.
    eexists. split; [reflexivity |]. simpl. repeat split. lia. }
  destruct Hc as (r & Hc & Hs & Hhan & Hfu & Hdesc & Hp).
  destruct (scored_candidate ps p r Hin Hc) as (Hsame & Hsome & Hfirst).
  assert (Hpos : 0 <= reach_stick -> 0 <= benchan -> 0 < WinWaitCal.score r).
  { intros H1 H2. rewrite Hs. destruct is_dealer; lia. }
  exists r. repeat (split; [assumption |]).
  split; [auto |]. split; [auto | reflexivity].
Qed.


End ScoreCalculation.

Lemma yakuman_candidate_witness :
  exists r,
    WinWaitCal.score_calculation orphans_hand 33 [] [] [] false 27 27 false 0 [] 2 1 true
    = Ok (Some r)
    /\ WinWaitCal.score r = 48000 * HanCalculation.yk_sum orphans_han + 1000 * 1 + 300 * 2
    /\ WinWaitCal.r_han r = HanCalculation.ykman orphans_han
    /\ WinWaitCal.r_fu r = None
    /\ WinWaitCal.r_fu_desc r = None
    /\ WinWaitCal.r_partition r = orphans_partition.
Proof.
  destruct (yakuman_candidate orphans_hand 33 [] [] [] false 27 27 false 0 [] 2 1 true
                              [orphans_partition] orphans_partition orphans_han)
    as (r & Hc & Hs & Hhan & Hfu & Hdesc & Hp & _ & _ & Hfirst & Hdef).
  - left. reflexivity.
  - vm_compute. reflexivity.
  - vm_compute. reflexivity.
  - exists r. split; [| auto].
    rewrite Hdef.
    replace (WinParse.win_parse orphans_hand 33) with [orphans_partition]
      by (vm_compute; reflexivity).
    apply Hfirst; [lia | lia | intros q [<- | []]; eauto |].
    exists [], []. split; [reflexivity |]. split; [exact Hc |].
    split; intros q r' [].
Defined.


(** C3 as stated fails: with one run called and four souths concealed,
    ron on the 5 of characters gives a decomposition with one han (seat
    wind), which is not skipped; it has no fu entry, scores 0 points, and
    [score_calculation] returns no result. *)
Lemma score_calculation_unskipped_none :
  WinWaitCal.score_calculation souths_hand 4 [[11; 12; 13]] [] [] false 28 27 false 0 []
                               0 0 false = Ok None
  /\ ~ (forall p, In p (WinParse.win_parse souths_hand 4) ->
                  exists hd,
                    HanCalculation.han_calculation p 4 [[11; 12; 13]] [] [] false 28 27 false
                    = Ok hd
                    /\ HanCalculation.han_sum hd = 0 /\ HanCalculation.yk_sum hd = 0).
Proof.
  split; [vm_compute; reflexivity |].
  intros H. destruct (H souths_partition) as (hd & Hhd & Hsum & _).
  - vm_compute. auto.
  - vm_compute in Hhd. injection Hhd as <-. simpl in Hsum. discriminate.
Qed.

(** ** Waiting tiles *)

(** C6 fails on the code: a hand waiting on either of two pairs (two
    suits hold 2 tiles modulo 3) takes the branch that appends whole
    ranges to [possible_tiles], and the call of [score_calculation] with
    the first range raises TypeError. *)
Lemma waiting_calculation_raises :
  WinWaitCal.waiting_calculation [0; 0; 9; 9; 18; 19; 20; 21; 22; 23; 27; 27; 27]
                                 [] [] [] false 27 27 false 0 [] 0 0 false
  = Raise TypeError.
Proof. vm_compute. reflexivity. Qed.

(** ** The fu subtotal *)

Lemma fu_key_beq_eq (a b : FuCalculation.fu_key) :
  FuCalculation.fu_key_beq a b = true <-> a = b.
Proof.
  split; [apply FuCalculation.internal_fu_key_dec_bl
         | apply FuCalculation.internal_fu_key_dec_lb].
Qed.

Lemma add_base_new (b : Z) (k : FuCalculation.fu_key) (fu : FuCalculation.fu_dict) :
  ~ In k (dict_keys fu) -> FuCalculation.add_base b k fu = fu ++ [(k, b)].
Proof.
  unfold FuCalculation.add_base. induction fu as [| [k' v'] fu IH]; simpl; [reflexivity |].
  intros Hn. destruct (FuCalculation.fu_key_beq k k') eqn:E.
  - apply fu_key_beq_eq in E. subst. exfalso. apply Hn. now left.
  - rewrite IH; [reflexivity |]. intros H. apply Hn. now right.
Qed.

(** entries with keys that are new and distinct are appended as they are *)
Lemma add_all_new (calls : list (FuCalculation.fu_key * Z)) :
  forall fu, List.NoDup (dict_keys fu ++ map fst calls) -> add_all calls fu = fu ++ calls.
Proof.
  unfold add_all, dict_keys.
  induction calls as [| [k v] calls IH]; intros fu Hnd; simpl.
  - now rewrite app_nil_r.
  - rewrite add_base_new.
    + rewrite IH.
      * now rewrite <- app_assoc.
      * rewrite map_app. simpl. rewrite <- app_assoc. exact Hnd.
    + simpl in Hnd. apply NoDup_remove_2 in Hnd. intros H. apply Hnd.
      apply in_or_app. now left.
Qed.

Lemma add_all_app (c1 c2 : list (FuCalculation.fu_key * Z)) (fu : FuCalculation.fu_dict) :
  add_all (c1 ++ c2) fu = add_all c2 (add_all c1 fu).
Proof. unfold add_all. apply fold_left_app. Qed.

Lemma fold_add_all {A} (step : FuCalculation.fu_dict -> A -> FuCalculation.fu_dict)
      (award : A -> list (FuCalculation.fu_key * Z)) (l : list A) :
  (forall fu a, step fu a = add_all (award a) fu) ->
  forall fu, fold_left step l fu = add_all (flat_map award l) fu.
Proof.
  intros Hstep. induction l as [| a l IH]; intros fu; simpl; [reflexivity |].
  now rewrite add_all_app, IH, Hstep.
Qed.

Section FuItemized.

Variables (hand_partition : list (list Z)) (final_tile : Z)
          (melds minkan ankan : list (list Z)) (is_zimo : bool)
          (player_wind round_wind : Z).

Lemma is_triplet_code (m : list Z) :
  (Py.len m =? 3) && ((Py.idx m 0 =? Py.idx m 1) && (Py.idx m 1 =? Py.idx m 2))
  = is_triplet m.
Proof.
  unfold Py.len, Py.idx, is_triplet.
  destruct m as [| a [| b [| c [| d m]]]]; try reflexivity.
  cbn [List.length].
  replace (Z.of_nat (S (S (S (S (List.length m))))) =? 3) with false
    by (symmetry; apply Z.eqb_neq; lia).
  reflexivity.
Qed.

Lemma check_kezi_awards (fu d : FuCalculation.fu_dict) :
  FuCalculation.check_kezi hand_partition final_tile melds is_zimo fu = Ok d ->
  d = add_all (flat_map (hand_triplet_award final_tile is_zimo) hand_partition
               ++ flat_map meld_triplet_award melds) fu.
Proof.
  unfold FuCalculation.check_kezi. cbv zeta.
  destruct (forallb _ melds); [| discriminate]. intros [= <-].
  rewrite (add_all_app (flat_map (hand_triplet_award final_tile is_zimo) hand_partition)).
  rewrite (fold_add_all (FuCalculation.kezi_hand_step final_tile is_zimo)
                        (hand_triplet_award final_tile is_zimo)).
  - apply fold_add_all. intros d m.
    unfold FuCalculation.kezi_meld_step, meld_triplet_award.
    destruct (Py.idx m 0 =? Py.idx m 1); [| reflexivity].
    destruct (Py.mem (Py.idx m 0) Tile.ONENINE); reflexivity.
  - intros d m. unfold FuCalculation.kezi_hand_step, hand_triplet_award.
    rewrite is_triplet_code. destruct (is_triplet m); [| reflexivity].
    destruct (Py.mem (Py.idx m 0) Tile.ONENINE);
      destruct (is_zimo || negb (final_tile =? Py.idx m 0)); reflexivity.
Qed.

Lemma check_kans_awards (fu d : FuCalculation.fu_dict) :
  FuCalculation.check_kans minkan ankan fu = Ok d ->
  d = add_all (flat_map minkan_award minkan ++ flat_map ankan_award ankan) fu.
Proof.
  unfold FuCalculation.check_kans.
  destruct (forallb _ minkan); [| discriminate]. cbn.
  destruct (forallb _ ankan); [| discriminate]. intros [= <-].
  rewrite (add_all_app (flat_map minkan_award minkan)).
  rewrite (fold_add_all FuCalculation.minkan_step minkan_award).
  - apply fold_add_all. intros d m. unfold FuCalculation.ankan_step, ankan_award.
    destruct (Py.mem (Py.idx m 0) Tile.ONENINE); reflexivity.
  - intros d m. unfold FuCalculation.minkan_step, minkan_award.
    destruct (Py.mem (Py.idx m 0) Tile.ONENINE); reflexivity.
Qed.

(** a search that ends without IndexError gives the value of the test *)
Lemma all_closed_or_edge_Ok (chws : list (list Z)) (b : bool) :
  FuCalculation.all_closed_or_edge final_tile chws = Ok b ->
  b = forallb (FuCalculation.closed_or_edge final_tile) chws.
Proof.
  induction chws as [| chw chws IH]; cbn [FuCalculation.all_closed_or_edge forallb].
  - now intros [= <-].
  - unfold FuCalculation.closed_or_edge at 1.
    destruct (Py.idx chw 1 =? final_tile); cbn [orb andb]; [exact IH |].
    destruct (Py.len chw <? 3); [discriminate |].
    destruct (_ || _); cbn [orb andb]; [exact IH | now intros [= <-]].
Qed.


Lemma chows_Ok (chws : list (list Z)) :
  FuCalculation.chows hand_partition melds = Ok chws ->
  chws = FuCalculation.chows_of hand_partition melds.
Proof.
  unfold FuCalculation.chows. destruct (forallb _ _); [| discriminate].
  now intros [= <-].
Qed.

Lemma check_waiting_type_awards (pr : list Z) (fu d : FuCalculation.fu_dict) :
  FuCalculation.check_waiting_type hand_partition final_tile melds pr fu = Ok d ->
  d = add_all (wait_calls hand_partition final_tile melds pr) fu.
Proof.
  unfold FuCalculation.check_waiting_type, wait_calls.
  destruct (FuCalculation.chows hand_partition melds) as [chws | e] eqn:Hc;
    [| discriminate].
  apply chows_Ok in Hc. subst chws. cbn. cbv zeta.
  set (chws := FuCalculation.with_final final_tile
                                        (FuCalculation.chows_of hand_partition melds)).
  destruct ((Py.idx pr 0 =? final_tile) && (Py.len chws =? 0)); [now intros [= <-] |].
  destruct (Py.len chws >? 0); cbn [andb]; [| now intros [= <-]].
  destruct (FuCalculation.all_closed_or_edge final_tile chws) as [b | e] eqn:Hall;
    [| discriminate].
  apply all_closed_or_edge_Ok in Hall. subst b. cbn. intros [= <-].
  destruct (forallb _ chws); reflexivity.
Qed.

Lemma itemized_awards (pr : list Z) (d : FuCalculation.fu_dict) :
  FuCalculation.itemized hand_partition final_tile melds minkan ankan is_zimo
                         player_wind round_wind pr = Ok d ->
  d = add_all (group_awards hand_partition final_tile melds minkan ankan is_zimo
               ++ pair_calls player_wind round_wind pr
               ++ wait_calls hand_partition final_tile melds pr
               ++ win_calls melds minkan is_zimo) [].
Proof.
  unfold FuCalculation.itemized, group_awards.
  destruct (FuCalculation.check_kezi _ _ _ _ _) as [d1 | e] eqn:H1; [| discriminate].
  apply check_kezi_awards in H1. cbn [mbind outcome_bind].
  destruct (FuCalculation.check_kans _ _ _) as [d2 | e] eqn:H2; [| discriminate].
  apply check_kans_awards in H2. cbn [mbind outcome_bind].
  destruct (FuCalculation.check_waiting_type _ _ _ _ _) as [d3 | e] eqn:H3;
    [| discriminate].
  apply check_waiting_type_awards in H3. cbn [mbind outcome_bind]. intros [= <-].
  assert (Hp : FuCalculation.check_pair player_wind round_wind pr d2
               = add_all (pair_calls player_wind round_wind pr) d2).
  { unfold FuCalculation.check_pair, pair_calls. cbv zeta.
    destruct (Py.mem (Py.idx pr 0) Tile.THREES);
      destruct (Py.idx pr 0 =? player_wind);
      destruct (Py.idx pr 0 =? round_wind); reflexivity. }
  assert (Hw : FuCalculation.check_win_type melds minkan is_zimo d3
               = add_all (win_calls melds minkan is_zimo) d3).
  { unfold FuCalculation.check_win_type, win_calls. cbv zeta.
    destruct is_zimo; destruct (Py.len (melds ++ minkan) =? 0); reflexivity. }
  rewrite Hw, H3, Hp, H2, H1, <- !add_all_app.
  f_equal. rewrite <- !app_assoc. reflexivity.
Qed.


Lemma pair_calls_sum (pr : list Z) :
  Py.sum (map snd (pair_calls player_wind round_wind pr)) = pair_award player_wind round_wind pr.
Proof.
  unfold pair_calls, pair_award.
  destruct (Py.mem (Py.idx pr 0) Tile.THREES);
    destruct (Py.idx pr 0 =? player_wind);
    destruct (Py.idx pr 0 =? round_wind); reflexivity.
Qed.

Lemma wait_calls_sum (pr : list Z) :
  Py.sum (map snd (wait_calls hand_partition final_tile melds pr)) = wait_award hand_partition final_tile melds pr.
Proof.
  unfold wait_calls, wait_award, Py.len.
  destruct (FuCalculation.with_final final_tile _) as [| c cs].
  - simpl List.length. cbn [forallb]. rewrite andb_true_r.
    change (Z.of_nat 0 =? 0) with true. change (Z.of_nat 0 >? 0) with false.
    rewrite andb_true_r. cbn [andb].
    destruct (Py.idx pr 0 =? final_tile); reflexivity.
  - cbn [List.length].
    replace (Z.of_nat (S (List.length cs)) =? 0) with false
      by (symmetry; apply Z.eqb_neq; lia).
    replace (Z.of_nat (S (List.length cs)) >? 0) with true
      by (symmetry; rewrite Z.gtb_ltb; apply Z.ltb_lt; lia).
    rewrite andb_false_r. cbn [andb].
    destruct (forallb _ _); reflexivity.
Qed.

Lemma win_calls_sum :
  Py.sum (map snd (win_calls melds minkan is_zimo)) = win_award melds minkan is_zimo.
Proof.
  unfold win_calls, win_award, Py.len.
  destruct is_zimo; [reflexivity |]. cbn [negb andb app].
  destruct (melds ++ minkan) as [| m ms]; [reflexivity |].
  cbn [List.length].
  replace (Z.of_nat (S (List.length ms)) =? 0) with false
    by (symmetry; apply Z.eqb_neq; lia).
  reflexivity.
Qed.

Lemma group_awards_keys (k : FuCalculation.fu_key) :
  In k (map fst (group_awards hand_partition final_tile melds minkan ankan is_zimo)) ->
  group_key k = true.
Proof.
  unfold group_awards. rewrite !map_app, !in_app_iff, !in_map_iff.
  intros [H | [H | [H | H]]]; destruct H as ([k' v] & <- & H);
    apply in_flat_map in H as (m & _ & H).
  - unfold hand_triplet_award in H. destruct (is_triplet m); [| destruct H].
    destruct (Py.mem _ _); destruct (is_zimo || _);
      destruct H as [[= <- <-] | []]; reflexivity.
  - unfold meld_triplet_award in H.
    destruct (Py.idx m 0 =? Py.idx m 1); [| destruct H].
    destruct (Py.mem _ _); destruct H as [[= <- <-] | []]; reflexivity.
  - unfold minkan_award in H.
    destruct (Py.mem _ _); destruct H as [[= <- <-] | []]; reflexivity.
  - unfold ankan_award in H.
    destruct (Py.mem _ _); destruct H as [[= <- <-] | []]; reflexivity.
Qed.

Lemma tail_calls_NoDup (pr : list Z) :
  List.NoDup (map fst (pair_calls player_wind round_wind pr
                       ++ wait_calls hand_partition final_tile melds pr
                       ++ win_calls melds minkan is_zimo))
  /\ forall k, In k (map fst (pair_calls player_wind round_wind pr
                              ++ wait_calls hand_partition final_tile melds pr
                              ++ win_calls melds minkan is_zimo)) ->
               group_key k = false.
Proof.
  unfold pair_calls, wait_calls, win_calls.
  set (chws := FuCalculation.with_final final_tile
                                        (FuCalculation.chows_of hand_partition melds)).
  cbv zeta.
  destruct (Py.mem (Py.idx pr 0) Tile.THREES);
    destruct (Py.idx pr 0 =? player_wind);
    destruct (Py.idx pr 0 =? round_wind);
    destruct ((Py.idx pr 0 =? final_tile) && (Py.len chws =? 0));
    destruct ((Py.len chws >? 0)
              && forallb (FuCalculation.closed_or_edge final_tile) chws);
    destruct is_zimo;
    destruct (Py.len (melds ++ minkan) =? 0);
    cbn [negb andb app map fst];
    (split;
     [ repeat constructor; simpl; intuition discriminate
     | intros k Hk; simpl in Hk;
       repeat (destruct Hk as [<- | Hk]; [reflexivity |]); destruct Hk ]).
Qed.






End FuItemized.



(** A decomposition with a group of one tile has no fu: the thirteen
    orphans are twelve single tiles and a pair, and the list of runs,
    which reads the first two tiles of every group, raises IndexError. *)
Example fu_of_single_tiles_raises :
  FuCalculation.fu_calculation orphans_partition 33 [] [] [] true 27 27 = Raise IndexError.
Proof. vm_compute. reflexivity. Qed.

(** Two triplets of one category share one entry of the fu dictionary,
    which is keyed by the description of the award: the decomposition of
    the docstring of [score_calculation], self-drawn on the pair tile,
    has the entries 8, 2 and 2 that the docstring lists. *)
Example fu_same_category_once :
  exists r,
    FuCalculation.fu_calculation two_triplets_partition 27 [] [] [] true 28 28 = Ok r
    /\ FuCalculation.fu r = [(FuCalculation.YaojiuAnke8, 8); (FuCalculation.SingleWait2, 2);
                             (FuCalculation.Zimo2, 2)]
    /\ FuCalculation.fu_sum r = 12
    /\ FuCalculation.fu_round r = 20.
Proof. eexists. vm_compute. repeat split. Qed.

(** ** The store: what a call leaves alone *)

Section Frames.

Variable h0 : Store.heap.

Lemma frames_ret {A} (a : A) (Q : A -> Prop) : Q a -> frames h0 (Store.ret a) Q.
Proof. intros HQ h Hh. cbn. split; [exact Hh|]. intros a' [= <-]. exact HQ. Qed.

Lemma frames_raise {A} (e : exn) (Q : A -> Prop) : frames h0 (Store.raise e) Q.
Proof. intros h Hh. cbn. split; [exact Hh|]. discriminate. Qed.

Lemma frames_lift {A} (v : outcome A) : frames h0 (Store.lift v) (fun _ => True).
Proof. intros h Hh. cbn. split; [exact Hh|]. trivial. Qed.

Lemma frames_lift_opt {A} (v : option A) : frames h0 (Store.lift_opt v) (fun _ => True).
Proof. destruct v; [apply frames_ret; exact I | apply frames_raise]. Qed.

Lemma frames_bind {A B} (m : Store.M A) (f : A -> Store.M B)
      (Q : A -> Prop) (R : B -> Prop) :
  frames h0 m Q -> (forall a, Q a -> frames h0 (f a) R) ->
  frames h0 (Store.bind m f) R.
Proof.
  intros Hm Hf h Hh. unfold Store.bind.
  destruct (Hm h Hh) as [Hsub HQ].
  destruct (m h) as [[a|e] h']; cbn in *.
  - apply (Hf a (HQ a eq_refl) h' Hsub).
  - split; [exact Hsub|]. discriminate.
Qed.

Lemma frames_weaken {A} (m : Store.M A) (Q R : A -> Prop) :
  frames h0 m Q -> (forall a, Q a -> R a) -> frames h0 m R.
Proof.
  intros Hm HQR h Hh. destruct (Hm h Hh) as [Hsub HQ].
  split; [exact Hsub|]. intros a Ha. apply HQR, HQ, Ha.
Qed.

Lemma frames_alloc (o : Store.obj) : frames h0 (Store.alloc o) (private h0).
Proof.
  intros h Hh. unfold Store.alloc. cbn.
  assert (Hfresh : h !! fresh (dom h) = None).
  { apply not_elem_of_dom. apply is_fresh. }
  assert (Hpriv : h0 !! fresh (dom h) = None).
  { eapply lookup_weaken_None; eassumption. }
  split.
  - etransitivity; [exact Hh|]. apply insert_subseteq. exact Hfresh.
  - intros a [= <-]. exact Hpriv.
Qed.

Lemma frames_load (l : Store.loc) : frames h0 (Store.load l) (fun _ => True).
Proof.
  intros h Hh. unfold Store.load. destruct (h !! l); cbn; split; auto.
Qed.

Lemma frames_load_tiles (l : Store.loc) : frames h0 (Store.load_tiles l) (fun _ => True).
Proof.
  unfold Store.load_tiles. eapply frames_bind; [apply frames_load|].
  intros [ts|gs] _; [apply frames_ret; exact I | apply frames_raise].
Qed.

Lemma frames_load_each (gs : list Store.loc) :
  frames h0 (Store.load_each gs) (fun _ => True).
Proof.
  induction gs as [|g gs IH]; cbn [Store.load_each].
  - apply frames_ret; exact I.
  - eapply frames_bind; [apply frames_load_tiles|]. intros ts _.
    eapply frames_bind; [apply IH|]. intros rest _.
    apply frames_ret; exact I.
Qed.

Lemma frames_load_groups (l : Store.loc) :
  frames h0 (Store.load_groups l) (fun _ => True).
Proof.
  unfold Store.load_groups. eapply frames_bind; [apply frames_load|].
  intros [ts|gs] _; [apply frames_raise | apply frames_load_each].
Qed.

(** writing is allowed at the locations that are not the caller's *)
Lemma frames_store_tiles (l : Store.loc) (ts : list Z) :
  private h0 l -> frames h0 (Store.store_tiles l ts) (fun _ => True).
Proof.
  intros Hl. unfold Store.store_tiles.
  eapply frames_bind; [apply frames_load_tiles|]. intros _ _.
  intros h Hh. cbn. split; [|trivial].
  apply insert_subseteq_r; assumption.
Qed.

Lemma frames_new_tiles (ts : list Z) : frames h0 (Store.new_tiles ts) (private h0).
Proof. apply frames_alloc. Qed.

Lemma frames_deepcopy (l : Store.loc) : frames h0 (Store.deepcopy l) (private h0).
Proof.
  unfold Store.deepcopy. eapply frames_bind; [apply frames_load_tiles|].
  intros ts _. apply frames_alloc.
Qed.

Lemma frames_list_remove (l : Store.loc) (x : Z) :
  private h0 l -> frames h0 (Store.list_remove l x) (fun _ => True).
Proof.
  intros Hl. unfold Store.list_remove.
  eapply frames_bind; [apply frames_load_tiles|]. intros ts _.
  destruct (Py.mem x ts); [apply frames_store_tiles; exact Hl | apply frames_raise].
Qed.

Lemma frames_list_sort (l : Store.loc) :
  private h0 l -> frames h0 (Store.list_sort l) (fun _ => True).
Proof.
  intros Hl. unfold Store.list_sort.
  eapply frames_bind; [apply frames_load_tiles|]. intros ts _.
  apply frames_store_tiles; exact Hl.
Qed.

Lemma frames_removes (l : Store.loc) (xs : list Z) :
  private h0 l -> frames h0 (Store.removes l xs) (fun _ => True).
Proof.
  intros Hl. induction xs as [|x xs IH]; cbn [Store.removes].
  - apply frames_ret; exact I.
  - eapply frames_bind; [apply frames_list_remove; exact Hl|]. intros _ _. exact IH.
Qed.

Lemma frames_copy_without (l : Store.loc) (xs : list Z) :
  frames h0 (Store.copy_without l xs) (private h0).
Proof.
  unfold Store.copy_without.
  eapply frames_bind; [apply frames_deepcopy|]. intros l' Hl'.
  eapply frames_bind; [apply frames_removes; exact Hl'|]. intros _ _.
  apply frames_ret; exact Hl'.
Qed.

Create HintDb frames.

#[local] Hint Resolve frames_lift frames_lift_opt frames_load_tiles frames_load_groups
  frames_new_tiles frames_deepcopy frames_copy_without : frames.

(** one step through a computation: the next call by a rule above *)
Ltac frames_step :=
  first
    [ apply frames_raise
    | apply frames_ret; solve [ exact I | assumption ]
    | eapply frames_bind; [ solve [ eauto with frames ] | intros ? ? ]
    | eapply frames_weaken; [ solve [ eauto with frames ] | intros; exact I ] ].

Lemma frames_branch (rec : Store.loc -> Store.M (list (list (list Z))))
      (cond : bool) (group : list Z) (rest : Store.M Store.loc) :
  (forall l, frames h0 (rec l) (fun _ => True)) ->
  frames h0 rest (private h0) ->
  frames h0 (Store.branch rec cond group rest) (fun _ => True).
Proof.
  intros Hrec Hrest. unfold Store.branch. destruct cond.
  - eapply frames_bind; [exact Hrest|]. intros r _.
    eapply frames_bind; [apply Hrec|]. intros tmp_res _.
    apply frames_ret; exact I.
  - apply frames_ret; exact I.
Qed.

Lemma frames_candidates (rec : Store.loc -> Store.M (list (list (list Z))))
      (tiles34 : Store.loc) :
  (forall l, frames h0 (rec l) (fun _ => True)) ->
  frames h0 (Store.candidates rec tiles34) (fun _ => True).
Proof.
  intros Hrec. unfold Store.candidates.
  frames_step.
  repeat (eapply frames_bind;
          [ apply frames_branch; [exact Hrec | solve [eauto with frames]]
          | intros ? _ ]).
  apply frames_ret; exact I.
Qed.

Lemma frames__partition_single_type_rec (fuel : nat) (tiles34 : Store.loc) :
  frames h0 (Store._partition_single_type_rec fuel tiles34) (fun _ => True).
Proof.
  revert tiles34. induction fuel as [|fuel IH]; intros tiles34;
    cbn [Store._partition_single_type_rec]; frames_step.
  - destruct (Partition.base_case a); frames_step.
  - destruct (Partition.base_case a); [frames_step|].
    eapply frames_bind; [apply frames_candidates; exact IH|]. intros res _.
    repeat frames_step.
Qed.

Lemma frames__partition_single_type (tiles34 : Store.loc) :
  frames h0 (Store._partition_single_type tiles34) (fun _ => True).
Proof.
  unfold Store._partition_single_type. frames_step.
  apply frames__partition_single_type_rec.
Qed.

#[local] Hint Resolve frames__partition_single_type : frames.

Lemma frames_partition (tiles34 : Store.loc) :
  frames h0 (Store.partition tiles34) (fun _ => True).
Proof. unfold Store.partition. repeat frames_step. Qed.

#[local] Hint Resolve frames_partition : frames.

Lemma frames_shantin_normal (tiles34 called_melds : Store.loc) :
  frames h0 (Store.shantin_normal tiles34 called_melds) (fun _ => True).
Proof. unfold Store.shantin_normal. repeat frames_step. Qed.

Lemma frames_shantin_no_triplets (tiles34 called_melds bonus_chrs : Store.loc) :
  frames h0 (Store.shantin_no_triplets tiles34 called_melds bonus_chrs) (fun _ => True).
Proof. unfold Store.shantin_no_triplets. repeat frames_step. Qed.

Lemma frames_shantin_no_19 (tiles34 called_melds : Store.loc) :
  frames h0 (Store.shantin_no_19 tiles34 called_melds) (fun _ => True).
Proof. unfold Store.shantin_no_19. repeat frames_step. Qed.

Lemma frames_shantin_no_sequences (tiles34 called_melds : Store.loc) :
  frames h0 (Store.shantin_no_sequences tiles34 called_melds) (fun _ => True).
Proof. unfold Store.shantin_no_sequences. repeat frames_step. Qed.

Lemma frames_shantin_seven_pairs (tiles34 called_melds : Store.loc) :
  frames h0 (Store.shantin_seven_pairs tiles34 called_melds) (fun _ => True).
Proof. unfold Store.shantin_seven_pairs. repeat frames_step. Qed.

Lemma frames_shantin_pure_color (tiles34 called_melds : Store.loc) :
  frames h0 (Store.shantin_pure_color tiles34 called_melds) (fun _ => True).
Proof. unfold Store.shantin_pure_color. repeat frames_step. Qed.

#[local] Hint Resolve frames_shantin_no_sequences frames_shantin_seven_pairs : frames.

Lemma frames_shantin_multiple_forms (tiles34 called_melds bonus_chrs : Store.loc) :
  frames h0 (Store.shantin_multiple_forms tiles34 called_melds bonus_chrs) (fun _ => True).
Proof. unfold Store.shantin_multiple_forms. repeat frames_step. Qed.

Lemma frames_parse_branch (rec : Store.loc -> Store.M (option (list (list (list Z)))))
      (cond : bool) (group : list Z) (rest : Store.M Store.loc) :
  (forall l, frames h0 (rec l) (fun _ => True)) ->
  frames h0 rest (private h0) ->
  frames h0 (Store.parse_branch rec cond group rest) (fun _ => True).
Proof.
  intros Hrec Hrest. unfold Store.parse_branch. destruct cond.
  - eapply frames_bind; [exact Hrest|]. intros r _.
    eapply frames_bind; [apply Hrec|]. intros rec_res _.
    apply frames_ret; exact I.
  - apply frames_ret; exact I.
Qed.

Lemma frames_parse_nums_rec (fuel : nat) (tiles : Store.loc) :
  frames h0 (Store.parse_nums_rec fuel tiles) (fun _ => True).
Proof.
  revert tiles. induction fuel as [|fuel IH]; intros tiles;
    cbn [Store.parse_nums_rec]; frames_step; cbv zeta;
    repeat match goal with
           | |- frames _ (if ?c then _ else _) _ => destruct c; [frames_step|]
           end; [frames_step|].
  repeat (eapply frames_bind;
          [ apply frames_parse_branch; [exact IH | solve [eauto with frames]]
          | intros ? _ ]).
  apply frames_ret; exact I.
Qed.

Lemma frames_parse_nums (tiles : Store.loc) :
  frames h0 (Store.parse_nums tiles) (fun _ => True).
Proof. unfold Store.parse_nums. frames_step. apply frames_parse_nums_rec. Qed.

Lemma frames_parse_chrs (tiles : Store.loc) :
  frames h0 (Store.parse_chrs tiles) (fun _ => True).
Proof. unfold Store.parse_chrs. repeat frames_step. Qed.

#[local] Hint Resolve frames_parse_nums frames_parse_chrs : frames.

(** [hand_total.sort()] sorts the list that [hand34 + [final_tile]] made *)
Lemma frames_win_parse (hand34 : Store.loc) (final_tile : Z) :
  frames h0 (Store.win_parse hand34 final_tile) (fun _ => True).
Proof.
  unfold Store.win_parse. frames_step.
  eapply frames_bind; [apply frames_new_tiles|]. intros hand_total Hprivate.
  frames_step. cbv zeta.
  destruct (WinParse.is_orphans _); [frames_step|].
  eapply frames_bind; [apply frames_list_sort; exact Hprivate|]. intros _ _.
  repeat frames_step.
Qed.

#[local] Hint Resolve frames_win_parse : frames.

Lemma frames_score_calculation (hand34 : Store.loc) (final_tile : Z) (c : Store.context) :
  frames h0 (Store.score_calculation hand34 final_tile c) (fun _ => True).
Proof. unfold Store.score_calculation. repeat frames_step. Qed.

Lemma frames_score_calculation_val (hand34 : Store.loc) (final_tile : WinWaitCal.pyval)
      (c : Store.context) :
  frames h0 (Store.score_calculation_val hand34 final_tile c) (fun _ => True).
Proof.
  destruct final_tile; cbn [Store.score_calculation_val];
    [apply frames_score_calculation | apply frames_raise].
Qed.

#[local] Hint Resolve frames_score_calculation frames_score_calculation_val : frames.

Lemma frames_assign (hand34 : Store.loc) (c : Store.context) (t : Z)
      (waitings : WinWaitCal.waitings_t) :
  frames h0 (Store.assign hand34 c t waitings) (fun _ => True).
Proof. unfold Store.assign. repeat frames_step. Qed.

#[local] Hint Resolve frames_assign : frames.

Lemma frames_assign_all (hand34 : Store.loc) (c : Store.context) (ts : list Z)
      (waitings : WinWaitCal.waitings_t) :
  frames h0 (Store.assign_all hand34 c ts waitings) (fun _ => True).
Proof.
  revert waitings. induction ts as [|t ts IH]; intros waitings; cbn [Store.assign_all].
  - frames_step.
  - frames_step. apply IH.
Qed.

Lemma frames_try_all (hand34 : Store.loc) (c : Store.context)
      (pts : list WinWaitCal.pyval) (waitings : WinWaitCal.waitings_t) :
  frames h0 (Store.try_all hand34 c pts waitings) (fun _ => True).
Proof.
  revert waitings. induction pts as [|pt pts IH]; intros waitings; cbn [Store.try_all].
  - frames_step.
  - frames_step. destruct a as [r|]; [destruct pt|]; first [apply IH | apply frames_raise].
Qed.

Lemma frames_waiting_calculation (hand34 : Store.loc) (c : Store.context) :
  frames h0 (Store.waiting_calculation hand34 c) (fun _ => True).
Proof.
  unfold Store.waiting_calculation. frames_step. cbv zeta.
  repeat match goal with
         | |- frames _ (if ?c then _ else _) _ => destruct c
         | |- frames _ (match ?l with [] => _ | _ :: _ => _ end) _ => destruct l
         end;
    first [ apply frames_assign | apply frames_assign_all | apply frames_try_all
          | frames_step ].
Qed.

End Frames.

Lemma frames_unchanged {A} (m : Store.M A) (Q : A -> Prop) (h : Store.heap) :
  frames h m Q -> unchanged h (snd (m h)).
Proof.
  intros Hm l o Hl. destruct (Hm h) as [Hsub _]; [reflexivity|].
  eapply lookup_weaken; eassumption.
Qed.

(** C9: whatever lists the caller holds when it calls [partition], a
    function of the shanten family, [win_parse], [score_calculation] or
    [waiting_calculation] - the hand, the called melds and the quads with
    the lists inside them, the bonus tiles, and any other list - are in
    the store after the call, each at its location and with the contents
    it had: the core removes and sorts only in lists it has made itself. *)
Theorem core_leaves_caller_lists_unchanged (h : Store.heap) :
  (forall tiles34, unchanged h (snd (Store.partition tiles34 h)))
  /\ (forall tiles34 called_melds,
         unchanged h (snd (Store.shantin_normal tiles34 called_melds h)))
  /\ (forall tiles34 called_melds bonus_chrs,
         unchanged h (snd (Store.shantin_no_triplets tiles34 called_melds bonus_chrs h)))
  /\ (forall tiles34 called_melds,
         unchanged h (snd (Store.shantin_no_19 tiles34 called_melds h)))
  /\ (forall tiles34 called_melds,
         unchanged h (snd (Store.shantin_no_sequences tiles34 called_melds h)))
  /\ (forall tiles34 called_melds,
         unchanged h (snd (Store.shantin_seven_pairs tiles34 called_melds h)))
  /\ (forall tiles34 called_melds,
         unchanged h (snd (Store.shantin_pure_color tiles34 called_melds h)))
  /\ (forall tiles34 called_melds bonus_chrs,
         unchanged h (snd (Store.shantin_multiple_forms tiles34 called_melds bonus_chrs h)))
  /\ (forall hand34 final_tile,
         unchanged h (snd (Store.win_parse hand34 final_tile h)))
  /\ (forall hand34 final_tile c,
         unchanged h (snd (Store.score_calculation hand34 final_tile c h)))
  /\ (forall hand34 c,
         unchanged h (snd (Store.waiting_calculation hand34 c h))).
Proof.
  repeat split; intros; eapply frames_unchanged.
  - apply frames_partition.
  - apply frames_shantin_normal.
  - apply frames_shantin_no_triplets.
  - apply frames_shantin_no_19.
  - apply frames_shantin_no_sequences.
  - apply frames_shantin_seven_pairs.
  - apply frames_shantin_pure_color.
  - apply frames_shantin_multiple_forms.
  - apply frames_win_parse.
  - apply frames_score_calculation.
  - apply frames_waiting_calculation.
Qed.

(** ** The store: the results of the functions on values *)

Lemma bind_ret {A B} (a : A) (f : A -> Store.M B) (h : Store.heap) :
  Store.bind (Store.ret a) f h = f a h.
Proof. reflexivity. Qed.

Lemma bind_load_tiles {B} (l : Store.loc) (ts : list Z) (f : list Z -> Store.M B)
      (h : Store.heap) :
  h !! l = Some (Store.Tiles ts) -> Store.bind (Store.load_tiles l) f h = f ts h.
Proof.
  intros Hl. unfold Store.load_tiles, Store.bind, Store.load. rewrite Hl. reflexivity.
Qed.

Lemma bind_new_tiles {B} (ts : list Z) (f : Store.loc -> Store.M B) (h : Store.heap) :
  Store.bind (Store.new_tiles ts) f h
  = f (fresh (dom h)) (<[fresh (dom h) := Store.Tiles ts]> h).
Proof. reflexivity. Qed.

Lemma bind_store_tiles {B} (l : Store.loc) (ts0 ts : list Z) (f : unit -> Store.M B)
      (h : Store.heap) :
  h !! l = Some (Store.Tiles ts0) ->
  Store.bind (Store.store_tiles l ts) f h = f tt (<[l := Store.Tiles ts]> h).
Proof.
  intros Hl. unfold Store.store_tiles, Store.bind at 1.
  rewrite (bind_load_tiles l ts0) by exact Hl. reflexivity.
Qed.

Lemma bind_list_remove {B} (l : Store.loc) (x : Z) (ts : list Z) (f : unit -> Store.M B)
      (h : Store.heap) :
  h !! l = Some (Store.Tiles ts) -> Py.mem x ts = true ->
  Store.bind (Store.list_remove l x) f h = f tt (<[l := Store.Tiles (Py.remove x ts)]> h).
Proof.
  intros Hl Hx. unfold Store.list_remove, Store.bind at 1.
  rewrite (bind_load_tiles l ts) by exact Hl. rewrite Hx.
  apply (bind_store_tiles l ts). exact Hl.
Qed.

Lemma bind_list_sort {B} (l : Store.loc) (ts : list Z) (f : unit -> Store.M B)
      (h : Store.heap) :
  h !! l = Some (Store.Tiles ts) ->
  Store.bind (Store.list_sort l) f h = f tt (<[l := Store.Tiles (Py.sort ts)]> h).
Proof.
  intros Hl. unfold Store.list_sort, Store.bind at 1.
  rewrite (bind_load_tiles l ts) by exact Hl.
  apply (bind_store_tiles l ts). exact Hl.
Qed.

Lemma fresh_free (h : Store.heap) : h !! fresh (dom h) = None.
Proof. apply not_elem_of_dom, is_fresh. Qed.

Lemma refines_ret {A} (h : Store.heap) (a : A) : refines h (Store.ret a) (Ok a).
Proof. exists h. split; reflexivity. Qed.

Lemma refines_raise {A} (h : Store.heap) (e : exn) :
  refines h (Store.raise e : Store.M A) (Raise e).
Proof. exists h. split; reflexivity. Qed.

Lemma refines_lift {A} (h : Store.heap) (v : outcome A) : refines h (Store.lift v) v.
Proof. exists h. split; reflexivity. Qed.

Lemma refines_lift_opt {A} (h : Store.heap) (v : option A) :
  refines h (Store.lift_opt v) (of_option v).
Proof. destruct v; [apply refines_ret | apply refines_raise]. Qed.

Lemma refines_load_tiles (h : Store.heap) (l : Store.loc) (ts : list Z) :
  h !! l = Some (Store.Tiles ts) -> refines h (Store.load_tiles l) (Ok ts).
Proof.
  intros Hl. exists h. split; [|reflexivity].
  unfold Store.load_tiles, Store.bind, Store.load. rewrite Hl. reflexivity.
Qed.

(** the continuation runs in a larger store *)
Lemma refines_bind {A B} (h : Store.heap) (m : Store.M A) (f : A -> Store.M B)
      (r : outcome A) (k : A -> outcome B) :
  refines h m r ->
  (forall a h', r = Ok a -> h ⊆ h' -> refines h' (f a) (k a)) ->
  refines h (Store.bind m f) (match r with Ok a => k a | Raise e => Raise e end).
Proof.
  intros (h1 & Hm & Hsub) Hf. unfold refines, Store.bind. rewrite Hm.
  destruct r as [a | e].
  - destruct (Hf a h1 eq_refl Hsub) as (h2 & Hfa & Hsub2).
    exists h2. split; [exact Hfa | etransitivity; eassumption].
  - exists h1. split; [reflexivity | exact Hsub].
Qed.

Lemma refines_bind_opt {A B} (h : Store.heap) (m : Store.M A) (f : A -> Store.M B)
      (r : option A) (k : A -> option B) :
  refines h m (of_option r) ->
  (forall a h', r = Some a -> h ⊆ h' -> refines h' (f a) (of_option (k a))) ->
  refines h (Store.bind m f) (of_option (r ≫= k)).
Proof.
  intros Hm Hf.
  replace (of_option (r ≫= k))
    with (match of_option r with Ok a => of_option (k a) | Raise e => Raise e end)
    by (destruct r; reflexivity).
  apply refines_bind; [exact Hm|].
  intros a h' Ha. apply Hf. destruct r; [injection Ha as ->; reflexivity | discriminate].
Qed.

Lemma refines_bind_yields {B} (h : Store.heap) (m : Store.M Store.loc)
      (f : Store.loc -> Store.M B) (ts : list Z) (v : outcome B) :
  yields h m ts ->
  (forall l h', h ⊆ h' -> h' !! l = Some (Store.Tiles ts) -> refines h' (f l) v) ->
  refines h (Store.bind m f) v.
Proof.
  intros (l & h1 & Hm & Hsub & Hl) Hf. unfold refines, Store.bind. rewrite Hm.
  destruct (Hf l h1 Hsub Hl) as (h2 & Hfl & Hsub2).
  exists h2. split; [exact Hfl | etransitivity; eassumption].
Qed.

Lemma yields_new_tiles (h : Store.heap) (ts : list Z) : yields h (Store.new_tiles ts) ts.
Proof.
  exists (fresh (dom h)), (<[fresh (dom h) := Store.Tiles ts]> h).
  split; [reflexivity|]. split.
  - apply insert_subseteq, fresh_free.
  - apply lookup_insert_eq.
Qed.

Lemma removes_run (l : Store.loc) (xs : list Z) :
  forall (ts : list Z) (h : Store.heap),
    h !! l = Some (Store.Tiles ts) -> removable xs ts = true ->
    Store.removes l xs h = (Ok tt, <[l := Store.Tiles (without xs ts)]> h).
Proof.
  induction xs as [|x xs IH]; intros ts h Hl Hrm; cbn [Store.removes without fold_left].
  - unfold Store.ret. rewrite insert_id by exact Hl. reflexivity.
  - cbn [removable] in Hrm. apply andb_true_iff in Hrm as [Hx Hrm].
    rewrite (bind_list_remove l x ts) by assumption.
    rewrite (IH (Py.remove x ts)); [| apply lookup_insert_eq | exact Hrm].
    rewrite insert_insert_eq. reflexivity.
Qed.

(** [deepcopy] and the removals: a new list, the argument as it was *)
Lemma yields_copy_without (h : Store.heap) (l : Store.loc) (xs ts : list Z) :
  h !! l = Some (Store.Tiles ts) -> removable xs ts = true ->
  yields h (Store.copy_without l xs) (without xs ts).
Proof.
  intros Hl Hrm.
  exists (fresh (dom h)), (<[fresh (dom h) := Store.Tiles (without xs ts)]> h).
  split; [| split].
  - unfold Store.copy_without, Store.deepcopy.
    unfold Store.bind at 1. unfold Store.bind at 2.
    rewrite (bind_load_tiles l ts) by exact Hl.
    unfold Store.alloc. cbn beta zeta iota.
    unfold Store.bind.
    rewrite (removes_run _ xs ts); [| apply lookup_insert_eq | exact Hrm].
    rewrite insert_insert_eq. reflexivity.
  - apply insert_subseteq, fresh_free.
  - apply lookup_insert_eq.
Qed.

Lemma refines_bind_load {B} (h : Store.heap) (l : Store.loc) (ts : list Z)
      (f : list Z -> Store.M B) (v : outcome B) :
  h !! l = Some (Store.Tiles ts) -> refines h (f ts) v ->
  refines h (Store.bind (Store.load_tiles l) f) v.
Proof. intros Hl Hf. unfold refines. rewrite (bind_load_tiles l ts) by exact Hl. exact Hf. Qed.

Lemma removable_head (xs : list Z) (a : Z) (tl : list Z) :
  removable xs tl = true -> removable (a :: xs) (a :: tl) = true.
Proof.
  intros H. cbn [removable]. rewrite remove_head, H.
  unfold Py.mem. cbn [existsb]. rewrite Z.eqb_refl. reflexivity.
Qed.

Lemma removable_one (x a : Z) (tl : list Z) :
  x <> a -> Py.mem x (a :: tl) = true -> removable [a; x] (a :: tl) = true.
Proof.
  intros Hx Hm. apply removable_head. cbn [removable].
  rewrite andb_true_r. apply Py_mem_In. apply (mem_tail a); assumption.
Qed.

Lemma removable_chow (a : Z) (tl : list Z) :
  Py.mem (a + 1) (a :: tl) = true -> Py.mem (a + 2) (a :: tl) = true ->
  removable [a; a + 1; a + 2] (a :: tl) = true.
Proof.
  intros H1 H2. apply removable_head. cbn [removable].
  assert (I1 : In (a + 1) tl) by (apply (mem_tail a); [lia | assumption]).
  assert (I2 : In (a + 2) tl) by (apply (mem_tail a); [lia | assumption]).
  rewrite andb_true_r. apply andb_true_iff. split; apply Py_mem_In.
  - exact I1.
  - apply remove_In_ne; [lia | exact I2].
Qed.

Lemma refines_branch (rec_h : Store.loc -> Store.M (list (list (list Z))))
      (rec_p : list Z -> option (list (list (list Z))))
      (cond : bool) (group : list Z) (rest_h : Store.M Store.loc) (rest : list Z)
      (h : Store.heap) :
  (forall l ts h, h !! l = Some (Store.Tiles ts) ->
                  refines h (rec_h l) (of_option (rec_p ts))) ->
  (cond = true -> yields h rest_h rest) ->
  refines h (Store.branch rec_h cond group rest_h)
          (of_option (Partition.branch rec_p cond group rest)).
Proof.
  intros Hrec Hrest. unfold Store.branch, Partition.branch. destruct cond.
  - eapply refines_bind_yields; [apply Hrest; reflexivity|]. intros l h' Hsub Hl.
    apply (refines_bind_opt h' (rec_h l) _ (rec_p rest)
                            (fun tmp_res => Some (map (cons group) tmp_res))).
    + apply Hrec, Hl.
    + intros. apply refines_ret.
  - apply refines_ret.
Qed.

Lemma refines_candidates (rec_h : Store.loc -> Store.M (list (list (list Z))))
      (rec_p : list Z -> option (list (list (list Z))))
      (l : Store.loc) (ts : list Z) (h : Store.heap) :
  (forall l ts h, h !! l = Some (Store.Tiles ts) ->
                  refines h (rec_h l) (of_option (rec_p ts))) ->
  h !! l = Some (Store.Tiles ts) ->
  refines h (Store.candidates rec_h l) (of_option (Partition.candidates rec_p ts)).
Proof.
  intros Hrec Hl. unfold Store.candidates, Partition.candidates.
  apply (refines_bind_load h l ts); [exact Hl|]. cbv zeta.
  (* a pon meld *)
  apply refines_bind_opt;
    [apply refines_branch; [exact Hrec | intros _; apply yields_new_tiles] |].
  intros r_pon h1 _ S1. pose proof (lookup_weaken _ _ _ _ Hl S1) as L1.
  (* a chow meld *)
  apply refines_bind_opt.
  { apply refines_branch; [exact Hrec |]. intros Hc.
    apply andb_true_iff in Hc as [H1 H2].
    apply (yields_copy_without h1 l [Py.idx ts 0; Py.idx ts 0 + 1; Py.idx ts 0 + 2] ts L1).
    destruct ts as [|a tl]; [discriminate H1|]. apply removable_chow; assumption. }
  intros r_chow h2 _ S2. pose proof (lookup_weaken _ _ _ _ L1 S2) as L2.
  (* a two-headed half-finished meld *)
  apply refines_bind_opt.
  { apply refines_branch; [exact Hrec |]. intros H1.
    apply (yields_copy_without h2 l [Py.idx ts 0; Py.idx ts 0 + 1] ts L2).
    destruct ts as [|a tl]; [discriminate H1|].
    apply removable_one; [cbn [Py.idx nth]; lia | assumption]. }
  intros r_two h3 _ S3. pose proof (lookup_weaken _ _ _ _ L2 S3) as L3.
  (* a dead half-finished meld *)
  apply refines_bind_opt.
  { apply refines_branch; [exact Hrec |]. intros H1.
    apply (yields_copy_without h3 l [Py.idx ts 0; Py.idx ts 0 + 2] ts L3).
    destruct ts as [|a tl]; [discriminate H1|].
    apply removable_one; [cbn [Py.idx nth]; lia | assumption]. }
  intros r_dead h4 _ S4.
  (* a pair, and the head tile alone *)
  apply refines_bind_opt;
    [apply refines_branch; [exact Hrec | intros _; apply yields_new_tiles] |].
  intros r_pair h5 _ S5.
  apply refines_bind_opt;
    [apply refines_branch; [exact Hrec | intros _; apply yields_new_tiles] |].
  intros r_single h6 _ S6.
  apply refines_ret.
Qed.

Lemma refines__partition_single_type_rec (fuel : nat) :
  forall (l : Store.loc) (ts : list Z) (h : Store.heap),
    h !! l = Some (Store.Tiles ts) ->
    refines h (Store._partition_single_type_rec fuel l)
            (of_option (Partition._partition_single_type_rec fuel ts)).
Proof.
  induction fuel as [|fuel IH]; intros l ts h Hl;
    cbn [Store._partition_single_type_rec Partition._partition_single_type_rec];
    apply (refines_bind_load h l ts); try exact Hl;
    destruct (Partition.base_case ts) as [r|]; try apply refines_ret.
  - apply refines_raise.
  - apply refines_bind_opt; [apply refines_candidates; [exact IH | exact Hl] |].
    intros res h1 _ _.
    apply refines_bind_opt; [apply refines_lift_opt |].
    intros min_len h2 _ _. apply refines_ret.
Qed.

Lemma refines__partition_single_type (l : Store.loc) (ts : list Z) (h : Store.heap) :
  h !! l = Some (Store.Tiles ts) ->
  refines h (Store._partition_single_type l)
          (of_option (Partition._partition_single_type ts)).
Proof.
  intros Hl. unfold Store._partition_single_type.
  apply (refines_bind_load h l ts); [exact Hl|].
  apply refines__partition_single_type_rec, Hl.
Qed.

(** [partition] over the store returns the decompositions of
    [Partition.partition], and raises where that has no value *)
Lemma refines_partition (l : Store.loc) (ts : list Z) (h : Store.heap) :
  h !! l = Some (Store.Tiles ts) ->
  refines h (Store.partition l) (of_option (Partition.partition ts)).
Proof.
  intros Hl. unfold Store.partition, Partition.partition.
  apply (refines_bind_load h l ts); [exact Hl|].
  eapply refines_bind_yields; [apply yields_new_tiles|]. intros man h1 S1 L1.
  apply refines_bind_opt; [apply refines__partition_single_type, L1|].
  intros p_man h2 _ S2.
  eapply refines_bind_yields; [apply yields_new_tiles|]. intros pin h3 S3 L3.
  apply refines_bind_opt; [apply refines__partition_single_type, L3|].
  intros p_pin h4 _ S4.
  eapply refines_bind_yields; [apply yields_new_tiles|]. intros suo h5 S5 L5.
  apply refines_bind_opt; [apply refines__partition_single_type, L5|].
  intros p_suo h6 _ S6.
  eapply refines_bind_yields; [apply yields_new_tiles|]. intros h_chr h7 S7 L7.
  apply (refines_bind_load h7 h_chr _ _ _ L7).
  apply refines_ret.
Qed.

Lemma refines_bind_ok {A B} (h : Store.heap) (m : Store.M A) (f : A -> Store.M B)
      (a : A) (v : outcome B) :
  refines h m (Ok a) ->
  (forall h', h ⊆ h' -> refines h' (f a) v) ->
  refines h (Store.bind m f) v.
Proof.
  intros Hm Hf.
  apply (refines_bind h m f (Ok a) (fun _ => v)); [exact Hm|].
  intros a' h' [= <-]. apply Hf.
Qed.

Lemma refines_parse_branch (rec_h : Store.loc -> Store.M (option (list (list (list Z)))))
      (rec_p : list Z -> option (list (list (list Z))))
      (cond : bool) (group : list Z) (rest_h : Store.M Store.loc) (rest : list Z)
      (h : Store.heap) :
  (forall l ts h, h !! l = Some (Store.Tiles ts) -> refines h (rec_h l) (Ok (rec_p ts))) ->
  (cond = true -> yields h rest_h rest) ->
  refines h (Store.parse_branch rec_h cond group rest_h)
          (Ok (WinParse.branch rec_p cond group rest)).
Proof.
  intros Hrec Hrest. unfold Store.parse_branch, WinParse.branch. destruct cond.
  - eapply refines_bind_yields; [apply Hrest; reflexivity|]. intros l h' Hsub Hl.
    eapply refines_bind_ok; [apply Hrec, Hl|]. intros h2 _. apply refines_ret.
  - apply refines_ret.
Qed.

Lemma refines_parse_nums_rec (fuel : nat) :
  forall (l : Store.loc) (ts : list Z) (h : Store.heap),
    h !! l = Some (Store.Tiles ts) ->
    refines h (Store.parse_nums_rec fuel l) (Ok (WinParse.parse_nums_rec fuel ts)).
Proof.
  induction fuel as [|fuel IH]; intros l ts h Hl;
    cbn [Store.parse_nums_rec WinParse.parse_nums_rec];
    apply (refines_bind_load h l ts); try exact Hl; cbv zeta;
    repeat match goal with
           | |- refines _ (if ?c then _ else _) _ => destruct c; [apply refines_ret|]
           end; [apply refines_ret|].
  (* a pair *)
  eapply refines_bind_ok;
    [apply refines_parse_branch; [exact IH | intros _; apply yields_new_tiles] |].
  intros h1 S1. pose proof (lookup_weaken _ _ _ _ Hl S1) as L1.
  (* a pon meld *)
  eapply refines_bind_ok;
    [apply refines_parse_branch; [exact IH | intros _; apply yields_new_tiles] |].
  intros h2 S2. pose proof (lookup_weaken _ _ _ _ L1 S2) as L2.
  (* a chow meld *)
  eapply refines_bind_ok.
  { apply refines_parse_branch; [exact IH |]. intros Hc.
    apply andb_true_iff in Hc as [H1 H2].
    apply (yields_copy_without h2 l [Py.idx ts 0; Py.idx ts 0 + 1; Py.idx ts 0 + 2] ts L2).
    destruct ts as [|a tl]; [discriminate H1|]. apply removable_chow; assumption. }
  intros h3 S3. apply refines_ret.
Qed.

Lemma refines_parse_nums (l : Store.loc) (ts : list Z) (h : Store.heap) :
  h !! l = Some (Store.Tiles ts) ->
  refines h (Store.parse_nums l) (Ok (WinParse.parse_nums ts)).
Proof.
  intros Hl. unfold Store.parse_nums.
  apply (refines_bind_load h l ts); [exact Hl|].
  apply refines_parse_nums_rec, Hl.
Qed.

Lemma refines_parse_chrs (l : Store.loc) (ts : list Z) (h : Store.heap) :
  h !! l = Some (Store.Tiles ts) ->
  refines h (Store.parse_chrs l) (Ok (WinParse.parse_chrs ts)).
Proof.
  intros Hl. unfold Store.parse_chrs.
  apply (refines_bind_load h l ts); [exact Hl|]. apply refines_ret.
Qed.

(** [win_parse] over the store returns the decompositions of
    [WinParse.win_parse]; the list it sorts is its own *)
Lemma refines_win_parse (hand34 : Store.loc) (final_tile : Z) (hand : list Z)
      (h : Store.heap) :
  h !! hand34 = Some (Store.Tiles hand) ->
  refines h (Store.win_parse hand34 final_tile) (Ok (WinParse.win_parse hand final_tile)).
Proof.
  intros Hl. unfold Store.win_parse, WinParse.win_parse.
  apply (refines_bind_load h hand34 hand); [exact Hl|].
  unfold refines. rewrite bind_new_tiles.
  pose proof (fresh_free h) as Hfree.
  set (hand_total := fresh (dom h)) in *.
  rewrite (bind_load_tiles hand_total (hand ++ [final_tile])) by apply lookup_insert_eq.
  cbv zeta.
  destruct (WinParse.is_orphans (hand ++ [final_tile])).
  { eexists. split; [reflexivity|]. apply insert_subseteq, Hfree. }
  rewrite (bind_list_sort hand_total (hand ++ [final_tile])) by apply lookup_insert_eq.
  rewrite insert_insert_eq.
  set (total := Py.sort (hand ++ [final_tile])).
  set (h1 := <[hand_total := Store.Tiles total]> h).
  assert (S0 : h ⊆ h1) by (apply insert_subseteq, Hfree).
  rewrite (bind_load_tiles hand_total total) by apply lookup_insert_eq.
  match goal with
  | |- exists h', ?m h1 = (?v, h') /\ _ => assert (Hrest : refines h1 m v)
  end.
  { eapply refines_bind_yields; [apply yields_new_tiles|]. intros hand_man h2 S2 L2.
    eapply refines_bind_yields; [apply yields_new_tiles|]. intros hand_pin h3 S3 L3.
    eapply refines_bind_yields; [apply yields_new_tiles|]. intros hand_suo h4 S4 L4.
    eapply refines_bind_yields; [apply yields_new_tiles|]. intros hand_chr h5 S5 L5.
    pose proof (lookup_weaken _ _ _ _ L2 S3) as L2'.
    pose proof (lookup_weaken _ _ _ _ L2' S4) as L2''.
    pose proof (lookup_weaken _ _ _ _ L2'' S5) as M5.
    pose proof (lookup_weaken _ _ _ _ L3 S4) as L3'.
    pose proof (lookup_weaken _ _ _ _ L3' S5) as P5.
    pose proof (lookup_weaken _ _ _ _ L4 S5) as U5.
    eapply refines_bind_ok; [apply refines_parse_nums, M5|]. intros h6 S6.
    eapply refines_bind_ok;
      [apply refines_parse_nums, (lookup_weaken _ _ _ _ P5 S6)|]. intros h7 S7.
    eapply refines_bind_ok;
      [apply refines_parse_nums,
             (lookup_weaken _ _ _ _ (lookup_weaken _ _ _ _ U5 S6) S7)|]. intros h8 S8.
    eapply refines_bind_ok;
      [apply refines_parse_chrs,
             (lookup_weaken _ _ _ _
                (lookup_weaken _ _ _ _ (lookup_weaken _ _ _ _ L5 S6) S7) S8)|].
    intros h9 S9. apply refines_ret. }
  destruct Hrest as (h' & Hrun & Hsub).
  exists h'. split; [exact Hrun | etransitivity; eassumption].
Qed.

Lemma load_each_run (h : Store.heap) (locs : list Store.loc) (gs : list (list Z)) :
  Forall2 (fun loc g => h !! loc = Some (Store.Tiles g)) locs gs ->
  Store.load_each locs h = (Ok gs, h).
Proof.
  induction 1 as [|loc g locs gs Hloc _ IH]; cbn [Store.load_each]; [reflexivity|].
  rewrite (bind_load_tiles loc g) by exact Hloc.
  unfold Store.bind. rewrite IH. reflexivity.
Qed.

Lemma bind_load_groups {B} (l : Store.loc) (gs : list (list Z))
      (f : list (list Z) -> Store.M B) (h : Store.heap) :
  holds_groups h l gs -> Store.bind (Store.load_groups l) f h = f gs h.
Proof.
  intros (locs & Hl & Hlocs).
  unfold Store.load_groups, Store.bind, Store.load. rewrite Hl.
  rewrite (load_each_run h locs gs Hlocs). reflexivity.
Qed.

Lemma holds_groups_weaken (h h' : Store.heap) (l : Store.loc) (gs : list (list Z)) :
  h ⊆ h' -> holds_groups h l gs -> holds_groups h' l gs.
Proof.
  intros Hsub (locs & Hl & Hlocs). exists locs. split.
  - eapply lookup_weaken; eassumption.
  - eapply Forall2_impl; [exact Hlocs|]. cbn. intros loc g Hg.
    eapply lookup_weaken; eassumption.
Qed.

Lemma refines_bind_load_groups {B} (h : Store.heap) (l : Store.loc) (gs : list (list Z))
      (f : list (list Z) -> Store.M B) (v : outcome B) :
  holds_groups h l gs -> refines h (f gs) v ->
  refines h (Store.bind (Store.load_groups l) f) v.
Proof. intros Hl Hf. unfold refines. rewrite (bind_load_groups l gs) by exact Hl. exact Hf. Qed.

(** The caller's lists: the hand at [hand34], the melds and quads and the
    bonus tiles at the locations of the context, in a store [h0]. *)
Section RefinesWinWaitCal.

Variables (h0 : Store.heap) (hand34 : Store.loc) (c : Store.context).
Variables (hand : list Z) (melds minkan ankan : list (list Z)) (bonus_tiles : list Z).

Hypothesis Hhand : h0 !! hand34 = Some (Store.Tiles hand).
Hypothesis Hmelds : holds_groups h0 (Store.c_melds c) melds.
Hypothesis Hminkan : holds_groups h0 (Store.c_minkan c) minkan.
Hypothesis Hankan : holds_groups h0 (Store.c_ankan c) ankan.
Hypothesis Hbonus : h0 !! Store.c_bonus_tiles c = Some (Store.Tiles bonus_tiles).

Local Abbreviation score_of t :=
  (WinWaitCal.score_of hand melds minkan ankan (Store.c_is_zimo c) (Store.c_player_wind c)
                       (Store.c_round_wind c) (Store.c_reach c) (Store.c_bonus_num c)
                       bonus_tiles (Store.c_benchan c) (Store.c_reach_stick c)
                       (Store.c_is_dealer c) t).

Local Abbreviation score_of_val pt :=
  (WinWaitCal.score_of_val hand melds minkan ankan (Store.c_is_zimo c)
                           (Store.c_player_wind c) (Store.c_round_wind c) (Store.c_reach c)
                           (Store.c_bonus_num c) bonus_tiles (Store.c_benchan c)
                           (Store.c_reach_stick c) (Store.c_is_dealer c) pt).

Lemma refines_score_calculation (final_tile : Z) (h : Store.heap) :
  h0 ⊆ h ->
  refines h (Store.score_calculation hand34 final_tile c) (score_of final_tile).
Proof.
  intros Hsub. unfold Store.score_calculation, WinWaitCal.score_of,
                 WinWaitCal.score_calculation.
  eapply refines_bind_ok.
  { apply refines_win_parse. eapply lookup_weaken; eassumption. }
  intros h1 S1. assert (Hsub1 : h0 ⊆ h1) by (etransitivity; eassumption).
  apply (refines_bind_load_groups h1 _ melds);
    [eapply holds_groups_weaken; eassumption|].
  apply (refines_bind_load_groups h1 _ minkan);
    [eapply holds_groups_weaken; eassumption|].
  apply (refines_bind_load_groups h1 _ ankan);
    [eapply holds_groups_weaken; eassumption|].
  apply (refines_bind_load h1 _ bonus_tiles); [eapply lookup_weaken; eassumption|].
  apply refines_lift.
Qed.

Lemma refines_score_calculation_val (final_tile : WinWaitCal.pyval) (h : Store.heap) :
  h0 ⊆ h ->
  refines h (Store.score_calculation_val hand34 final_tile c) (score_of_val final_tile).
Proof.
  intros Hsub. destruct final_tile as [t | ts];
    cbn [Store.score_calculation_val];
    unfold WinWaitCal.score_of_val, WinWaitCal.score_calculation_val.
  - apply refines_score_calculation, Hsub.
  - apply refines_raise.
Qed.

Lemma refines_assign (t : Z) (waitings : WinWaitCal.waitings_t) (h : Store.heap) :
  h0 ⊆ h ->
  refines h (Store.assign hand34 c t waitings)
          (WinWaitCal.assign hand melds minkan ankan (Store.c_is_zimo c)
                             (Store.c_player_wind c) (Store.c_round_wind c)
                             (Store.c_reach c) (Store.c_bonus_num c) bonus_tiles
                             (Store.c_benchan c) (Store.c_reach_stick c)
                             (Store.c_is_dealer c) t waitings).
Proof.
  intros Hsub. unfold Store.assign, WinWaitCal.assign.
  apply (refines_bind h _ _ (score_of t)
                      (fun r => Ok (dict_set Z.eqb t r waitings))).
  - apply refines_score_calculation, Hsub.
  - intros r h1 _ _. apply refines_ret.
Qed.

Lemma refines_assign_all (ts : list Z) :
  forall (waitings : WinWaitCal.waitings_t) (h : Store.heap),
    h0 ⊆ h ->
    refines h (Store.assign_all hand34 c ts waitings)
            (WinWaitCal.assign_all hand melds minkan ankan (Store.c_is_zimo c)
                                   (Store.c_player_wind c) (Store.c_round_wind c)
                                   (Store.c_reach c) (Store.c_bonus_num c) bonus_tiles
                                   (Store.c_benchan c) (Store.c_reach_stick c)
                                   (Store.c_is_dealer c) ts waitings).
Proof.
  induction ts as [|t ts IH]; intros waitings h Hsub;
    cbn [Store.assign_all WinWaitCal.assign_all].
  - apply refines_ret.
  - eapply (refines_bind h _ _ _ (fun w => WinWaitCal.assign_all _ _ _ _ _ _ _ _ _ _ _ _ _ ts w)).
    + apply refines_assign, Hsub.
    + intros w h1 _ S1. apply IH. etransitivity; eassumption.
Qed.

Lemma refines_try_all (pts : list WinWaitCal.pyval) :
  forall (waitings : WinWaitCal.waitings_t) (h : Store.heap),
    h0 ⊆ h ->
    refines h (Store.try_all hand34 c pts waitings)
            (WinWaitCal.try_all hand melds minkan ankan (Store.c_is_zimo c)
                                (Store.c_player_wind c) (Store.c_round_wind c)
                                (Store.c_reach c) (Store.c_bonus_num c) bonus_tiles
                                (Store.c_benchan c) (Store.c_reach_stick c)
                                (Store.c_is_dealer c) pts waitings).
Proof.
  induction pts as [|pt pts IH]; intros waitings h Hsub;
    cbn [Store.try_all WinWaitCal.try_all].
  - apply refines_ret.
  - eapply (refines_bind h _ _ (score_of_val pt)
              (fun score_dict =>
                 match score_dict, pt with
                 | Some r, WinWaitCal.PInt t =>
                   WinWaitCal.try_all _ _ _ _ _ _ _ _ _ _ _ _ _ pts
                                      (dict_set Z.eqb t (Some r) waitings)
                 | Some r, WinWaitCal.PList _ => Raise TypeError
                 | None, _ => WinWaitCal.try_all _ _ _ _ _ _ _ _ _ _ _ _ _ pts waitings
                 end)).
    + apply refines_score_calculation_val, Hsub.
    + intros [r|] h1 _ S1; [destruct pt|];
        first [apply refines_raise | apply IH; etransitivity; eassumption].
Qed.

(** [waiting_calculation] over the store returns what
    [WinWaitCal.waiting_calculation] returns for the same lists, and
    raises what it raises *)
Lemma refines_waiting_calculation (h : Store.heap) :
  h0 ⊆ h ->
  refines h (Store.waiting_calculation hand34 c)
          (WinWaitCal.waiting_calculation hand melds minkan ankan (Store.c_is_zimo c)
                                          (Store.c_player_wind c) (Store.c_round_wind c)
                                          (Store.c_reach c) (Store.c_bonus_num c)
                                          bonus_tiles (Store.c_benchan c)
                                          (Store.c_reach_stick c) (Store.c_is_dealer c)).
Proof.
  intros Hsub. unfold Store.waiting_calculation, WinWaitCal.waiting_calculation.
  apply (refines_bind_load h hand34 hand); [eapply lookup_weaken; eassumption|].
  cbv zeta.
  repeat match goal with
         | |- refines _ (if ?b then _ else _) _ => destruct b
         | |- refines _ (match ?l with [] => _ | _ :: _ => _ end) _ => destruct l
         end;
    first [ apply refines_ret | apply refines_raise | apply refines_assign, Hsub
          | apply refines_assign_all, Hsub | apply refines_try_all, Hsub ].
Qed.

End RefinesWinWaitCal.

(** The shanten family over the store returns the values of the functions
    of [Partition], for the hand at [tiles34] and the melds at
    [called_melds]. *)
Section RefinesShantin.

Variables (h : Store.heap) (tiles34 called_melds : Store.loc).
Variables (tiles : list Z) (melds : list (list Z)).

Hypothesis Htiles : h !! tiles34 = Some (Store.Tiles tiles).
Hypothesis Hmelds : holds_groups h called_melds melds.

Lemma refines_shantin_normal :
  refines h (Store.shantin_normal tiles34 called_melds)
          (of_option (Partition.shantin_normal tiles melds)).
Proof.
  unfold Store.shantin_normal, Partition.shantin_normal.
  apply refines_bind_opt; [apply refines_partition, Htiles|].
  intros partitions h1 _ S1.
  apply (refines_bind_load_groups h1 _ melds);
    [eapply holds_groups_weaken; eassumption|].
  apply refines_lift_opt.
Qed.

Lemma refines_shantin_no_triplets (bonus_chrs : Store.loc) (chrs : list Z) :
  h !! bonus_chrs = Some (Store.Tiles chrs) ->
  refines h (Store.shantin_no_triplets tiles34 called_melds bonus_chrs)
          (of_option (Partition.shantin_no_triplets tiles melds chrs)).
Proof.
  intros Hchrs. unfold Store.shantin_no_triplets, Partition.shantin_no_triplets.
  apply refines_bind_opt; [apply refines_partition, Htiles|].
  intros partitions h1 _ S1.
  apply (refines_bind_load_groups h1 _ melds);
    [eapply holds_groups_weaken; eassumption|].
  apply (refines_bind_load h1 _ chrs); [eapply lookup_weaken; eassumption|].
  apply refines_lift_opt.
Qed.

Lemma refines_shantin_no_19 :
  refines h (Store.shantin_no_19 tiles34 called_melds)
          (of_option (Partition.shantin_no_19 tiles melds)).
Proof.
  unfold Store.shantin_no_19, Partition.shantin_no_19.
  apply refines_bind_opt; [apply refines_partition, Htiles|].
  intros partitions h1 _ S1.
  apply (refines_bind_load_groups h1 _ melds);
    [eapply holds_groups_weaken; eassumption|].
  apply refines_lift_opt.
Qed.

Lemma refines_shantin_no_sequences :
  refines h (Store.shantin_no_sequences tiles34 called_melds)
          (Ok (Partition.shantin_no_sequences tiles melds)).
Proof.
  unfold Store.shantin_no_sequences.
  apply (refines_bind_load_groups h _ melds); [exact Hmelds|].
  apply (refines_bind_load h _ tiles); [exact Htiles|].
  apply refines_ret.
Qed.

Lemma refines_shantin_seven_pairs :
  refines h (Store.shantin_seven_pairs tiles34 called_melds)
          (Ok (Partition.shantin_seven_pairs tiles melds)).
Proof.
  unfold Store.shantin_seven_pairs.
  apply (refines_bind_load_groups h _ melds); [exact Hmelds|].
  apply (refines_bind_load h _ tiles); [exact Htiles|].
  apply refines_ret.
Qed.

Lemma refines_shantin_pure_color :
  refines h (Store.shantin_pure_color tiles34 called_melds)
          (of_option (Partition.shantin_pure_color tiles melds)).
Proof.
  unfold Store.shantin_pure_color, Partition.shantin_pure_color.
  apply refines_bind_opt; [apply refines_partition, Htiles|].
  intros partitions h1 _ S1.
  apply (refines_bind_load h1 _ tiles); [eapply lookup_weaken; eassumption|].
  apply (refines_bind_load_groups h1 _ melds);
    [eapply holds_groups_weaken; eassumption|].
  apply refines_lift_opt.
Qed.

End RefinesShantin.

(** The store after [partition]: the decompositions of
    [Partition.partition] are returned, and the hand is where and what it
    was. *)
Lemma partition_returns_and_keeps (h : Store.heap) (tiles34 : Store.loc) (tiles : list Z) :
  h !! tiles34 = Some (Store.Tiles tiles) ->
  exists r h',
    Partition.partition tiles = Some r
    /\ Store.partition tiles34 h = (Ok r, h')
    /\ h' !! tiles34 = Some (Store.Tiles tiles).
Proof.
  intros Hl.
  destruct (partition_total tiles) as (r & Hr & _).
  destruct (refines_partition tiles34 tiles h Hl) as (h' & Hrun & Hsub).
  rewrite Hr in Hrun. exists r, h'. repeat split; try assumption.
  eapply lookup_weaken; eassumption.
Qed.

(** [win_parse] returns the decompositions of the hand, sorted or not, and
    the hand is in the store as the caller left it: the list that is
    sorted is the one [hand34 + [final_tile]] made. *)
Lemma win_parse_returns_and_keeps (h : Store.heap) (hand34 : Store.loc) (hand : list Z)
      (final_tile : Z) :
  h !! hand34 = Some (Store.Tiles hand) ->
  exists h',
    Store.win_parse hand34 final_tile h = (Ok (WinParse.win_parse hand final_tile), h')
    /\ h' !! hand34 = Some (Store.Tiles hand).
Proof.
  intros Hl.
  destruct (refines_win_parse hand34 final_tile hand h Hl) as (h' & Hrun & Hsub).
  exists h'. split; [exact Hrun | eapply lookup_weaken; eassumption].
Qed.

Lemma list_sort_run (h : Store.heap) (l : Store.loc) (ts : list Z) :
  h !! l = Some (Store.Tiles ts) ->
  Store.list_sort l h = (Ok tt, <[l := Store.Tiles (Py.sort ts)]> h).
Proof.
  intros Hl. unfold Store.list_sort.
  rewrite (bind_load_tiles l ts) by exact Hl.
  unfold Store.store_tiles. rewrite (bind_load_tiles l ts) by exact Hl. reflexivity.
Qed.

(** What the frame excludes: [sort] called on a list of the caller changes
    it. *)
Example list_sort_changes_its_list :
  ~ unchanged {[1%positive := Store.Tiles [2; 1]]}
      (snd (Store.list_sort 1%positive {[1%positive := Store.Tiles [2; 1]]})).
Proof.
  intros H.
  specialize (H 1%positive (Store.Tiles [2; 1]) (lookup_singleton_eq _ _)).
  rewrite (list_sort_run _ _ [2; 1]) in H by apply lookup_singleton_eq.
  cbn [snd] in H. rewrite lookup_insert_eq in H. discriminate H.
Qed.

(** * Tile conversions *)

Lemma In_Py_range (a b c : Z) : a <= c < b -> In c (Py.range a b).
Proof.
  intros H. unfold Py.range. apply in_map_iff.
  exists (Z.to_nat (c - a)). split; [lia|]. apply in_seq. lia.
Qed.

Lemma range_forallb (P : Z -> bool) (a b : Z) :
  forallb P (Py.range a b) = true -> forall c, a <= c < b -> P c = true.
Proof.
  intros H c Hc. rewrite forallb_forall in H. apply H, In_Py_range, Hc.
Qed.

Lemma opt_eqb_eq (a b : option Z) : opt_eqb a b = true -> a = b.
Proof.
  destruct a, b; cbn; try discriminate; try reflexivity.
  intros H. apply Z.eqb_eq in H. now subst.
Qed.

Lemma lookup_key_absent (c : Z) (d : list (Z * Z)) :
  List.Forall (fun kv => fst kv <> c) d -> TileOps.lookup_key c d = None.
Proof.
  induction 1 as [|[k v] d Hk _ IH]; cbn [TileOps.lookup_key]; [reflexivity|].
  cbn in Hk. replace (c =? k) with false by (symmetry; apply Z.eqb_neq; lia).
  exact IH.
Qed.

Lemma his_value_outside (c : Z) : c < 11 \/ 53 < c -> his_value c = None.
Proof.
  intros H. unfold his_value.
  destruct ((1 <=? c / 10) && (c / 10 <=? 3) && (1 <=? c mod 10)) eqn:E1.
  { zbool. exfalso. Z.to_euclidean_division_equations. lia. }
  destruct ((41 <=? c) && (c <=? 47)) eqn:E2; [zbool; lia|].
  destruct ((51 <=? c) && (c <=? 53)) eqn:E3; [zbool; lia|].
  reflexivity.
Qed.

Lemma lookup_his_value (c : Z) :
  TileOps.lookup_key c TileOps.his_to_34_dic = his_value c.
Proof.
  destruct (Z_lt_le_dec c 11) as [Hlo | Hlo];
    [| destruct (Z_lt_le_dec 53 c) as [Hhi | Hhi]].
  - rewrite his_value_outside by lia. apply lookup_key_absent.
    unfold TileOps.his_to_34_dic. repeat constructor; cbn; lia.
  - rewrite his_value_outside by lia. apply lookup_key_absent.
    unfold TileOps.his_to_34_dic. repeat constructor; cbn; lia.
  - apply opt_eqb_eq.
    apply (range_forallb
             (fun c => opt_eqb (TileOps.lookup_key c TileOps.his_to_34_dic) (his_value c))
             11 54); [vm_compute; reflexivity | lia].
Qed.

Lemma mapM_ext {A B} (f g : A -> option B) (l : list A) :
  (forall a, f a = g a) -> mapM f l = mapM g l.
Proof.
  intros Hfg. induction l as [|a l IH]; cbn; [reflexivity|].
  rewrite Hfg, IH. reflexivity.
Qed.

(** X1: [his_to_34] decodes a code of the game log by its digits - the
    tens digit the suit, the units digit the rank, 41-47 the honors, 51-53
    the (red) fives - for a tile and for a list; every other code has no
    value (KeyError), and a decoded tile is a tile of the 34-form. *)
Theorem his_to_34_decodes :
  (forall c, TileOps.his_to_34 (WinWaitCal.PInt c) = WinWaitCal.PInt <$> his_value c)
  /\ (forall cs, TileOps.his_to_34 (WinWaitCal.PList cs)
                 = WinWaitCal.PList <$> mapM his_value cs)
  /\ (forall c t, his_value c = Some t -> 0 <= t <= 33).
Proof.
  split; [| split].
  - intros c. cbn [TileOps.his_to_34]. now rewrite lookup_his_value.
  - intros cs. cbn [TileOps.his_to_34].
    now rewrite (mapM_ext _ his_value cs lookup_his_value).
  - intros c t. unfold his_value.
    destruct ((1 <=? c / 10) && (c / 10 <=? 3) && (1 <=? c mod 10)) eqn:E1.
    { intros [= <-]. zbool. Z.to_euclidean_division_equations. lia. }
    destruct ((41 <=? c) && (c <=? 47)) eqn:E2; [intros [= <-]; zbool; lia|].
    destruct ((51 <=? c) && (c <=? 53)) eqn:E3; [intros [= <-]; zbool; lia|].
    discriminate.
Qed.

Lemma bonus_of_next (b : Z) : 0 <= b <= 33 -> TileOps.bonus_of b = next_tile b.
Proof.
  intros Hb. apply Z.eqb_eq.
  apply (range_forallb (fun b => TileOps.bonus_of b =? next_tile b) 0 34);
    [vm_compute; reflexivity | lia].
Qed.

Lemma next_tile_range (b : Z) : 0 <= b <= 33 -> 0 <= next_tile b <= 33.
Proof.
  intros Hb. unfold next_tile.
  destruct (b <? 27) eqn:E1; [| destruct (b <? 31) eqn:E2]; zbool;
    Z.to_euclidean_division_equations; lia.
Qed.

(** X2: the bonus tile of an indicator is the next tile of its cycle -
    the rank after it in its suit with 9 followed by 1, the wind after it
    with north followed by east, the dragon after it with the red one
    followed by the white one; it is a tile of the same type and never
    the indicator itself.  [cal_bonus_tiles] gives it for a tile and, tile
    by tile, for a list. *)
Theorem cal_bonus_tiles_next (b : Z) (bs : list Z) :
  0 <= b <= 33 ->
  (forall x, In x bs -> 0 <= x <= 33) ->
  TileOps.cal_bonus_tiles (WinWaitCal.PInt b) = [next_tile b]
  /\ TileOps.cal_bonus_tiles (WinWaitCal.PList bs) = map next_tile bs
  /\ 0 <= next_tile b <= 33
  /\ TileOps.same_type b (next_tile b) = true
  /\ next_tile b <> b.
Proof.
  intros Hb Hbs. split; [| split; [| split; [| split]]].
  - cbn [TileOps.cal_bonus_tiles]. now rewrite bonus_of_next.
  - cbn [TileOps.cal_bonus_tiles]. apply map_ext_in.
    intros x Hx. apply bonus_of_next, Hbs, Hx.
  - apply next_tile_range, Hb.
  - apply (range_forallb (fun b => TileOps.same_type b (next_tile b)) 0 34);
      [vm_compute; reflexivity | lia].
  - intros Heq.
    assert (H : negb (next_tile b =? b) = true).
    { apply (range_forallb (fun b => negb (next_tile b =? b)) 0 34);
        [vm_compute; reflexivity | lia]. }
    rewrite Heq, Z.eqb_refl in H. discriminate.
Qed.

Lemma cal_bonus_tiles_next_witness :
  TileOps.cal_bonus_tiles (WinWaitCal.PInt 8) = [next_tile 8]
  /\ TileOps.cal_bonus_tiles (WinWaitCal.PList [30; 33]) = map next_tile [30; 33]
  /\ 0 <= next_tile 8 <= 33
  /\ TileOps.same_type 8 (next_tile 8) = true
  /\ next_tile 8 <> 8.
Proof.
  apply (cal_bonus_tiles_next 8 [30; 33]).
  - lia.
  - intros x Hx. simpl in Hx. destruct Hx as [<- | [<- | []]]; lia.
Defined.

(** X3: no two indicators have the same bonus tile, and every tile is the
    bonus tile of an indicator: over the 34 tiles, [cal_bonus_tiles] is a
    one-to-one correspondence. *)
Theorem cal_bonus_tiles_one_to_one :
  (forall a b, 0 <= a <= 33 -> 0 <= b <= 33 ->
               TileOps.cal_bonus_tiles (WinWaitCal.PInt a)
               = TileOps.cal_bonus_tiles (WinWaitCal.PInt b) -> a = b)
  /\ (forall t, 0 <= t <= 33 ->
                exists b, 0 <= b <= 33 /\ TileOps.cal_bonus_tiles (WinWaitCal.PInt b) = [t]).
Proof.
  split.
  - intros a b Ha Hb Heq. cbn [TileOps.cal_bonus_tiles] in Heq. injection Heq as Heq.
    assert (H : forallb (fun b => negb (TileOps.bonus_of a =? TileOps.bonus_of b) || (a =? b))
                        (Py.range 0 34) = true).
    { apply (range_forallb
               (fun a => forallb (fun b => negb (TileOps.bonus_of a =? TileOps.bonus_of b)
                                           || (a =? b)) (Py.range 0 34)) 0 34);
        [vm_compute; reflexivity | lia]. }
    pose proof (range_forallb _ 0 34 H b ltac:(lia)) as Hab. cbn beta in Hab.
    rewrite Heq, Z.eqb_refl in Hab. cbn in Hab. now apply Z.eqb_eq.
  - intros t Ht.
    assert (H : existsb (fun b => TileOps.bonus_of b =? t) (Py.range 0 34) = true).
    { apply (range_forallb
               (fun t => existsb (fun b => TileOps.bonus_of b =? t) (Py.range 0 34)) 0 34);
        [vm_compute; reflexivity | lia]. }
    apply existsb_exists in H as (b & Hin & Hb).
    exists b. split.
    + unfold Py.range in Hin. apply in_map_iff in Hin as (i & <- & Hi).
      apply in_seq in Hi. cbn in Hi. lia.
    + cbn [TileOps.cal_bonus_tiles]. apply Z.eqb_eq in Hb. now rewrite Hb.
Qed.

(** X4: [t60_to_bns] is [his_to_34] followed by [cal_bonus_tiles]: the
    bonus tile of a code of the game log is the tile after the decoded
    indicator, for a code and for a list of codes, and it has no value
    when a code is unknown.  The red-five codes 51-53 indicate the same
    bonus tiles as the plain fives 15, 25, 35. *)
Theorem t60_to_bns_decodes_then_next :
  (forall c, TileOps.t60_to_bns (WinWaitCal.PInt c)
             = (fun t => WinWaitCal.PInt (next_tile t)) <$> his_value c)
  /\ (forall cs, TileOps.t60_to_bns (WinWaitCal.PList cs)
                 = (fun ts => WinWaitCal.PList (map next_tile ts)) <$> mapM his_value cs)
  /\ (forall cs ts, TileOps.his_to_34 (WinWaitCal.PList cs) = Some ts ->
                    TileOps.t60_to_bns (WinWaitCal.PList cs)
                    = Some (WinWaitCal.PList (TileOps.cal_bonus_tiles ts)))
  /\ TileOps.t60_to_bns (WinWaitCal.PList [51; 52; 53])
     = TileOps.t60_to_bns (WinWaitCal.PList [15; 25; 35]).
Proof.
  assert (Hrange : forall c t, his_value c = Some t -> 0 <= t <= 33).
  { intros c t. unfold his_value.
    destruct ((1 <=? c / 10) && (c / 10 <=? 3) && (1 <=? c mod 10)) eqn:E1.
    { intros [= <-]. zbool. Z.to_euclidean_division_equations. lia. }
    destruct ((41 <=? c) && (c <=? 47)) eqn:E2; [intros [= <-]; zbool; lia|].
    destruct ((51 <=? c) && (c <=? 53)) eqn:E3; [intros [= <-]; zbool; lia|].
    discriminate. }
  assert (Hlist : forall cs ts, mapM his_value cs = Some ts ->
                                forall t, In t ts -> 0 <= t <= 33).
  { induction cs as [|c cs IH]; cbn; intros ts Hts.
    - injection Hts as <-. intros t [].
    - destruct (his_value c) as [t0|] eqn:Hc; cbn in Hts; [| discriminate].
      destruct (mapM his_value cs) as [ts0|]; cbn in Hts; [| discriminate].
      injection Hts as <-. intros t [<- | Ht]; [eapply Hrange; eassumption | eauto]. }
  split; [| split; [| split]].
  - intros c. unfold TileOps.t60_to_bns. cbn [TileOps.his_to_34].
    rewrite lookup_his_value. destruct (his_value c) as [t|] eqn:Hc; cbn; [| reflexivity].
    rewrite bonus_of_next by (eapply Hrange; eassumption). reflexivity.
  - intros cs. unfold TileOps.t60_to_bns. cbn [TileOps.his_to_34].
    rewrite (mapM_ext _ his_value cs lookup_his_value).
    destruct (mapM his_value cs) as [ts|] eqn:Hcs; cbn; [| reflexivity].
    do 2 f_equal. apply map_ext_in. intros t Ht. apply bonus_of_next.
    eapply Hlist; eassumption.
  - intros cs ts Hts. unfold TileOps.t60_to_bns. rewrite Hts. cbn.
    cbn [TileOps.his_to_34] in Hts.
    destruct (mapM _ cs) as [l|]; cbn in Hts; [| discriminate].
    injection Hts as <-. reflexivity.
  - vm_compute. reflexivity.
Qed.

(** X5: seen from seat 0, with the dealer at seat [dealer], [self_wind]
    lists the four winds by seat: the dealer's seat has east, and the
    seat [k] places after the dealer has the [k]-th wind after east. *)
Theorem self_wind_by_seat (dealer k : Z) :
  0 <= dealer <= 3 -> 0 <= k <= 3 ->
  List.length (TileOps.self_wind dealer) = 4%nat
  /\ nth (Z.to_nat ((dealer + k) mod 4)) (TileOps.self_wind dealer) 0 = 27 + k.
Proof.
  intros Hd Hk.
  assert (Ed : dealer = 0 \/ dealer = 1 \/ dealer = 2 \/ dealer = 3) by lia.
  assert (Ek : k = 0 \/ k = 1 \/ k = 2 \/ k = 3) by lia.
  destruct Ed as [-> | [-> | [-> | ->]]]; destruct Ek as [-> | [-> | [-> | ->]]];
    vm_compute; split; reflexivity.
Qed.

Lemma self_wind_by_seat_witness :
  List.length (TileOps.self_wind 1) = 4%nat
  /\ nth (Z.to_nat ((1 + 3) mod 4)) (TileOps.self_wind 1) 0 = 27 + 3.
Proof. apply (self_wind_by_seat 1 3); lia. Defined.

Lemma insert_sorted_comm (x y : Z) (l : list Z) :
  Py.insert_sorted x (Py.insert_sorted y l) = Py.insert_sorted y (Py.insert_sorted x l).
Proof.
  induction l as [|z l IH]; cbn [Py.insert_sorted].
  - destruct (x <=? y) eqn:E1, (y <=? x) eqn:E2; zbool; try reflexivity;
      [assert (x = y) by lia; subst; reflexivity | lia].
  - destruct (y <=? z) eqn:Eyz, (x <=? z) eqn:Exz; cbn [Py.insert_sorted];
      rewrite ?Eyz, ?Exz.
    + destruct (x <=? y) eqn:E1, (y <=? x) eqn:E2; zbool; try reflexivity;
        [assert (x = y) by lia; subst; reflexivity | lia].
    + replace (x <=? y) with false by (symmetry; apply Z.leb_gt; zbool; lia).
      reflexivity.
    + replace (y <=? x) with false by (symmetry; apply Z.leb_gt; zbool; lia).
      reflexivity.
    + now rewrite IH.
Qed.

Lemma sort_Permutation (a b : list Z) : Permutation a b -> Py.sort a = Py.sort b.
Proof.
  unfold Py.sort. induction 1 as [| x a b _ IH | x y a | a b c _ IH1 _ IH2];
    cbn [fold_right].
  - reflexivity.
  - now rewrite IH.
  - apply insert_sorted_comm.
  - now rewrite IH1.
Qed.

(** X6: the string of a hand does not depend on the order in which the
    tiles are given: [t34_to_str] sorts before it writes, and
    [t136_to_str] is [t34_to_str] of the tiles divided by 4. *)
Theorem t34_to_str_order (a b : list Z) :
  Permutation a b ->
  TileOps.t34_to_str a = TileOps.t34_to_str b
  /\ TileOps.t136_to_str a = TileOps.t136_to_str b.
Proof.
  intros Hab. unfold TileOps.t136_to_str, TileOps.t34_to_str. split.
  - now rewrite (sort_Permutation a b Hab).
  - now rewrite (sort_Permutation _ _ (Permutation_map (fun t => t / 4) Hab)).
Qed.

Lemma t34_to_str_order_witness :
  TileOps.t34_to_str [27; 9; 1; 0] = TileOps.t34_to_str [0; 1; 9; 27]
  /\ TileOps.t136_to_str [27; 9; 1; 0] = TileOps.t136_to_str [0; 1; 9; 27].
Proof.
  apply (t34_to_str_order [27; 9; 1; 0] [0; 1; 9; 27]).
  apply (perm_trans (l' := [9; 1; 0; 27])).
  - apply (Permutation_cons_append [9; 1; 0] 27).
  - apply (perm_trans (l' := [1; 0; 9; 27])).
    + apply (Permutation_app_tail [27] (Permutation_cons_append [1; 0] 9)).
    + apply (Permutation_app_tail [9; 27] (perm_swap 0 1 [])).
Defined.

(** X7: [t34_to_str] sorts the list it is given, the list of the caller:
    after the call that list is in the store sorted, and the string is
    the one of the tiles.  [t136_to_str] works on a list of its own: the
    caller's list is as it was. *)
Theorem t34_to_str_sorts_in_place (h : Store.heap) (tiles : Store.loc) (ts : list Z) :
  h !! tiles = Some (Store.Tiles ts) ->
  TileOps.t34_to_str_h tiles h
  = (TileOps.t34_to_str ts, <[tiles := Store.Tiles (Py.sort ts)]> h)
  /\ exists h',
      TileOps.t136_to_str_h tiles h = (TileOps.t136_to_str ts, h')
      /\ unchanged h h'.
Proof.
  intros Hl.
  assert (Hstr : forall (l : Store.loc) (h1 : Store.heap) (xs : list Z),
             h1 !! l = Some (Store.Tiles xs) ->
             TileOps.t34_to_str_h l h1
             = (TileOps.t34_to_str xs, <[l := Store.Tiles (Py.sort xs)]> h1)).
  { intros l h1 xs Hx. unfold TileOps.t34_to_str_h.
    rewrite (bind_list_sort l xs) by exact Hx.
    rewrite (bind_load_tiles l (Py.sort xs)) by apply lookup_insert_eq.
    reflexivity. }
  split; [apply Hstr, Hl|].
  unfold TileOps.t136_to_str_h.
  rewrite (bind_load_tiles tiles ts) by exact Hl.
  rewrite bind_new_tiles.
  rewrite (Hstr _ _ (map (fun t => t / 4) ts)) by apply lookup_insert_eq.
  rewrite insert_insert_eq.
  eexists. split; [reflexivity|].
  intros l o Ho. rewrite lookup_insert_ne; [exact Ho|].
  intros <-. rewrite fresh_free in Ho. discriminate.
Qed.

Lemma t34_to_str_sorts_in_place_witness :
  TileOps.t34_to_str_h 1%positive {[1%positive := Store.Tiles [9; 0]]}
  = (TileOps.t34_to_str [9; 0],
     <[1%positive := Store.Tiles (Py.sort [9; 0])]> {[1%positive := Store.Tiles [9; 0]]})
  /\ exists h',
      TileOps.t136_to_str_h 1%positive {[1%positive := Store.Tiles [9; 0]]}
      = (TileOps.t136_to_str [9; 0], h')
      /\ unchanged {[1%positive := Store.Tiles [9; 0]]} h'.
Proof.
  apply (t34_to_str_sorts_in_place {[1%positive := Store.Tiles [9; 0]]} 1%positive [9; 0]).
  vm_compute. reflexivity.
Defined.

(** * The score table above and below the limits *)

Lemma fu_rounded_values (fu : Z) : fu_rounded fu -> In fu fu_values.
Proof.
  intros [Hr Hm]. unfold fu_values.
  assert (H : fu = 0 \/ fu = 10 \/ fu = 20 \/ fu = 25 \/ fu = 30 \/ fu = 40 \/ fu = 50
              \/ fu = 60 \/ fu = 70 \/ fu = 80 \/ fu = 90 \/ fu = 100 \/ fu = 110
              \/ fu = 120).
  { destruct Hm as [Hm | ->]; [| lia]. Z.to_euclidean_division_equations. lia. }
  simpl. intuition.
Qed.

Lemma table_case_In (fu : Z) (is_dealer is_zimo : bool) :
  fu_rounded fu -> In (fu, is_dealer, is_zimo) table_cases.
Proof.
  intros Hfu. unfold table_cases. apply in_flat_map.
  exists fu. split; [apply fu_rounded_values, Hfu|].
  destruct is_dealer, is_zimo; simpl; auto.
Qed.

(** from 13 han on the table has one row *)
Lemma score_calculation_base_from_13 (han fu : Z) (is_dealer is_zimo : bool) :
  13 <= han ->
  score_calculation_base han fu is_dealer is_zimo
  = score_calculation_base 13 fu is_dealer is_zimo.
Proof.
  intros H. unfold score_calculation_base.
  replace (han =? 0) with false by (symmetry; apply Z.eqb_neq; lia).
  replace (han <? 5) with false by (symmetry; apply Z.ltb_ge; lia).
  replace (han =? 5) with false by (symmetry; apply Z.eqb_neq; lia).
  replace (han <=? 7) with false by (symmetry; apply Z.leb_gt; lia).
  replace (han <=? 10) with false by (symmetry; apply Z.leb_gt; lia).
  replace (han <=? 12) with false by (symmetry; apply Z.leb_gt; lia).
  rewrite !andb_false_r. reflexivity.
Qed.

Lemma limit_pay_from_13 (han : Z) (is_dealer : bool) :
  13 <= han -> limit_pay han is_dealer = limit_pay 13 is_dealer.
Proof.
  intros H. unfold limit_pay.
  replace (han <=? 5) with false by (symmetry; apply Z.leb_gt; lia).
  replace (han <=? 7) with false by (symmetry; apply Z.leb_gt; lia).
  replace (han <=? 10) with false by (symmetry; apply Z.leb_gt; lia).
  replace (han <=? 12) with false by (symmetry; apply Z.leb_gt; lia).
  reflexivity.
Qed.

Lemma table_bounded_true : table_bounded = true.
Proof. vm_compute. reflexivity. Qed.

Lemma table_monotone_true : table_monotone = true.
Proof. vm_compute. reflexivity. Qed.

Lemma pay_bounded (han fu : Z) (is_dealer is_zimo : bool) :
  1 <= han <= 13 -> fu_rounded fu ->
  0 <= pay han (fu, is_dealer, is_zimo) <= limit_pay han is_dealer
  /\ pay han (fu, is_dealer, is_zimo) mod 100 = 0
  /\ (5 <= han -> pay han (fu, is_dealer, is_zimo) = limit_pay han is_dealer).
Proof.
  intros Hhan Hfu.
  pose proof table_bounded_true as H. unfold table_bounded in H.
  pose proof (range_forallb _ 1 14 H han ltac:(lia)) as Hrow. cbn beta in Hrow.
  rewrite forallb_forall in Hrow.
  specialize (Hrow _ (table_case_In fu is_dealer is_zimo Hfu)). cbn [fst snd] in Hrow.
  apply andb_true_iff in Hrow as [Hrow Hlim].
  apply andb_true_iff in Hrow as [Hrow Hmod].
  apply andb_true_iff in Hrow as [Hlo Hhi].
  apply Z.leb_le in Hlo, Hhi. apply Z.eqb_eq in Hmod.
  repeat split; try assumption.
  intros H5. apply orb_true_iff in Hlim as [Hlt | Heq];
    [apply Z.ltb_lt in Hlt; lia | now apply Z.eqb_eq].
Qed.

(** X8: for a fu value as [fu_calculation] rounds it and at least one han,
    the points of [score_calculation_base] are a multiple of 100 between
    0 and the payment of the limit hand of that han count (mangan up to 5
    han, then haneman, baiman, sanbaiman, yakuman); from 5 han on they are
    that payment, whatever the fu. *)
Theorem score_calculation_base_within_limit (han fu : Z) (is_dealer is_zimo : bool) :
  1 <= han -> fu_rounded fu ->
  0 <= fst (score_calculation_base han fu is_dealer is_zimo) <= limit_pay han is_dealer
  /\ fst (score_calculation_base han fu is_dealer is_zimo) mod 100 = 0
  /\ (5 <= han ->
      fst (score_calculation_base han fu is_dealer is_zimo) = limit_pay han is_dealer).
Proof.
  intros Hhan Hfu.
  destruct (Z_le_gt_dec han 13) as [Hle | Hgt].
  - apply (pay_bounded han fu is_dealer is_zimo); [lia | exact Hfu].
  - rewrite score_calculation_base_from_13, limit_pay_from_13 by lia.
    destruct (pay_bounded 13 fu is_dealer is_zimo ltac:(lia) Hfu) as (H1 & H2 & H3).
    repeat split; try apply H1; try exact H2. intros _. apply H3. lia.
Qed.

Lemma score_calculation_base_within_limit_witness :
  0 <= fst (score_calculation_base 4 30 false false) <= limit_pay 4 false
  /\ fst (score_calculation_base 4 30 false false) mod 100 = 0
  /\ (5 <= 4 -> fst (score_calculation_base 4 30 false false) = limit_pay 4 false).
Proof.
  apply (score_calculation_base_within_limit 4 30 false false).
  - lia.
  - unfold fu_rounded. split; [lia | left; reflexivity].
Defined.

Lemma pay_step (han fu : Z) (is_dealer is_zimo : bool) :
  1 <= han -> fu_rounded fu ->
  pay han (fu, is_dealer, is_zimo) <= pay (han + 1) (fu, is_dealer, is_zimo).
Proof.
  intros Hhan Hfu.
  destruct (Z_le_gt_dec han 12) as [Hle | Hgt].
  - pose proof table_monotone_true as H. unfold table_monotone in H.
    pose proof (range_forallb _ 1 13 H han ltac:(lia)) as Hrow. cbn beta in Hrow.
    rewrite forallb_forall in Hrow.
    specialize (Hrow _ (table_case_In fu is_dealer is_zimo Hfu)).
    now apply Z.leb_le.
  - unfold pay.
    rewrite (score_calculation_base_from_13 han), (score_calculation_base_from_13 (han + 1))
      by lia.
    lia.
Qed.

(** X9: for a fu value as [fu_calculation] rounds it, more han never give
    fewer points. *)
Theorem score_calculation_base_monotone (han han' fu : Z) (is_dealer is_zimo : bool) :
  1 <= han <= han' -> fu_rounded fu ->
  fst (score_calculation_base han fu is_dealer is_zimo)
  <= fst (score_calculation_base han' fu is_dealer is_zimo).
Proof.
  intros [Hlo Hle] Hfu.
  replace han' with (han + Z.of_nat (Z.to_nat (han' - han))) by lia.
  induction (Z.to_nat (han' - han)) as [|n IH].
  - rewrite Z.add_0_r. lia.
  - etransitivity; [exact IH|].
    replace (han + Z.of_nat (S n)) with (han + Z.of_nat n + 1) by lia.
    apply (pay_step (han + Z.of_nat n) fu is_dealer is_zimo); [lia | exact Hfu].
Qed.

Lemma score_calculation_base_monotone_witness :
  fst (score_calculation_base 2 30 true true) <= fst (score_calculation_base 4 30 true true).
Proof.
  apply (score_calculation_base_monotone 2 4 30 true true).
  - lia.
  - unfold fu_rounded. split; [lia | left; reflexivity].
Defined.

(** * The range of the fu *)

Lemma Py_sum_app (a b : list Z) : Py.sum (a ++ b) = Py.sum a + Py.sum b.
Proof. unfold Py.sum. induction a as [| x a IH]; simpl; lia. Qed.

Lemma add_base_keys (v : Z) (k x : FuCalculation.fu_key) (d : FuCalculation.fu_dict) :
  In x (dict_keys (FuCalculation.add_base v k d)) -> x = k \/ In x (dict_keys d).
Proof.
  unfold FuCalculation.add_base, dict_keys.
  induction d as [| [k' v'] d IH]; simpl.
  - intros [<- | []]. now left.
  - destruct (FuCalculation.fu_key_beq k k') eqn:E; simpl.
    + apply fu_key_beq_eq in E. subst. intros [<- | H]; auto.
    + intros [<- | H]; [auto |]. destruct (IH H); auto.
Qed.

Lemma add_base_entries (v : Z) (k x : FuCalculation.fu_key) (w : Z)
      (d : FuCalculation.fu_dict) :
  In (x, w) (FuCalculation.add_base v k d) -> (x = k /\ w = v) \/ In (x, w) d.
Proof.
  unfold FuCalculation.add_base.
  induction d as [| [k' v'] d IH]; simpl.
  - intros [[= <- <-] | []]. now left.
  - destruct (FuCalculation.fu_key_beq k k') eqn:E; simpl.
    + intros [[= <- <-] | H]; auto.
    + intros [H | H]; [auto |]. destruct (IH H); auto.
Qed.

Lemma well_keyed_add_base (k : FuCalculation.fu_key) (d : FuCalculation.fu_dict) :
  well_keyed d -> well_keyed (FuCalculation.add_base (award_value k) k d).
Proof.
  intros [Hnd Hval]. split.
  - clear Hval. unfold FuCalculation.add_base, dict_keys in *.
    induction d as [| [k' v'] d IH]; simpl.
    + repeat constructor. intros [].
    + inversion Hnd as [| ? ? Hnotin Hnd']; subst.
      destruct (FuCalculation.fu_key_beq k k') eqn:E; simpl.
      * apply fu_key_beq_eq in E. subst. now constructor.
      * constructor; [| now apply IH].
        intros Hin. apply add_base_keys in Hin as [-> | Hin]; [| contradiction].
        assert (FuCalculation.fu_key_beq k k = true) by now apply fu_key_beq_eq.
        congruence.
  - intros x w Hin. apply add_base_entries in Hin as [[-> ->] | Hin]; [reflexivity |].
    now apply Hval.
Qed.

Lemma well_keyed_add_all (calls : list (FuCalculation.fu_key * Z)) :
  (forall k v, In (k, v) calls -> v = award_value k) ->
  forall d, well_keyed d -> well_keyed (add_all calls d).
Proof.
  unfold add_all. induction calls as [| [k v] calls IH]; intros Hc d Hd; simpl.
  - exact Hd.
  - apply IH; [intros; apply Hc; now right |].
    rewrite (Hc k v) by now left. now apply well_keyed_add_base.
Qed.

Lemma add_all_keys (calls : list (FuCalculation.fu_key * Z)) :
  forall d x, In x (dict_keys (add_all calls d)) ->
              In x (map fst calls) \/ In x (dict_keys d).
Proof.
  unfold add_all. induction calls as [| [k v] calls IH]; intros d x; simpl.
  - auto.
  - intros H. apply IH in H as [H | H]; [auto |].
    apply add_base_keys in H as [-> | H]; auto.
Qed.

(** the sum over keys that are distinct and among [all] is at most the
    sum over [all] *)
Lemma sum_NoDup_incl {K} (w : K -> Z) (l : list K) :
  (forall k, 0 <= w k) ->
  forall all, List.NoDup l -> incl l all -> Py.sum (map w l) <= Py.sum (map w all).
Proof.
  intros Hw. induction l as [| k l IH]; intros all Hnd Hincl; simpl.
  - clear Hincl. induction all as [| a all IHa]; simpl; [lia |].
    specialize (Hw a). lia.
  - inversion Hnd as [| ? ? Hnotin Hnd']; subst.
    destruct (in_split k all (Hincl k (or_introl eq_refl))) as (l1 & l2 & ->).
    rewrite map_app, Py_sum_app. simpl.
    assert (Hsub : incl l (l1 ++ l2)).
    { intros x Hx. specialize (Hincl x (or_intror Hx)).
      apply in_app_iff in Hincl as [H | [-> | H]]; [| contradiction |];
        apply in_app_iff; auto. }
    specialize (IH (l1 ++ l2) Hnd' Hsub).
    rewrite map_app, Py_sum_app in IH. lia.
Qed.

Lemma well_keyed_sum (d : FuCalculation.fu_dict) :
  well_keyed d -> dict_sum d = Py.sum (map award_value (dict_keys d)).
Proof.
  intros [_ Hval]. unfold dict_sum, dict_keys.
  induction d as [| [k v] d IH]; simpl; [reflexivity |].
  rewrite (Hval k v) by now left.
  rewrite IH; [reflexivity |]. intros; apply Hval; now right.
Qed.

Lemma award_value_pos (k : FuCalculation.fu_key) : 0 <= award_value k.
Proof. destruct k; simpl; lia. Qed.

Lemma group_key_In (k : FuCalculation.fu_key) : group_key k = true -> In k group_keys.
Proof. destruct k; simpl; intros H; try discriminate; intuition. Qed.

Section FuRange.

Variables (hand_partition : list (list Z)) (final_tile : Z)
          (melds minkan ankan : list (list Z)) (is_zimo : bool)
          (player_wind round_wind : Z).

Lemma group_awards_values (k : FuCalculation.fu_key) (v : Z) :
  In (k, v) (group_awards hand_partition final_tile melds minkan ankan is_zimo) ->
  v = award_value k.
Proof.
  unfold group_awards. rewrite !in_app_iff.
  intros [H | [H | [H | H]]]; apply in_flat_map in H as (m & _ & H).
  - unfold hand_triplet_award in H. destruct (is_triplet m); [| destruct H].
    destruct (Py.mem _ _); destruct (is_zimo || _);
      destruct H as [[= <- <-] | []]; reflexivity.
  - unfold meld_triplet_award in H.
    destruct (Py.idx m 0 =? Py.idx m 1); [| destruct H].
    destruct (Py.mem _ _); destruct H as [[= <- <-] | []]; reflexivity.
  - unfold minkan_award in H.
    destruct (Py.mem _ _); destruct H as [[= <- <-] | []]; reflexivity.
  - unfold ankan_award in H.
    destruct (Py.mem _ _); destruct H as [[= <- <-] | []]; reflexivity.
Qed.

(** the triplets and quads give between 0 and 90 fu: one entry per
    category *)
Lemma group_part_range :
  let d := add_all (group_awards hand_partition final_tile melds minkan ankan is_zimo) [] in
  well_keyed d
  /\ (forall k, In k (dict_keys d) -> group_key k = true)
  /\ 0 <= dict_sum d <= 90.
Proof.
  cbv zeta.
  set (G := group_awards hand_partition final_tile melds minkan ankan is_zimo).
  assert (Hwk : well_keyed (add_all G [])).
  { apply well_keyed_add_all; [apply group_awards_values |].
    split; [constructor | intros k v []]. }
  assert (Hkeys : forall k, In k (dict_keys (add_all G [])) -> group_key k = true).
  { intros k Hk. apply add_all_keys in Hk as [Hk | []].
    now apply (group_awards_keys hand_partition final_tile melds minkan ankan is_zimo). }
  split; [exact Hwk | split; [exact Hkeys |]].
  rewrite (well_keyed_sum _ Hwk). split.
  - clear. unfold Py.sum.
    induction (dict_keys (add_all G [])) as [| k l IH]; simpl; [lia |].
    pose proof (award_value_pos k). lia.
  - change 90 with (Py.sum (map award_value group_keys)).
    apply sum_NoDup_incl; [apply award_value_pos | apply Hwk |].
    intros k Hk. apply group_key_In, Hkeys, Hk.
Qed.

Lemma itemized_sum (pr : list Z) (d : FuCalculation.fu_dict) :
  FuCalculation.itemized hand_partition final_tile melds minkan ankan is_zimo
                         player_wind round_wind pr = Ok d ->
  dict_sum d
  = dict_sum (add_all (group_awards hand_partition final_tile melds minkan ankan is_zimo) [])
    + pair_award player_wind round_wind pr
    + wait_award hand_partition final_tile melds pr
    + win_award melds minkan is_zimo.
Proof.
  intros Hd. apply itemized_awards in Hd. subst d. rewrite add_all_app.
  destruct group_part_range as (Hwk & Hkeys & _).
  destruct (tail_calls_NoDup hand_partition final_tile melds minkan is_zimo
                             player_wind round_wind pr) as [Htail Htkeys].
  rewrite add_all_new.
  - unfold dict_sum. rewrite !map_app, !Py_sum_app.
    rewrite pair_calls_sum, wait_calls_sum, win_calls_sum. lia.
  - apply List.NoDup_app; [apply Hwk | exact Htail |].
    intros k Hk Hk'. apply Hkeys in Hk. apply Htkeys in Hk'. congruence.
Qed.

(** X10: whatever the decomposition, the raw fu of [fu_calculation] are
    between 0 and 108, and the rounded fu are the raw fu rounded up to the
    next multiple of 10 - or the flat 25 of seven pairs: a value the
    score table is made for. *)
Theorem fu_calculation_range (r : FuCalculation.fu_result) :
  FuCalculation.fu_calculation hand_partition final_tile melds minkan ankan is_zimo
                               player_wind round_wind = Ok r ->
  0 <= FuCalculation.fu_sum r <= 108
  /\ FuCalculation.fu_sum r <= FuCalculation.fu_round r < FuCalculation.fu_sum r + 10
  /\ (FuCalculation.fu_round r mod 10 = 0 \/ FuCalculation.fu_round r = 25)
  /\ fu_rounded (FuCalculation.fu_round r).
Proof.
  unfold FuCalculation.fu_calculation, fu_rounded.
  destruct (Py.len hand_partition =? 7).
  { intros [= <-]. cbn. repeat split; try lia; right; reflexivity. }
  destruct (FuCalculation.flat_pinfu _ _ _ _ _ _) as [[e |] | err] eqn:Hflat; cbn;
    [| | discriminate].
  { intros [= <-]. unfold FuCalculation.flat_pinfu in Hflat.
    repeat match type of Hflat with
           | context [FuCalculation.chows ?x ?y] =>
             destruct (FuCalculation.chows x y); cbn in Hflat
           | context [first_pair ?x] => destruct (first_pair x); cbn in Hflat
           | context [FuCalculation.any_two_sided ?x ?y] =>
             destruct (FuCalculation.any_two_sided x y); cbn in Hflat
           | context [if ?c then _ else _] => destruct c; cbn in Hflat
           end; try discriminate; injection Hflat as <-; cbn;
      repeat split; try lia; left; reflexivity. }
  destruct (first_pair hand_partition) as [pr | err]; cbn; [| discriminate].
  destruct (FuCalculation.itemized _ _ _ _ _ _ _ _ _) as [d | err] eqn:Hd; cbn;
    [| discriminate].
  intros [= <-]. cbn [FuCalculation.fu_sum FuCalculation.fu_round].
  rewrite (itemized_sum pr d Hd).
  destruct group_part_range as (_ & _ & Hg).
  assert (Hp : 0 <= pair_award player_wind round_wind pr <= 6).
  { unfold pair_award.
    destruct (Py.mem _ _); destruct (_ =? player_wind); destruct (_ =? round_wind); lia. }
  assert (Hw : 0 <= wait_award hand_partition final_tile melds pr <= 2).
  { unfold wait_award. cbv zeta.
    destruct (FuCalculation.with_final _ _); [destruct (_ =? _) | destruct (forallb _ _)];
      lia. }
  assert (Hz : 0 <= win_award melds minkan is_zimo <= 10).
  { unfold win_award. destruct is_zimo; [lia |]. destruct (melds ++ minkan); lia. }
  set (total := dict_sum _ + _ + _ + _) in *.
  assert (Ht : 0 <= total <= 108) by (subst total; lia).
  clearbody total. repeat split; try lia;
    try (Z.to_euclidean_division_equations; lia).
Qed.

End FuRange.

Lemma fu_calculation_range_witness :
  0 <= FuCalculation.fu_sum simples_fu <= 108
  /\ FuCalculation.fu_sum simples_fu <= FuCalculation.fu_round simples_fu
     < FuCalculation.fu_sum simples_fu + 10
  /\ (FuCalculation.fu_round simples_fu mod 10 = 0 \/ FuCalculation.fu_round simples_fu = 25)
  /\ fu_rounded (FuCalculation.fu_round simples_fu).
Proof.
  apply (fu_calculation_range simples_partition 24 [] [] [] false 27 27 simples_fu).
  vm_compute. reflexivity.
Defined.

(** * The han dictionaries *)

Lemma dict_set_In {K V} (eqb : K -> K -> bool) (k x : K) (v w : V) (d : list (K * V)) :
  In (x, w) (dict_set eqb k v d) -> (x = k /\ w = v) \/ In (x, w) d.
Proof.
  induction d as [| [k' v'] d IH]; simpl.
  - intros [[= <- <-] | []]. now left.
  - destruct (eqb k k'); simpl.
    + intros [[= <- <-] | H]; auto.
    + intros [H | H]; [auto |]. destruct (IH H); auto.
Qed.

Lemma han_key_eqb_eq (a b : HanCalculation.han_key) :
  HanCalculation.han_key_eqb a b = true <-> a = b.
Proof.
  destruct a as [x | n], b as [y | m]; simpl; split; try discriminate.
  - intros H. f_equal. now apply HanCalculation.internal_yaku_dec_bl.
  - intros [= ->]. now apply HanCalculation.internal_yaku_dec_lb.
  - intros H. apply Z.eqb_eq in H. now subst.
  - intros [= ->]. apply Z.eqb_refl.
Qed.

Lemma bounds_add_han (h : Z) (y : HanCalculation.yaku) (d : HanCalculation.dicts) :
  1 <= h <= 6 -> han_bounds d -> han_bounds (HanCalculation.add_han h y d).
Proof.
  intros Hh [H1 H2]. split; cbn; [| exact H2].
  intros k v Hin. apply dict_set_In in Hin as [[_ ->] | Hin]; [exact Hh | eauto].
Qed.

Lemma bounds_add_yakuman (y : HanCalculation.yaku) (d : HanCalculation.dicts) :
  han_bounds d -> han_bounds (HanCalculation.add_yakuman 1 y d).
Proof.
  intros [H1 H2]. split; cbn; [exact H1 |].
  intros k v Hin. apply dict_set_In in Hin as [[_ ->] | Hin]; [reflexivity | eauto].
Qed.

(** the entries stay in range through a check *)
Ltac bounds :=
  cbv zeta;
  repeat first
         [ assumption
         | apply bounds_add_yakuman
         | apply bounds_add_han; [lia |]
         | match goal with
           | |- han_bounds (if ?c then _ else _) => destruct c
           end ].

(** the head of an application *)
Ltac head_of t :=
  match t with
  | ?g _ => head_of g
  | _ => t
  end.

(** one check further: the dictionaries after the next check are in range *)
Ltac check_step :=
  match goal with
  | Hd : han_bounds ?d |- context [?f ?d] =>
    let d' := fresh "d" in
    let H' := fresh "Hb" in
    let h := head_of f in
    assert (H' : han_bounds (f d)) by (unfold h; bounds);
    set (d' := f d) in *; clearbody d'; clear Hd
  end.

Section HanChecks.

Variables (hand_partition : list (list Z)) (final_tile : Z)
          (melds minkan ankan : list (list Z)) (is_zimo : bool)
          (player_wind round_wind : Z) (reach : bool).

Local Abbreviation all_tiles := (HanCalculation.all_tiles hand_partition melds minkan ankan).
Local Abbreviation is_menqing := (HanCalculation.is_menqing melds minkan).

Lemma bounds_check_dori (d : HanCalculation.dicts) :
  han_bounds d ->
  han_bounds (HanCalculation.check_dori hand_partition melds minkan ankan
                                        player_wind round_wind d).
Proof.
  unfold HanCalculation.check_dori.
  generalize (HanCalculation.all_melds hand_partition melds minkan ankan).
  intros l. revert d. induction l as [| m l IH]; intros d Hd; simpl; [exact Hd |].
  apply IH. unfold HanCalculation.dori_step. bounds.
Qed.

(** every check keeps the entries in range *)
Lemma bounds_han_calculation (hd : HanCalculation.han_result) :
  HanCalculation.han_calculation hand_partition final_tile melds minkan ankan is_zimo
                                 player_wind round_wind reach = Ok hd ->
  han_bounds {| HanCalculation.d_han := HanCalculation.han hd;
                HanCalculation.d_ykman := HanCalculation.ykman hd |}.
Proof.
  unfold HanCalculation.han_calculation. cbv zeta.
  set (d0 := {| HanCalculation.d_han := []; HanCalculation.d_ykman := [] |}).
  assert (H0 : han_bounds d0) by (split; intros k v []).
  clearbody d0.
  do 3 check_step.
  match goal with
  | Hd : han_bounds ?d |- context [HanCalculation.check_dori ?a ?b ?c ?e ?f ?g ?d] =>
    pose proof (bounds_check_dori d Hd) as Hdori;
      set (dd := HanCalculation.check_dori a b c e f g d) in *;
      clearbody dd; clear Hd
  end.
  check_step.
  match goal with
  | |- context [HanCalculation.check_flat_win ?a ?b ?c ?e ?f ?g ?d] =>
    destruct (HanCalculation.check_flat_win a b c e f g d) as [d6 | e6] eqn:E6; cbn;
      [| discriminate]
  end.
  assert (H6 : han_bounds d6).
  { unfold HanCalculation.check_flat_win in E6.
    repeat match type of E6 with
           | context [if ?c then _ else _] => destruct c; cbn in E6
           | context [first_pair ?x] => destruct (first_pair x); cbn in E6
           end; try discriminate; injection E6 as <-; bounds. }
  clear E6.
  check_step.
  match goal with
  | |- context [HanCalculation.check_all_pons ?a ?b ?c ?e ?d] =>
    destruct (HanCalculation.check_all_pons a b c e d) as [d8 | e8] eqn:E8; cbn;
      [| discriminate]
  end.
  assert (H8 : han_bounds d8).
  { unfold HanCalculation.check_all_pons in E8. cbv zeta in E8.
    repeat match type of E8 with
           | context [if ?c then _ else _] => destruct c; cbn in E8
           end; try discriminate; injection E8 as <-; bounds. }
  clear E8.
  do 8 check_step.
  match goal with
  | |- context [HanCalculation.check_4ankans ?a ?b ?c ?e ?f ?g ?d] =>
    destruct (HanCalculation.check_4ankans a b c e f g d) as [d17 | e17] eqn:E17; cbn;
      [| discriminate]
  end.
  assert (H17 : han_bounds d17).
  { unfold HanCalculation.check_4ankans in E17. cbv zeta in E17.
    repeat match type of E17 with
           | context [if ?c then _ else _] => destruct c; cbn in E17
           | context [first_pair ?x] => destruct (first_pair x); cbn in E17
           end; try discriminate; injection E17 as <-; bounds. }
  clear E17.
  do 3 check_step.
  intros [= <-]. cbn.
  match goal with
  | Hd : han_bounds ?d |- _ => destruct d; exact Hd
  end.
Qed.

End HanChecks.

Lemma han_calculation_sums (hand_partition : list (list Z)) (final_tile : Z)
      (melds minkan ankan : list (list Z)) (is_zimo : bool) (player_wind round_wind : Z)
      (reach : bool) (hd : HanCalculation.han_result) :
  HanCalculation.han_calculation hand_partition final_tile melds minkan ankan is_zimo
                                 player_wind round_wind reach = Ok hd ->
  HanCalculation.han_sum hd = dict_sum (HanCalculation.han hd)
  /\ HanCalculation.yk_sum hd = dict_sum (HanCalculation.ykman hd).
Proof.
  unfold HanCalculation.han_calculation. cbv zeta.
  destruct (HanCalculation.check_flat_win _ _ _ _ _ _ _) as [d6 | e]; cbn; [| discriminate].
  destruct (HanCalculation.check_all_pons _ _ _ _ _) as [d8 | e]; cbn; [| discriminate].
  destruct (HanCalculation.check_4ankans _ _ _ _ _ _ _) as [d17 | e]; cbn; [| discriminate].
  intros [= <-]. split; reflexivity.
Qed.

Lemma dict_sum_between (lo hi : Z) (d : HanCalculation.han_dict) :
  (forall k v, In (k, v) d -> lo <= v <= hi) ->
  lo * Py.len d <= dict_sum d <= hi * Py.len d.
Proof.
  unfold dict_sum, Py.len, Py.sum. induction d as [| [k v] d IH]; intros H.
  - simpl. lia.
  - specialize (IH (fun k' v' Hin => H k' v' (or_intror Hin))).
    specialize (H k v (or_introl eq_refl)).
    cbn [map fold_right snd List.length]. rewrite Nat2Z.inj_succ. lia.
Qed.

(** X11: in a result of [han_calculation] every yaku entry counts between
    1 and 6 han and every yakuman entry counts 1: the yakuman sum is the
    number of yakuman, the han sum is at least the number of yaku, and a
    sum is 0 only for an empty dictionary.  So [score_calculation] skips a
    decomposition exactly when both dictionaries are empty. *)
Theorem han_calculation_entries (hand_partition : list (list Z)) (final_tile : Z)
        (melds minkan ankan : list (list Z)) (is_zimo : bool) (player_wind round_wind : Z)
        (reach : bool) (hd : HanCalculation.han_result) :
  HanCalculation.han_calculation hand_partition final_tile melds minkan ankan is_zimo
                                 player_wind round_wind reach = Ok hd ->
  (forall k v, In (k, v) (HanCalculation.han hd) -> 1 <= v <= 6)
  /\ (forall k v, In (k, v) (HanCalculation.ykman hd) -> v = 1)
  /\ HanCalculation.yk_sum hd = Py.len (HanCalculation.ykman hd)
  /\ Py.len (HanCalculation.han hd) <= HanCalculation.han_sum hd
     <= 6 * Py.len (HanCalculation.han hd)
  /\ (HanCalculation.han_sum hd = 0 <-> HanCalculation.han hd = [])
  /\ (HanCalculation.yk_sum hd = 0 <-> HanCalculation.ykman hd = [])
  /\ (forall bonus_num bonus_tiles benchan reach_stick is_dealer,
         WinWaitCal.candidate final_tile melds minkan ankan is_zimo player_wind round_wind
                              reach bonus_num bonus_tiles benchan reach_stick is_dealer
                              hand_partition = Ok None
         <-> HanCalculation.han hd = [] /\ HanCalculation.ykman hd = []).
Proof.
  intros Hhd.
  destruct (bounds_han_calculation _ _ _ _ _ _ _ _ _ _ Hhd) as [Hhan Hyk]. cbn in Hhan, Hyk.
  destruct (han_calculation_sums _ _ _ _ _ _ _ _ _ _ Hhd) as [Es Ey].
  pose proof (dict_sum_between 1 6 _ Hhan) as Bh.
  assert (Hyk' : forall k v, In (k, v) (HanCalculation.ykman hd) -> 1 <= v <= 1)
    by (intros k v Hin; rewrite (Hyk k v Hin); lia).
  pose proof (dict_sum_between 1 1 _ Hyk') as By.
  assert (Hnil : forall (d : HanCalculation.han_dict), Py.len d = 0 <-> d = []).
  { intros d. unfold Py.len. destruct d; simpl; split; try reflexivity; try discriminate; lia. }
  assert (Hs0 : HanCalculation.han_sum hd = 0 <-> HanCalculation.han hd = []).
  { rewrite <- Hnil, Es. split; [lia | intros E; rewrite E in Bh; lia]. }
  assert (Hy0 : HanCalculation.yk_sum hd = 0 <-> HanCalculation.ykman hd = []).
  { rewrite <- Hnil, Ey. split; [lia | intros E; rewrite E in By; lia]. }
  split; [exact Hhan |]. split; [exact Hyk |]. split; [lia |]. split; [lia |].
  split; [exact Hs0 |]. split; [exact Hy0 |].
  intros bonus_num bonus_tiles benchan reach_stick is_dealer.
  rewrite <- Hs0, <- Hy0.
  apply (candidate_skipped final_tile melds minkan ankan is_zimo player_wind round_wind
                           reach bonus_num bonus_tiles benchan reach_stick is_dealer
                           hand_partition hd Hhd).
Qed.

Lemma han_calculation_entries_witness :
  (forall k v, In (k, v) (HanCalculation.han simples_han) -> 1 <= v <= 6)
  /\ (forall k v, In (k, v) (HanCalculation.ykman simples_han) -> v = 1)
  /\ HanCalculation.yk_sum simples_han = Py.len (HanCalculation.ykman simples_han)
  /\ Py.len (HanCalculation.han simples_han) <= HanCalculation.han_sum simples_han
     <= 6 * Py.len (HanCalculation.han simples_han)
  /\ (HanCalculation.han_sum simples_han = 0 <-> HanCalculation.han simples_han = [])
  /\ (HanCalculation.yk_sum simples_han = 0 <-> HanCalculation.ykman simples_han = [])
  /\ (forall bonus_num bonus_tiles benchan reach_stick is_dealer,
         WinWaitCal.candidate 24 [] [] [] false 27 27 true bonus_num bonus_tiles benchan
                              reach_stick is_dealer simples_partition = Ok None
         <-> HanCalculation.han simples_han = [] /\ HanCalculation.ykman simples_han = []).
Proof.
  apply (han_calculation_entries simples_partition 24 [] [] [] false 27 27 true simples_han).
  vm_compute. reflexivity.
Defined.

(** ** Which yaku are listed *)

Lemma han_key_eqb_sym (a b : HanCalculation.han_key) :
  HanCalculation.han_key_eqb a b = HanCalculation.han_key_eqb b a.
Proof.
  destruct (HanCalculation.han_key_eqb a b) eqn:E1, (HanCalculation.han_key_eqb b a) eqn:E2;
    try reflexivity.
  - apply han_key_eqb_eq in E1. subst.
    assert (HanCalculation.han_key_eqb b b = true) by now apply han_key_eqb_eq. congruence.
  - apply han_key_eqb_eq in E2. subst.
    assert (HanCalculation.han_key_eqb a a = true) by now apply han_key_eqb_eq. congruence.
Qed.

(** [d[k] = v] adds the key [k] to the keys, and nothing else *)
Lemma has_key_dict_set (x k : HanCalculation.han_key) (v : Z) (d : HanCalculation.han_dict) :
  has_key x (dict_set HanCalculation.han_key_eqb k v d)
  = HanCalculation.han_key_eqb x k || has_key x d.
Proof.
  unfold has_key, dict_keys. induction d as [| [k' v'] d IH]; simpl.
  - reflexivity.
  - destruct (HanCalculation.han_key_eqb k k') eqn:E; simpl.
    + apply han_key_eqb_eq in E. subst k'.
      destruct (HanCalculation.han_key_eqb x k); reflexivity.
    + rewrite IH.
      destruct (HanCalculation.han_key_eqb x k), (HanCalculation.han_key_eqb x k');
        reflexivity.
Qed.

Lemma has_key_add_han (x : HanCalculation.han_key) (h : Z) (y : HanCalculation.yaku)
      (d : HanCalculation.dicts) :
  has_key x (HanCalculation.d_han (HanCalculation.add_han h y d))
  = HanCalculation.han_key_eqb x (HanCalculation.Yaku y)
    || has_key x (HanCalculation.d_han d).
Proof. cbn. apply has_key_dict_set. Qed.

Lemma has_key_add_yakuman (x : HanCalculation.han_key) (m : Z) (y : HanCalculation.yaku)
      (d : HanCalculation.dicts) :
  has_key x (HanCalculation.d_han (HanCalculation.add_yakuman m y d))
  = has_key x (HanCalculation.d_han d).
Proof. reflexivity. Qed.

Lemma has_key_no_entries (x : HanCalculation.han_key) :
  has_key x (HanCalculation.d_han no_entries) = false.
Proof. reflexivity. Qed.

(** the keys after a check are the keys before it and those the check
    enters, whatever was there *)
Ltac keys_close :=
  rewrite ?has_key_add_han, ?has_key_add_yakuman, ?has_key_no_entries;
  repeat match goal with
         | |- context [HanCalculation.han_key_eqb ?a ?b] =>
           destruct (HanCalculation.han_key_eqb a b)
         end;
  repeat match goal with
         | |- context [has_key ?a ?b] => destruct (has_key a b)
         end;
  reflexivity.

Ltac keys_of_check :=
  cbv zeta;
  repeat match goal with
         | |- context [if ?c then _ else _] => destruct c
         end;
  rewrite ?has_key_add_han, ?has_key_add_yakuman, ?has_key_no_entries;
  repeat match goal with
         | |- context [HanCalculation.han_key_eqb ?a ?b] =>
           destruct (HanCalculation.han_key_eqb a b)
         end;
  repeat match goal with
         | |- context [has_key ?a ?b] => destruct (has_key a b)
         end;
  reflexivity.

Ltac keys_step :=
  match goal with
  | Hd : has_key ?x (HanCalculation.d_han ?d) = ?B |- context [?f ?d] =>
    let d' := fresh "d" in
    let H' := fresh "Hk" in
    let h := head_of f in
    assert (H' : has_key x (HanCalculation.d_han (f d)) = B || enters f x)
      by (rewrite <- Hd; unfold enters, h; keys_of_check);
    set (d' := f d) in *; clearbody d'; clear Hd
  end.

Section HanKeys.

Variables (hand_partition : list (list Z)) (final_tile : Z)
          (melds minkan ankan : list (list Z)) (is_zimo : bool)
          (player_wind round_wind : Z) (reach : bool).

Variable x : HanCalculation.han_key.

Lemma keys_dori_step (d : HanCalculation.dicts) (m : list Z) :
  has_key x (HanCalculation.d_han (HanCalculation.dori_step player_wind round_wind d m))
  = has_key x (HanCalculation.d_han d)
    || has_key x (HanCalculation.d_han
                    (HanCalculation.dori_step player_wind round_wind no_entries m)).
Proof. unfold HanCalculation.dori_step. keys_of_check. Qed.

Lemma keys_check_dori (d : HanCalculation.dicts) :
  has_key x (HanCalculation.d_han
               (HanCalculation.check_dori hand_partition melds minkan ankan
                                          player_wind round_wind d))
  = has_key x (HanCalculation.d_han d)
    || enters (HanCalculation.check_dori hand_partition melds minkan ankan
                                         player_wind round_wind) x.
Proof.
  unfold enters, HanCalculation.check_dori.
  generalize (HanCalculation.all_melds hand_partition melds minkan ankan). intros l.
  revert d. induction l as [| m l IH]; intros d; simpl.
  - now rewrite orb_false_r.
  - rewrite (IH (HanCalculation.dori_step player_wind round_wind d m)),
            (IH (HanCalculation.dori_step player_wind round_wind no_entries m)).
    rewrite keys_dori_step, orb_assoc. reflexivity.
Qed.

Lemma keys_check_flat_win (d d' : HanCalculation.dicts) :
  HanCalculation.check_flat_win hand_partition final_tile melds minkan
                                player_wind round_wind d = Ok d' ->
  has_key x (HanCalculation.d_han d')
  = has_key x (HanCalculation.d_han d)
    || enters_o (HanCalculation.check_flat_win hand_partition final_tile melds minkan
                                               player_wind round_wind) x.
Proof.
  unfold enters_o, HanCalculation.check_flat_win. cbv zeta.
  repeat match goal with
         | |- context [first_pair ?p] => destruct (first_pair p); cbn
         | |- context [if ?c then _ else _] => destruct c; cbn
         end; try discriminate; intros [= <-]; keys_close.
Qed.

Lemma keys_check_all_pons (d d' : HanCalculation.dicts) :
  HanCalculation.check_all_pons hand_partition melds minkan ankan d = Ok d' ->
  has_key x (HanCalculation.d_han d')
  = has_key x (HanCalculation.d_han d)
    || enters_o (HanCalculation.check_all_pons hand_partition melds minkan ankan) x.
Proof.
  unfold enters_o, HanCalculation.check_all_pons. cbv zeta.
  repeat match goal with
         | |- context [if ?c then _ else _] => destruct c; cbn
         end; try discriminate; intros [= <-]; keys_close.
Qed.

Lemma keys_check_4ankans (d d' : HanCalculation.dicts) :
  HanCalculation.check_4ankans hand_partition final_tile melds minkan ankan is_zimo d
  = Ok d' ->
  has_key x (HanCalculation.d_han d')
  = has_key x (HanCalculation.d_han d)
    || enters_o (HanCalculation.check_4ankans hand_partition final_tile melds minkan ankan
                                              is_zimo) x.
Proof.
  unfold enters_o, HanCalculation.check_4ankans. cbv zeta.
  repeat match goal with
         | |- context [first_pair ?p] => destruct (first_pair p); cbn
         | |- context [if ?c then _ else _] => destruct c; cbn
         end; try discriminate; intros [= <-]; keys_close.
Qed.

(** the yaku listed in a result are those that the checks enter: a check
    never removes a yaku, and what it enters does not depend on what the
    earlier checks found *)
Lemma han_keys_entered (hd : HanCalculation.han_result) :
  HanCalculation.han_calculation hand_partition final_tile melds minkan ankan is_zimo
                                 player_wind round_wind reach = Ok hd ->
  has_key x (HanCalculation.han hd)
  = entered hand_partition final_tile melds minkan ankan is_zimo player_wind round_wind
            reach x.
Proof.
  unfold HanCalculation.han_calculation, entered. cbv zeta. cbn [fold_left].
  fold no_entries.
  assert (H0 : has_key x (HanCalculation.d_han no_entries) = false) by reflexivity.
  generalize dependent no_entries. intros d0 H0.
  do 3 keys_step.
  match goal with
  | Hd : has_key x (HanCalculation.d_han ?d) = _ |- _ =>
    pose proof (keys_check_dori d) as Hdori; rewrite Hd in Hdori; clear Hd
  end.
  match type of Hdori with
  | has_key x (HanCalculation.d_han ?t) = _ => set (dd := t) in *; clearbody dd
  end.
  keys_step.
  match goal with
  | Hd : has_key x (HanCalculation.d_han ?d) = _
    |- context [HanCalculation.check_flat_win ?a ?b ?c ?e ?f ?g ?d] =>
    destruct (HanCalculation.check_flat_win a b c e f g d) as [d6 | e6] eqn:E6; cbn;
      [| discriminate];
      pose proof (keys_check_flat_win d d6 E6) as H6; rewrite Hd in H6; clear Hd E6
  end.
  keys_step.
  match goal with
  | Hd : has_key x (HanCalculation.d_han ?d) = _
    |- context [HanCalculation.check_all_pons ?a ?b ?c ?e ?d] =>
    destruct (HanCalculation.check_all_pons a b c e d) as [d8 | e8] eqn:E8; cbn;
      [| discriminate];
      pose proof (keys_check_all_pons d d8 E8) as H8; rewrite Hd in H8; clear Hd E8
  end.
  do 8 keys_step.
  match goal with
  | Hd : has_key x (HanCalculation.d_han ?d) = _
    |- context [HanCalculation.check_4ankans ?a ?b ?c ?e ?f ?g ?d] =>
    destruct (HanCalculation.check_4ankans a b c e f g d) as [d17 | e17] eqn:E17; cbn;
      [| discriminate];
      pose proof (keys_check_4ankans d d17 E17) as H17; rewrite Hd in H17; clear Hd E17
  end.
  do 3 keys_step.
  intros [= <-]. cbn [HanCalculation.han].
  match goal with
  | Hd : has_key x (HanCalculation.d_han ?d) = _ |- _ => exact Hd
  end.
Qed.

End HanKeys.

Lemma has_key_keys (x : HanCalculation.han_key) (d : HanCalculation.han_dict) :
  has_key x d = true <-> In x (dict_keys d).
Proof.
  unfold has_key. rewrite existsb_exists. split.
  - intros (k & Hin & E). apply han_key_eqb_eq in E. now subst.
  - intros Hin. exists x. split; [exact Hin | now apply han_key_eqb_eq].
Qed.

(** [check_dori] enters the three value-tile yaku and no other *)
Lemma enters_check_dori (hand_partition melds minkan ankan : list (list Z))
      (player_wind round_wind : Z) (y : HanCalculation.yaku) :
  y <> HanCalculation.Yakuhai1 -> y <> HanCalculation.Jikaze1 ->
  y <> HanCalculation.Bakaze1 ->
  enters (HanCalculation.check_dori hand_partition melds minkan ankan
                                    player_wind round_wind) (HanCalculation.Yaku y) = false.
Proof.
  intros N1 N2 N3. unfold enters, HanCalculation.check_dori.
  generalize (HanCalculation.all_melds hand_partition melds minkan ankan). intros l.
  assert (H0 : has_key (HanCalculation.Yaku y) (HanCalculation.d_han no_entries) = false)
    by reflexivity.
  revert H0. generalize no_entries.
  induction l as [| m l IH]; intros d Hd; simpl; [exact Hd |].
  apply IH. unfold HanCalculation.dori_step. cbv zeta.
  assert (E : forall k, k <> y ->
                        HanCalculation.han_key_eqb (HanCalculation.Yaku y)
                                                   (HanCalculation.Yaku k) = false).
  { intros k Hk. destruct (HanCalculation.han_key_eqb _ _) eqn:E; [| reflexivity].
    apply han_key_eqb_eq in E. congruence. }
  repeat match goal with
         | |- context [if ?c then _ else _] => destruct c
         end;
    rewrite ?has_key_add_han, ?E by congruence; cbn [orb]; exact Hd.
Qed.

(** the checks that do not enter the yaku at hand *)
Ltac other_checks :=
  repeat match goal with
         | |- context [enters (HanCalculation.check_dori ?a ?b ?c ?d ?e ?f) ?x] =>
           rewrite (enters_check_dori a b c d e f) by discriminate
         | |- context [enters ?f ?x] =>
           let h := head_of f in
           replace (enters f x) with false
             by (unfold enters, h; cbv zeta;
                 repeat match goal with
                        | |- context [if ?c then _ else _] => destruct c
                        end; reflexivity)
         | |- context [enters_o ?f ?x] =>
           let h := head_of f in
           replace (enters_o f x) with false
             by (unfold enters_o, h; cbv zeta;
                 repeat match goal with
                        | |- context [first_pair ?p] => destruct (first_pair p); cbn
                        | |- context [if ?c then _ else _] => destruct c; cbn
                        end; reflexivity)
         end;
  cbn [orb]; rewrite ?orb_false_r.

Section HanYaku.

Variables (hand_partition : list (list Z)) (final_tile : Z)
          (melds minkan ankan : list (list Z)) (is_zimo : bool)
          (player_wind round_wind : Z) (reach : bool).

Variable hd : HanCalculation.han_result.

Hypothesis Hhd :
  HanCalculation.han_calculation hand_partition final_tile melds minkan ankan is_zimo
                                 player_wind round_wind reach = Ok hd.

Local Abbreviation listed y := (In (HanCalculation.Yaku y) (dict_keys (HanCalculation.han hd))).

Local Abbreviation tiles :=
  (concat (hand_partition ++ melds ++ minkan ++ ankan)).

(** X12: riichi is listed exactly when [reach] is set, and the concealed
    self-draw exactly for a self-drawn win with no called meld and no open
    quad. *)
Theorem han_riichi_and_tsumo :
  (In (HanCalculation.Yaku HanCalculation.Riichi1) (dict_keys (HanCalculation.han hd))
   <-> reach = true)
  /\ (In (HanCalculation.Yaku HanCalculation.MenzenTsumo1)
         (dict_keys (HanCalculation.han hd))
      <-> is_zimo = true /\ melds ++ minkan = []).
Proof.
  split; rewrite <- has_key_keys, (han_keys_entered _ _ _ _ _ _ _ _ _ _ _ Hhd);
    unfold entered; cbn [fold_left]; other_checks.
  - unfold enters, HanCalculation.check_win_type. cbv zeta.
    destruct reach, (is_zimo && _); cbn; split; congruence.
  - unfold enters, HanCalculation.check_win_type, HanCalculation.is_menqing, Py.len.
    cbv zeta. destruct (melds ++ minkan) as [| m l]; destruct reach, is_zimo; cbn;
      split; intros H; try discriminate; try (destruct H; discriminate); auto.
Qed.

(** X13: all simples is listed exactly when no tile of the hand, of the
    called melds or of the quads is a terminal or an honor. *)
Theorem han_all_simples :
  In (HanCalculation.Yaku HanCalculation.Tanyao1) (dict_keys (HanCalculation.han hd))
  <-> forall t, In t tiles -> ~ In t Tile.ONENINE.
Proof.
  rewrite <- has_key_keys, (han_keys_entered _ _ _ _ _ _ _ _ _ _ _ Hhd).
  unfold entered; cbn [fold_left]; other_checks.
  unfold enters, HanCalculation.check_no19.
  fold tiles.
  destruct (forallb _ Tile.ONENINE) eqn:E; cbn.
  - split; [intros _ | reflexivity].
    rewrite forallb_forall in E. intros t Ht Hin.
    specialize (E t Hin). apply negb_true_iff in E.
    apply Py_mem_In in Ht. unfold HanCalculation.all_tiles, HanCalculation.all_melds in E.
    congruence.
  - split; [discriminate |]. intros H. exfalso.
    assert (E' : forallb (fun t => negb (Py.mem t (HanCalculation.all_tiles
                                                     hand_partition melds minkan ankan)))
                         Tile.ONENINE = true).
    { apply forallb_forall. intros t Hin. apply negb_true_iff.
      destruct (Py.mem t _) eqn:M; [| reflexivity].
      apply Py_mem_In in M. exfalso. exact (H t M Hin). }
    congruence.
Qed.

End HanYaku.

Lemma single_suit_test (tiles : list Z) :
  existsb (fun typ => forallb (fun t => (typ <=? t) && (t <? typ + 9)) tiles) [0; 9; 18]
  = true <-> single_suit tiles.
Proof.
  unfold single_suit. rewrite existsb_exists. split.
  - intros (typ & Hin & H). exists typ. split; [exact Hin |].
    rewrite forallb_forall in H. intros t Ht. specialize (H t Ht). zbool. lia.
  - intros (typ & Hin & H). exists typ. split; [exact Hin |].
    apply forallb_forall. intros t Ht. specialize (H t Ht).
    apply andb_true_iff. split; [apply Z.leb_le | apply Z.ltb_lt]; lia.
Qed.

Lemma suit_and_honors_test (tiles : list Z) :
  existsb (fun typ => forallb (fun t => ((typ <=? t) && (t <? typ + 9))
                                        || ((27 <=? t) && (t <? 34))) tiles) [0; 9; 18]
  = true <-> suit_and_honors tiles.
Proof.
  unfold suit_and_honors. rewrite existsb_exists. split.
  - intros (typ & Hin & H). exists typ. split; [exact Hin |].
    rewrite forallb_forall in H. intros t Ht. specialize (H t Ht).
    apply orb_true_iff in H as [H | H]; zbool; lia.
  - intros (typ & Hin & H). exists typ. split; [exact Hin |].
    apply forallb_forall. intros t Ht. apply orb_true_iff.
    destruct (H t Ht) as [H' | H']; [left | right];
      (apply andb_true_iff; split; [apply Z.leb_le | apply Z.ltb_lt]; lia).
Qed.

Lemma is_menqing_closed (melds minkan : list (list Z)) :
  HanCalculation.is_menqing melds minkan = true <-> melds ++ minkan = [].
Proof.
  unfold HanCalculation.is_menqing, Py.len.
  destruct (melds ++ minkan); cbn; split; try reflexivity; discriminate.
Qed.

Section HanFlush.

Variables (hand_partition : list (list Z)) (final_tile : Z)
          (melds minkan ankan : list (list Z)) (is_zimo : bool)
          (player_wind round_wind : Z) (reach : bool).

Variable hd : HanCalculation.han_result.

Hypothesis Hhd :
  HanCalculation.han_calculation hand_partition final_tile melds minkan ankan is_zimo
                                 player_wind round_wind reach = Ok hd.

Local Abbreviation listed y := (In (HanCalculation.Yaku y) (dict_keys (HanCalculation.han hd))).

Local Abbreviation tiles :=
  (concat (hand_partition ++ melds ++ minkan ++ ankan)).

(** X14: the full flush is listed exactly when all tiles are number tiles
    of one suit, with 6 han for a hand without called meld or open quad
    and 5 han otherwise; the half flush exactly when that fails and all
    tiles are of one suit or honors, with 3 han or 2 han.  At most one of
    the four entries is listed. *)
Theorem han_flushes :
  (listed HanCalculation.Chinitsu6 <-> single_suit tiles /\ melds ++ minkan = [])
  /\ (listed HanCalculation.Chinitsu5 <-> single_suit tiles /\ melds ++ minkan <> [])
  /\ (listed HanCalculation.Honitsu3
      <-> ~ single_suit tiles /\ suit_and_honors tiles /\ melds ++ minkan = [])
  /\ (listed HanCalculation.Honitsu2
      <-> ~ single_suit tiles /\ suit_and_honors tiles /\ melds ++ minkan <> []).
Proof.
  pose proof (single_suit_test tiles) as HA.
  pose proof (suit_and_honors_test tiles) as HB.
  pose proof (is_menqing_closed melds minkan) as HM.
  split; [| split; [| split]];
    rewrite <- has_key_keys, (han_keys_entered _ _ _ _ _ _ _ _ _ _ _ Hhd);
    unfold entered; cbn [fold_left]; other_checks;
    unfold enters, HanCalculation.check_pure_color,
           HanCalculation.all_tiles, HanCalculation.all_melds;
    destruct (existsb _ [0; 9; 18]) eqn:EA in HA |- *;
    destruct (existsb _ [0; 9; 18]) eqn:EB in HB |- *;
    destruct (HanCalculation.is_menqing melds minkan); cbn;
    intuition (try congruence; try discriminate).
Qed.

End HanFlush.

Lemma han_riichi_and_tsumo_witness :
  (In (HanCalculation.Yaku HanCalculation.Riichi1) (dict_keys (HanCalculation.han simples_han))
   <-> true = true)
  /\ (In (HanCalculation.Yaku HanCalculation.MenzenTsumo1)
         (dict_keys (HanCalculation.han simples_han))
      <-> false = true /\ [] ++ [] = ([] : list (list Z))).
Proof.
  apply (han_riichi_and_tsumo simples_partition 24 [] [] [] false 27 27 true simples_han).
  vm_compute. reflexivity.
Defined.

Lemma han_all_simples_witness :
  In (HanCalculation.Yaku HanCalculation.Tanyao1) (dict_keys (HanCalculation.han simples_han))
  <-> forall t, In t (concat (simples_partition ++ [] ++ [] ++ [])) -> ~ In t Tile.ONENINE.
Proof.
  apply (han_all_simples simples_partition 24 [] [] [] false 27 27 true simples_han).
  vm_compute. reflexivity.
Defined.

Lemma han_flushes_witness :
  (In (HanCalculation.Yaku HanCalculation.Chinitsu6) (dict_keys (HanCalculation.han simples_han))
   <-> single_suit (concat (simples_partition ++ [] ++ [] ++ []))
       /\ [] ++ [] = ([] : list (list Z)))
  /\ (In (HanCalculation.Yaku HanCalculation.Chinitsu5)
         (dict_keys (HanCalculation.han simples_han))
      <-> single_suit (concat (simples_partition ++ [] ++ [] ++ []))
          /\ [] ++ [] <> ([] : list (list Z)))
  /\ (In (HanCalculation.Yaku HanCalculation.Honitsu3)
         (dict_keys (HanCalculation.han simples_han))
      <-> ~ single_suit (concat (simples_partition ++ [] ++ [] ++ []))
          /\ suit_and_honors (concat (simples_partition ++ [] ++ [] ++ []))
          /\ [] ++ [] = ([] : list (list Z)))
  /\ (In (HanCalculation.Yaku HanCalculation.Honitsu2)
         (dict_keys (HanCalculation.han simples_han))
      <-> ~ single_suit (concat (simples_partition ++ [] ++ [] ++ []))
          /\ suit_and_honors (concat (simples_partition ++ [] ++ [] ++ []))
          /\ [] ++ [] <> ([] : list (list Z))).
Proof.
  apply (han_flushes simples_partition 24 [] [] [] false 27 27 true simples_han).
  vm_compute. reflexivity.
Defined.

(** * The decompositions of a winning hand *)

Lemma sort_perm (l : list Z) : Permutation (Py.sort l) l.
Proof.
  unfold Py.sort. induction l as [| x l IH]; simpl; [constructor |].
  assert (Hins : forall s, Permutation (Py.insert_sorted x s) (x :: s)).
  { induction s as [| y s IHs]; simpl; [constructor; constructor |].
    destruct (x <=? y); [reflexivity |].
    etransitivity; [apply perm_skip, IHs | apply perm_swap]. }
  etransitivity; [apply Hins | now constructor].
Qed.

Lemma hand_split (l : list Z) :
  Permutation (WinParse.hand_man l ++ WinParse.hand_pin l
               ++ WinParse.hand_suo l ++ WinParse.hand_chr l) l.
Proof.
  unfold WinParse.hand_man, WinParse.hand_pin, WinParse.hand_suo, WinParse.hand_chr.
  induction l as [| t l IH]; simpl; [constructor |].
  destruct (t <? 9) eqn:E1; destruct ((9 <=? t) && (t <? 18)) eqn:E2;
    destruct ((18 <=? t) && (t <? 27)) eqn:E3; destruct (27 <=? t) eqn:E4;
    zbool; try lia; cbn [app].
  - now constructor.
  - etransitivity; [symmetry; apply Permutation_middle | now constructor].
  - rewrite app_assoc.
    etransitivity; [symmetry; apply Permutation_middle |].
    rewrite <- app_assoc. now constructor.
  - rewrite 2!app_assoc.
    etransitivity; [symmetry; apply Permutation_middle |].
    rewrite <- 2!app_assoc. now constructor.
Qed.

Lemma concat_nonempty (p : list (list Z)) :
  concat (List.filter (fun m => Py.len m >? 0) p) = concat p.
Proof.
  induction p as [| m p IH]; [reflexivity |].
  cbn [List.filter concat].
  destruct m as [| a m].
  - cbn. exact IH.
  - replace (Py.len (a :: m) >? 0) with true
      by (symmetry; rewrite Z.gtb_ltb; apply Z.ltb_lt; unfold Py.len;
          cbn [List.length]; lia).
    cbn [concat]. now rewrite IH.
Qed.

Lemma is_copies_rep (t : Z) (n : Z) : 2 <= n -> is_copies (Py.rep t n) = true.
Proof.
  intros Hn. unfold Py.rep.
  destruct (Z.to_nat n) as [| [| k]] eqn:E; try lia.
  cbn [repeat is_copies]. apply forallb_forall.
  intros x Hx. change (t :: repeat t k) with (repeat t (S k)) in Hx.
  apply repeat_spec in Hx. subst. apply Z.eqb_refl.
Qed.

Lemma parses_cons (g : list Z) (rest tiles : list Z) (p : list (list Z)) :
  win_group g -> Permutation (g ++ rest) tiles -> parses rest p -> parses tiles (g :: p).
Proof.
  intros Hg Hperm [Hp Hshape]. split.
  - simpl. etransitivity; [apply Permutation_app_head, Hp | exact Hperm].
  - constructor; [now right | exact Hshape].
Qed.

Lemma win_branch_In (rec : list Z -> option (list (list (list Z))))
      (cond : bool) (group rest : list Z) (q : list (list Z)) :
  In q (WinParse.branch rec cond group rest) ->
  cond = true /\ exists r p, rec rest = Some r /\ In p r /\ q = group :: p.
Proof.
  unfold WinParse.branch. destruct cond; [| intros []].
  destruct (rec rest) as [[| p0 r] |]; cbn [WinParse.truthy WinParse.items];
    [intros [] | | intros []].
  intros Hin. apply in_map_iff in Hin as (p & <- & Hp).
  split; [reflexivity |]. exists (p0 :: r), p. auto.
Qed.

Lemma parse_nums_rec_0 (fuel : nat) : WinParse.parse_nums_rec fuel [] = Some [[[]]].
Proof. destruct fuel; reflexivity. Qed.

Lemma parse_nums_rec_1 (fuel : nat) (a : Z) : WinParse.parse_nums_rec fuel [a] = None.
Proof. destruct fuel; reflexivity. Qed.

Lemma parse_nums_rec_2 (fuel : nat) (a b : Z) :
  WinParse.parse_nums_rec fuel [a; b] = if a =? b then Some [[[a; b]]] else None.
Proof. destruct fuel; reflexivity. Qed.

Lemma parse_nums_rec_3 (fuel : nat) (a b c : Z) :
  WinParse.parse_nums_rec fuel [a; b; c]
  = if ((a =? b) && (b =? c)) || ((a + 2 =? b + 1) && (b + 1 =? c))
    then Some [[[a; b; c]]] else None.
Proof. destruct fuel; reflexivity. Qed.

(** four tiles or more: the three branches, while there is fuel *)
Lemma parse_nums_rec_long (fuel : nat) (a b c d : Z) (rest : list Z) :
  let tiles := a :: b :: c :: d :: rest in
  WinParse.parse_nums_rec fuel tiles
  = if Py.len tiles mod 3 =? 1 then None
    else match fuel with
         | O => None
         | S fuel' =>
           let rec := WinParse.parse_nums_rec fuel' in
           let res :=
               WinParse.branch rec ((Py.len tiles mod 3 =? 2) && (a =? b))
                               [a; b] (c :: d :: rest)
               ++ WinParse.branch rec ((a =? b) && (b =? c)) [a; b; c] (d :: rest)
               ++ WinParse.branch rec (Py.mem (a + 1) tiles && Py.mem (a + 2) tiles)
                                  [a; a + 1; a + 2]
                                  (Py.remove (a + 2) (Py.remove (a + 1) (Py.remove a tiles))) in
           if Py.len res >? 0 then Some res else None
         end.
Proof.
  cbv zeta.
  set (tiles := a :: b :: c :: d :: rest).
  assert (Hn : 4 <= Py.len tiles)
    by (subst tiles; unfold Py.len; cbn [List.length]; lia).
  destruct fuel as [| fuel]; cbn [WinParse.parse_nums_rec]; cbv zeta;
    replace (Py.len tiles =? 0) with false by (symmetry; apply Z.eqb_neq; lia);
    replace (Py.len tiles =? 1) with false by (symmetry; apply Z.eqb_neq; lia);
    replace (Py.len tiles =? 2) with false by (symmetry; apply Z.eqb_neq; lia);
    replace (Py.len tiles =? 3) with false by (symmetry; apply Z.eqb_neq; lia);
    reflexivity.
Qed.

Lemma parse_nums_rec_sound (fuel : nat) :
  forall tiles r p,
    WinParse.parse_nums_rec fuel tiles = Some r -> In p r -> parses tiles p.
Proof.
  induction fuel as [| fuel IH]; intros tiles r p;
    destruct tiles as [| a [| b [| c [| d rest]]]];
    rewrite ?parse_nums_rec_0, ?parse_nums_rec_1, ?parse_nums_rec_2, ?parse_nums_rec_3,
            ?parse_nums_rec_long; cbv zeta; try discriminate.
  1, 5: intros [= <-] [<- | []]; split;
    [reflexivity | apply List.Forall_cons; [now left | constructor]].
  1, 4: destruct (a =? b) eqn:E; [| discriminate];
    intros [= <-] [<- | []]; split; [cbn; reflexivity |];
    apply List.Forall_cons; [| constructor]; right; left; cbn; now rewrite E.
  1, 3: destruct (((a =? b) && (b =? c)) || ((a + 2 =? b + 1) && (b + 1 =? c))) eqn:E;
    [| discriminate];
    intros [= <-] [<- | []]; split; [cbn; reflexivity |];
    apply List.Forall_cons; [| constructor]; right;
    (apply orb_true_iff in E as [E | E]; zbool; [left | right]; cbn;
     [subst; now rewrite !Z.eqb_refl | apply andb_true_iff; split; apply Z.eqb_eq; lia]).
  - destruct (_ =? 1); discriminate.
  - set (tiles := a :: b :: c :: d :: rest).
    destruct (Py.len tiles mod 3 =? 1); [discriminate |].
    match goal with
    | |- (if ?t then _ else _) = _ -> _ => destruct t; [| discriminate]
    end.
    intros [= <-] Hin.
    apply in_app_iff in Hin as [Hin | Hin]; [| apply in_app_iff in Hin as [Hin | Hin]];
      apply win_branch_In in Hin as (Hc & r & p' & Hrec & Hp' & ->);
      specialize (IH _ _ _ Hrec Hp').
    + apply andb_true_iff in Hc as [_ Hc].
      apply (parses_cons _ (c :: d :: rest)); [| reflexivity | exact IH].
      left. cbn. now rewrite Hc.
    + apply (parses_cons _ (d :: rest)); [| reflexivity | exact IH].
      left. cbn. zbool. subst. now rewrite !Z.eqb_refl.
    + apply andb_true_iff in Hc as [H1 H2].
      subst tiles. rewrite Z.eqb_refl in IH.
      apply (parses_cons [a; a + 1; a + 2] _ (a :: b :: c :: d :: rest)) in IH;
        [exact IH | |].
      * right. cbn. now rewrite !Z.eqb_refl.
      * apply (take_two_piece a (b :: c :: d :: rest)); assumption.
Qed.

Lemma parse_nums_sound (tiles : list Z) (r : list (list (list Z))) (p : list (list Z)) :
  WinParse.parse_nums tiles = Some r -> In p r -> parses tiles p.
Proof. apply parse_nums_rec_sound. Qed.

Lemma count_positive (t : Z) (l : list Z) : In t l -> 1 <= Py.count t l.
Proof.
  intros Hin. rewrite Py_count_occ.
  apply (count_occ_In Z.eq_dec) in Hin. lia.
Qed.

Lemma parse_chrs_sound (tiles : list Z) (r : list (list (list Z))) (p : list (list Z)) :
  WinParse.parse_chrs tiles = Some r -> In p r -> parses tiles p.
Proof.
  unfold WinParse.parse_chrs.
  destruct (Py.len tiles =? 0) eqn:E0.
  { intros [= <-] [<- | []]. destruct tiles; [| discriminate]. split; constructor. }
  destruct ((Py.len tiles mod 3 =? 1) || existsb _ tiles) eqn:E1; [discriminate |].
  cbv zeta.
  match goal with
  | |- (if ?t then _ else _) = _ -> _ => destruct t; [| discriminate]
  end.
  intros [= <-] [<- | []]. split.
  - apply honor_groups_Permutation.
  - apply List.Forall_forall. intros m Hm. right. left.
    apply in_map_iff in Hm as (t & <- & Ht). rewrite Py_set_In in Ht.
    apply is_copies_rep.
    apply orb_false_iff in E1 as [_ E1].
    pose proof (count_positive t tiles Ht) as Hpos.
    destruct (Z.eq_dec (Py.count t tiles) 1) as [Heq | Hne]; [| lia].
    exfalso. assert (Hex : existsb (fun t => Py.count t tiles =? 1) tiles = true).
    { apply existsb_exists. exists t. split; [exact Ht | now apply Z.eqb_eq]. }
    congruence.
Qed.

Lemma items_In {A} (r : option (list A)) (a : A) :
  In a (WinParse.items r) -> exists l, r = Some l /\ In a l.
Proof. destruct r as [l |]; cbn; [eauto | intros []]. Qed.

(** the honors of a decomposition: the first result of [parse_chrs] *)
Lemma chr_groups_sound (chr : list Z) :
  (WinParse.nonempty chr && negb (WinParse.truthy (WinParse.parse_chrs chr))) = false ->
  parses chr (hd [] (WinParse.items (WinParse.parse_chrs chr))).
Proof.
  intros Hguard. destruct chr as [| t chr].
  - cbn. split; constructor.
  - cbn [WinParse.nonempty andb] in Hguard. apply negb_false_iff in Hguard.
    destruct (WinParse.parse_chrs (t :: chr)) as [[| p r] |] eqn:E; try discriminate.
    cbn. apply (parse_chrs_sound _ _ _ E). now left.
Qed.

Lemma parses_app (t1 t2 : list Z) (p1 p2 : list (list Z)) :
  parses t1 p1 -> parses t2 p2 -> parses (t1 ++ t2) (p1 ++ p2).
Proof.
  intros [H1 F1] [H2 F2]. split.
  - rewrite concat_app. now apply Permutation_app.
  - apply List.Forall_app. split; assumption.
Qed.

Lemma nonempty_groups (p : list (list Z)) :
  List.Forall (fun m => m = [] \/ win_group m) p ->
  List.Forall win_group (List.filter (fun m => Py.len m >? 0) p).
Proof.
  intros H. apply List.Forall_forall. intros m Hm.
  apply filter_In in Hm as [Hin Hlen].
  rewrite List.Forall_forall in H. destruct (H m Hin) as [-> | Hw]; [discriminate | exact Hw].
Qed.

(** X15: every decomposition that [win_parse] returns holds exactly the
    tiles of the hand and the winning tile.  For thirteen orphans it is
    the one decomposition into the 13 terminals and honors; otherwise
    every group is a run of three or two or more copies of one tile. *)
Theorem win_parse_sound (hand34 : list Z) (final_tile : Z) (p : list (list Z)) :
  In p (WinParse.win_parse hand34 final_tile) ->
  Permutation (concat p) (hand34 ++ [final_tile])
  /\ (if WinParse.is_orphans (hand34 ++ [final_tile])
      then WinParse.win_parse hand34 final_tile = [p] /\ Py.len p = 13
      else List.Forall win_group p).
Proof.
  unfold WinParse.win_parse. cbv zeta.
  set (total := hand34 ++ [final_tile]).
  assert (Hseven : forall q, In q (WinParse.seven_pairs_res total) ->
                             Permutation (concat q) total /\ List.Forall win_group q).
  { unfold WinParse.seven_pairs_res. cbv zeta.
    destruct (forallb _ _ && _) eqn:E; [| intros q []].
    apply andb_true_iff in E as [E _]. rewrite forallb_forall in E.
    intros q [<- | []].
    assert (Hmap : map (fun t => Py.rep t 2) (Py.set total)
                   = map (fun t => Py.rep t (Py.count t total)) (Py.set total)).
    { apply map_ext_in. intros t Ht. specialize (E t Ht). apply Z.eqb_eq in E.
      now rewrite E. }
    split.
    - rewrite Hmap. apply honor_groups_Permutation.
    - apply List.Forall_forall. intros m Hm.
      apply in_map_iff in Hm as (t & <- & _). left. apply is_copies_rep. lia. }
  destruct (WinParse.is_orphans total) eqn:Eorph.
  - (* thirteen orphans *)
    unfold WinParse.orphans_res. intros [<- | []].
    split; [| split; [reflexivity | unfold Py.len; now rewrite length_map]].
    apply (Permutation_count_occ Z.eq_dec). intros x.
    unfold Py.rep.
    rewrite (count_occ_groups (fun t => Z.to_nat (Py.count t total))).
    + rewrite Py_count_occ, Nat2Z.id.
      destruct (in_dec Z.eq_dec x Tile.ONENINE) as [Hin | Hnin]; [reflexivity |].
      unfold WinParse.is_orphans in Eorph. apply andb_true_iff in Eorph as [_ Hall].
      rewrite forallb_forall in Hall.
      destruct (count_occ Z.eq_dec total x) eqn:Ec; [reflexivity |].
      exfalso. apply Hnin.
      assert (Hx : In x total) by (apply (count_occ_In Z.eq_dec); lia).
      apply Py_mem_In, Hall, Hx.
    + unfold Tile.ONENINE. repeat constructor; simpl; intuition discriminate.
  - (* seven pairs, and the decompositions by suit *)
    set (sorted := Py.sort total).
    unfold WinParse.assemble.
    destruct (WinParse.nonempty (WinParse.hand_man sorted) && _); [apply Hseven |].
    destruct (WinParse.nonempty (WinParse.hand_pin sorted) && _); [apply Hseven |].
    destruct (WinParse.nonempty (WinParse.hand_suo sorted) && _); [apply Hseven |].
    destruct (WinParse.nonempty (WinParse.hand_chr sorted) && _) eqn:Echr; [apply Hseven |].
    intros Hin. apply in_app_iff in Hin as [Hin | Hin]; [now apply Hseven |].
    apply in_flat_map in Hin as (a & Ha & Hin).
    apply in_flat_map in Hin as (b & Hb & Hin).
    apply in_map_iff in Hin as (c & <- & Hc).
    apply items_In in Ha as (ra & Era & Ha).
    apply items_In in Hb as (rb & Erb & Hb).
    apply items_In in Hc as (rc & Erc & Hc).
    pose proof (parse_nums_sound _ _ _ Era Ha) as Pa.
    pose proof (parse_nums_sound _ _ _ Erb Hb) as Pb.
    pose proof (parse_nums_sound _ _ _ Erc Hc) as Pc.
    pose proof (chr_groups_sound _ Echr) as Pd.
    pose proof (parses_app _ _ _ _ Pa (parses_app _ _ _ _ Pb (parses_app _ _ _ _ Pc Pd)))
      as [Hperm Hshape].
    split.
    + rewrite concat_nonempty.
      etransitivity; [exact Hperm |].
      etransitivity; [apply hand_split | apply sort_perm].
    + apply nonempty_groups, Hshape.
Qed.

Lemma win_parse_sound_witness :
  Permutation (concat simples_partition) (simples_hand ++ [24])
  /\ (if WinParse.is_orphans (simples_hand ++ [24])
      then WinParse.win_parse simples_hand 24 = [simples_partition]
           /\ Py.len simples_partition = 13
      else List.Forall win_group simples_partition).
Proof.
  apply (win_parse_sound simples_hand 24 simples_partition).
  vm_compute. auto.
Defined.

(** * The range of the standard shanten *)

Lemma partition_flatten (tiles : list Z) (r : list (list (list Z))) (p : list (list Z)) :
  (forall t, In t tiles -> 0 <= t <= 33) ->
  Partition.partition tiles = Some r -> In p r -> Permutation (concat p) tiles.
Proof.
  intros Hrange Hr Hin.
  destruct (partition_In tiles r Hr) as (pm & pp & ps & Hm & Hp & Hs & ->).
  apply cross_In in Hin as (a & b & c & Ha & Hb & Hc & ->).
  rewrite !concat_app.
  rewrite (proj1 (partition_single_type_sound _ _ pm a (le_n _) Hm Ha)).
  rewrite (proj1 (partition_single_type_sound _ _ pp b (le_n _) Hp Hb)).
  rewrite (proj1 (partition_single_type_sound _ _ ps c (le_n _) Hs Hc)).
  rewrite honor_groups_Permutation. now apply in_range_split.
Qed.

(** runs and triplets take three tiles each *)
Lemma sets_take_three (p : list (list Z)) :
  3 * (count_groups is_run p + count_groups is_triplet p) <= Py.len (concat p).
Proof.
  unfold count_groups, Py.len. induction p as [| m p IH]; [simpl; lia |].
  cbn [List.filter concat]. rewrite length_app.
  assert (Hm : (if is_run m then 1 else 0) + (if is_triplet m then 1 else 0) <= 1
               /\ ((is_run m = true \/ is_triplet m = true) -> List.length m = 3%nat)).
  { destruct m as [| a [| b [| c [| d m]]]]; cbn; try (split; [lia | intros [? | ?]; discriminate]).
    split; [| reflexivity].
    destruct ((b =? a + 1) && (c =? a + 2)) eqn:E1, ((a =? b) && (b =? c)) eqn:E2;
      zbool; lia. }
  destruct Hm as [H1 H3].
  destruct (is_run m) eqn:Er, (is_triplet m) eqn:Et; cbn [List.length];
    try (specialize (H3 (or_introl eq_refl))); try (specialize (H3 (or_intror eq_refl)));
    lia.
Qed.

Lemma count_groups_nonneg (f : list Z -> bool) (p : list (list Z)) : 0 <= count_groups f p.
Proof. unfold count_groups. lia. Qed.

(** the shanten of one decomposition: at least -1 when the sets fit, and
    -1 exactly for all the sets and a pair *)
Lemma spec_shanten_range (c : Z) (p : list (list Z)) :
  0 <= c <= 4 ->
  count_groups is_run p + count_groups is_triplet p <= 4 - c ->
  -1 <= spec_shanten c p <= 8 - 2 * c
  /\ (spec_shanten c p = -1
      <-> count_groups is_run p + count_groups is_triplet p = 4 - c
          /\ 0 < count_groups is_pair p).
Proof.
  intros Hc Hsets. unfold spec_shanten. cbv zeta.
  pose proof (count_groups_nonneg is_run p).
  pose proof (count_groups_nonneg is_triplet p).
  pose proof (count_groups_nonneg is_pair p).
  pose proof (count_groups_nonneg is_partial p).
  destruct (0 <? count_groups is_pair p) eqn:Ep;
    [destruct (_ <=? _) eqn:E | destruct (_ <=? _) eqn:E]; zbool; lia.
Qed.

(** X16: for a hand of 34-form tiles that, with three tiles for each
    called meld, has at most 14 tiles, [shantin_normal] lies between -1
    and 8 minus twice the number of called melds; it is -1 exactly when a
    decomposition of [partition] has all the sets that are needed (four,
    less the called melds) and a pair. *)
Theorem shantin_normal_range (tiles34 : list Z) (called_melds : list (list Z)) :
  (forall t, In t tiles34 -> 0 <= t <= 33) ->
  Py.len tiles34 + 3 * Py.len called_melds <= 14 ->
  exists partitions v,
    Partition.partition tiles34 = Some partitions
    /\ Partition.shantin_normal tiles34 called_melds = Some v
    /\ -1 <= v <= 8 - 2 * Py.len called_melds
    /\ (v = -1
        <-> exists p, In p partitions
                      /\ count_groups is_run p + count_groups is_triplet p
                         = 4 - Py.len called_melds
                      /\ 0 < count_groups is_pair p).
Proof.
  intros Hrange Hlen.
  destruct (partition_total tiles34) as [parts [Hparts Hne]].
  unfold Partition.shantin_normal, Partition._shantin_normal. rewrite Hparts. cbn.
  destruct (Py_min_nonempty (map (Partition.shantin_n (Py.len called_melds)) parts))
    as [v Hv].
  { destruct parts; [congruence | discriminate]. }
  exists parts, v. split; [reflexivity |]. split; [assumption |].
  assert (Hc : 0 <= Py.len called_melds <= 4) by (unfold Py.len in *; lia).
  assert (Hp : forall p, In p parts ->
                         Partition.shantin_n (Py.len called_melds) p
                         = spec_shanten (Py.len called_melds) p
                         /\ count_groups is_run p + count_groups is_triplet p
                            <= 4 - Py.len called_melds).
  { intros p Hin. split.
    - apply shantin_n_spec. now apply (partition_groups tiles34 parts).
    - pose proof (sets_take_three p) as H3.
      pose proof (Permutation_length (partition_flatten _ _ _ Hrange Hparts Hin)) as Hl.
      unfold Py.len in *. lia. }
  apply Py_min_spec in Hv as [Hin Hall].
  apply in_map_iff in Hin as (p0 & Ev & Hp0).
  destruct (Hp p0 Hp0) as [E0 S0]. rewrite E0 in Ev.
  destruct (spec_shanten_range _ p0 Hc S0) as [R0 I0].
  split; [lia |]. split.
  - intros ->. exists p0. split; [exact Hp0 |]. apply I0. exact Ev.
  - intros (p & Hin & Hsets & Hpair).
    destruct (Hp p Hin) as [E S].
    destruct (spec_shanten_range _ p Hc S) as [_ I].
    assert (spec_shanten (Py.len called_melds) p = -1) by (apply I; auto).
    specialize (Hall (Partition.shantin_n (Py.len called_melds) p)
                     (in_map _ _ _ Hin)).
    lia.
Qed.

Lemma shantin_normal_range_witness :
  exists partitions v,
    Partition.partition [0; 1; 2; 9; 9] = Some partitions
    /\ Partition.shantin_normal [0; 1; 2; 9; 9] [[3; 4; 5]; [27; 27; 27]; [31; 31; 31]] = Some v
    /\ -1 <= v <= 8 - 2 * Py.len [[3; 4; 5]; [27; 27; 27]; [31; 31; 31]]
    /\ (v = -1
        <-> exists p, In p partitions
                      /\ count_groups is_run p + count_groups is_triplet p
                         = 4 - Py.len [[3; 4; 5]; [27; 27; 27]; [31; 31; 31]]
                      /\ 0 < count_groups is_pair p).
Proof.
  apply (shantin_normal_range [0; 1; 2; 9; 9] [[3; 4; 5]; [27; 27; 27]; [31; 31; 31]]).
  - intros t Ht. simpl in Ht. repeat (destruct Ht as [<- | Ht]; [lia |]). destruct Ht.
  - vm_compute. discriminate.
Defined.

(** * The shanten forms that a call rules out *)

Lemma meld_types_step_keeps (melds : list (list Z)) :
  forall acc x, In x acc ->
    In x (fold_left
            (fun meld_types m =>
               let ty := Py.idx m 0 / 9 in
               if ty =? 3 then meld_types
               else if negb (Py.mem ty meld_types) then meld_types ++ [ty] else meld_types)
            melds acc).
Proof.
  induction melds as [| m melds IH]; intros acc x Hx; simpl; [exact Hx |].
  apply IH. destruct (_ =? 3); [exact Hx |].
  destruct (negb _); [apply in_or_app; now left | exact Hx].
Qed.

Lemma meld_types_step_In (melds : list (list Z)) (m : list Z) :
  In m melds -> Py.idx m 0 / 9 <> 3 ->
  forall acc,
    In (Py.idx m 0 / 9)
       (fold_left
          (fun meld_types m =>
             let ty := Py.idx m 0 / 9 in
             if ty =? 3 then meld_types
             else if negb (Py.mem ty meld_types) then meld_types ++ [ty] else meld_types)
          melds acc).
Proof.
  intros Hin Hty.
  induction melds as [| m0 melds IH]; intros acc; [destruct Hin |].
  destruct Hin as [-> | Hin]; simpl.
  - apply meld_types_step_keeps.
    replace (Py.idx m 0 / 9 =? 3) with false by (symmetry; apply Z.eqb_neq; exact Hty).
    destruct (Py.mem _ acc) eqn:E; cbn.
    + now apply Py_mem_In.
    + apply in_or_app. right. now left.
  - now apply IH.
Qed.

Lemma meld_types_In (melds : list (list Z)) (m : list Z) :
  In m melds -> Py.idx m 0 / 9 <> 3 ->
  In (Py.idx m 0 / 9) (Partition.meld_types_of melds).
Proof.
  intros Hin Hty. unfold Partition.meld_types_of. now apply meld_types_step_In.
Qed.

Lemma two_members_length (l : list Z) (x y : Z) :
  In x l -> In y l -> x <> y -> 1 < Py.len l.
Proof.
  unfold Py.len. destruct l as [| a [| b l]]; cbn [List.length In]; intros Hx Hy Hne.
  - destruct Hx.
  - destruct Hx as [<- | []], Hy as [<- | []]. congruence.
  - lia.
Qed.

(** X17: a call rules a form out, and the function of that form returns
    10: no-triplets as soon as a meld is called, no-terminals for a
    called meld that holds a terminal or an honor, no-sequences for a
    called run, pure-colour for (non-empty) called melds of two different
    suits. *)
Theorem shanten_forms_ruled_out (tiles34 : list Z) (called_melds : list (list Z))
        (bonus_chrs : list Z) :
  (called_melds <> [] ->
   Partition.shantin_no_triplets tiles34 called_melds bonus_chrs = Some 10)
  /\ ((exists m t, In m called_melds /\ In t m /\ In t Tile.ONENINE) ->
      Partition.shantin_no_19 tiles34 called_melds = Some 10)
  /\ ((exists m, In m called_melds /\ 1 < Py.len m /\ Py.idx m 0 <> Py.idx m 1) ->
      Partition.shantin_no_sequences tiles34 called_melds = 10)
  /\ ((forall m, In m called_melds -> m <> []) ->
      (exists m1 m2, In m1 called_melds /\ In m2 called_melds
                     /\ Py.idx m1 0 / 9 <> 3 /\ Py.idx m2 0 / 9 <> 3
                     /\ Py.idx m1 0 / 9 <> Py.idx m2 0 / 9) ->
      Partition.shantin_pure_color tiles34 called_melds = Some 10).
Proof.
  destruct (partition_total tiles34) as [parts [Hparts _]].
  split; [| split; [| split]].
  - intros Hne. unfold Partition.shantin_no_triplets, Partition._shantin_pinhu.
    rewrite Hparts. cbn.
    replace (Py.len called_melds =? 0) with false; [reflexivity |].
    symmetry. apply Z.eqb_neq. unfold Py.len. destruct called_melds; [congruence |].
    cbn [List.length]. lia.
  - intros (m & t & Hm & Ht & H19).
    unfold Partition.shantin_no_19, Partition._shantin_no19. rewrite Hparts. cbn.
    replace (existsb _ called_melds) with true; [reflexivity |].
    symmetry. apply existsb_exists. exists m. split; [exact Hm |].
    apply existsb_exists. exists t. split; [exact Ht |].
    rewrite <- Py_mem_In in H19. exact H19.
  - intros (m & Hm & Hlen & Hne). unfold Partition.shantin_no_sequences.
    replace (existsb _ called_melds) with true; [reflexivity |].
    symmetry. apply existsb_exists. exists m. split; [exact Hm |].
    apply andb_true_iff. split.
    + rewrite Z.gtb_ltb. now apply Z.ltb_lt.
    + apply negb_true_iff. now apply Z.eqb_neq.
  - intros Hfull (m1 & m2 & H1 & H2 & T1 & T2 & Hne).
    unfold Partition.shantin_pure_color, Partition._shantin_pure_color.
    rewrite Hparts. cbn. rewrite (no_empty_meld _ Hfull). cbv zeta.
    replace (Py.len called_melds >? 0) with true.
    + replace (Py.len (Partition.meld_types_of called_melds) >? 1) with true;
        [reflexivity |].
      symmetry. rewrite Z.gtb_ltb. apply Z.ltb_lt.
      apply (two_members_length _ (Py.idx m1 0 / 9) (Py.idx m2 0 / 9));
        [now apply meld_types_In | now apply meld_types_In | exact Hne].
    + symmetry. rewrite Z.gtb_ltb. apply Z.ltb_lt. unfold Py.len.
      destruct called_melds; [destruct H1 |]. cbn [List.length]. lia.
Qed.

(** * The tiles a hand waits for *)

Lemma dict_set_keys {V} (k x : Z) (v : V) (d : list (Z * V)) :
  In x (dict_keys (dict_set Z.eqb k v d)) -> x = k \/ In x (dict_keys d).
Proof.
  unfold dict_keys. induction d as [| [k' v'] d IH]; simpl.
  - intros [<- | []]. now left.
  - destruct (k =? k') eqn:E; simpl.
    + apply Z.eqb_eq in E. subst k'. intros [<- | H]; auto.
    + intros [<- | H]; [auto |]. destruct (IH H); auto.
Qed.

Lemma dict_set_keys_NoDup {V} (k : Z) (v : V) (d : list (Z * V)) :
  List.NoDup (dict_keys d) -> List.NoDup (dict_keys (dict_set Z.eqb k v d)).
Proof.
  unfold dict_keys. induction d as [| [k' v'] d IH]; simpl; intros Hnd.
  - constructor; [intros [] | constructor].
  - apply List.NoDup_cons_iff in Hnd as [Hk' Hnd].
    destruct (k =? k') eqn:E; simpl.
    + apply Z.eqb_eq in E. subst k'. now constructor.
    + constructor; [| now apply IH].
      intros Hin. apply dict_set_keys in Hin as [-> | Hin]; [| now apply Hk'].
      rewrite Z.eqb_refl in E. discriminate.
Qed.

Section WaitingEntries.

Variables (hand34 : list Z) (melds minkan ankan : list (list Z))
          (is_zimo : bool) (player_wind round_wind : Z) (reach : bool)
          (bonus_num : Z) (bonus_tiles : list Z) (benchan reach_stick : Z)
          (is_dealer : bool).

Local Abbreviation score_of :=
  (WinWaitCal.score_of hand34 melds minkan ankan is_zimo player_wind round_wind reach
                       bonus_num bonus_tiles benchan reach_stick is_dealer).

Local Abbreviation scored w :=
  ((forall t v, In (t, v) w -> score_of t = Ok v) /\ List.NoDup (dict_keys w)).

Local Abbreviation winning w :=
  (forall (t : Z) (v : option WinWaitCal.score_result), In (t, v) w -> v <> None).

Lemma scored_dict_set (t : Z) (r : option WinWaitCal.score_result)
      (w : WinWaitCal.waitings_t) :
  score_of t = Ok r -> scored w -> scored (dict_set Z.eqb t r w).
Proof.
  intros Hr [Hw Hnd]. split; [| now apply dict_set_keys_NoDup].
  intros t' v Hin. apply dict_set_In in Hin as [[-> ->] | Hin]; [exact Hr | now apply Hw].
Qed.

Lemma scored_assign (t : Z) (w w' : WinWaitCal.waitings_t) :
  WinWaitCal.assign hand34 melds minkan ankan is_zimo player_wind round_wind reach
                    bonus_num bonus_tiles benchan reach_stick is_dealer t w = Ok w' ->
  scored w -> scored w'.
Proof.
  unfold WinWaitCal.assign. destruct (score_of t) as [r | e] eqn:Hr; cbn; [| discriminate].
  intros [= <-]. now apply scored_dict_set.
Qed.

Lemma scored_assign_all (ts : list Z) :
  forall w w',
    WinWaitCal.assign_all hand34 melds minkan ankan is_zimo player_wind round_wind reach
                          bonus_num bonus_tiles benchan reach_stick is_dealer ts w = Ok w' ->
    scored w -> scored w'.
Proof.
  induction ts as [| t ts IH]; intros w w'; cbn [WinWaitCal.assign_all].
  - now intros [= <-].
  - destruct (WinWaitCal.assign _ _ _ _ _ _ _ _ _ _ _ _ _ t w) as [w1 | e] eqn:E; cbn;
      [| discriminate].
    intros Hall Hw. apply (IH _ _ Hall). exact (scored_assign _ _ _ E Hw).
Qed.

Lemma scored_try_all (pts : list WinWaitCal.pyval) :
  forall w w',
    WinWaitCal.try_all hand34 melds minkan ankan is_zimo player_wind round_wind reach
                       bonus_num bonus_tiles benchan reach_stick is_dealer pts w = Ok w' ->
    scored w -> winning w -> scored w' /\ winning w'.
Proof.
  induction pts as [| pt pts IH]; intros w w'; cbn [WinWaitCal.try_all].
  - intros [= <-]. auto.
  - destruct (WinWaitCal.score_of_val _ _ _ _ _ _ _ _ _ _ _ _ _ pt) as [[r |] | e] eqn:E;
      cbn; [| | discriminate].
    + destruct pt as [t | l]; [| discriminate].
      intros Hall Hw Hs. apply (IH _ _ Hall).
      * apply scored_dict_set; [exact E | exact Hw].
      * intros t' v Hin. apply dict_set_In in Hin as [[-> ->] | Hin];
          [discriminate | now apply (Hs t')].
    + intros Hall Hw Hs. now apply (IH _ _ Hall).
Qed.

(** X18: in the mapping [waiting_calculation] returns, the keys are
    distinct tiles and the value beside a tile is the result of
    [score_calculation] with that tile as the final one; for a hand of
    other than thirteen tiles every listed tile has a result. *)
Theorem waiting_calculation_entries (w : WinWaitCal.waitings_t) :
  WinWaitCal.waiting_calculation hand34 melds minkan ankan is_zimo player_wind round_wind
                                 reach bonus_num bonus_tiles benchan reach_stick is_dealer
  = Ok w ->
  (forall t v, In (t, v) w ->
     WinWaitCal.score_calculation hand34 t melds minkan ankan is_zimo player_wind
                                  round_wind reach bonus_num bonus_tiles benchan
                                  reach_stick is_dealer = Ok v)
  /\ List.NoDup (dict_keys w)
  /\ (Py.len hand34 <> 13 -> forall t v, In (t, v) w -> v <> None).
Proof.
  assert (H0 : scored (@nil (Z * option WinWaitCal.score_result))).
  { split; [intros t v [] | constructor]. }
  assert (S0 : winning (@nil (Z * option WinWaitCal.score_result))).
  { intros t v []. }
  unfold WinWaitCal.waiting_calculation. cbv zeta.
  destruct (Py.len hand34 =? 13) eqn:E13.
  - assert (scored w -> (forall t v, In (t, v) w ->
              WinWaitCal.score_calculation hand34 t melds minkan ankan is_zimo player_wind
                round_wind reach bonus_num bonus_tiles benchan reach_stick is_dealer = Ok v)
            /\ List.NoDup (dict_keys w)
            /\ (Py.len hand34 <> 13 -> forall t v, In (t, v) w -> v <> None)) as Hfin.
    { intros [Hw Hnd]. split; [exact Hw | split; [exact Hnd |]].
      apply Z.eqb_eq in E13. intros Hne. now destruct Hne. }
    clear E13. cbn [andb].
    repeat match goal with
           | |- (if ?c then _ else _) = _ -> _ => destruct c
           | |- match ?l with [] => _ | _ :: _ => _ end = _ -> _ => destruct l
           end;
      try discriminate;
      try (intros [= <-]; now apply Hfin);
      try (intros H; apply Hfin;
           first [exact (scored_assign _ _ _ H H0) | exact (scored_assign_all _ _ _ H H0)]).
    intros H. destruct (scored_try_all _ _ _ H H0 S0) as [[Hw Hnd] Hs].
    split; [exact Hw | split; [exact Hnd |]]. intros _. exact Hs.
  - cbn [andb]. intros H. destruct (scored_try_all _ _ _ H H0 S0) as [[Hw Hnd] Hs].
    split; [exact Hw | split; [exact Hnd |]]. intros _. exact Hs.
Qed.

End WaitingEntries.

Lemma waiting_calculation_entries_witness :
  exists w,
    WinWaitCal.waiting_calculation [1; 2; 3; 4; 5; 6; 7; 7; 7; 8] [[31; 31; 31]] [] []
                                   false 27 27 false 0 [] 0 0 false = Ok w
    /\ (forall t v, In (t, v) w ->
          WinWaitCal.score_calculation [1; 2; 3; 4; 5; 6; 7; 7; 7; 8] t [[31; 31; 31]] [] []
                                       false 27 27 false 0 [] 0 0 false = Ok v)
    /\ List.NoDup (dict_keys w)
    /\ (Py.len [1; 2; 3; 4; 5; 6; 7; 7; 7; 8] <> 13 ->
        forall t v, In (t, v) w -> v <> None).
Proof.
  destruct (WinWaitCal.waiting_calculation [1; 2; 3; 4; 5; 6; 7; 7; 7; 8] [[31; 31; 31]]
              [] [] false 27 27 false 0 [] 0 0 false) as [w | e] eqn:E.
  - exists w. split; [reflexivity |].
    exact (waiting_calculation_entries _ _ _ _ _ _ _ _ _ _ _ _ _ w E).
  - vm_compute in E. discriminate.
Defined.

(** * A winning hand and its score *)

Lemma han_sums_nonneg (p : list (list Z)) (final_tile : Z)
      (melds minkan ankan : list (list Z)) (is_zimo : bool) (player_wind round_wind : Z)
      (reach : bool) (hd : HanCalculation.han_result) :
  HanCalculation.han_calculation p final_tile melds minkan ankan is_zimo
                                 player_wind round_wind reach = Ok hd ->
  0 <= HanCalculation.han_sum hd /\ 0 <= HanCalculation.yk_sum hd.
Proof.
  intros Hh. destruct (han_calculation_sums _ _ _ _ _ _ _ _ _ _ Hh) as [-> ->].
  destruct (bounds_han_calculation _ _ _ _ _ _ _ _ _ _ Hh) as [Hhan Hyk]. cbn in Hhan, Hyk.
  pose proof (dict_sum_between 1 6 _ Hhan) as B1.
  assert (Hyk' : forall k v, In (k, v) (HanCalculation.ykman hd) -> 1 <= v <= 1).
  { intros k v Hin. rewrite (Hyk k v Hin). lia. }
  pose proof (dict_sum_between 1 1 _ Hyk') as B2.
  assert (0 <= Py.len (HanCalculation.han hd)) by (unfold Py.len; lia).
  assert (0 <= Py.len (HanCalculation.ykman hd)) by (unfold Py.len; lia).
  lia.
Qed.

Section IsWinning.

Variables (self : PreProcessing.PlayerState) (final_tile : Z) (is_zimo : bool)
          (bonus_num : Z) (bonus_tiles : list Z) (benchan reach_stick : Z)
          (is_dealer : bool).

Local Abbreviation han_of p :=
  (HanCalculation.han_calculation p final_tile (PreProcessing.s_meld34 self)
     (PreProcessing.s_minkan self) (PreProcessing.s_ankan self) is_zimo
     (PreProcessing.s_player_wind self) (PreProcessing.s_round_wind self)
     (PreProcessing.s_reach self)).

Local Abbreviation candidate_of p :=
  (WinWaitCal.candidate final_tile (PreProcessing.s_meld34 self)
     (PreProcessing.s_minkan self) (PreProcessing.s_ankan self) is_zimo
     (PreProcessing.s_player_wind self) (PreProcessing.s_round_wind self)
     (PreProcessing.s_reach self) bonus_num bonus_tiles benchan reach_stick is_dealer p).

Local Abbreviation loop_of ps best :=
  (WinWaitCal.loop final_tile (PreProcessing.s_meld34 self)
     (PreProcessing.s_minkan self) (PreProcessing.s_ankan self) is_zimo
     (PreProcessing.s_player_wind self) (PreProcessing.s_round_wind self)
     (PreProcessing.s_reach self) bonus_num bonus_tiles benchan reach_stick is_dealer
     ps best).

Lemma candidate_runs_han (p : list (list Z)) (c : option WinWaitCal.score_result) :
  candidate_of p = Ok c -> exists hd, han_of p = Ok hd.
Proof.
  unfold WinWaitCal.candidate.
  destruct (han_of p) as [hd | e]; cbn; [intros _; now exists hd | discriminate].
Qed.

Lemma loop_runs_han (ps : list (list (list Z))) :
  forall best best',
    loop_of ps best = Ok best' -> forall p, In p ps -> exists hd, han_of p = Ok hd.
Proof.
  induction ps as [| q ps IH]; intros best best' Hl p Hin; [destruct Hin |].
  cbn [WinWaitCal.loop] in Hl. unfold WinWaitCal.step in Hl.
  destruct (candidate_of q) as [c | e] eqn:Hc; cbn in Hl; [| discriminate].
  destruct Hin as [<- | Hin]; [exact (candidate_runs_han _ _ Hc) |].
  destruct c as [r |].
  - destruct (WinWaitCal.score r >? fst best); cbn in Hl; exact (IH _ _ Hl p Hin).
  - cbn in Hl. exact (IH _ _ Hl p Hin).
Qed.

(** [is_winning] says no exactly when every decomposition goes through
    [han_calculation] with both sums 0 *)
Lemma is_winning_loop_false (ps : list (list (list Z))) :
  PreProcessing.is_winning_loop self final_tile is_zimo ps = Ok false
  <-> forall p, In p ps ->
        exists hd, han_of p = Ok hd
                   /\ HanCalculation.han_sum hd = 0 /\ HanCalculation.yk_sum hd = 0.
Proof.
  induction ps as [| q ps IH]; cbn [PreProcessing.is_winning_loop].
  - split; [intros _ p [] | reflexivity].
  - destruct (han_of q) as [hd | e] eqn:Hq; cbn.
    + destruct (han_sums_nonneg _ _ _ _ _ _ _ _ _ _ Hq) as [N1 N2].
      destruct ((HanCalculation.han_sum hd >? 0) || (HanCalculation.yk_sum hd >? 0)) eqn:E.
      * split; [discriminate |]. intros H.
        destruct (H q (or_introl eq_refl)) as (hd' & Hq' & S1 & S2).
        rewrite Hq in Hq'. injection Hq' as <-. rewrite S1, S2 in E. discriminate.
      * rewrite IH. apply orb_false_iff in E as [E1 E2].
        rewrite Z.gtb_ltb in E1, E2. apply Z.ltb_ge in E1, E2.
        split.
        -- intros H p [<- | Hin]; [| now apply H].
           exists hd. repeat split; [exact Hq | lia | lia].
        -- intros H p Hin. apply H. now right.
    + split; [discriminate |]. intros H.
      destruct (H q (or_introl eq_refl)) as (hd' & Hq' & _).
      rewrite Hq in Hq'. discriminate.
Qed.

Lemma is_winning_loop_runs (ps : list (list (list Z))) :
  (forall p, In p ps -> exists hd, han_of p = Ok hd) ->
  exists b, PreProcessing.is_winning_loop self final_tile is_zimo ps = Ok b.
Proof.
  induction ps as [| q ps IH]; intros Hall; cbn [PreProcessing.is_winning_loop].
  - now exists false.
  - destruct (Hall q (or_introl eq_refl)) as (hd & ->). cbn.
    destruct (_ || _); [now exists true |].
    apply IH. intros p Hin. apply Hall. now right.
Qed.

Lemma not_winning_all_skipped (ps : list (list (list Z))) :
  PreProcessing.is_winning_loop self final_tile is_zimo ps = Ok false ->
  forall p, In p ps -> candidate_of p = Ok None.
Proof.
  intros Hf p Hin. rewrite is_winning_loop_false in Hf.
  destruct (Hf p Hin) as (hd & Hh & S1 & S2).
  apply (candidate_skipped _ _ _ _ _ _ _ _ _ _ _ _ _ p hd Hh). now split.
Qed.

(** X19: [PlayerState.is_winning] and [score_calculation] on the state's
    hand, melds, winds and riichi flag: when [is_winning] returns False,
    [score_calculation] returns None; when [score_calculation] returns a
    result, [is_winning] returns True. *)
Theorem is_winning_before_score :
  (PreProcessing.is_winning self final_tile is_zimo = Ok false ->
   WinWaitCal.score_calculation (PreProcessing.s_hand34 self) final_tile
     (PreProcessing.s_meld34 self) (PreProcessing.s_minkan self)
     (PreProcessing.s_ankan self) is_zimo (PreProcessing.s_player_wind self)
     (PreProcessing.s_round_wind self) (PreProcessing.s_reach self)
     bonus_num bonus_tiles benchan reach_stick is_dealer = Ok None)
  /\ (forall r,
        WinWaitCal.score_calculation (PreProcessing.s_hand34 self) final_tile
          (PreProcessing.s_meld34 self) (PreProcessing.s_minkan self)
          (PreProcessing.s_ankan self) is_zimo (PreProcessing.s_player_wind self)
          (PreProcessing.s_round_wind self) (PreProcessing.s_reach self)
          bonus_num bonus_tiles benchan reach_stick is_dealer = Ok (Some r) ->
        PreProcessing.is_winning self final_tile is_zimo = Ok true).
Proof.
  unfold PreProcessing.is_winning, WinWaitCal.score_calculation, WinWaitCal.score_partitions.
  set (ps := WinParse.win_parse (PreProcessing.s_hand34 self) final_tile).
  assert (Hskip : PreProcessing.is_winning_loop self final_tile is_zimo ps = Ok false ->
                  loop_of ps (0, @None WinWaitCal.score_result) = Ok (0, None)).
  { intros Hf. apply loop_all_skipped. now apply not_winning_all_skipped. }
  split.
  - intros Hf. destruct (Py.len ps =? 0); [reflexivity |].
    rewrite (Hskip Hf). reflexivity.
  - intros r. destruct (Py.len ps =? 0); [discriminate |].
    destruct (loop_of ps (0, @None WinWaitCal.score_result)) as [best | e] eqn:Hl; cbn;
      [| discriminate].
    destruct (is_winning_loop_runs ps (loop_runs_han _ _ _ Hl)) as [[|] Hb];
      [intros _; exact Hb |].
    assert (best = (0, None)) as -> by (specialize (Hskip Hb); congruence).
    cbn. discriminate.
Qed.

End IsWinning.

(** * The hands [win_parse] accepts *)

Lemma insert_sorted_In (x y : Z) (l : list Z) :
  In y (Py.insert_sorted x l) -> y = x \/ In y l.
Proof.
  induction l as [| z l IH]; simpl.
  - intros [<- | []]. now left.
  - destruct (x <=? z); simpl.
    + intros [<- | H]; auto.
    + intros [<- | H]; [auto |]. destruct (IH H); auto.
Qed.

Lemma nondecreasing_insert (x : Z) (l : list Z) :
  nondecreasing l -> nondecreasing (Py.insert_sorted x l).
Proof.
  induction 1 as [| z l Hz Hl IH]; simpl.
  - constructor; [intros y [] | constructor].
  - destruct (x <=? z) eqn:E; zbool.
    + constructor; [| now constructor].
      intros y [<- | Hy]; [lia |]. specialize (Hz y Hy). lia.
    + constructor; [| exact IH].
      intros y Hy. apply insert_sorted_In in Hy as [-> | Hy]; [lia | now apply Hz].
Qed.

Lemma nondecreasing_sort (l : list Z) : nondecreasing (Py.sort l).
Proof.
  unfold Py.sort. induction l as [| x l IH]; simpl;
    [constructor | now apply nondecreasing_insert].
Qed.

Lemma nondecreasing_filter (f : Z -> bool) (l : list Z) :
  nondecreasing l -> nondecreasing (List.filter f l).
Proof.
  induction 1 as [| z l Hz Hl IH]; simpl; [constructor |].
  destruct (f z); [| exact IH].
  constructor; [| exact IH]. intros y Hy. apply filter_In in Hy as [Hy _]. now apply Hz.
Qed.

Lemma remove_In (x y : Z) (l : list Z) : In y (Py.remove x l) -> In y l.
Proof.
  induction l as [| z l IH]; simpl; [auto |].
  destruct (x =? z); [auto |]. intros [<- | H]; auto.
Qed.

Lemma nondecreasing_remove (x : Z) (l : list Z) :
  nondecreasing l -> nondecreasing (Py.remove x l).
Proof.
  induction 1 as [| z l Hz Hl IH]; simpl; [constructor |].
  destruct (x =? z); [exact Hl |].
  constructor; [| exact IH]. intros y Hy. apply Hz. exact (remove_In _ _ _ Hy).
Qed.

Lemma nondecreasing_second (t0 t1 : Z) (l : list Z) :
  nondecreasing (t0 :: t1 :: l) -> In t0 (t1 :: l) -> t1 = t0.
Proof.
  intros Hs Hin. inversion Hs as [| ? ? H0 Hs']; subst.
  inversion Hs' as [| ? ? H1 _]; subst.
  specialize (H0 t1 (or_introl eq_refl)).
  destruct Hin as [-> | Hin]; [reflexivity |]. specialize (H1 t0 Hin). lia.
Qed.

Lemma nondecreasing_tail (t0 : Z) (l : list Z) :
  nondecreasing (t0 :: l) -> nondecreasing l.
Proof. intros Hs. now inversion Hs. Qed.

Lemma remove_perm_inv (x : Z) (l l' : list Z) :
  Permutation l (x :: l') -> Permutation (Py.remove x l) l'.
Proof.
  intros Hp. apply (Permutation_cons_inv (a := x)).
  etransitivity; [apply remove_Permutation | exact Hp].
  apply (Permutation_in x (Permutation_sym Hp)). now left.
Qed.

(** the shapes of the groups *)
Lemma hand_group_shape (g : list Z) :
  hand_group g ->
  (exists a, g = [a; a] /\ is_pair g = true)
  \/ (exists a, g = [a; a; a] /\ is_pair g = false)
  \/ (exists a, g = [a; a + 1; a + 2] /\ is_pair g = false).
Proof.
  intros [H | [H | H]].
  - left. destruct g as [| a [| b [| c g]]]; try discriminate.
    cbn in H. zbool. subst. eexists. split; [reflexivity | cbn; apply Z.eqb_refl].
  - right. left. destruct g as [| a [| b [| c [| d g]]]]; try discriminate.
    cbn in H. zbool. subst. eexists. split; reflexivity.
  - right. right. destruct g as [| a [| b [| c [| d g]]]]; try discriminate.
    cbn in H. zbool. subst. exists a. split; reflexivity.
Qed.

Lemma count_groups_app (f : list Z -> bool) (a b : list (list Z)) :
  count_groups f (a ++ b) = count_groups f a + count_groups f b.
Proof.
  unfold count_groups. rewrite List.filter_app, List.length_app. lia.
Qed.

(** the tiles of pairs and sets: three a group, but two for a pair *)
Lemma groups_length (gs : list (list Z)) :
  List.Forall hand_group gs ->
  Py.len (concat gs) = 3 * Py.len gs - count_groups is_pair gs.
Proof.
  induction 1 as [| g gs Hg Hgs IH].
  - reflexivity.
  - rewrite count_groups_cons. cbn [concat]. unfold Py.len in *.
    rewrite List.length_app. cbn [List.length].
    destruct (hand_group_shape g Hg) as [(a & -> & E) | [(a & -> & E) | (a & -> & E)]];
      rewrite E; cbn [List.length Py.b2z]; lia.
Qed.

Lemma groups_nil (gs : list (list Z)) :
  List.Forall hand_group gs -> Permutation [] (concat gs) -> gs = [].
Proof.
  intros Hk Hp. apply Permutation_nil in Hp.
  destruct gs as [| g gs]; [reflexivity |].
  apply List.Forall_cons_iff in Hk as [Hg _].
  destruct (hand_group_shape g Hg) as [(a & -> & _) | [(a & -> & _) | (a & -> & _)]];
    discriminate.
Qed.

(** the group of the lowest tile starts with it *)
Lemma lowest_group (t0 : Z) (tl : list Z) (gs : list (list Z)) :
  nondecreasing (t0 :: tl) ->
  Permutation (t0 :: tl) (concat gs) ->
  List.Forall hand_group gs ->
  exists g gs',
    Permutation (g :: gs') gs
    /\ Permutation (t0 :: tl) (g ++ concat gs')
    /\ List.Forall hand_group gs'
    /\ count_groups is_pair gs = Py.b2z (is_pair g) + count_groups is_pair gs'
    /\ ((g = [t0; t0] /\ is_pair g = true)
        \/ (g = [t0; t0; t0] /\ is_pair g = false)
        \/ (g = [t0; t0 + 1; t0 + 2] /\ is_pair g = false)).
Proof.
  intros Hs Hp Hk.
  assert (Hin : In t0 (concat gs)) by (apply (Permutation_in t0 Hp); now left).
  apply in_concat in Hin as (g & Hg & Ht0).
  apply in_split in Hg as (l1 & l2 & ->).
  assert (Hlow : forall a, In a g -> t0 <= a).
  { intros a Ha.
    assert (Hin : In a (t0 :: tl)).
    { apply (Permutation_in a (Permutation_sym Hp)).
      apply in_concat. exists g. split; [apply in_elt | exact Ha]. }
    inversion Hs as [| ? ? H0 _]; subst.
    destruct Hin as [<- | Hin]; [lia | now apply H0]. }
  exists g, (l1 ++ l2). split; [apply Permutation_middle |].
  split.
  { etransitivity; [exact Hp |].
    rewrite !concat_app. cbn [concat].
    rewrite app_assoc.
    etransitivity; [apply Permutation_app_tail, Permutation_app_comm |].
    rewrite <- app_assoc. reflexivity. }
  split.
  { apply List.Forall_app in Hk as [H1 H2]. apply List.Forall_cons_iff in H2 as [_ H2].
    apply List.Forall_app. now split. }
  split.
  { rewrite !count_groups_app, count_groups_cons. lia. }
  apply List.Forall_app in Hk as [_ Hk]. apply List.Forall_cons_iff in Hk as [Hg _].
  destruct (hand_group_shape g Hg) as [(a & -> & E) | [(a & -> & E) | (a & -> & E)]].
  - left. split; [| exact E].
    assert (a = t0) as -> by (cbn in Ht0; intuition lia). reflexivity.
  - right. left. split; [| exact E].
    assert (a = t0) as -> by (cbn in Ht0; intuition lia). reflexivity.
  - right. right. split; [| exact E].
    specialize (Hlow a (or_introl eq_refl)).
    assert (a = t0) as -> by (cbn in Ht0; intuition lia). reflexivity.
Qed.

Lemma branch_complete (rec : list Z -> option (list (list (list Z))))
      (group rest : list Z) (ps : list (list (list Z))) (p : list (list Z)) :
  rec rest = Some ps -> In p ps -> In (group :: p) (WinParse.branch rec true group rest).
Proof.
  intros Hrec Hp. unfold WinParse.branch. rewrite Hrec.
  destruct ps as [| q ps]; [destruct Hp |].
  cbn [WinParse.truthy WinParse.items]. apply in_map. exact Hp.
Qed.

Lemma nonempty_result {A} (res : list A) (q : A) :
  In q res -> (if Py.len res >? 0 then Some res else None) = Some res.
Proof.
  destruct res as [| x res]; [intros [] |]. intros _.
  replace (Py.len (x :: res) >? 0) with true; [reflexivity |].
  symmetry. rewrite Z.gtb_ltb. apply Z.ltb_lt. unfold Py.len. cbn [List.length]. lia.
Qed.

Lemma groups_empty (gs : list (list Z)) :
  List.Forall hand_group gs -> List.length (concat gs) = 0%nat -> gs = [].
Proof.
  intros Hk Hl. apply groups_nil; [exact Hk |].
  destruct (concat gs); [constructor | discriminate].
Qed.

Lemma parse_nums_rec_complete (fuel : nat) :
  forall tiles gs,
    (List.length tiles <= fuel)%nat ->
    nondecreasing tiles ->
    Permutation tiles (concat gs) ->
    List.Forall hand_group gs ->
    count_groups is_pair gs <= 1 ->
    exists ps p,
      WinParse.parse_nums_rec fuel tiles = Some ps /\ In p ps
      /\ Permutation (List.filter (fun m => Py.len m >? 0) p) gs.
Proof.
  assert (Hempty : forall fuel gs,
             Permutation [] (concat gs) -> List.Forall hand_group gs ->
             exists ps p,
               WinParse.parse_nums_rec fuel [] = Some ps /\ In p ps
               /\ Permutation (List.filter (fun m => Py.len m >? 0) p) gs).
  { intros f gs Hp Hk. rewrite (groups_nil gs Hk Hp), parse_nums_rec_0.
    exists [[[]]], [[]]. split; [reflexivity | split; [now left | constructor]]. }
  induction fuel as [| fuel IH]; intros tiles gs Hfuel Hs Hp Hk Hc.
  { destruct tiles; [now apply Hempty | cbn in Hfuel; lia]. }
  destruct tiles as [| t0 tl]; [now apply Hempty |].
  destruct (lowest_group t0 tl gs Hs Hp Hk)
    as (g & gs' & Hg & Hp' & Hk' & Hcnt & Hshape).
  pose proof (groups_length gs' Hk') as Hlen'.
  pose proof (count_groups_nonneg is_pair gs') as Hpos.
  unfold Py.len in Hlen'.
  destruct Hshape as [[-> E] | [[-> E] | [-> E]]]; rewrite E in Hcnt; cbn [Py.b2z] in Hcnt;
    cbn [app] in Hp'; apply Permutation_cons_inv in Hp'.
  - (* the lowest tile is in the pair *)
    destruct tl as [| t1 tl]; [apply Permutation_nil in Hp'; discriminate |].
    assert (t1 = t0) as ->.
    { apply (nondecreasing_second _ _ _ Hs).
      apply (Permutation_in t0 (Permutation_sym Hp')). now left. }
    apply Permutation_cons_inv in Hp'.
    pose proof (Permutation_length Hp') as HL.
    destruct tl as [| c [| d [| e rest]]]; cbn [List.length] in HL; try lia.
    + rewrite (groups_empty gs' Hk' (eq_sym HL)) in Hg.
      rewrite parse_nums_rec_2, Z.eqb_refl.
      exists [[[t0; t0]]], [[t0; t0]]. split; [reflexivity | split; [now left | exact Hg]].
    + rewrite parse_nums_rec_long. cbv zeta.
      assert (Hn : Py.len (t0 :: t0 :: c :: d :: e :: rest) mod 3 = 2).
      { unfold Py.len. cbn [List.length]. Z.to_euclidean_division_equations. lia. }
      rewrite Hn. cbn [Z.eqb Pos.eqb andb]. rewrite Z.eqb_refl. cbn [andb].
      destruct (IH (c :: d :: e :: rest) gs') as (ps' & p' & Hrec & Hin' & Hperm');
        [cbn [List.length] in *; lia
        | exact (nondecreasing_tail _ _ (nondecreasing_tail _ _ Hs))
        | exact Hp' | exact Hk' | lia |].
      eexists. exists ([t0; t0] :: p').
      split; [apply (nonempty_result _ ([t0; t0] :: p')) | split].
      * apply in_or_app. left. exact (branch_complete _ _ _ _ _ Hrec Hin').
      * apply in_or_app. left. exact (branch_complete _ _ _ _ _ Hrec Hin').
      * cbn [List.filter]. change (Py.len [t0; t0] >? 0) with true. cbv iota.
        etransitivity; [apply perm_skip, Hperm' | exact Hg].
  - (* the lowest tile is in a triplet *)
    destruct tl as [| t1 tl]; [apply Permutation_nil in Hp'; discriminate |].
    assert (t1 = t0) as ->.
    { apply (nondecreasing_second _ _ _ Hs).
      apply (Permutation_in t0 (Permutation_sym Hp')). now left. }
    apply Permutation_cons_inv in Hp'.
    destruct tl as [| t2 tl]; [apply Permutation_nil in Hp'; discriminate |].
    assert (t2 = t0) as ->.
    { apply (nondecreasing_second _ _ _ (nondecreasing_tail _ _ Hs)).
      apply (Permutation_in t0 (Permutation_sym Hp')). now left. }
    apply Permutation_cons_inv in Hp'.
    pose proof (Permutation_length Hp') as HL.
    destruct tl as [| d rest]; cbn [List.length] in HL.
    + rewrite (groups_empty gs' Hk' (eq_sym HL)) in Hg.
      rewrite parse_nums_rec_3, !Z.eqb_refl. cbn [andb orb].
      exists [[[t0; t0; t0]]], [[t0; t0; t0]].
      split; [reflexivity | split; [now left | exact Hg]].
    + rewrite parse_nums_rec_long. cbv zeta.
      assert (Hn : Py.len (t0 :: t0 :: t0 :: d :: rest) mod 3 <> 1).
      { unfold Py.len. cbn [List.length]. Z.to_euclidean_division_equations. lia. }
      apply Z.eqb_neq in Hn. rewrite Hn. rewrite !Z.eqb_refl. cbn [andb].
      destruct (IH (d :: rest) gs') as (ps' & p' & Hrec & Hin' & Hperm');
        [cbn [List.length] in *; lia
        | exact (nondecreasing_tail _ _ (nondecreasing_tail _ _ (nondecreasing_tail _ _ Hs)))
        | exact Hp' | exact Hk' | lia |].
      eexists. exists ([t0; t0; t0] :: p').
      split; [apply (nonempty_result _ ([t0; t0; t0] :: p')) | split].
      * apply in_or_app. right. apply in_or_app. left.
        exact (branch_complete _ _ _ _ _ Hrec Hin').
      * apply in_or_app. right. apply in_or_app. left.
        exact (branch_complete _ _ _ _ _ Hrec Hin').
      * cbn [List.filter]. change (Py.len [t0; t0; t0] >? 0) with true. cbv iota.
        etransitivity; [apply perm_skip, Hperm' | exact Hg].
  - (* the lowest tile starts a run *)
    pose proof (Permutation_length Hp') as HL.
    destruct tl as [| t1 [| t2 tl]]; cbn [List.length] in HL; try lia.
    assert (Hin1 : In (t0 + 1) (t1 :: t2 :: tl))
      by (apply (Permutation_in _ (Permutation_sym Hp')); now left).
    assert (Hin2 : In (t0 + 2) (t1 :: t2 :: tl))
      by (apply (Permutation_in _ (Permutation_sym Hp')); right; now left).
    destruct tl as [| d rest]; cbn [List.length] in HL.
    + assert (Hnil : gs' = []) by (apply (groups_empty gs' Hk'); lia).
      subst gs'. cbn [concat] in Hp'.
      assert (t1 <= t2).
      { pose proof (nondecreasing_tail _ _ Hs) as Hs'.
        inversion Hs' as [| ? ? H1 _]; subst. apply H1. now left. }
      apply Permutation_length_2 in Hp' as [[-> ->] | [-> ->]]; [| lia].
      rewrite parse_nums_rec_3.
      replace ((t0 + 2 =? t0 + 1 + 1) && (t0 + 1 + 1 =? t0 + 2)) with true
        by (symmetry; apply andb_true_iff; split; apply Z.eqb_eq; lia).
      rewrite orb_true_r.
      exists [[[t0; t0 + 1; t0 + 2]]], [[t0; t0 + 1; t0 + 2]].
      split; [reflexivity | split; [now left | exact Hg]].
    + rewrite parse_nums_rec_long. cbv zeta.
      assert (Hn : Py.len (t0 :: t1 :: t2 :: d :: rest) mod 3 <> 1).
      { unfold Py.len. cbn [List.length]. Z.to_euclidean_division_equations. lia. }
      apply Z.eqb_neq in Hn. rewrite Hn.
      rewrite remove_head.
      replace (Py.mem (t0 + 1) (t0 :: t1 :: t2 :: d :: rest)) with true
        by (symmetry; apply Py_mem_In; now right).
      replace (Py.mem (t0 + 2) (t0 :: t1 :: t2 :: d :: rest)) with true
        by (symmetry; apply Py_mem_In; now right).
      cbn [andb].
      pose proof (remove_perm_inv _ _ _ Hp') as Hp1.
      pose proof (remove_perm_inv _ _ _ Hp1) as Hp2.
      pose proof (Permutation_length Hp2) as HL2.
      destruct (IH (Py.remove (t0 + 2) (Py.remove (t0 + 1) (t1 :: t2 :: d :: rest))) gs')
        as (ps' & p' & Hrec & Hin' & Hperm');
        [cbn [List.length] in *; lia
        | apply nondecreasing_remove, nondecreasing_remove;
          exact (nondecreasing_tail _ _ Hs)
        | exact Hp2 | exact Hk' | lia |].
      eexists. exists ([t0; t0 + 1; t0 + 2] :: p').
      split; [apply (nonempty_result _ ([t0; t0 + 1; t0 + 2] :: p')) | split].
      * apply in_or_app. right. apply in_or_app. right.
        exact (branch_complete _ _ _ _ _ Hrec Hin').
      * apply in_or_app. right. apply in_or_app. right.
        exact (branch_complete _ _ _ _ _ Hrec Hin').
      * cbn [List.filter]. change (Py.len [t0; t0 + 1; t0 + 2] >? 0) with true. cbv iota.
        etransitivity; [apply perm_skip, Hperm' | exact Hg].
Qed.

Lemma filter_perm {A} (f : A -> bool) (l l' : list A) :
  Permutation l l' -> Permutation (List.filter f l) (List.filter f l').
Proof.
  induction 1 as [| x l l' _ IH | x y l | l l' l'' _ IH1 _ IH2]; cbn [List.filter].
  - constructor.
  - destruct (f x); [now constructor | exact IH].
  - destruct (f x), (f y); try reflexivity. apply perm_swap.
  - etransitivity; eassumption.
Qed.

Lemma count_perm (v : Z) (l l' : list Z) :
  Permutation l l' -> Py.count v l = Py.count v l'.
Proof.
  intros Hp. unfold Py.count. f_equal. apply Permutation_length. now apply filter_perm.
Qed.

Lemma count_app (v : Z) (a b : list Z) : Py.count v (a ++ b) = Py.count v a + Py.count v b.
Proof. unfold Py.count. rewrite List.filter_app, List.length_app. lia. Qed.

Lemma count_nonneg (v : Z) (l : list Z) : 0 <= Py.count v l.
Proof. unfold Py.count. lia. Qed.

Lemma count_absent (v : Z) (l : list Z) : ~ In v l -> Py.count v l = 0.
Proof.
  intros Hn. unfold Py.count. induction l as [| x l IH]; [reflexivity |].
  cbn [List.filter]. destruct (v =? x) eqn:E; zbool.
  - subst. destruct Hn. now left.
  - apply IH. intros H. apply Hn. now right.
Qed.

(** a pair or a triplet: copies of its first tile *)
Lemma copies_shape (g : list Z) :
  is_pair g = true \/ is_triplet g = true ->
  let a := Py.idx g 0 in
  ((Py.len g = 2 /\ is_pair g = true) \/ (Py.len g = 3 /\ is_pair g = false))
  /\ Py.count a g = Py.len g
  /\ (forall v, v <> a -> Py.count v g = 0)
  /\ (forall v, In v g -> v = a)
  /\ Py.rep a (Py.len g) = g
  /\ In a g.
Proof.
  intros [H | H].
  - destruct g as [| a [| b [| c g]]]; try discriminate.
    cbn in H. zbool. subst b. cbn [Py.idx nth].
    split; [left; split; [reflexivity | cbn; apply Z.eqb_refl] |].
    split; [| split; [| split; [| split]]].
    + unfold Py.count. cbn [List.filter]. now rewrite Z.eqb_refl.
    + intros v Hv. unfold Py.count. cbn [List.filter].
      destruct (v =? a) eqn:E; zbool; [congruence | reflexivity].
    + intros v [<- | [<- | []]]; reflexivity.
    + reflexivity.
    + now left.
  - destruct g as [| a [| b [| c [| d g]]]]; try discriminate.
    cbn in H. zbool. subst b c. cbn [Py.idx nth].
    split; [right; split; reflexivity |].
    split; [| split; [| split; [| split]]].
    + unfold Py.count. cbn [List.filter]. now rewrite Z.eqb_refl.
    + intros v Hv. unfold Py.count. cbn [List.filter].
      destruct (v =? a) eqn:E; zbool; [congruence | reflexivity].
    + intros v [<- | [<- | [<- | []]]]; reflexivity.
    + reflexivity.
    + now left.
Qed.

Lemma count_concat_ge (v : Z) (g : list Z) (gs : list (list Z)) :
  In g gs -> Py.count v g <= Py.count v (concat gs).
Proof.
  induction gs as [| g0 gs IH]; [intros [] |].
  cbn [concat]. rewrite count_app.
  pose proof (count_nonneg v g0). pose proof (count_nonneg v (concat gs)).
  intros [-> | Hin]; [lia |]. specialize (IH Hin). lia.
Qed.

Lemma count_groups_In (f : list Z -> bool) (g : list Z) (gs : list (list Z)) :
  In g gs -> f g = true -> 1 <= count_groups f gs.
Proof.
  induction gs as [| g0 gs IH]; [intros [] |].
  rewrite count_groups_cons. pose proof (count_groups_nonneg f gs).
  intros [-> | Hin] Hf.
  - rewrite Hf. cbn [Py.b2z]. lia.
  - specialize (IH Hin Hf). destruct (f g0); cbn [Py.b2z]; lia.
Qed.

(** with at most four of a tile and at most one pair, no two groups of
    copies are of the same tile *)
Lemma copies_heads_NoDup (gs : list (list Z)) :
  List.Forall (fun g => is_pair g = true \/ is_triplet g = true) gs ->
  count_groups is_pair gs <= 1 ->
  (forall v, Py.count v (concat gs) <= 4) ->
  List.NoDup (map (fun g => Py.idx g 0) gs).
Proof.
  induction 1 as [| g gs Hg Hgs IH]; intros Hc H4; [constructor |].
  cbn [map]. rewrite count_groups_cons in Hc. pose proof (count_groups_nonneg is_pair gs).
  constructor.
  - intros Hin. apply in_map_iff in Hin as (g' & Hhead & Hg').
    rewrite List.Forall_forall in Hgs.
    destruct (copies_shape g Hg) as (Sg & Cg & _).
    destruct (copies_shape g' (Hgs g' Hg')) as (Sg' & Cg' & _).
    cbv zeta in *. rewrite Hhead in Cg'.
    specialize (H4 (Py.idx g 0)). cbn [concat] in H4. rewrite count_app, Cg in H4.
    pose proof (count_concat_ge (Py.idx g 0) g' gs Hg') as Hge. rewrite Cg' in Hge.
    assert (Hp' : is_pair g' = true -> 1 <= count_groups is_pair gs)
      by (apply (count_groups_In _ g' gs Hg')).
    destruct Sg as [[Lg Pg] | [Lg Pg]], Sg' as [[Lg' Pg'] | [Lg' Pg']];
      rewrite Pg in Hc; cbn [Py.b2z] in Hc; try lia.
    specialize (Hp' Pg'). lia.
  - apply IH.
    + destruct (is_pair g); cbn [Py.b2z] in Hc; lia.
    + intros v. specialize (H4 v). cbn [concat] in H4. rewrite count_app in H4.
      pose proof (count_nonneg v g). lia.
Qed.

Lemma copies_count (gs : list (list Z)) :
  List.Forall (fun g => is_pair g = true \/ is_triplet g = true) gs ->
  List.NoDup (map (fun g => Py.idx g 0) gs) ->
  forall g, In g gs -> Py.count (Py.idx g 0) (concat gs) = Py.len g.
Proof.
  induction 1 as [| g0 gs Hg0 Hgs IH]; intros Hnd g Hin; [destruct Hin |].
  cbn [map] in Hnd. apply List.NoDup_cons_iff in Hnd as [Hfresh Hnd].
  cbn [concat]. rewrite count_app.
  destruct (copies_shape g0 Hg0) as (_ & C0 & N0 & _). cbv zeta in *.
  destruct Hin as [-> | Hin].
  - rewrite C0, count_absent; [lia |].
    intros Hv. apply in_concat in Hv as (g' & Hg' & Hv).
    rewrite List.Forall_forall in Hgs.
    destruct (copies_shape g' (Hgs g' Hg')) as (_ & _ & _ & Hall & _). cbv zeta in Hall.
    apply Hfresh. apply in_map_iff. exists g'. split; [| exact Hg'].
    symmetry. now apply Hall.
  - rewrite N0, (IH Hnd g Hin); [lia |].
    intros Heq. apply Hfresh. rewrite <- Heq. apply in_map_iff. now exists g.
Qed.

Lemma parse_chrs_complete (tiles : list Z) (gs : list (list Z)) :
  Permutation tiles (concat gs) ->
  List.Forall (fun g => is_pair g = true \/ is_triplet g = true) gs ->
  count_groups is_pair gs <= 1 ->
  (forall t, In t tiles -> Py.count t tiles <= 4) ->
  exists q, WinParse.parse_chrs tiles = Some [q]
            /\ Permutation (List.filter (fun m => Py.len m >? 0) q) gs.
Proof.
  intros Hp Hk Hc H4.
  assert (Hk' : List.Forall hand_group gs).
  { eapply List.Forall_impl; [| exact Hk]. intros g [H | H]; [now left | right; now left]. }
  unfold WinParse.parse_chrs.
  destruct (Py.len tiles =? 0) eqn:E0; zbool.
  { exists []. split; [reflexivity |].
    destruct tiles; [| unfold Py.len in E0; cbn [List.length] in E0; lia].
    rewrite (groups_nil gs Hk' Hp). constructor. }
  assert (H4' : forall v, Py.count v (concat gs) <= 4).
  { intros v. rewrite <- (count_perm v _ _ Hp).
    destruct (in_dec Z.eq_dec v tiles) as [Hin | Hnin]; [now apply H4 |].
    rewrite (count_absent _ _ Hnin). lia. }
  pose proof (copies_heads_NoDup gs Hk Hc H4') as Hnd.
  pose proof (copies_count gs Hk Hnd) as Hcount.
  assert (Hheads : forall t, In t tiles <-> In t (map (fun g => Py.idx g 0) gs)).
  { intros t. rewrite List.Forall_forall in Hk. split.
    - intros Hin. apply (Permutation_in t Hp) in Hin.
      apply in_concat in Hin as (g & Hg & Ht).
      destruct (copies_shape g (Hk g Hg)) as (_ & _ & _ & Hall & _). cbv zeta in Hall.
      apply in_map_iff. exists g. split; [symmetry; now apply Hall | exact Hg].
    - intros Hin. apply in_map_iff in Hin as (g & <- & Hg).
      apply (Permutation_in _ (Permutation_sym Hp)).
      apply in_concat. exists g. split; [exact Hg |].
      now destruct (copies_shape g (Hk g Hg)) as (_ & _ & _ & _ & _ & Hhd). }
  assert (Hset : Permutation (Py.set tiles) (map (fun g => Py.idx g 0) gs)).
  { apply Permutation.NoDup_Permutation; [apply Py_set_NoDup | exact Hnd |].
    intros t. rewrite Py_set_In. apply Hheads. }
  assert (Hpart : Permutation
                    (map (fun t => Py.rep t (Py.count t tiles)) (Py.set tiles)) gs).
  { etransitivity; [apply Permutation_map, Hset |].
    rewrite map_map.
    rewrite (map_ext_in _ (fun g => g)); [rewrite map_id; reflexivity |].
    intros g Hg. rewrite (count_perm _ _ _ Hp), (Hcount g Hg).
    rewrite List.Forall_forall in Hk.
    now destruct (copies_shape g (Hk g Hg)) as (_ & _ & _ & _ & R & _). }
  pose proof (groups_length gs Hk') as Hlen.
  pose proof (count_groups_nonneg is_pair gs) as Hpos.
  assert (Hlt : Py.len tiles = Py.len (concat gs))
    by (unfold Py.len; now rewrite (Permutation_length Hp)).
  assert (Hlp : Py.len (map (fun t => Py.rep t (Py.count t tiles)) (Py.set tiles))
                = Py.len gs)
    by (unfold Py.len; now rewrite (Permutation_length Hpart)).
  replace (Py.len tiles mod 3 =? 1) with false
    by (symmetry; apply Z.eqb_neq; Z.to_euclidean_division_equations; lia).
  replace (existsb (fun t => Py.count t tiles =? 1) tiles) with false.
  2: { symmetry. apply not_true_is_false. intros Hex.
       apply existsb_exists in Hex as (t & Ht & E1). zbool.
       apply Hheads in Ht. apply in_map_iff in Ht as (g & <- & Hg).
       rewrite (count_perm _ _ _ Hp), (Hcount g Hg) in E1.
       rewrite List.Forall_forall in Hk.
       destruct (copies_shape g (Hk g Hg)) as ([[L _] | [L _]] & _); lia. }
  cbn [orb]. cbv zeta.
  replace (_ =? _) with true
    by (symmetry; apply Z.eqb_eq; rewrite Hlp; Z.to_euclidean_division_equations; lia).
  eexists. split; [reflexivity |].
  etransitivity; [apply filter_perm, Hpart |].
  rewrite List.forallb_filter_id; [reflexivity |].
  apply forallb_forall. intros g Hg. rewrite List.Forall_forall in Hk.
  destruct (copies_shape g (Hk g Hg)) as ([[L _] | [L _]] & _); rewrite L; reflexivity.
Qed.

Lemma filter_all {A} (f : A -> bool) (l : list A) :
  (forall x, In x l -> f x = true) -> List.filter f l = l.
Proof. intros H. apply List.forallb_filter_id. now apply forallb_forall. Qed.

Lemma filter_none {A} (f : A -> bool) (l : list A) :
  (forall x, In x l -> f x = false) -> List.filter f l = [].
Proof.
  induction l as [| x l IH]; intros H; [reflexivity |].
  cbn [List.filter]. rewrite (H x (or_introl eq_refl)).
  apply IH. intros y Hy. apply H. now right.
Qed.

(** the tiles of one suit are the tiles of the groups of that suit, when
    no group spans two suits *)
Lemma filter_concat_groups (f : Z -> bool) (gs : list (list Z)) :
  (forall g t, In g gs -> In t g -> f t = f (Py.idx g 0)) ->
  List.filter f (concat gs) = concat (groups_of f gs).
Proof.
  unfold groups_of. induction gs as [| g gs IH]; intros H; [reflexivity |].
  cbn [concat List.filter]. rewrite List.filter_app, IH
    by (intros g' t Hg'; apply H; now right).
  destruct (f (Py.idx g 0)) eqn:E.
  - cbn [concat]. rewrite filter_all; [reflexivity |].
    intros t Ht. rewrite (H g t (or_introl eq_refl) Ht). exact E.
  - rewrite filter_none; [reflexivity |].
    intros t Ht. rewrite (H g t (or_introl eq_refl) Ht). exact E.
Qed.

Lemma suit_run_shape (g : list Z) :
  suit_run g = true ->
  exists a, g = [a; a + 1; a + 2] /\ a < 27 /\ a mod 9 < 7.
Proof.
  unfold suit_run. intros H. zbool.
  destruct g as [| a [| b [| c [| d g]]]]; try discriminate.
  cbn in *. zbool. subst. exists a. auto.
Qed.

(** a pair, a triplet or a run of a suit lies in one suit *)
Lemma group_in_suit (g : list Z) (t : Z) :
  is_pair g = true \/ is_triplet g = true \/ suit_run g = true ->
  In t g ->
  (t <? 9) = (Py.idx g 0 <? 9)
  /\ ((9 <=? t) && (t <? 18)) = ((9 <=? Py.idx g 0) && (Py.idx g 0 <? 18))
  /\ ((18 <=? t) && (t <? 27)) = ((18 <=? Py.idx g 0) && (Py.idx g 0 <? 27))
  /\ (27 <=? t) = (27 <=? Py.idx g 0).
Proof.
  intros [H | [H | H]] Ht.
  1, 2: assert (Hc : is_pair g = true \/ is_triplet g = true) by tauto;
    destruct (copies_shape g Hc) as (_ & _ & _ & Hall & _);
    rewrite (Hall t Ht); auto.
  destruct (suit_run_shape g H) as (a & -> & Ha & Hm). cbn [Py.idx nth].
  assert (Hs : t = a \/ t = a + 1 \/ t = a + 2) by (cbn in Ht; intuition lia).
  clear Ht.
  repeat split.
  - destruct (t <? 9) eqn:E1, (a <? 9) eqn:E2; zbool; try reflexivity;
      exfalso; Z.to_euclidean_division_equations; lia.
  - destruct ((9 <=? t) && (t <? 18)) eqn:E1, ((9 <=? a) && (a <? 18)) eqn:E2;
      try reflexivity; exfalso;
      [apply andb_false_iff in E2 as [E2 | E2] | apply andb_false_iff in E1 as [E1 | E1]];
      zbool; Z.to_euclidean_division_equations; lia.
  - destruct ((18 <=? t) && (t <? 27)) eqn:E1, ((18 <=? a) && (a <? 27)) eqn:E2;
      try reflexivity; exfalso;
      [apply andb_false_iff in E2 as [E2 | E2] | apply andb_false_iff in E1 as [E1 | E1]];
      zbool; Z.to_euclidean_division_equations; lia.
  - destruct (27 <=? t) eqn:E1, (27 <=? a) eqn:E2; zbool; try reflexivity;
      exfalso; Z.to_euclidean_division_equations; lia.
Qed.

Lemma groups_split (gs : list (list Z)) :
  Permutation (groups_of (fun t => t <? 9) gs
               ++ groups_of (fun t => (9 <=? t) && (t <? 18)) gs
               ++ groups_of (fun t => (18 <=? t) && (t <? 27)) gs
               ++ groups_of (fun t => 27 <=? t) gs) gs.
Proof.
  unfold groups_of. induction gs as [| g gs IH]; cbn [List.filter]; [constructor |].
  set (t := Py.idx g 0).
  destruct (t <? 9) eqn:E1; destruct ((9 <=? t) && (t <? 18)) eqn:E2;
    destruct ((18 <=? t) && (t <? 27)) eqn:E3; destruct (27 <=? t) eqn:E4;
    zbool; try lia; cbn [app].
  - now constructor.
  - etransitivity; [symmetry; apply Permutation_middle | now constructor].
  - rewrite app_assoc.
    etransitivity; [symmetry; apply Permutation_middle |].
    rewrite <- app_assoc. now constructor.
  - rewrite 2!app_assoc.
    etransitivity; [symmetry; apply Permutation_middle |].
    rewrite <- 2!app_assoc. now constructor.
Qed.

Lemma count_groups_filter (f : list Z -> bool) (h : list Z -> bool) (gs : list (list Z)) :
  count_groups f (List.filter h gs) <= count_groups f gs.
Proof.
  induction gs as [| g gs IH]; cbn [List.filter]; [lia |].
  destruct (h g); rewrite ?count_groups_cons; destruct (f g); cbn [Py.b2z]; lia.
Qed.

Lemma count_filter_le (v : Z) (f : Z -> bool) (l : list Z) :
  Py.count v (List.filter f l) <= Py.count v l.
Proof.
  unfold Py.count. induction l as [| x l IH]; cbn [List.filter]; [lia |].
  destruct (f x); cbn [List.filter]; destruct (v =? x); cbn [List.length]; lia.
Qed.

Lemma sets_no_pair (sets : list (list Z)) :
  List.Forall (fun g => is_triplet g = true \/ suit_run g = true) sets ->
  count_groups is_pair sets = 0.
Proof.
  induction 1 as [| g gs Hg _ IH]; [reflexivity |].
  rewrite count_groups_cons, IH.
  destruct g as [| a [| b [| c g]]]; try reflexivity.
  destruct Hg as [Hg | Hg]; [discriminate |].
  apply suit_run_shape in Hg as (x & [=] & _).
Qed.

Lemma ONENINE_NoDup : List.NoDup Tile.ONENINE.
Proof.
  unfold Tile.ONENINE. repeat (constructor; [cbn; lia |]). constructor.
Qed.

(** pairs and sets of at most fourteen tiles are not thirteen orphans *)
Lemma sets_not_orphans (total pair : list Z) (sets : list (list Z)) :
  is_pair pair = true ->
  List.Forall (fun g => is_triplet g = true \/ suit_run g = true) sets ->
  Py.len sets <= 4 ->
  Permutation total (concat (pair :: sets)) ->
  WinParse.is_orphans total = false.
Proof.
  intros Hpair Hsets Hlen Hp. apply not_true_is_false. intros Ho.
  unfold WinParse.is_orphans in Ho. apply andb_true_iff in Ho as [Hall Honly].
  rewrite forallb_forall in Hall, Honly.
  assert (Hcopies : forall g, In g (pair :: sets) ->
                               is_pair g = true \/ is_triplet g = true).
  { intros g [<- | Hg]; [now left |].
    rewrite List.Forall_forall in Hsets. destruct (Hsets g Hg) as [H | H]; [now right |].
    exfalso. apply suit_run_shape in H as (a & -> & Ha & Hm).
    assert (Hin : In (a + 1) total).
    { apply (Permutation_in _ (Permutation_sym Hp)). apply in_concat.
      exists [a; a + 1; a + 2]. split; [now right | right; now left]. }
    apply Honly, Py_mem_In in Hin. unfold Tile.ONENINE in Hin. cbn [In] in Hin.
    Z.to_euclidean_division_equations. lia. }
  assert (Hincl : incl Tile.ONENINE (map (fun g => Py.idx g 0) (pair :: sets))).
  { intros t Ht. apply Hall, Py_mem_In in Ht.
    apply (Permutation_in t Hp), in_concat in Ht as (g & Hg & Ht).
    destruct (copies_shape g (Hcopies g Hg)) as (_ & _ & _ & Hhd & _). cbv zeta in Hhd.
    apply in_map_iff. exists g. split; [symmetry; now apply Hhd | exact Hg]. }
  apply (List.NoDup_incl_length ONENINE_NoDup) in Hincl.
  rewrite length_map in Hincl. unfold Py.len in Hlen. cbn [List.length] in Hincl.
  unfold Tile.ONENINE in Hincl. cbn [List.length] in Hincl. lia.
Qed.

Lemma truthy_In {A} (ps : list A) (p : A) : In p ps -> WinParse.truthy (Some ps) = true.
Proof. destruct ps; [intros [] | reflexivity]. Qed.

(** the parse of one number suit of a hand of a pair and sets *)
Lemma suit_parse (f : Z -> bool) (total : list Z) (gs : list (list Z)) :
  Permutation total (concat gs) ->
  (forall g t, In g gs -> In t g -> f t = f (Py.idx g 0)) ->
  List.Forall hand_group gs ->
  count_groups is_pair gs <= 1 ->
  exists ps p,
    WinParse.parse_nums (List.filter f (Py.sort total)) = Some ps /\ In p ps
    /\ Permutation (List.filter (fun m => Py.len m >? 0) p) (groups_of f gs).
Proof.
  intros Hp Hsuit Hk Hc. unfold WinParse.parse_nums.
  apply parse_nums_rec_complete.
  - apply le_n.
  - apply nondecreasing_filter, nondecreasing_sort.
  - rewrite <- (filter_concat_groups f gs Hsuit). apply filter_perm.
    etransitivity; [apply sort_perm | exact Hp].
  - unfold groups_of. rewrite List.Forall_forall in *.
    intros g Hg. apply filter_In in Hg as [Hg _]. now apply Hk.
  - unfold groups_of.
    pose proof (count_groups_filter is_pair (fun g => f (Py.idx g 0)) gs). lia.
Qed.

(** X20: a hand that, with the winning tile, is one pair and at most four
    sets - triplets, or runs inside a number suit - with no more than
    four of any tile, is parsed by [win_parse]: one of the decompositions
    returned is made of exactly that pair and those sets. *)
Theorem win_parse_complete (hand34 : list Z) (final_tile : Z) (pair : list Z)
        (sets : list (list Z)) :
  is_pair pair = true ->
  List.Forall (fun g => is_triplet g = true \/ suit_run g = true) sets ->
  Py.len sets <= 4 ->
  (forall t, In t (hand34 ++ [final_tile]) -> Py.count t (hand34 ++ [final_tile]) <= 4) ->
  Permutation (hand34 ++ [final_tile]) (concat (pair :: sets)) ->
  exists p, In p (WinParse.win_parse hand34 final_tile) /\ Permutation p (pair :: sets).
Proof.
  intros Hpair Hsets Hlen H4 Hp.
  unfold WinParse.win_parse. cbv zeta.
  set (total := hand34 ++ [final_tile]) in *.
  rewrite (sets_not_orphans total pair sets Hpair Hsets Hlen Hp).
  set (gs := pair :: sets) in *.
  assert (Hany : forall g, In g gs ->
                   is_pair g = true \/ is_triplet g = true \/ suit_run g = true).
  { intros g [<- | Hg]; [now left |]. right.
    rewrite List.Forall_forall in Hsets. now apply Hsets. }
  assert (Hk : List.Forall hand_group gs).
  { apply List.Forall_forall. intros g Hg.
    destruct (Hany g Hg) as [H | [H | H]]; [now left | right; now left | right; right].
    unfold suit_run in H. now zbool. }
  assert (Hc : count_groups is_pair gs <= 1).
  { subst gs. rewrite count_groups_cons, Hpair, (sets_no_pair sets Hsets).
    cbn [Py.b2z]. lia. }
  destruct (suit_parse (fun t => t <? 9) total gs Hp) as (psm & pm & Em & Hm & Pm);
    [intros g t Hg Ht; now destruct (group_in_suit g t (Hany g Hg) Ht) | exact Hk | exact Hc |].
  destruct (suit_parse (fun t => (9 <=? t) && (t <? 18)) total gs Hp)
    as (psp & pp & Ep & Hpp & Pp);
    [intros g t Hg Ht; now destruct (group_in_suit g t (Hany g Hg) Ht) as (_ & ? & _)
    | exact Hk | exact Hc |].
  destruct (suit_parse (fun t => (18 <=? t) && (t <? 27)) total gs Hp)
    as (pss & ps & Es & Hs & Ps);
    [intros g t Hg Ht; now destruct (group_in_suit g t (Hany g Hg) Ht) as (_ & _ & ? & _)
    | exact Hk | exact Hc |].
  destruct (parse_chrs_complete (WinParse.hand_chr (Py.sort total))
                                (groups_of (fun t => 27 <=? t) gs))
    as (q & Ec & Pc).
  { unfold WinParse.hand_chr. rewrite <- filter_concat_groups.
    - apply filter_perm. etransitivity; [apply sort_perm | exact Hp].
    - intros g t Hg Ht. now destruct (group_in_suit g t (Hany g Hg) Ht) as (_ & _ & _ & ?). }
  { unfold groups_of. apply List.Forall_forall. intros g Hg.
    apply filter_In in Hg as [Hg Hhead].
    destruct (Hany g Hg) as [H | [H | H]]; [now left | now right |].
    apply suit_run_shape in H as (a & -> & Ha & _). cbn [Py.idx nth] in Hhead. zbool. lia. }
  { unfold groups_of.
    pose proof (count_groups_filter is_pair (fun g => 27 <=? Py.idx g 0) gs). lia. }
  { intros t Ht. unfold WinParse.hand_chr in *.
    pose proof (count_filter_le t (fun t => 27 <=? t) (Py.sort total)) as Hle.
    rewrite (count_perm t _ _ (sort_perm total)) in Hle.
    apply filter_In in Ht as [Ht _]. apply (Permutation_in t (sort_perm total)) in Ht.
    specialize (H4 t Ht). lia. }
  unfold WinParse.assemble.
  change (List.filter (fun t => t <? 9) (Py.sort total))
    with (WinParse.hand_man (Py.sort total)) in Em.
  change (List.filter (fun t => (9 <=? t) && (t <? 18)) (Py.sort total))
    with (WinParse.hand_pin (Py.sort total)) in Ep.
  change (List.filter (fun t => (18 <=? t) && (t <? 27)) (Py.sort total))
    with (WinParse.hand_suo (Py.sort total)) in Es.
  rewrite Em, Ep, Es, Ec.
  rewrite (truthy_In psm pm Hm), (truthy_In psp pp Hpp), (truthy_In pss ps Hs).
  cbn [WinParse.truthy negb]. rewrite !andb_false_r.
  cbn [WinParse.items hd].
  exists (List.filter (fun m => Py.len m >? 0) (pm ++ pp ++ ps ++ q)). split.
  - apply in_or_app. right.
    apply in_flat_map. exists pm. split; [exact Hm |].
    apply in_flat_map. exists pp. split; [exact Hpp |].
    apply in_map_iff. exists ps. split; [reflexivity | exact Hs].
  - rewrite !List.filter_app.
    etransitivity; [| apply (groups_split gs)].
    repeat apply Permutation_app; assumption.
Qed.

Lemma win_parse_complete_witness :
  exists p,
    In p (WinParse.win_parse [0; 0; 1; 2; 3; 9; 10; 11; 18; 19; 20; 27; 27] 27)
    /\ Permutation p [[0; 0]; [1; 2; 3]; [9; 10; 11]; [18; 19; 20]; [27; 27; 27]].
Proof.
  apply (win_parse_complete [0; 0; 1; 2; 3; 9; 10; 11; 18; 19; 20; 27; 27] 27 [0; 0]
                            [[1; 2; 3]; [9; 10; 11]; [18; 19; 20]; [27; 27; 27]]).
  - reflexivity.
  - repeat (apply List.Forall_cons; [first [left; reflexivity | right; reflexivity] |]).
    constructor.
  - vm_compute. discriminate.
  - intros t Ht. simpl in Ht.
    repeat (destruct Ht as [<- | Ht]; [vm_compute; discriminate |]). destruct Ht.
  - reflexivity.
Defined.

(** * The range of the all-triplets shanten *)

Lemma count_filter_other (d d' : Z) (l : list Z) :
  d' <> d ->
  Py.count d' (List.filter (fun x => negb (x =? d)) l) = Py.count d' l.
Proof.
  intros Hne. unfold Py.count. f_equal.
  induction l as [| x l IH]; [reflexivity |].
  cbn [List.filter]. destruct (x =? d) eqn:E; zbool; cbn [negb List.filter].
  - subst x. replace (d' =? d) with false by (symmetry; now apply Z.eqb_neq). exact IH.
  - destruct (d' =? x); cbn [List.length]; now rewrite IH.
Qed.

Lemma count_split (d : Z) (l : list Z) :
  Py.len l = Py.count d l + Py.len (List.filter (fun x => negb (x =? d)) l).
Proof.
  unfold Py.len, Py.count. induction l as [| x l IH]; [reflexivity |].
  cbn [List.filter]. rewrite (Z.eqb_sym x d).
  destruct (d =? x); cbn [negb List.length]; lia.
Qed.

(** distinct tiles share the tiles of a list *)
Lemma count_sum_le (ds : list Z) :
  List.NoDup ds -> forall l, Py.sum (map (fun d => Py.count d l) ds) <= Py.len l.
Proof.
  induction 1 as [| d ds Hd Hnd IH]; intros l; cbn [map].
  - unfold Py.sum, Py.len. cbn. lia.
  - change (Py.sum (Py.count d l :: map (fun d => Py.count d l) ds))
      with (Py.count d l + Py.sum (map (fun d => Py.count d l) ds)).
    rewrite (count_split d l).
    specialize (IH (List.filter (fun x => negb (x =? d)) l)).
    rewrite (map_ext_in _ (fun d' => Py.count d' l)) in IH; [lia |].
    intros d' Hd'. apply count_filter_other. intros ->. now apply Hd.
Qed.

Lemma triplets_and_pairs_le (l ds : list Z) :
  3 * Py.len (List.filter (fun tile => Py.count tile l =? 3) ds)
  + 2 * Py.len (List.filter (fun tile => Py.count tile l =? 2) ds)
  <= Py.sum (map (fun d => Py.count d l) ds).
Proof.
  induction ds as [| d ds IH]; [unfold Py.sum, Py.len; cbn; lia |].
  cbn [map List.filter].
  change (Py.sum (Py.count d l :: map (fun d => Py.count d l) ds))
    with (Py.count d l + Py.sum (map (fun d => Py.count d l) ds)).
  pose proof (count_nonneg d l).
  destruct (Py.count d l =? 3) eqn:E3, (Py.count d l =? 2) eqn:E2; zbool;
    unfold Py.len in *; cbn [List.length]; lia.
Qed.

(** X21: for a hand of at most 14 tiles with its called melds, none of
    them a run, the all-triplets shanten lies between -1 and 8 less two
    per called meld; it is -1 exactly when the called melds and the tiles
    held three times make four sets and some tile is held twice. *)
Theorem shantin_no_sequences_range (tiles34 : list Z) (called_melds : list (list Z)) :
  (forall m, In m called_melds -> 1 < Py.len m -> Py.idx m 0 = Py.idx m 1) ->
  Py.len tiles34 + 3 * Py.len called_melds <= 14 ->
  let held n := List.filter (fun tile => Py.count tile tiles34 =? n) (Py.set tiles34) in
  let v := Partition.shantin_no_sequences tiles34 called_melds in
  -1 <= v <= 8 - 2 * Py.len called_melds
  /\ (v = -1 <-> Py.len called_melds + Py.len (held 3) = 4 /\ 0 < Py.len (held 2)).
Proof.
  intros Hmelds Hsize. cbv zeta. unfold Partition.shantin_no_sequences.
  replace (existsb _ called_melds) with false.
  2: { symmetry. apply not_true_is_false. intros Hex.
       apply existsb_exists in Hex as (m & Hm & E). zbool.
       specialize (Hmelds m Hm). lia. }
  cbv zeta.
  pose proof (triplets_and_pairs_le tiles34 (Py.set tiles34)) as Hle.
  pose proof (count_sum_le (Py.set tiles34) (Py_set_NoDup tiles34) tiles34) as Hsum.
  set (k := Py.len (List.filter (fun tile => Py.count tile tiles34 =? 3) (Py.set tiles34))) in *.
  set (np := Py.len (List.filter (fun tile => Py.count tile tiles34 =? 2) (Py.set tiles34))) in *.
  assert (0 <= k) by (subst k; unfold Py.len; lia).
  assert (0 <= np) by (subst np; unfold Py.len; lia).
  assert (0 <= Py.len called_melds) by (unfold Py.len; lia).
  destruct (np >=? 4 - Py.len called_melds - k + 1) eqn:E; zbool; lia.
Qed.

Lemma shantin_no_sequences_range_witness :
  let tiles34 := [0; 0; 0; 9; 9; 9; 27; 27] in
  let melds := [[31; 31; 31]; [5; 5; 5]] in
  let held n := List.filter (fun tile => Py.count tile tiles34 =? n) (Py.set tiles34) in
  let v := Partition.shantin_no_sequences tiles34 melds in
  -1 <= v <= 8 - 2 * Py.len melds
  /\ (v = -1 <-> Py.len melds + Py.len (held 3) = 4 /\ 0 < Py.len (held 2)).
Proof.
  apply (shantin_no_sequences_range [0; 0; 0; 9; 9; 9; 27; 27] [[31; 31; 31]; [5; 5; 5]]).
  - intros m Hm _. simpl in Hm. destruct Hm as [<- | [<- | []]]; reflexivity.
  - vm_compute. discriminate.
Defined.

(** * The shanten of all forms at once *)

Lemma min_of_map {A} (f : A -> Z) (l : list A) :
  l <> [] -> exists m, Py.min (map f l) = Some m.
Proof. intros Hne. apply Py_min_nonempty. destruct l; [congruence | discriminate]. Qed.

Lemma _shantin_pure_color_total (tiles34 : list Z) (called_melds : list (list Z))
      (partitions : list (list (list Z))) :
  (forall m, In m called_melds -> m <> []) ->
  (forall p m, In p partitions -> In m p -> m <> []) ->
  partitions <> [] ->
  exists c, Partition._shantin_pure_color tiles34 called_melds partitions = Some c.
Proof.
  intros Hfull Hgroups Hne. unfold Partition._shantin_pure_color.
  rewrite (no_empty_meld _ Hfull), (no_empty_group _ Hgroups). cbv zeta.
  destruct (_ && _); [eauto |].
  match goal with
  | |- context [mbind _ ?q] => destruct q as [qh_type |] eqn:Eq
  end.
  2: { destruct (_ || _); discriminate. }
  cbn [mbind option_bind].
  destruct (Py.len qh_type =? 0) eqn:E0; [eauto |].
  assert (Hq : qh_type <> []) by (intros ->; discriminate).
  destruct (mapM (fun p => Py.min (map (Partition.shantin_n_qh called_melds p) qh_type))
                 partitions) as [per |] eqn:Em.
  - cbn [mbind option_bind]. apply Py_min_nonempty. intros ->.
    apply length_mapM in Em. destruct partitions; [congruence | discriminate].
  - exfalso. assert (Hs : is_Some (mapM (fun p => Py.min (map (Partition.shantin_n_qh
                                           called_melds p) qh_type)) partitions)).
    { apply mapM_is_Some_2. apply Forall_forall. intros p _.
      destruct (min_of_map (Partition.shantin_n_qh called_melds p) qh_type Hq) as [m Hm].
      cbn. rewrite Hm. eauto. }
    rewrite Em in Hs. destruct Hs as [? [=]].
Qed.

Section MultipleForms.

Variables (h : Store.heap) (tiles34 called_melds bonus_chrs : Store.loc).
Variables (tiles : list Z) (melds : list (list Z)) (chrs : list Z).

Hypothesis Htiles : h !! tiles34 = Some (Store.Tiles tiles).
Hypothesis Hmelds : holds_groups h called_melds melds.
Hypothesis Hchrs : h !! bonus_chrs = Some (Store.Tiles chrs).

(** X22: on any hand, called melds and bonus tiles in the store,
    the melds not empty, [shantin_multiple_forms] raises nothing and
    returns six entries, and
    each entry is what the function of that form returns on the same
    lists; the lists of the caller are in the store as before. *)
Theorem shantin_multiple_forms_entries :
  (forall m, In m melds -> m <> []) ->
  exists n t n19 c,
    Partition.shantin_normal tiles melds = Some n
    /\ Partition.shantin_no_triplets tiles melds chrs = Some t
    /\ Partition.shantin_no_19 tiles melds = Some n19
    /\ Partition.shantin_pure_color tiles melds = Some c
    /\ refines h (Store.shantin_multiple_forms tiles34 called_melds bonus_chrs)
               (Ok [(Store.Normal, n); (Store.NoTriplets, t); (Store.No19, n19);
                    (Store.NoSequences, Partition.shantin_no_sequences tiles melds);
                    (Store.SevenPairs, Partition.shantin_seven_pairs tiles melds);
                    (Store.PureColor, c)]).
Proof.
  intros Hfull.
  destruct (partition_total tiles) as (parts & Hparts & Hne).
  destruct (min_of_map (Partition.shantin_n (Py.len melds)) parts Hne) as [n Hn].
  assert (exists t, Partition._shantin_pinhu parts (Py.len melds) chrs = Some t) as [t Ht].
  { unfold Partition._shantin_pinhu. destruct (negb _); [eauto |]. now apply min_of_map. }
  assert (exists n19, Partition._shantin_no19 parts melds = Some n19) as [n19 Hn19].
  { unfold Partition._shantin_no19. destruct (existsb _ melds); [eauto |].
    rewrite (no_empty_group _ (partition_groups_nonempty tiles parts Hparts)).
    now apply min_of_map. }
  destruct (_shantin_pure_color_total tiles melds parts Hfull
              (partition_groups_nonempty tiles parts Hparts) Hne) as [c Hc].
  exists n, t, n19, c.
  unfold Partition.shantin_normal, Partition.shantin_no_triplets, Partition.shantin_no_19,
    Partition.shantin_pure_color.
  rewrite Hparts. cbn [mbind option_bind].
  repeat (split; [assumption |]).
  unfold Store.shantin_multiple_forms.
  apply (refines_bind_ok h _ _ parts).
  { pose proof (refines_partition tiles34 tiles h Htiles) as R. now rewrite Hparts in R. }
  intros h1 S1.
  assert (Hmelds1 : holds_groups h1 called_melds melds)
    by (eapply holds_groups_weaken; eassumption).
  assert (Htiles1 : h1 !! tiles34 = Some (Store.Tiles tiles))
    by (eapply lookup_weaken; eassumption).
  apply (refines_bind_load_groups h1 _ melds); [exact Hmelds1 |].
  apply (refines_bind_ok h1 _ _ n).
  { pose proof (refines_lift_opt h1 (Partition._shantin_normal parts (Py.len melds))) as R.
    unfold Partition._shantin_normal in R at 2. now rewrite Hn in R. }
  intros h2 S2.
  apply (refines_bind_load h2 _ chrs);
    [eapply lookup_weaken; [exact Hchrs | etransitivity; eassumption] |].
  apply (refines_bind_ok h2 _ _ t).
  { pose proof (refines_lift_opt h2 (Partition._shantin_pinhu parts (Py.len melds) chrs)) as R.
    now rewrite Ht in R at 2. }
  intros h3 S3.
  apply (refines_bind_ok h3 _ _ n19).
  { pose proof (refines_lift_opt h3 (Partition._shantin_no19 parts melds)) as R.
    now rewrite Hn19 in R at 2. }
  intros h4 S4.
  assert (S14 : h1 ⊆ h4) by (etransitivity; [exact S2 |]; etransitivity; eassumption).
  apply (refines_bind_ok h4 _ _ (Partition.shantin_no_sequences tiles melds)).
  { apply refines_shantin_no_sequences;
      [eapply lookup_weaken; eassumption | eapply holds_groups_weaken; eassumption]. }
  intros h5 S5.
  apply (refines_bind_ok h5 _ _ (Partition.shantin_seven_pairs tiles melds)).
  { apply refines_shantin_seven_pairs;
      [eapply lookup_weaken; [exact Htiles1 | etransitivity; eassumption]
      | eapply holds_groups_weaken; [| exact Hmelds1]; etransitivity; eassumption]. }
  intros h6 S6.
  assert (S16 : h1 ⊆ h6) by (etransitivity; [exact S14 |]; etransitivity; eassumption).
  apply (refines_bind_load h6 _ tiles); [eapply lookup_weaken; eassumption |].
  apply (refines_bind_ok h6 _ _ c).
  { pose proof (refines_lift_opt h6 (Partition._shantin_pure_color tiles melds parts)) as R.
    now rewrite Hc in R at 2. }
  intros h7 S7. apply refines_ret.
Qed.

End MultipleForms.

Lemma shantin_multiple_forms_entries_witness :
  let h : Store.heap :=
      <[1%positive := Store.Tiles [0; 1; 2; 4; 4; 9; 10; 12; 18; 18]]>
        (<[2%positive := Store.Groups [3%positive]]>
           (<[3%positive := Store.Tiles [27; 27; 27]]>
              (<[4%positive := Store.Tiles [27; 31]]> ∅))) in
  let tiles := [0; 1; 2; 4; 4; 9; 10; 12; 18; 18] in
  let melds := [[27; 27; 27]] in
  exists n t n19 c,
    Partition.shantin_normal tiles melds = Some n
    /\ Partition.shantin_no_triplets tiles melds [27; 31] = Some t
    /\ Partition.shantin_no_19 tiles melds = Some n19
    /\ Partition.shantin_pure_color tiles melds = Some c
    /\ refines h (Store.shantin_multiple_forms 1%positive 2%positive 4%positive)
               (Ok [(Store.Normal, n); (Store.NoTriplets, t); (Store.No19, n19);
                    (Store.NoSequences, Partition.shantin_no_sequences tiles melds);
                    (Store.SevenPairs, Partition.shantin_seven_pairs tiles melds);
                    (Store.PureColor, c)]).
Proof.
  cbv zeta. apply shantin_multiple_forms_entries.
  - reflexivity.
  - exists [3%positive]. split; [reflexivity |]. constructor; [reflexivity | constructor].
  - reflexivity.
  - intros m [<- | []]. discriminate.
Defined.

(** * The range of the no-triplets shanten *)

(** what one group adds to the counters of [geo_vec_pinhu]: no counter
    goes down, and the group pays for what it adds - one tile for a
    single, two for a pair or a partial, three for a set *)
Lemma geo_step_pinhu_weight (bonus_chrs : list Z) (a0 a1 a2 a3 a4 a5 : Z) (m : list Z) :
  exists b0 b1 b2 b3 b4 b5,
    Partition.geo_step_pinhu bonus_chrs [a0; a1; a2; a3; a4; a5] m = [b0; b1; b2; b3; b4; b5]
    /\ a0 <= b0 /\ a1 <= b1 /\ a2 <= b2 /\ a3 <= b3 /\ a4 <= b4 /\ a5 <= b5
    /\ (b0 - a0) + 2 * ((b1 - a1) + (b2 - a2) + (b3 - a3)) + 3 * ((b4 - a4) + (b5 - a5))
       <= Py.len m.
Proof.
  destruct (incre_at a0 a1 a2 a3 a4 a5) as (I0 & I1 & I2 & I3 & I4 & I5).
  unfold Partition.geo_step_pinhu, Partition.and_incre, Partition.gap. cbv zeta.
  destruct m as [| x [| y [| z [| w m]]]]; unfold Py.len; cbn [List.length Py.idx nth].
  - cbn. repeat eexists; lia.
  - change (Z.of_nat 1 =? 1) with true. change (Z.of_nat 1 =? 2) with false.
    change (Z.of_nat 1 =? 3) with false. cbn [andb]. rewrite I0.
    repeat eexists; lia.
  - change (Z.of_nat 2 =? 1) with false. change (Z.of_nat 2 =? 2) with true.
    change (Z.of_nat 2 =? 3) with false. cbn [andb].
    destruct (Z.abs (x - y) =? 0) eqn:G0; [| destruct (Z.abs (x - y) =? 1) eqn:G1;
      [| destruct (Z.abs (x - y) =? 2) eqn:G2]]; zbool.
    + replace (Z.abs (x - y) =? 1) with false by (symmetry; apply Z.eqb_neq; lia).
      replace (Z.abs (x - y) =? 2) with false by (symmetry; apply Z.eqb_neq; lia).
      destruct (negb (Py.mem x bonus_chrs)); cbn [andb]; rewrite ?I3;
        repeat eexists; lia.
    + replace (Z.abs (x - y) =? 2) with false by (symmetry; apply Z.eqb_neq; lia).
      cbn [andb]. destruct ((x mod 9 >? 0) && (y mod 9 <? 8)); rewrite ?I1, ?I2;
        repeat eexists; lia.
    + cbn [andb]. rewrite I1. repeat eexists; lia.
    + cbn [andb]. repeat eexists; lia.
  - change (Z.of_nat 3 =? 1) with false. change (Z.of_nat 3 =? 2) with false.
    change (Z.of_nat 3 =? 3) with true. cbn [andb].
    destruct (x =? y); rewrite ?I4, ?I5; repeat eexists; lia.
  - replace (Z.of_nat (S (S (S (S (List.length m))))) =? 1) with false
      by (symmetry; apply Z.eqb_neq; lia).
    replace (Z.of_nat (S (S (S (S (List.length m))))) =? 2) with false
      by (symmetry; apply Z.eqb_neq; lia).
    replace (Z.of_nat (S (S (S (S (List.length m))))) =? 3) with false
      by (symmetry; apply Z.eqb_neq; lia).
    cbn [andb]. repeat eexists; lia.
Qed.

Lemma geo_vec_pinhu_weight (bonus_chrs : list Z) (p : list (list Z)) :
  forall a0 a1 a2 a3 a4 a5,
  exists b0 b1 b2 b3 b4 b5,
    fold_left (Partition.geo_step_pinhu bonus_chrs) p [a0; a1; a2; a3; a4; a5]
    = [b0; b1; b2; b3; b4; b5]
    /\ a0 <= b0 /\ a1 <= b1 /\ a2 <= b2 /\ a3 <= b3 /\ a4 <= b4 /\ a5 <= b5
    /\ (b0 - a0) + 2 * ((b1 - a1) + (b2 - a2) + (b3 - a3)) + 3 * ((b4 - a4) + (b5 - a5))
       <= Py.len (concat p).
Proof.
  induction p as [| m p IH]; intros a0 a1 a2 a3 a4 a5.
  - exists a0, a1, a2, a3, a4, a5. split; [reflexivity |].
    unfold Py.len. cbn [concat List.length]. lia.
  - cbn [fold_left concat].
    destruct (geo_step_pinhu_weight bonus_chrs a0 a1 a2 a3 a4 a5 m)
      as (c0 & c1 & c2 & c3 & c4 & c5 & -> & ? & ? & ? & ? & ? & ? & ?).
    destruct (IH c0 c1 c2 c3 c4 c5)
      as (b0 & b1 & b2 & b3 & b4 & b5 & -> & ? & ? & ? & ? & ? & ? & ?).
    exists b0, b1, b2, b3, b4, b5. split; [reflexivity |].
    unfold Py.len in *. rewrite List.length_app. lia.
Qed.

Lemma shantin_ph_range (bonus_chrs : list Z) (p : list (list Z)) :
  Py.len (concat p) <= 14 -> 0 <= Partition.shantin_ph bonus_chrs p <= 8.
Proof.
  intros Hlen. unfold Partition.shantin_ph, Partition.geo_vec_pinhu, Partition.geo0.
  destruct (geo_vec_pinhu_weight bonus_chrs p 0 0 0 0 0 0)
    as (b0 & b1 & b2 & b3 & b4 & b5 & -> & ? & ? & ? & ? & ? & ? & ?).
  cbv zeta. unfold Partition.g. cbn [nth].
  destruct (b1 + b2 >=? 4 - b4) eqn:E; destruct (b3 =? 0) eqn:E3;
    destruct (b2 =? 0) eqn:E2; zbool; cbn [Py.b2z]; lia.
Qed.

(** X23: with no meld called and a hand of at most 14 tiles, the
    no-triplets shanten lies between 0 and 8; in particular it is never
    -1, whatever the hand. *)
Theorem shantin_no_triplets_range (tiles34 bonus_chrs : list Z) :
  (forall t, In t tiles34 -> 0 <= t <= 33) ->
  Py.len tiles34 <= 14 ->
  exists v, Partition.shantin_no_triplets tiles34 [] bonus_chrs = Some v /\ 0 <= v <= 8.
Proof.
  intros Hrange Hlen.
  destruct (partition_total tiles34) as [parts [Hparts Hne]].
  unfold Partition.shantin_no_triplets, Partition._shantin_pinhu. rewrite Hparts. cbn.
  destruct (Py_min_nonempty (map (Partition.shantin_ph bonus_chrs) parts)) as [v Hv].
  { destruct parts; [congruence | discriminate]. }
  exists v. split; [exact Hv |].
  apply Py_min_spec in Hv as [Hin _]. apply in_map_iff in Hin as (p & <- & Hp).
  apply shantin_ph_range.
  pose proof (Permutation_length (partition_flatten _ _ _ Hrange Hparts Hp)) as Hl.
  unfold Py.len in *. lia.
Qed.

Lemma shantin_no_triplets_range_witness :
  exists v,
    Partition.shantin_no_triplets [1; 2; 3; 4; 5; 6; 10; 11; 12; 20; 21; 22; 25; 25] [] [27]
    = Some v /\ 0 <= v <= 8.
Proof.
  apply (shantin_no_triplets_range [1; 2; 3; 4; 5; 6; 10; 11; 12; 20; 21; 22; 25; 25] [27]).
  - intros t Ht. simpl in Ht. repeat (destruct Ht as [<- | Ht]; [lia |]). destruct Ht.
  - vm_compute. discriminate.
Defined.

(** * The standard shanten against the restricted forms *)

Ltac split_ifs :=
  repeat match goal with
         | |- context [if ?c then _ else _] => destruct c eqn:?
         end.

Lemma geo_below_shape (v' v : list Z) :
  geo_below v' v ->
  exists b0 b1 b2 b3 b4 b5 a0 a1 a2 a3 a4 a5,
    v' = [b0; b1; b2; b3; b4; b5] /\ v = [a0; a1; a2; a3; a4; a5].
Proof.
  intros H.
  destruct v' as [| b0 [| b1 [| b2 [| b3 [| b4 [| b5 [| ? ?]]]]]]];
    try (exfalso; exact H).
  destruct v as [| a0 [| a1 [| a2 [| a3 [| a4 [| a5 [| ? ?]]]]]]];
    try (exfalso; exact H).
  repeat eexists.
Qed.

Lemma geo_step_no19_below (v' v : list Z) (m : list Z) :
  geo_below v' v ->
  geo_below (Partition.geo_step_no19 v' m) (Partition.geo_step_normal v m).
Proof.
  intros H.
  destruct (geo_below_shape v' v H)
    as (b0 & b1 & b2 & b3 & b4 & b5 & a0 & a1 & a2 & a3 & a4 & a5 & -> & ->).
  rewrite geo_step_normal_shape.
  unfold Partition.geo_step_no19, Partition.and_incre, Partition.gap. cbv zeta.
  unfold geo_below in H.
  destruct m as [| x [| y [| z [| w m]]]]; unfold Py.len; cbn [List.length Py.idx nth].
  - change (Z.of_nat 0 =? 1) with false. change (Z.of_nat 0 =? 2) with false.
    change (Z.of_nat 0 =? 3) with false. cbn [andb].
    split_ifs; cbn; lia.
  - change (Z.of_nat 1 =? 1) with true. change (Z.of_nat 1 =? 2) with false.
    change (Z.of_nat 1 =? 3) with false. cbn [andb].
    split_ifs; cbn; lia.
  - change (Z.of_nat 2 =? 1) with false. change (Z.of_nat 2 =? 2) with true.
    change (Z.of_nat 2 =? 3) with false. cbn [andb].
    destruct (Z.abs (x - y) =? 0) eqn:G0; [| destruct (Z.abs (x - y) =? 1) eqn:G1;
      [| destruct (Z.abs (x - y) =? 2) eqn:G2]]; zbool.
    + replace (Z.abs (x - y) =? 1) with false by (symmetry; apply Z.eqb_neq; lia).
      replace (Z.abs (x - y) =? 2) with false by (symmetry; apply Z.eqb_neq; lia).
      cbn [andb]. split_ifs; cbn; lia.
    + replace (Z.abs (x - y) =? 2) with false by (symmetry; apply Z.eqb_neq; lia).
      cbn [andb].
      destruct (x mod 9 >? 1) eqn:C1, (y mod 9 <? 7) eqn:C2, (x mod 9 =? 1) eqn:C3,
        (y mod 9 =? 7) eqn:C4; zbool; try lia; cbn [andb orb];
        split_ifs; cbn; lia.
    + cbn [andb]. split_ifs; cbn; lia.
    + cbn [andb]. split_ifs; cbn; lia.
  - change (Z.of_nat 3 =? 1) with false. change (Z.of_nat 3 =? 2) with false.
    change (Z.of_nat 3 =? 3) with true. cbn [andb].
    destruct (x =? y) eqn:E; cbn [andb negb]; split_ifs; cbn; lia.
  - replace (Z.of_nat (S (S (S (S (List.length m))))) =? 1) with false
      by (symmetry; apply Z.eqb_neq; lia).
    replace (Z.of_nat (S (S (S (S (List.length m))))) =? 2) with false
      by (symmetry; apply Z.eqb_neq; lia).
    replace (Z.of_nat (S (S (S (S (List.length m))))) =? 3) with false
      by (symmetry; apply Z.eqb_neq; lia).
    cbn [andb]. split_ifs; cbn; lia.
Qed.

Lemma geo_step_pinhu_below (bonus_chrs : list Z) (v' v : list Z) (m : list Z) :
  geo_below v' v ->
  geo_below (Partition.geo_step_pinhu bonus_chrs v' m) (Partition.geo_step_normal v m).
Proof.
  intros H.
  destruct (geo_below_shape v' v H)
    as (b0 & b1 & b2 & b3 & b4 & b5 & a0 & a1 & a2 & a3 & a4 & a5 & -> & ->).
  rewrite geo_step_normal_shape.
  unfold Partition.geo_step_pinhu, Partition.and_incre, Partition.gap. cbv zeta.
  unfold geo_below in H.
  destruct m as [| x [| y [| z [| w m]]]]; unfold Py.len; cbn [List.length Py.idx nth].
  - change (Z.of_nat 0 =? 1) with false. change (Z.of_nat 0 =? 2) with false.
    change (Z.of_nat 0 =? 3) with false. cbn [andb].
    split_ifs; cbn; lia.
  - change (Z.of_nat 1 =? 1) with true. change (Z.of_nat 1 =? 2) with false.
    change (Z.of_nat 1 =? 3) with false. cbn [andb].
    split_ifs; cbn; lia.
  - change (Z.of_nat 2 =? 1) with false. change (Z.of_nat 2 =? 2) with true.
    change (Z.of_nat 2 =? 3) with false. cbn [andb].
    destruct (Z.abs (x - y) =? 0) eqn:G0; [| destruct (Z.abs (x - y) =? 1) eqn:G1;
      [| destruct (Z.abs (x - y) =? 2) eqn:G2]]; zbool.
    + replace (Z.abs (x - y) =? 1) with false by (symmetry; apply Z.eqb_neq; lia).
      replace (Z.abs (x - y) =? 2) with false by (symmetry; apply Z.eqb_neq; lia).
      cbn [andb]. split_ifs; cbn; lia.
    + replace (Z.abs (x - y) =? 2) with false by (symmetry; apply Z.eqb_neq; lia).
      cbn [andb]. destruct ((x mod 9 >? 0) && (y mod 9 <? 8)); cbn; lia.
    + cbn [andb]. split_ifs; cbn; lia.
    + cbn [andb]. split_ifs; cbn; lia.
  - change (Z.of_nat 3 =? 1) with false. change (Z.of_nat 3 =? 2) with false.
    change (Z.of_nat 3 =? 3) with true. cbn [andb].
    destruct (x =? y) eqn:E; cbn; lia.
  - replace (Z.of_nat (S (S (S (S (List.length m))))) =? 1) with false
      by (symmetry; apply Z.eqb_neq; lia).
    replace (Z.of_nat (S (S (S (S (List.length m))))) =? 2) with false
      by (symmetry; apply Z.eqb_neq; lia).
    replace (Z.of_nat (S (S (S (S (List.length m))))) =? 3) with false
      by (symmetry; apply Z.eqb_neq; lia).
    cbn [andb]. cbn. lia.
Qed.

Lemma geo_below_fold (f : list Z -> list Z -> list Z) (p : list (list Z)) :
  (forall v' v m, geo_below v' v -> geo_below (f v' m) (Partition.geo_step_normal v m)) ->
  forall v' v,
    geo_below v' v ->
    geo_below (fold_left f p v') (fold_left Partition.geo_step_normal p v).
Proof.
  intros Hstep. induction p as [| m p IH]; intros v' v H; [exact H |].
  cbn [fold_left]. apply IH. now apply Hstep.
Qed.

Lemma geo_below_zero : geo_below Partition.geo0 Partition.geo0.
Proof. unfold Partition.geo0. cbn. lia. Qed.

Lemma shantin_n_le_no19 (called_melds : list (list Z)) (p : list (list Z)) :
  Partition.shantin_n (Py.len called_melds) p <= Partition.shantin_no19 called_melds p
  /\ Partition.shantin_n (Py.len called_melds) p <= 8.
Proof.
  pose proof (geo_below_fold Partition.geo_step_no19 p geo_step_no19_below _ _
                             geo_below_zero) as H.
  unfold Partition.shantin_n, Partition.shantin_no19, Partition.geo_vec_normal,
    Partition.geo_vec_no19. cbv zeta.
  destruct (geo_below_shape _ _ H)
    as (b0 & b1 & b2 & b3 & b4 & b5 & a0 & a1 & a2 & a3 & a4 & a5 & E' & E).
  rewrite E', E in *. unfold geo_below in H. unfold Partition.g. cbn [nth].
  assert (0 <= Py.len called_melds) by (unfold Py.len; lia).
  unfold Py.b2z. split; split_ifs; zbool; lia.
Qed.

Lemma shantin_n_le_ph (bonus_chrs : list Z) (p : list (list Z)) :
  Partition.shantin_n 0 p <= Partition.shantin_ph bonus_chrs p.
Proof.
  pose proof (geo_below_fold (Partition.geo_step_pinhu bonus_chrs) p
                             (geo_step_pinhu_below bonus_chrs) _ _ geo_below_zero) as H.
  unfold Partition.shantin_n, Partition.shantin_ph, Partition.geo_vec_normal,
    Partition.geo_vec_pinhu. cbv zeta.
  destruct (geo_below_shape _ _ H)
    as (b0 & b1 & b2 & b3 & b4 & b5 & a0 & a1 & a2 & a3 & a4 & a5 & E' & E).
  rewrite E', E in *. unfold geo_below in H. unfold Partition.g. cbn [nth].
  unfold Py.b2z. split_ifs; zbool; lia.
Qed.

(** X24: the standard form is the nearest one.  For every hand and
    called melds the three functions return, and the standard shanten is
    at most the no-triplets shanten and at most the no-terminals
    shanten. *)
Theorem shantin_normal_least (tiles34 : list Z) (called_melds : list (list Z))
        (bonus_chrs : list Z) :
  exists n t n19,
    Partition.shantin_normal tiles34 called_melds = Some n
    /\ Partition.shantin_no_triplets tiles34 called_melds bonus_chrs = Some t
    /\ Partition.shantin_no_19 tiles34 called_melds = Some n19
    /\ n <= t /\ n <= n19.
Proof.
  destruct (partition_total tiles34) as (parts & Hparts & Hne).
  unfold Partition.shantin_normal, Partition.shantin_no_triplets, Partition.shantin_no_19.
  rewrite Hparts. cbn [mbind option_bind].
  unfold Partition._shantin_normal, Partition._shantin_pinhu, Partition._shantin_no19.
  rewrite (no_empty_group _ (partition_groups_nonempty tiles34 parts Hparts)).
  destruct (Py_min_nonempty (map (Partition.shantin_n (Py.len called_melds)) parts))
    as [n Hn]; [destruct parts; [congruence | discriminate] |].
  rewrite Hn. pose proof (Py_min_spec _ _ Hn) as [Hin Hleast].
  apply in_map_iff in Hin as (p0 & E0 & Hp0).
  assert (H8 : n <= 8) by (rewrite <- E0; apply shantin_n_le_no19).
  assert (exists t, (if negb (Py.len called_melds =? 0) then Some 10
                     else Py.min (map (Partition.shantin_ph bonus_chrs) parts)) = Some t
                    /\ n <= t) as (t & -> & Ht).
  { destruct (Py.len called_melds =? 0) eqn:Ec; cbn [negb]; [| exists 10; split; [reflexivity | lia]].
    destruct (Py_min_nonempty (map (Partition.shantin_ph bonus_chrs) parts))
      as [t Ht]; [destruct parts; [congruence | discriminate] |].
    exists t. split; [exact Ht |].
    apply Py_min_spec in Ht as [Hin _]. apply in_map_iff in Hin as (p & <- & Hp).
    zbool. specialize (Hleast _ (in_map (Partition.shantin_n (Py.len called_melds)) _ _ Hp)).
    pose proof (shantin_n_le_ph bonus_chrs p) as Hle. rewrite Ec in Hleast. lia. }
  assert (exists n19,
             (if existsb (fun m => existsb (fun tile => Py.mem tile Tile.ONENINE) m)
                         called_melds
              then Some 10
              else Py.min (map (Partition.shantin_no19 called_melds) parts)) = Some n19
             /\ n <= n19) as (n19 & -> & Hn19).
  { destruct (existsb _ called_melds); [exists 10; split; [reflexivity | lia] |].
    destruct (Py_min_nonempty (map (Partition.shantin_no19 called_melds) parts))
      as [n19 H19]; [destruct parts; [congruence | discriminate] |].
    exists n19. split; [exact H19 |].
    apply Py_min_spec in H19 as [Hin _]. apply in_map_iff in Hin as (p & <- & Hp).
    specialize (Hleast _ (in_map (Partition.shantin_n (Py.len called_melds)) _ _ Hp)).
    pose proof (proj1 (shantin_n_le_no19 called_melds p)). lia. }
  exists n, t, n19. auto.
Qed.
